(* ===== verification/_CoqProject ===== *)
-Q . S2P
Prelude.v
Utf8.v
TextClean.v
Image.v
RateLimit.v
Sha256.v
HttpBuffer.v
Disk.v
Tokens.v
CJson.v
History.v
HistoryFacts.v
HistoryJson.v
Session.v
SessionFacts.v
SessionLoad.v
SessionRun.v
Registry.v
Tools.v
ToolsInv.v
ToolsFacts.v
ToolsPolicy.v
ToolsSpec.v
ToolsTheorems.v
ToolsRun.v
Files.v
Stream.v
StreamFacts.v
StreamCalls.v
Provider.v
ProviderOpenai.v
Canonical.v
CanonicalCalls.v
CanonicalFacts.v
ProviderAnthropic.v
AnthropicFacts.v
AnthropicRequests.v
AnthropicReplies.v
AnthropicRun.v
ProviderResponses.v
ResponsesFacts.v
ResponsesReplies.v
ResponsesRun.v
Requests.v
AgentState.v
Agent.v
AgentBooks.v
AgentInv.v
AgentFacts.v
AgentRun.v
ToolsTurn.v
