(* ===== verification/Prelude.v ===== *)
(** * A verification of the clm agent engine

    clm is a coding agent in C: a library that talks to a language model on
    behalf of a frontend, runs the tools the model asks for and keeps the
    conversation. This development models the library's own logic, proves
    what makes it correct and shows, on concrete runs, where it is not.

    ** The program and its parts

    A frontend (the TUI of [src/src/], Lua of [src/libclmlua/], or the
    firmware of [src/esp32/]) hands a prompt to the agent
    ([src/libclm/agent.c]). The turn machine adds it to the history
    ([history.c]), uploads the images a provider wants uploaded ([files.c]),
    builds a request and translates it into a provider's dialect
    ([provider_openai.c], [provider_anthropic.c], [provider_responses.c]),
    waits for the rate limiter ([ratelimit.c]) and posts through a host, an
    interface of callbacks ([clm/host.h]; [src/libclmuv/] has the one for
    libuv). The streamed answer comes back in pieces: bytes to lines, lines
    to events, events to deltas. When the answer has tool calls the tool
    engine ([tools.c]) runs them, through hooks and the permission gate, and
    its results (cleaned by [text_clean.c], cut to a budget, images read by
    [image.c]) go into the history, from which the next request is made; when
    it has none, the turn is over and the frontend is told. Long histories
    are compacted; a session store ([src/libclmsession/]) writes all of it to
    disk and reads it back.

    ** The files, from the bottom

    - [Prelude]: errno values, machine integers, bytes, C strings, checked
      reads, list lemmas, tactics and the hint database [clm].
    - [CJson]: the JSON library the program links with, as an interface:
      class [CJson] has the operations, class [CJsonLaws] what its
      documentation promises, and an instance shows that the laws can hold.
      Every client is proved against the two classes. Parsing and printing
      are arguments of the definitions that use them.
    - [Utf8]: [utf8_seq], [utf8_repair] ([history.c]), [find_binary_offset],
      [utf8_floor] ([tools.c]), against RFC 3629. [TextClean]:
      [text_clean.c], with its buffer edited in place. [Image]: [image.c],
      every read checked. [RateLimit]: [ratelimit.c]. [Sha256]:
      [src/libclmsession/sha256.c], against FIPS 180-4. [HttpBuffer]:
      [src/libclmuv/http_response_buffer.c] and the write callback of
      [http_async.c]. [Tokens]: the output budget of [tools.c]
      ([cut_output] and below).
    - [History], [HistoryFacts], [HistoryJson]: [history.c], its theorems and
      its JSON forms. The TAILQ is a list and a pointer into it a position.
    - [Disk], [Session], [SessionFacts], [SessionLoad], [SessionRun]: the
      session store, over a disk of names, inodes and bytes of which some are
      synced. A system call is a step of a state monad whose outcome (done, an
      errno, short) the environment chooses; a triple [hoare] speaks about
      every disk on the way, since the machine can stop anywhere.
    - [Registry]: the tools an agent knows, nodes with pins and a memory that
      can be freed. [Tools], [ToolsInv], [ToolsFacts], [ToolsPolicy],
      [ToolsSpec], [ToolsTheorems], [ToolsRun]: the dispatch of tool calls of
      [tools.c] as a machine with an explicit stack.
    - [Files]: [files.c] and the upload loop of [clm_agent_start_turn].
    - [Stream], [StreamFacts], [StreamCalls]: the streamed answer
      ([agent.c], "SSE streaming parser"); class [Provider] is the seam at
      which a dialect translates its events.
    - [Provider], [ProviderOpenai], [ProviderAnthropic], [AnthropicFacts],
      [AnthropicRequests], [AnthropicReplies], [AnthropicRun]: [llm.c],
      [provider.c] and the dialects; class [ProviderOps] is
      [struct clm_provider_ops].
    - [Requests]: what else a request is made of: prompt parts, tool schemas,
      the response chain, the compaction prompt.
    - [AgentState], [Agent], [AgentBooks], [AgentInv], [AgentFacts],
      [AgentRun]: the turn machine of [agent.c].
    - [ToolsTurn]: the tool engine keeps the law the turn machine is proved
      against.

    ** How state and operations correspond

    A C function is a definition of its name; a record is a struct with the
    C field names, less what no modelled function reads; an enumeration has
    the C constructors. Integers are in Z, wrapped or bounded where the width
    matters ([wrap64], [is_u32]). A [char *] is a list of bytes, [c_str] cuts
    it at the first NUL, NULL is [None].

    Code that is called back while it runs has its C stack made explicit.
    In [Tools] and in [Agent] a function takes a world and gives a world and
    the frames that remain to run; the frame [FCallback] stands for code
    outside the library, and while it is on top, or when the stack is empty
    (the event loop), a [choice] of that code may be any call of the API. So
    a theorem about every reachable configuration is one about every frontend
    and every interleaving the code allows. The clock, the outcomes of the
    host and what a policy answers are oracles, arguments of each step.

    The engines meet at two interfaces. The turn machine sees the tool engine
    as the law [batch_law] of a finished batch; [ToolsTurn] proves that
    [Tools] keeps it. The stream parser sees a dialect as an instance of
    [Provider]; [ProviderAnthropic] gives one.

    ** What the theorems show

    - The turn machine ([AgentFacts]): it waits for exactly one thing at a
      time, reports each turn once, tells every notification it accepted,
      builds every request from a history whose calls are answered, leaves
      out of a chained request only what the server holds, bounds its rounds
      and its posts, ends its recoveries and stops when cancelled. One
      invariant ([AgentInv]) kept by every step carries them.
    - The tool engine ([ToolsTheorems], [ToolsRun]): no use after free, no
      lost or doubled call, no tool runs unless every hook and the permission
      policy let it, each call's events refine a small automaton, and the
      engine comes to rest in a linear number of steps.
    - The history: compaction and repair keep calls and results together.
      The session: what was recorded is read back; a rewrite is atomic under
      any failure or crash; no file but the session's is touched.
    - The dialects: a request says what the conversation says and satisfies
      the API's pairing rule, a reply read is the reply given, streaming or
      not, however it is cut.
    - The leaves: the token bucket does not overspend nor starve, UTF-8 and
      SHA-256 are those of their standards, base64 and multipart bodies read
      back, buffers stay in bounds.
    - Some theorems are about concrete runs that end badly
      ([AgentRun.refused_timer_strands_the_turn],
      [SessionRun.gc_of_an_unreadable_log_loses_images] and lemmas in
      [ToolsRun], [Tokens], [RateLimit]): they show what the code relies on.

    ** Fuel

    A loop that is not structural has a fuel its caller computes, and a
    theorem that it suffices. A scan of a buffer gets the buffer's length
    ([clean_loop], [refs_in], [jpeg_walk]: each turn moves on);
    [repair_from] gets the history's length; [upload_loop] needs two more
    than the images unsettled, which [Files] proves enough; writing
    ([full_write]) gets the bytes to write plus [patience], the number of
    interrupts the environment may send before the model gives up with
    EINTR, and no theorem needs it to be large: giving up is one more
    failure. The two machines need none, they are step relations.

    ** What is not modelled

    - Allocation failures, except where the JSON library or the response
      buffer says NULL; freeing, except of what can be used after it (tool
      nodes, calls, batches, gates). JSON numbers are integers.
    - The callbacks that only report (text, reasoning, usage, messages, tool
      output); only [cb_on_turn_done] may call back into the turn machine,
      and everything the tool engine calls may call back into it.
    - Settings are fixed during a run: those of the model, and what the
      probes of the server ([props.c], [models_list.c]) would set. One batch
      of tool calls is followed at a time. Request bodies end at their first
      NUL, as the C strings they are.
    - The host is asynchronous, as libuv's is; the ESP32 host answers from
      within [http_post], which is a callback right after it.
    - One process uses a session; permissions and mtimes are left out (a
      mtime that is read is an argument).
    - Outside the engine: the TUI, the Lua bindings and plugins, MCP and peer
      processes, the libuv host, the ESP32 port, command line completion and
      Markdown rendering. *)

From Stdlib Require Export ZArith Lia Bool List.
From Stdlib Require Export Strings.String Strings.Byte.
From Stdlib Require DecimalString.
From stdpp Require Export base list option.
From stdpp Require Import numbers.

Declare Scope clm_scope.
Delimit Scope clm_scope with clm.
#[global] Open Scope Z_scope.
#[global] Open Scope clm_scope.

(** ** Machine integers *)

Definition UINT64_MAX : Z := 18446744073709551615.
Definition UINT32_MAX : Z := 4294967295.
Definition UINT16_MAX : Z := 65535.

(** C's unsigned arithmetic is modulo a power of two. *)
Definition wrap64 (z : Z) : Z := z mod 18446744073709551616.
Definition wrap32 (z : Z) : Z := z mod 4294967296.

Definition is_u64 (z : Z) : Prop := 0 <= z <= UINT64_MAX.
Definition is_u32 (z : Z) : Prop := 0 <= z <= UINT32_MAX.

(** The [errno] values the code returns, negated. *)
Definition EPERM : Z := 1.
Definition EINTR : Z := 4.
Definition EIO : Z := 5.
Definition E2BIG : Z := 7.
Definition EAGAIN : Z := 11.
Definition ENOMEM : Z := 12.
Definition EACCES : Z := 13.
Definition EBUSY : Z := 16.
Definition EEXIST : Z := 17.
Definition ENOENT : Z := 2.
Definition EINVAL : Z := 22.
Definition EFBIG : Z := 27.
Definition ENOSPC : Z := 28.
Definition EOVERFLOW : Z := 75.
Definition ETIMEDOUT : Z := 110.
Definition EALREADY : Z := 114.
Definition ECANCELED : Z := 125.

Create HintDb clm discriminated.

Lemma wrap64_id z : is_u64 z -> wrap64 z = z.
Proof. unfold is_u64, wrap64, UINT64_MAX. intros. apply Z.mod_small. lia. Qed.

Lemma wrap32_id z : is_u32 z -> wrap32 z = z.
Proof. unfold is_u32, wrap32, UINT32_MAX. intros. apply Z.mod_small. lia. Qed.

Lemma wrap64_range z : is_u64 (wrap64 z).
Proof.
  unfold is_u64, wrap64, UINT64_MAX.
  pose proof (Z.mod_pos_bound z 18446744073709551616 ltac:(lia)). lia.
Qed.

Lemma wrap32_range z : is_u32 (wrap32 z).
Proof.
  unfold is_u32, wrap32, UINT32_MAX.
  pose proof (Z.mod_pos_bound z 4294967296 ltac:(lia)). lia.
Qed.

#[export] Hint Resolve wrap64_range wrap32_range : clm.

(** ** Tactics shared by the components *)

(** Split every boolean conjunction or comparison test of the context into
    its proposition, and then let [lia] close what is arithmetic. *)
Ltac bool_facts :=
  repeat match goal with
  | H : (_ && _) = true |- _ => apply andb_true_iff in H; destruct H
  | H : (_ || _) = false |- _ => apply orb_false_iff in H; destruct H
  | H : negb _ = true |- _ => apply negb_true_iff in H
  | H : negb _ = false |- _ => apply negb_false_iff in H
  | H : (_ <? _)%Z = true |- _ => apply Z.ltb_lt in H
  | H : (_ <? _)%Z = false |- _ => apply Z.ltb_ge in H
  | H : (_ <=? _)%Z = true |- _ => apply Z.leb_le in H
  | H : (_ <=? _)%Z = false |- _ => apply Z.leb_gt in H
  | H : (_ =? _)%Z = true |- _ => apply Z.eqb_eq in H
  | H : (_ =? _)%Z = false |- _ => apply Z.eqb_neq in H
  | H : (_ <? _)%nat = true |- _ => apply Nat.ltb_lt in H
  | H : (_ <? _)%nat = false |- _ => apply Nat.ltb_ge in H
  | H : (_ <=? _)%nat = true |- _ => apply Nat.leb_le in H
  | H : (_ <=? _)%nat = false |- _ => apply Nat.leb_gt in H
  | H : (_ =? _)%nat = true |- _ => apply Nat.eqb_eq in H
  | H : (_ =? _)%nat = false |- _ => apply Nat.eqb_neq in H
  end.

(** Case analysis on the test of the first conditional of the goal. *)
Ltac case_if :=
  match goal with
  | |- context [if ?b then _ else _] =>
      match type of b with
      | bool => let E := fresh "E" in destruct b eqn:E; bool_facts
      end
  end.

(** The same in a hypothesis. *)
Ltac case_if_in H :=
  match type of H with
  | context [if ?b then _ else _] =>
      match type of b with
      | bool => let E := fresh "E" in destruct b eqn:E; bool_facts
      end
  end.

Ltac case_ifs := repeat case_if.

(** Linear goals with divisions, and with shifts by constants. *)
Ltac euclid := Z.to_euclidean_division_equations; lia.

Ltac shl_lia := rewrite ?Z.shiftl_mul_pow2 by lia; lia.

(** ** Bytes and C strings *)

Abbreviation byte := Byte.byte.

(** The value of a byte, and C's conversion [(uint8_t)z]. *)
Definition b2z (b : byte) : Z := Z.of_N (Byte.to_N b).
Definition z2b (z : Z) : byte :=
  match Byte.of_N (Z.to_N (z mod 256)) with Some b => b | None => x00 end.

(** A C string literal, without its terminating NUL. A [char *] that is a
    string is the list of its bytes before the NUL, so [strlen] is [length]
    and [strcmp(a, b) == 0] is equality. *)
Definition bs (s : string) : list byte := list_byte_of_string s.
Arguments bs : simpl never.

(** Evaluate the lengths of the literals in the goal. *)
Ltac lit_lengths :=
  repeat match goal with
  | |- context [length (bs ?s)] =>
      let k := eval vm_compute in (length (bs s)) in change (length (bs s)) with k
  end.

(** [s[i]] of a buffer, as an unsigned char; 0 past the end, where a C string
    holds its NUL. *)
Definition rd (s : list byte) (i : nat) : Z := b2z (nth i s x00).

#[export] Instance byte_eq_dec : EqDecision byte.
Proof. intros x y. destruct (Byte.byte_eq_dec x y); [by left|by right]. Defined.

Definition beq (a b : list byte) : bool := bool_decide (a = b).

(** The C string at the start of a buffer: the bytes before its first NUL. *)
Fixpoint c_str (s : list byte) : list byte :=
  match s with
  | [] => []
  | b :: s' => if b2z b =? 0 then [] else b :: c_str s'
  end.

Definition b2n (b : bool) : nat := if b then 1%nat else 0%nat.

(** Length of an object in memory, as the integer the code compares. *)
Definition zlen {A} (l : list A) : Z := Z.of_nat (length l).

Lemma b2z_range b : 0 <= b2z b < 256.
Proof.
  unfold b2z. pose proof (Byte.to_N_bounded b). split; [lia|].
  change 256 with (Z.of_N 256). lia.
Qed.

Lemma b2z_z2b z : b2z (z2b z) = z mod 256.
Proof.
  unfold z2b, b2z. pose proof (Z.mod_pos_bound z 256 ltac:(lia)).
  destruct (Byte.of_N (Z.to_N (z mod 256))) as [b|] eqn:E.
  - apply Byte.to_of_N in E. rewrite E. lia.
  - apply Byte.of_N_None_iff in E. lia.
Qed.

Lemma b2z_inj a b : b2z a = b2z b -> a = b.
Proof.
  unfold b2z. intros H. apply N2Z.inj in H.
  pose proof (Byte.of_to_N a). pose proof (Byte.of_to_N b). congruence.
Qed.

Lemma z2b_b2z b : z2b (b2z b) = b.
Proof. apply b2z_inj. rewrite b2z_z2b. apply Z.mod_small, b2z_range. Qed.

Lemma z2b_eq z b : 0 <= z < 256 -> b2z b = z -> z2b z = b.
Proof. intros ? <-. apply z2b_b2z. Qed.

Lemma b2z_z2b_small z : 0 <= z < 256 -> b2z (z2b z) = z.
Proof. intros. rewrite b2z_z2b. by apply Z.mod_small. Qed.

(** A boolean fact about one byte is checked on all 256 of them. *)
Definition all_bytes : list byte := map (fun n => z2b (Z.of_nat n)) (seq 0 256).

Lemma all_bytes_in b : In b all_bytes.
Proof.
  apply in_map_iff. exists (Z.to_nat (b2z b)). pose proof (b2z_range b).
  rewrite Z2Nat.id by lia. split; [apply z2b_b2z|]. apply in_seq. lia.
Qed.

Lemma byte_forall `{EqDecision A} (f g : byte -> A) :
  forallb (fun b => bool_decide (f b = g b)) all_bytes = true ->
  forall b, f b = g b.
Proof.
  intros H b. rewrite forallb_forall in H.
  eapply bool_decide_eq_true, H, all_bytes_in.
Qed.

(** Prove an equation in the byte [b] by checking every byte. *)
Ltac by_all_bytes b :=
  revert b; apply byte_forall; vm_compute; reflexivity.

Lemma beq_eq a b : beq a b = true <-> a = b.
Proof. unfold beq. apply bool_decide_eq_true. Qed.

Lemma beq_refl a : beq a a = true.
Proof. by apply beq_eq. Qed.

Lemma beq_neq a b : beq a b = false <-> a <> b.
Proof. unfold beq. apply bool_decide_eq_false. Qed.

Lemma rd_range s i : 0 <= rd s i < 256.
Proof. apply b2z_range. Qed.

Lemma rd_app_l s t i : (i < length s)%nat -> rd (s ++ t) i = rd s i.
Proof. intros. unfold rd. by rewrite app_nth1. Qed.

Lemma rd_app_r s t i : (length s <= i)%nat -> rd (s ++ t) i = rd t (i - length s).
Proof. intros. unfold rd. by rewrite app_nth2. Qed.

Lemma rd_take d n k : (k < n)%nat -> rd (take n d) k = rd d k.
Proof. intros. unfold rd. rewrite !nth_lookup. by rewrite lookup_take_lt. Qed.

#[export] Hint Resolve b2z_range rd_range beq_refl : clm.

(** ["%zu"] and the like: a natural number in decimal. *)
Definition dec (z : Z) : list byte :=
  bs (DecimalString.NilZero.string_of_uint (N.to_uint (Z.to_N z))).

(** [snprintf(buf, n, ...)] of a text: the bytes that fit before the NUL. *)
Definition snprintf (n : nat) (s : list byte) : list byte := take (n - 1) s.

(** ** Bit operations as arithmetic *)

(** Joining disjoint bit fields is addition. *)
Lemma land_shiftl_low a b k : 0 <= k -> 0 <= b < 2 ^ k -> Z.land (Z.shiftl a k) b = 0.
Proof.
  intros Hk Hb. apply Z.bits_inj'. intros i Hi. rewrite Z.land_spec, Z.bits_0.
  destruct (Z.ltb_spec i k) as [Hlt|Hge].
  - by rewrite Z.shiftl_spec_low.
  - assert (Z.testbit b i = false) as ->; [|apply andb_false_r].
    rewrite <- (Z.mod_small b (2 ^ k)) by done. by apply Z.mod_pow2_bits_high.
Qed.

Lemma lor_shiftl_add a b k : 0 <= k -> 0 <= b < 2 ^ k ->
  Z.lor (Z.shiftl a k) b = a * 2 ^ k + b.
Proof.
  intros Hk Hb. pose proof (land_shiftl_low a b k Hk Hb) as H0.
  rewrite <- Z.lxor_lor, <- Z.add_nocarry_lxor by done.
  by rewrite Z.shiftl_mul_pow2.
Qed.

Lemma land_ones_mod a k m : 0 <= k -> m = Z.ones k -> Z.land a m = a mod 2 ^ k.
Proof. intros ? ->. by apply Z.land_ones. Qed.

Lemma land_63 a : Z.land a 63 = a mod 64.
Proof. by apply (land_ones_mod a 6 63). Qed.

Lemma land_255 a : Z.land a 255 = a mod 256.
Proof. by apply (land_ones_mod a 8 255). Qed.

Lemma shiftr_div a k : 0 <= k -> Z.shiftr a k = a / 2 ^ k.
Proof. apply Z.shiftr_div_pow2. Qed.

(** ** Checked memory reads *)

(** [d[i]] where reading past the end of the buffer is undefined behaviour:
    [None]. A function returning [None] is then one that read out of bounds,
    or that ran out of fuel. *)
Definition get (d : list byte) (i : nat) : option Z := b2z <$> d !! i.

(** [memcmp(d + off, lit, strlen(lit)) == 0] *)
Definition memeq (d : list byte) (off : nat) (lit : list byte) : option bool :=
  if (off + length lit <=? length d)%nat
  then Some (beq (take (length lit) (drop off d)) lit) else None.

Lemma get_Some d i : (i < length d)%nat -> exists v, get d i = Some v /\ 0 <= v < 256.
Proof.
  intros Hi. destruct (lookup_lt_is_Some_2 d i Hi) as [b Hb].
  exists (b2z b). unfold get. rewrite Hb. split; [done|apply b2z_range].
Qed.

Lemma get_range d i v : get d i = Some v -> 0 <= v < 256.
Proof.
  unfold get. destruct (d !! i) as [b|]; cbn; [|done].
  intros [= <-]. apply b2z_range.
Qed.

Lemma memeq_Some d off lit : (off + length lit <= length d)%nat ->
  exists b, memeq d off lit = Some b.
Proof. intros. unfold memeq. apply Nat.leb_le in H. rewrite H. eauto. Qed.

(** ** Searching *)

(** [tolower] in the C locale. *)
Definition lower (b : byte) : byte :=
  let z := b2z b in if (65 <=? z) && (z <=? 90) then z2b (z + 32) else b.

Definition has_prefix (p s : list byte) : bool := beq (take (length p) s) p.

(** [strstr(s, p)], and [memmem]: the offset of the first [p] in [s]. *)
Fixpoint find_sub (p s : list byte) : option nat :=
  if has_prefix p s then Some 0%nat
  else match s with
       | [] => None
       | _ :: s' => S <$> find_sub p s'
       end.

Lemma has_prefix_app p s : has_prefix p (p ++ s) = true.
Proof. unfold has_prefix. rewrite take_app_length. apply beq_refl. Qed.

Lemma has_prefix_spec p s : has_prefix p s = true <-> exists t, s = p ++ t.
Proof.
  split; [|intros [t ->]; apply has_prefix_app].
  unfold has_prefix. intros E%beq_eq. exists (drop (length p) s). by rewrite <- E at 1; rewrite take_drop.
Qed.

Lemma find_sub_None p s : find_sub p s = None -> forall a c, s <> a ++ p ++ c.
Proof.
  induction s as [|x s IH]; cbn [find_sub]; destruct (has_prefix p _) eqn:E; try done; intros Hf a c Hs.
  - destruct a as [|? a]; [|done]. destruct p; [done|]. by cbn in Hs.
  - destruct a as [|y a]; cbn in Hs.
    + rewrite Hs, has_prefix_app in E. done.
    + injection Hs as -> ->. destruct (find_sub p (a ++ p ++ c)) eqn:Ef; [done|]. by apply (IH eq_refl a c).
Qed.

Lemma find_sub_spec p s i : find_sub p s = Some i -> exists t, s = take i s ++ p ++ t.
Proof.
  revert i. induction s as [|x s IH]; intros i; cbn [find_sub]; destruct (has_prefix p _) eqn:E; try done.
  - intros [= <-]. by apply has_prefix_spec in E.
  - intros [= <-]. apply has_prefix_spec in E as [t ->]. by exists t.
  - destruct (find_sub p s) as [j|]; [|done]. cbn. intros [= <-]. destruct (IH j eq_refl) as [t Ht].
    exists t. cbn. by f_equal.
Qed.

(** Nothing starts where its first byte does not occur. *)
Lemma find_sub_skip c p a s : ~ In c a ->
  find_sub (c :: p) (a ++ s) = (fun i => (length a + i)%nat) <$> find_sub (c :: p) s.
Proof.
  induction a as [|x a IH]; intros Hn; cbn [app length]; [by destruct (find_sub _ s)|].
  cbn [find_sub]. assert (E : has_prefix (c :: p) (x :: a ++ s) = false).
  { apply not_true_is_false. intros [t [= <- _]]%has_prefix_spec. apply Hn. by left. }
  rewrite E, IH by (intros ?; apply Hn; by right). by destruct (find_sub _ s).
Qed.

Lemma find_sub_here p s : find_sub p (p ++ s) = Some 0%nat.
Proof. destruct (p ++ s) as [|x l] eqn:E; cbn [find_sub]; by rewrite <- E, has_prefix_app. Qed.

(** The end of a piece that does not hold the mark: a mark that starts with a
    byte it has nowhere else is first found after it. *)
Lemma find_sub_end c p raw t : ~ In c p -> find_sub (c :: p) raw = None ->
  find_sub (c :: p) (raw ++ (c :: p) ++ t) = Some (length raw).
Proof.
  intros Hc. induction raw as [|x raw IH]; intros Hf; [exact (find_sub_here (c :: p) t)|].
  cbn [app find_sub length]. pose proof (find_sub_None _ _ Hf) as Hn.
  assert (E : has_prefix (c :: p) (x :: raw ++ c :: p ++ t) = false).
  { apply not_true_is_false. intros [u Hu]%has_prefix_spec. injection Hu as -> Hu.
    apply app_eq_inv in Hu as [(k & E1 & E2)|(k & E1 & E2)].
    - apply (Hn [] k). cbn. by rewrite E1.
    - destruct k as [|y k]; cbn in E2.
      + rewrite app_nil_r in E1. subst p. apply (Hn [] []). cbn. by rewrite app_nil_r.
      + injection E2 as <- E2. apply Hc. rewrite E1. apply in_app_iff. right. by left. }
  assert (Hf' : find_sub (c :: p) raw = None).
  { cbn [find_sub] in Hf. destruct (has_prefix _ (x :: raw)); [done|]. by destruct (find_sub _ raw). }
  specialize (IH Hf'). cbn [app] in IH. by rewrite E, IH.
Qed.

Lemma find_sub_step p x s : has_prefix p (x :: s) = false -> find_sub p (x :: s) = S <$> find_sub p s.
Proof. intros E. cbn [find_sub]. by rewrite E. Qed.
