(* ===== verification/Utf8.v ===== *)
(** UTF-8 in the history and the tool framework: [utf8_seq] and
    [utf8_repair] of [src/libclm/history.c], [find_binary_offset] and
    [utf8_floor] of [src/libclm/tools.c], against the encoding of RFC 3629. *)

From S2P Require Import Prelude.

(** ** The code *)

(** [(b & 0xC0) == 0x80] *)
Definition is_cont (b : Z) : bool := Z.land b 0xC0 =? 0x80.

(** Continuation bytes [utf8_seq] expects after [s0 >= 0x80]; [None] is its
    [return 0]. *)
Definition utf8_need (s0 : Z) : option nat :=
  if (Z.land s0 0xE0 =? 0xC0) && (0xC2 <=? s0) then Some 1%nat
  else if Z.land s0 0xF0 =? 0xE0 then Some 2%nat
  else if (Z.land s0 0xF8 =? 0xF0) && (s0 <=? 0xF4) then Some 3%nat
  else None.

(** Overlong forms, surrogates, and code points past U+10FFFF. *)
Definition utf8_excluded (s0 s1 : Z) : bool :=
  ((s0 =? 0xE0) && (s1 <? 0xA0)) || ((s0 =? 0xED) && (0x9F <? s1)) ||
  ((s0 =? 0xF0) && (s1 <? 0x90)) || ((s0 =? 0xF4) && (0x8F <? s1)).

(** Length of the valid sequence at the head of [s], or 0. *)
Definition utf8_seq (s : list byte) : nat :=
  let s0 := rd s 0 in
  if s0 <? 0x80 then 1%nat
  else
    match utf8_need s0 with
    | None => 0%nat
    | Some need =>
        if (length s <=? need)%nat then 0%nat
        else if negb (forallb (fun k => is_cont (rd s k)) (seq 1 need)) then 0%nat
        else if utf8_excluded s0 (rd s 1) then 0%nat
        else (need + 1)%nat
    end.

(** First pass of [utf8_repair]: how many bytes are bad. The fuel bounds the
    number of iterations; each consumes a byte at least. *)
Fixpoint count_bad (fuel : nat) (s : list byte) : nat :=
  match fuel, s with
  | S f, _ :: _ =>
      let n := utf8_seq s in
      (if n =? 0 then 1 else 0) + count_bad f (drop (if n =? 0 then 1 else n) s)
  | _, _ => 0
  end%nat.

(** Second pass: the copy, each bad byte replaced by U+FFFD. *)
Fixpoint repair_copy (fuel : nat) (s : list byte) : list byte :=
  match fuel, s with
  | S f, _ :: _ =>
      let n := utf8_seq s in
      if (n =? 0)%nat then xef :: xbf :: xbd :: repair_copy f (drop 1 s)
      else take n s ++ repair_copy f (drop n s)
  | _, _ => []
  end.

Definition utf8_repair (s : list byte) : option (list byte) :=
  if (count_bad (length s) s =? 0)%nat then None
  else Some (repair_copy (length s) s).

(** Back up over continuation bytes to a character boundary. *)
Fixpoint utf8_floor (d : list byte) (off : nat) : nat :=
  match off with
  | O => O
  | S off' =>
      if (off <? length d)%nat && is_cont (rd d off) then utf8_floor d off'
      else off
  end.

(** [find_binary_offset]: the loop at offset [i]; the result is the offset of
    the first byte that cannot be text, or the length. *)
Definition text_need (b : Z) : option nat :=
  if Z.land b 0xE0 =? 0xC0 then Some 1%nat
  else if Z.land b 0xF0 =? 0xE0 then Some 2%nat
  else if Z.land b 0xF8 =? 0xF0 then Some 3%nat
  else None.

Fixpoint find_binary_from (fuel : nat) (data : list byte) (i : nat) : nat :=
  match fuel with
  | O => i
  | S f =>
      if (i <? length data)%nat then
        let b := rd data i in
        if b =? 0 then i
        else if b <? 0x80 then find_binary_from f data (i + 1)
        else
          match text_need b with
          | None => i
          | Some need =>
              if (length data <=? i + need)%nat then i
              else if negb (forallb (fun k => is_cont (rd data (i + k))) (seq 1 need))
              then i
              else find_binary_from f data (i + need + 1)
          end
      else length data
  end.

Definition find_binary_offset (data : list byte) : nat :=
  find_binary_from (length data) data 0.

(** ** RFC 3629 *)

(** Unicode scalar values: code points that are not surrogates. *)
Definition scalar (c : Z) : Prop :=
  0 <= c < 0xD800 \/ 0xE000 <= c <= 0x10FFFF.

Definition encode_cp (c : Z) : list byte :=
  if c <? 0x80 then [z2b c]
  else if c <? 0x800 then [z2b (0xC0 + c / 64); z2b (0x80 + c mod 64)]
  else if c <? 0x10000 then
    [z2b (0xE0 + c / 4096); z2b (0x80 + c / 64 mod 64); z2b (0x80 + c mod 64)]
  else
    [z2b (0xF0 + c / 262144); z2b (0x80 + c / 4096 mod 64);
     z2b (0x80 + c / 64 mod 64); z2b (0x80 + c mod 64)].

Inductive valid_utf8 : list byte -> Prop :=
  | valid_nil : valid_utf8 []
  | valid_cons c s : scalar c -> valid_utf8 s -> valid_utf8 (encode_cp c ++ s).

(** ** Byte classes as intervals *)

Lemma is_cont_range b : is_cont (b2z b) = (0x80 <=? b2z b) && (b2z b <=? 0xBF).
Proof. by_all_bytes b. Qed.

Lemma utf8_need_range b : utf8_need (b2z b) =
  if (0xC2 <=? b2z b) && (b2z b <=? 0xDF) then Some 1%nat
  else if (0xE0 <=? b2z b) && (b2z b <=? 0xEF) then Some 2%nat
  else if (0xF0 <=? b2z b) && (b2z b <=? 0xF4) then Some 3%nat
  else None.
Proof. by_all_bytes b. Qed.

Lemma text_need_range b : text_need (b2z b) =
  if (0xC0 <=? b2z b) && (b2z b <=? 0xDF) then Some 1%nat
  else if (0xE0 <=? b2z b) && (b2z b <=? 0xEF) then Some 2%nat
  else if (0xF0 <=? b2z b) && (b2z b <=? 0xF7) then Some 3%nat
  else None.
Proof. by_all_bytes b. Qed.

Lemma rd_cons b s : rd (b :: s) 0 = b2z b.
Proof. done. Qed.

Lemma rd_cons_S b s i : rd (b :: s) (S i) = rd s i.
Proof. done. Qed.

(** ** The four forms of a sequence *)

(** [seq_form s n]: [s] starts with a well-formed sequence of [n] bytes,
    byte interval by byte interval (the table of RFC 3629, section 4). *)
Definition cont_byte (b : byte) : Prop := 0x80 <= b2z b <= 0xBF.

Inductive seq_form : list byte -> nat -> Prop :=
  | form1 b0 t : b2z b0 < 0x80 -> seq_form (b0 :: t) 1
  | form2 b0 b1 t : 0xC2 <= b2z b0 <= 0xDF -> cont_byte b1 ->
      seq_form (b0 :: b1 :: t) 2
  | form3 b0 b1 b2 t : 0xE0 <= b2z b0 <= 0xEF -> cont_byte b1 -> cont_byte b2 ->
      (b2z b0 = 0xE0 -> 0xA0 <= b2z b1) -> (b2z b0 = 0xED -> b2z b1 <= 0x9F) ->
      seq_form (b0 :: b1 :: b2 :: t) 3
  | form4 b0 b1 b2 b3 t : 0xF0 <= b2z b0 <= 0xF4 ->
      cont_byte b1 -> cont_byte b2 -> cont_byte b3 ->
      (b2z b0 = 0xF0 -> 0x90 <= b2z b1) -> (b2z b0 = 0xF4 -> b2z b1 <= 0x8F) ->
      seq_form (b0 :: b1 :: b2 :: b3 :: t) 4.

Lemma utf8_seq_unfold b0 t : utf8_seq (b0 :: t) =
  if b2z b0 <? 0x80 then 1%nat
  else match utf8_need (b2z b0) with
       | None => 0%nat
       | Some need =>
           if (length t <? need)%nat then 0%nat
           else if negb (forallb (fun k => is_cont (rd t k)) (seq 0 need)) then 0%nat
           else if utf8_excluded (b2z b0) (rd t 0) then 0%nat
           else (need + 1)%nat
       end.
Proof.
  unfold utf8_seq. rewrite rd_cons. case_if; [done|].
  destruct (utf8_need (b2z b0)) as [need|]; [|done].
  cbn [length]. replace (S (length t) <=? need)%nat with (length t <? need)%nat
    by (apply Bool.eq_iff_eq_true; rewrite Nat.ltb_lt, Nat.leb_le; lia).
  rewrite <- seq_shift, rd_cons_S.
  replace (forallb _ (map S (seq 0 need)))
    with (forallb (fun k => is_cont (rd t k)) (seq 0 need)); [done|].
  generalize (seq 0 need). intros l. induction l; cbn; [done|]. by rewrite IHl.
Qed.

Ltac seq_step :=
  cbn [length seq forallb Nat.ltb Nat.leb Nat.add] in *;
  rewrite ?rd_cons_S, ?rd_cons, ?is_cont_range in *; unfold cont_byte in *;
  try done; try lia.

Lemma utf8_seq_form s n : seq_form s n -> utf8_seq s = n.
Proof.
  destruct 1; rewrite utf8_seq_unfold; unfold utf8_excluded;
    [by case_if; [|lia]|rewrite utf8_need_range; repeat (case_if; seq_step)..].
Qed.

Lemma utf8_seq_form_inv s : utf8_seq s <> 0%nat -> s <> [] -> seq_form s (utf8_seq s).
Proof.
  destruct s as [|b0 t]; [done|]. intros Hn _. revert Hn.
  rewrite utf8_seq_unfold, utf8_need_range. unfold utf8_excluded.
  case_if; [intros _; by constructor|].
  destruct t as [|b1 [|b2 [|b3 t]]]; repeat (case_if; seq_step);
    intros _; constructor; unfold cont_byte; lia.
Qed.

(** ** Encodings are what [utf8_seq] accepts *)

Ltac z2b_small :=
  rewrite ?b2z_z2b_small by (Z.to_euclidean_division_equations; lia).

Lemma encode_cp_form c rest :
  scalar c -> seq_form (encode_cp c ++ rest) (length (encode_cp c)).
Proof.
  unfold scalar, encode_cp. intros Hc. case_ifs; cbn [app length];
    constructor; unfold cont_byte; z2b_small; Z.to_euclidean_division_equations; lia.
Qed.

Lemma form_encode_cp s n : seq_form s n ->
  exists c, scalar c /\ n = length (encode_cp c) /\ s = encode_cp c ++ drop n s.
Proof.
  destruct 1 as [b0 t|b0 b1 t|b0 b1 b2 t|b0 b1 b2 b3 t];
    pose proof (b2z_range b0); unfold cont_byte in *.
  - exists (b2z b0). unfold scalar, encode_cp. assert ((b2z b0 <? 0x80) = true) as -> by lia.
    split_and!; [lia|done|]. cbn. by rewrite z2b_b2z.
  - exists ((b2z b0 - 0xC0) * 64 + (b2z b1 - 0x80)). unfold scalar, encode_cp.
    case_if; [lia|]. case_if; [|lia]. split_and!; [lia|done|]. cbn. rewrite drop_0.
    repeat f_equal; symmetry; apply z2b_eq; Z.to_euclidean_division_equations; lia.
  - exists ((b2z b0 - 0xE0) * 4096 + (b2z b1 - 0x80) * 64 + (b2z b2 - 0x80)).
    unfold scalar, encode_cp. case_if; [lia|]. case_if; [lia|]. case_if; [|lia].
    split_and!; [lia|done|]. cbn. rewrite drop_0.
    repeat f_equal; symmetry; apply z2b_eq; Z.to_euclidean_division_equations; lia.
  - exists ((b2z b0 - 0xF0) * 262144 + (b2z b1 - 0x80) * 4096
            + (b2z b2 - 0x80) * 64 + (b2z b3 - 0x80)).
    unfold scalar, encode_cp. do 3 (case_if; [lia|]).
    split_and!; [lia|done|]. cbn. rewrite drop_0.
    repeat f_equal; symmetry; apply z2b_eq; Z.to_euclidean_division_equations; lia.
Qed.

Lemma utf8_seq_encode c rest :
  scalar c -> utf8_seq (encode_cp c ++ rest) = length (encode_cp c).
Proof. intros. by apply utf8_seq_form, encode_cp_form. Qed.

Lemma encode_cp_length c : scalar c -> (1 <= length (encode_cp c) <= 4)%nat.
Proof. unfold encode_cp. intros _. case_ifs; cbn; lia. Qed.

(** ** Validity *)

Lemma valid_app s t : valid_utf8 s -> valid_utf8 t -> valid_utf8 (s ++ t).
Proof. induction 1; intros; [done|]. rewrite <- app_assoc. constructor; auto. Qed.

Lemma valid_seq s : valid_utf8 s -> s <> [] ->
  utf8_seq s <> 0%nat /\ valid_utf8 (drop (utf8_seq s) s).
Proof.
  destruct 1 as [|c s Hc Hs]; [done|]. intros _. rewrite utf8_seq_encode by done.
  pose proof (encode_cp_length c Hc). rewrite drop_app_length. split; [lia|done].
Qed.

(** A valid head sequence is well formed whatever follows. *)
Lemma seq_take_valid s : utf8_seq s <> 0%nat -> s <> [] -> valid_utf8 (take (utf8_seq s) s).
Proof.
  intros Hn Hs. destruct (form_encode_cp _ _ (utf8_seq_form_inv s Hn Hs)) as (c & Hc & El & Es).
  clear Hn Hs. revert El Es. generalize (utf8_seq s). intros n -> ->.
  rewrite take_app_length, <- (app_nil_r (encode_cp c)).
  constructor; [done|apply valid_nil].
Qed.

Lemma seq_length s : s <> [] -> (utf8_seq s <= length s)%nat.
Proof.
  intros Hs. destruct (decide (utf8_seq s = 0%nat)) as [->|Hn]; [lia|].
  destruct (utf8_seq_form_inv s Hn Hs); cbn; lia.
Qed.

(** How far one iteration of [utf8_repair] moves. *)
Definition utf8_step (s : list byte) : nat :=
  if (utf8_seq s =? 0)%nat then 1%nat else utf8_seq s.

Lemma utf8_step_length s : s <> [] -> (1 <= utf8_step s <= length s)%nat.
Proof.
  intros Hs. pose proof (seq_length s Hs). unfold utf8_step. destruct s; [done|].
  case_if; cbn [length] in *; lia.
Qed.

Lemma count_bad_step s f : s <> [] ->
  count_bad (S f) s =
    ((if utf8_seq s =? 0 then 1 else 0) + count_bad f (drop (utf8_step s) s))%nat.
Proof. destruct s; [done|]. intros _. reflexivity. Qed.

Lemma repair_copy_step s f : s <> [] ->
  repair_copy (S f) s =
    (if (utf8_seq s =? 0)%nat then [xef; xbf; xbd] else take (utf8_seq s) s)
      ++ repair_copy f (drop (utf8_step s) s).
Proof. destruct s; [done|]. intros _. unfold utf8_step. cbn [repair_copy]. by case_if. Qed.

(** Induction along the iterations of [utf8_repair]. *)
Lemma utf8_walk_ind (P : list byte -> nat -> Prop) :
  (forall f, P [] f) ->
  (forall s f, s <> [] -> (length s <= S f)%nat -> P (drop (utf8_step s) s) f -> P s (S f)) ->
  forall s f, (length s <= f)%nat -> P s f.
Proof.
  intros H0 HS s f. revert s. induction f as [|f IH]; intros [|b s] Hf; [done|cbn in Hf; lia|done|].
  apply HS; [done|done|]. apply IH. rewrite length_drop.
  pose proof (utf8_step_length (b :: s) ltac:(done)). lia.
Qed.

Lemma repair_copy_valid : forall s f, (length s <= f)%nat -> valid_utf8 (repair_copy f s).
Proof.
  apply (utf8_walk_ind (fun s f => valid_utf8 (repair_copy f s))).
  - intros []; constructor.
  - intros s f Hs _ IH. rewrite repair_copy_step by done. apply valid_app; [|done].
    case_if; [|by apply seq_take_valid].
    change [xef; xbf; xbd] with (encode_cp 0xFFFD ++ []).
    constructor; [unfold scalar; lia|apply valid_nil].
Qed.

Lemma count_bad_zero : forall s f, (length s <= f)%nat ->
  count_bad f s = 0%nat <-> valid_utf8 s.
Proof.
  apply (utf8_walk_ind (fun s f => count_bad f s = 0%nat <-> valid_utf8 s)).
  - intros []; split; constructor.
  - intros s f Hs _ IH. rewrite count_bad_step by done. unfold utf8_step in *. split.
    + case_if; [done|]. intros H. rewrite <- (take_drop (utf8_seq s) s).
      apply valid_app; [by apply seq_take_valid|]. by apply IH.
    + intros Hv. destruct (valid_seq s Hv Hs) as [Hn Hd].
      apply Nat.eqb_neq in Hn. rewrite Hn in *. by apply IH.
Qed.

Lemma repair_copy_length : forall s f, (length s <= f)%nat ->
  length (repair_copy f s) = (length s + count_bad f s * 2)%nat.
Proof.
  apply (utf8_walk_ind (fun s f =>
    length (repair_copy f s) = (length s + count_bad f s * 2)%nat)).
  - by intros [].
  - intros s f Hs _ IH. rewrite repair_copy_step, count_bad_step, length_app, IH by done.
    pose proof (utf8_step_length s Hs). pose proof (seq_length s Hs).
    unfold utf8_step in *. rewrite length_drop. case_if; cbn [length]; rewrite ?length_take; lia.
Qed.

(** What [message_set_content_len] stores of [s] when there is no room
    problem: [s] itself, or its repaired copy. *)
Definition utf8_clean (s : list byte) : list byte :=
  match utf8_repair s with None => s | Some r => r end.

Lemma utf8_clean_valid s : valid_utf8 (utf8_clean s).
Proof.
  unfold utf8_clean, utf8_repair. case_if.
  - by apply (count_bad_zero s (length s)).
  - by apply repair_copy_valid.
Qed.

Lemma utf8_clean_id s : valid_utf8 s -> utf8_clean s = s.
Proof.
  intros Hv. unfold utf8_clean, utf8_repair.
  apply (count_bad_zero s (length s)) in Hv; [|done]. by rewrite Hv.
Qed.

Lemma utf8_clean_length s : (length s <= length (utf8_clean s) <= 3 * length s)%nat.
Proof.
  unfold utf8_clean, utf8_repair. case_if; [lia|]. rewrite repair_copy_length by done.
  enough (forall s f, (length s <= f)%nat -> (count_bad f s <= length s)%nat) as H
    by (specialize (H s (length s)); lia).
  apply (utf8_walk_ind (fun s f => (count_bad f s <= length s)%nat)); [by intros []|].
  intros s' f Hs _ IH. rewrite count_bad_step by done. rewrite length_drop in IH.
  pose proof (utf8_step_length s' Hs). case_if; lia.
Qed.

(** ** Character boundaries *)

Lemma encode_cp_cont c k : scalar c -> (0 < k < length (encode_cp c))%nat ->
  is_cont (rd (encode_cp c) k) = true.
Proof.
  unfold scalar, encode_cp, rd. intros Hc. case_ifs; cbn [length]; intros Hk;
    (destruct k as [|[|[|[|k]]]]; try lia); cbn [nth]; rewrite is_cont_range;
    z2b_small; Z.to_euclidean_division_equations; lia.
Qed.

Lemma encode_cp_head c s : scalar c -> is_cont (rd (encode_cp c ++ s) 0) = false.
Proof.
  unfold scalar, encode_cp, rd. intros Hc. case_ifs; cbn [nth app];
    rewrite is_cont_range; z2b_small; Z.to_euclidean_division_equations; lia.
Qed.

(** Cutting valid text before a byte that is not a continuation byte leaves
    valid text on both sides. *)
Lemma valid_cut s : valid_utf8 s -> forall k, (k <= length s)%nat ->
  is_cont (rd s k) = false -> valid_utf8 (take k s) /\ valid_utf8 (drop k s).
Proof.
  induction 1 as [|c s Hc Hs IH]; intros k Hk Hb.
  - destruct k; [|cbn in Hk; lia]. split; constructor.
  - destruct (decide (k = 0%nat)) as [->|Hk0].
    { split; [constructor|]. by constructor. }
    destruct (decide (k < length (encode_cp c))%nat) as [Hlt|Hge].
    { rewrite rd_app_l, encode_cp_cont in Hb by (auto; lia). done. }
    rewrite rd_app_r in Hb by lia. rewrite length_app in Hk.
    destruct (IH (k - length (encode_cp c))%nat ltac:(lia) Hb) as [Ht Hd].
    rewrite take_app_ge, drop_app_ge by lia. split; [by constructor|done].
Qed.

Lemma utf8_floor_spec d off :
  let k := utf8_floor d off in
  (k <= off)%nat /\ (k = 0%nat \/ (length d <= k)%nat \/ is_cont (rd d k) = false).
Proof.
  induction off as [|off IH]; cbn zeta; cbn [utf8_floor]; [lia|].
  destruct ((S off <? length d)%nat && is_cont (rd d (S off))) eqn:E.
  { destruct IH. split; [lia|done]. }
  split; [lia|]. right. apply andb_false_iff in E as [E|E]; bool_facts; auto.
Qed.

Lemma utf8_floor_last d off x : (utf8_floor d off < x <= off)%nat -> is_cont (rd d x) = true.
Proof.
  induction off as [|off IH]; cbn [utf8_floor]; [lia|].
  destruct ((S off <? length d)%nat && is_cont (rd d (S off))) eqn:E; [|lia].
  intros Hx. apply andb_true_iff in E as [_ E].
  destruct (decide (x = S off)) as [->|]; [done|apply IH; lia].
Qed.

(** [utf8_floor] never backs up more than three bytes in valid text. *)
Lemma valid_cont_run s : valid_utf8 s -> forall k, (k + 3 < length s)%nat ->
  exists j, (j <= 3)%nat /\ is_cont (rd s (k + j)) = false.
Proof.
  induction 1 as [|c s Hc Hs IH]; intros k Hk; [cbn in Hk; lia|].
  pose proof (encode_cp_head c s Hc) as Hhead.
  pose proof (encode_cp_length c Hc) as Hl. rewrite length_app in Hk.
  destruct (decide (k = 0%nat)) as [->|]; [by exists 0%nat; split; [lia|]|].
  destruct (decide (length (encode_cp c) <= k)%nat) as [Hge|Hlt].
  - destruct (IH (k - length (encode_cp c))%nat ltac:(lia)) as (j & Hj & Hb).
    exists j. split; [done|]. rewrite rd_app_r by lia. by rewrite Nat.add_sub_swap.
  - exists (length (encode_cp c) - k)%nat. split; [lia|].
    replace (k + _)%nat with (length (encode_cp c)) by lia.
    rewrite rd_app_r, Nat.sub_diag by lia. destruct Hs as [|c' s' Hc' Hs']; [cbn in *; lia|].
    by apply encode_cp_head.
Qed.

(** ** Plausible text *)

Definition no_nul (s : list byte) : Prop := Forall (fun b => b <> x00) s.

Lemma encode_cp_need c : scalar c ->
  if rd (encode_cp c) 0 <? 0x80 then length (encode_cp c) = 1%nat
  else text_need (rd (encode_cp c) 0) = Some (length (encode_cp c) - 1)%nat.
Proof.
  unfold encode_cp, scalar, rd. intros Hc.
  destruct (Z.ltb_spec c 0x80); [|destruct (Z.ltb_spec c 0x800);
    [|destruct (Z.ltb_spec c 0x10000)]]; cbn [nth length];
    rewrite ?text_need_range; z2b_small; repeat (case_if; try done);
    Z.to_euclidean_division_equations; lia.
Qed.

Lemma find_binary_valid s : valid_utf8 s -> forall pre fuel,
  no_nul s -> (length s <= fuel)%nat ->
  find_binary_from fuel (pre ++ s) (length pre) = length (pre ++ s).
Proof.
  induction 1 as [|c s Hc Hs IH]; intros pre fuel Hn Hf.
  { rewrite app_nil_r. destruct fuel; cbn [find_binary_from]; [done|].
    by rewrite Nat.ltb_irrefl. }
  pose proof (encode_cp_length c Hc) as Hl. rewrite length_app in Hf.
  destruct fuel as [|fuel]; [lia|]. cbn [find_binary_from].
  apply Forall_app in Hn as [Hn1 Hn2].
  specialize (IH (pre ++ encode_cp c)). rewrite <- app_assoc in IH.
  rewrite !length_app. replace (length pre <? _)%nat with true
    by (symmetry; apply Nat.ltb_lt; lia).
  rewrite <- !length_app, rd_app_r, Nat.sub_diag, rd_app_l by lia.
  assert (H0 : rd (encode_cp c) 0 <> 0).
  { destruct (encode_cp c) as [|b l]; [cbn in Hl; lia|]. inversion Hn1 as [|? ? Hb]; subst.
    rewrite rd_cons. intros E. by apply Hb, b2z_inj. }
  apply Z.eqb_neq in H0. rewrite H0.
  assert (Hcont : forall k, (0 < k < length (encode_cp c))%nat ->
    is_cont (rd (pre ++ encode_cp c ++ s) (length pre + k)) = true).
  { intros k Hk. rewrite rd_app_r, rd_app_l by lia.
    replace (length pre + k - length pre)%nat with k by lia. by apply encode_cp_cont. }
  assert (Hnext : find_binary_from fuel (pre ++ encode_cp c ++ s)
                    (length pre + length (encode_cp c)) = length (pre ++ encode_cp c ++ s)).
  { rewrite <- length_app. apply IH; [done|lia]. }
  pose proof (encode_cp_need c Hc) as Hneed.
  case_if.
  - by rewrite Hneed in Hnext.
  - rewrite Hneed, !length_app.
    replace (length pre + (length (encode_cp c) - 1) + 1)%nat
      with (length pre + length (encode_cp c))%nat by lia.
    rewrite <- !length_app. case_if; [rewrite !length_app in *; lia|].
    case_if; [|by rewrite length_app]. exfalso.
    assert (forallb (fun k => is_cont (rd (pre ++ encode_cp c ++ s) (length pre + k)))
              (seq 1 (length (encode_cp c) - 1)) = true) as Hall; [|congruence].
    apply forallb_forall. intros k Hk. apply in_seq in Hk. apply Hcont. lia.
Qed.

Lemma find_binary_full fuel : forall data i,
  (length data <= i + fuel)%nat -> (i <= length data)%nat ->
  find_binary_from fuel data i = length data ->
  forall k, (i <= k < length data)%nat -> rd data k <> 0.
Proof.
  induction fuel as [|fuel IH]; intros data i Hf Hi H k Hk; cbn [find_binary_from] in H; [lia|].
  destruct (i <? length data)%nat eqn:E; bool_facts; [|lia].
  destruct (rd data i =? 0) eqn:E0; bool_facts; [lia|].
  destruct (rd data i <? 0x80) eqn:E1.
  - destruct (decide (k = i)) as [->|]; [done|]. apply (IH data (i + 1)%nat); lia || done.
  - destruct (text_need (rd data i)) as [need|]; [|lia].
    destruct (length data <=? i + need)%nat eqn:E2; bool_facts; [lia|].
    destruct (negb _) eqn:E3; bool_facts; [lia|].
    destruct (decide (k = i)) as [->|]; [done|].
    destruct (decide (i + need + 1 <= k)%nat) as [Hge|Hlt].
    { apply (IH data (i + need + 1)%nat); lia || done. }
    rewrite forallb_forall in E3. specialize (E3 (k - i)%nat).
    replace (i + (k - i))%nat with k in E3 by lia.
    intros Hz. rewrite Hz in E3. cbn in E3. discriminate E3. apply in_seq. lia.
Qed.

(** ** Properties *)

(** C25. [utf8_seq] accepts exactly the UTF-8 encodings of RFC 3629: on a
    non-empty buffer it returns a positive [n] if and only if the buffer
    starts with the [n]-byte encoding of a Unicode scalar value. Overlong
    forms, surrogates, truncated sequences and code points past U+10FFFF are
    thereby refused. *)
Theorem utf8_seq_exact s n :
  s <> [] ->
  (utf8_seq s = n /\ n <> 0%nat) <->
  exists c rest, scalar c /\ s = encode_cp c ++ rest /\ n = length (encode_cp c).
Proof.
  intros Hs. split.
  - intros [<- Hn]. destruct (form_encode_cp _ _ (utf8_seq_form_inv s Hn Hs)) as (c & Hc & El & Es).
    by exists c, (drop (utf8_seq s) s).
  - intros (c & rest & Hc & -> & ->). pose proof (encode_cp_length c Hc).
    rewrite utf8_seq_encode by done. split; [done|lia].
Qed.

Lemma utf8_seq_exact_witness :
  (utf8_seq [xe2; x82; xac] = 3%nat /\ 3%nat <> 0%nat) <->
  exists c rest, scalar c /\ [xe2; x82; xac] = encode_cp c ++ rest
    /\ 3%nat = length (encode_cp c).
Proof. apply (utf8_seq_exact [xe2; x82; xac] 3). discriminate. Defined.

(** [utf8_repair] does what its comment says: it answers NULL exactly on
    valid UTF-8, and otherwise returns a valid string that fits the buffer it
    allocates ([len + bad * 2] bytes and the NUL). *)
Theorem utf8_repair_correct s :
  match utf8_repair s with
  | None => valid_utf8 s
  | Some r => ~ valid_utf8 s /\ valid_utf8 r /\
              length r = (length s + count_bad (length s) s * 2)%nat
  end.
Proof.
  unfold utf8_repair. pose proof (count_bad_zero s (length s) ltac:(done)) as Hz.
  case_if; [by apply Hz|]. split_and!.
  - by rewrite <- Hz.
  - by apply repair_copy_valid.
  - by apply repair_copy_length.
Qed.

(** The binary check on tool output has no false alarm and lets no NUL
    through: valid UTF-8 without NUL bytes is passed whole, and whatever is
    passed whole holds no NUL byte. *)
Theorem find_binary_offset_correct data :
  (valid_utf8 data -> no_nul data -> find_binary_offset data = length data) /\
  (find_binary_offset data = length data -> no_nul data).
Proof.
  unfold find_binary_offset. split.
  - intros Hv Hn. by apply (find_binary_valid data Hv []).
  - intros H. apply Forall_lookup. intros i b Hb.
    pose proof (lookup_lt_Some _ _ _ Hb) as Hi.
    intros ->. apply (find_binary_full (length data) data 0 ltac:(lia) ltac:(lia) H i ltac:(lia)).
    unfold rd. apply nth_lookup_Some with (d := x00) in Hb. by rewrite Hb.
Qed.
