(* ===== verification/TextClean.v ===== *)
(** Captured terminal output reduced to plain text:
    [src/libclm/text_clean.c]. The code edits the buffer in place, reading at
    [i] and writing at [n]; the model keeps the one buffer and both indices,
    and is then shown to equal a function from the input to a new list. *)

From S2P Require Import Prelude Utf8.

(** ** The code *)

(** A read or a write outside the buffer has no result: [None] is undefined
    behaviour, here and below. *)
Definition put (data : list byte) (n : nat) (b : Z) : option (list byte) :=
  if (n <? length data)%nat then Some (<[n := z2b b]> data) else None.

(** [while (n > 0 && (out[n] & 0xC0) == 0x80) n--;] *)
Fixpoint drop_back (out : list byte) (n : nat) : option nat :=
  match n with
  | O => Some O
  | S n' => b ← get out n; if is_cont b then drop_back out n' else Some n
  end.

Definition drop_last (out : list byte) (n : nat) : option nat :=
  match n with
  | O => Some O
  | S n' => drop_back out n'
  end.

(** The CSI loop: from [i] to just past the final byte. *)
Fixpoint skip_csi (fuel : nat) (data : list byte) (len i : nat) : option nat :=
  match fuel with
  | O => None
  | S f =>
      if (i <? len)%nat then
        b ← get data i;
        if (0x40 <=? b) && (b <=? 0x7E) then Some (S i) else skip_csi f data len (S i)
      else Some i
  end.

(** The OSC loop: to just past BEL or ESC backslash. *)
Fixpoint skip_osc (fuel : nat) (data : list byte) (len i : nat) : option nat :=
  match fuel with
  | O => None
  | S f =>
      if (i <? len)%nat then
        b ← get data i;
        if b =? 0x07 then Some (S i)
        else
          st ← (if (b =? 0x1B) && (S i <? len)%nat then c ← get data (S i); Some (c =? 0x5C) else Some false);
          if (st : bool) then Some (i + 2)%nat else skip_osc f data len (S i)
      else Some i
  end.

(** Offset just past the escape sequence whose ESC is at [i]. The loops move
    on at each turn, so [len + 1] turns are enough; with too few they have no
    result. *)
Definition skip_escape (data : list byte) (len i : nat) : option nat :=
  let i := S i in
  if (len <=? i)%nat then Some i
  else
    b ← get data i;
    if b =? 0x5B then skip_csi (S len) data len (S i)
    else if b =? 0x5D then skip_osc (S len) data len (S i)
    else Some (S i).

(** The loop of [clm_clean_text]. Every iteration moves [i] forward. *)
Fixpoint clean_loop (fuel : nat) (data : list byte) (len i n : nat) : option (nat * list byte) :=
  match fuel with
  | O => None
  | S f =>
      if (i <? len)%nat then
        b ← get data i;
        let write := d ← put data n b; clean_loop f d len (S i) (S n) in
        if b =? 0x1B then i ← skip_escape data len i; clean_loop f data len i n
        else if b =? 0x08 then n ← drop_last data n; clean_loop f data len (S i) n
        else if (b =? 0x0A) || (b =? 0x09) then write
        else if (b <? 0x20) || (b =? 0x7F) then clean_loop f data len (S i) n
        else write
      else Some (n, data)
  end.

(** The new length, and the buffer after. [data] may be NULL. *)
Definition clm_clean_text (data : option (list byte)) (len : nat) : option (nat * option (list byte)) :=
  match data with
  | None => Some (0%nat, None)
  | Some d => '(n, d) ← clean_loop (S len) d len 0 0; Some (n, Some d)
  end.

(** ** The reference: input list to output list *)

(** The last character of the output goes: its continuation bytes, which come
    first from the end, and its first byte. *)
Fixpoint drop_char (rev_out : list byte) : list byte :=
  match rev_out with
  | [] => []
  | b :: t => if is_cont (b2z b) then drop_char t else t
  end.

Definition chop (out : list byte) : list byte := rev (drop_char (rev out)).

Fixpoint csi_rest (s : list byte) : list byte :=
  match s with
  | [] => []
  | b :: t => if (0x40 <=? b2z b) && (b2z b <=? 0x7E) then t else csi_rest t
  end.

Fixpoint osc_rest (s : list byte) : list byte :=
  match s with
  | [] => []
  | b :: t =>
      if b2z b =? 0x07 then t
      else
        match t with
        | c :: u => if (b2z b =? 0x1B) && (b2z c =? 0x5C) then u else osc_rest t
        | [] => []
        end
  end.

(** What follows the escape sequence whose ESC was just read. *)
Definition escape_rest (s : list byte) : list byte :=
  match s with
  | [] => []
  | b :: t =>
      if b2z b =? 0x5B then csi_rest t
      else if b2z b =? 0x5D then osc_rest t
      else t
  end.

(** Bytes that stay: newline, tab, and everything that is not a control. *)
Definition plain_byte (b : byte) : bool :=
  (b2z b =? 0x0A) || (b2z b =? 0x09) || ((0x20 <=? b2z b) && negb (b2z b =? 0x7F)).

Fixpoint clean_ref (fuel : nat) (s out : list byte) : list byte :=
  match fuel, s with
  | S f, b :: t =>
      if b2z b =? 0x1B then clean_ref f (escape_rest t) out
      else if b2z b =? 0x08 then clean_ref f t (chop out)
      else clean_ref f t (if plain_byte b then out ++ [b] else out)
  | _, _ => out
  end.

Definition clean (s : list byte) : list byte := clean_ref (length s) s [].

(** ** Buffer positions and list suffixes *)

Lemma drop_get (d : list byte) i : (i < length d)%nat ->
  exists b, drop i d = b :: drop (S i) d /\ get d i = Some (b2z b) /\ d !! i = Some b.
Proof.
  intros Hi. destruct (lookup_lt_is_Some_2 d i Hi) as [b Hb].
  exists b. split_and!; [by apply drop_S| |done]. unfold get. by rewrite Hb.
Qed.

Lemma drop_back_chop d : forall n, (n < length d)%nat ->
  exists m, drop_back d n = Some m /\ (m <= n)%nat /\ take m d = chop (take (S n) d).
Proof.
  induction n as [|n IH]; intros Hn; cbn [drop_back].
  - exists 0%nat. split_and!; [done|lia|]. destruct d as [|b d]; [cbn in Hn; lia|]. unfold chop.
    change (take 1 (b :: d)) with [b]. cbn. by destruct (is_cont (b2z b)).
  - destruct (drop_get d (S n) Hn) as (b & _ & -> & Hb). cbn [mbind option_bind].
    assert (E : chop (take (S (S n)) d)
      = if is_cont (b2z b) then chop (take (S n) d) else take (S n) d).
    { rewrite (take_S_r _ _ b) by done. unfold chop. rewrite rev_app_distr. cbn [rev app drop_char].
      case_if; [done|]. by rewrite rev_involutive. }
    rewrite E. destruct (is_cont (b2z b)).
    + destruct (IH ltac:(lia)) as (m & -> & ? & ?). exists m. split_and!; [done|lia|done].
    + exists (S n). split_and!; [done|lia|done].
Qed.

Lemma drop_last_chop d n : (n <= length d)%nat ->
  exists m, drop_last d n = Some m /\ (m <= n)%nat /\ take m d = chop (take n d).
Proof.
  destruct n as [|n]; intros Hn; cbn [drop_last]; [by exists 0%nat|].
  destruct (drop_back_chop d n) as (m & ? & ? & ?); [lia|]. exists m. split_and!; [done|lia|done].
Qed.

Lemma skip_csi_rest d fuel : forall i, (length d < i + fuel)%nat -> (i <= length d)%nat ->
  exists j, skip_csi fuel d (length d) i = Some j /\ drop j d = csi_rest (drop i d) /\ (i <= j <= length d)%nat.
Proof.
  induction fuel as [|f IH]; intros i Hf Hi; cbn [skip_csi]; [lia|].
  destruct (Nat.ltb_spec i (length d)); [|exists i; rewrite drop_ge by lia; split_and!; done || lia].
  destruct (drop_get d i) as (b & -> & -> & _); [done|]. cbn [csi_rest mbind option_bind].
  case_if; [exists (S i); split_and!; done || lia|].
  destruct (IH (S i)) as (j & ? & ? & ?); [lia..|]. exists j. split_and!; done || lia.
Qed.

Lemma skip_osc_rest d fuel : forall i, (length d < i + fuel)%nat -> (i <= length d)%nat ->
  exists j, skip_osc fuel d (length d) i = Some j /\ drop j d = osc_rest (drop i d) /\ (i <= j <= length d)%nat.
Proof.
  induction fuel as [|f IH]; intros i Hf Hi; cbn [skip_osc]; [lia|].
  destruct (Nat.ltb_spec i (length d)); [|exists i; rewrite drop_ge by lia; split_and!; done || lia].
  destruct (drop_get d i) as (b & E1 & -> & _); [done|]. rewrite E1. cbn [osc_rest mbind option_bind].
  case_if; [exists (S i); split_and!; done || lia|].
  destruct (IH (S i)) as (j & E2 & E3 & ?); [lia..|].
  destruct (Nat.ltb_spec (S i) (length d)) as [Hlt|Hge].
  - destruct (drop_get d (S i)) as (c & Ec & -> & _); [done|]. rewrite Ec, andb_true_r in *.
    destruct (b2z b =? 0x1B); cbn [mbind option_bind andb]; [|exists j; split_and!; done || lia].
    case_if; [|exists j; split_and!; done || lia].
    exists (i + 2)%nat. replace (i + 2)%nat with (S (S i)) by lia. split_and!; done || lia.
  - rewrite andb_false_r. cbn [mbind option_bind]. rewrite (drop_ge d (S i)) in * by lia.
    exists j. split_and!; done || lia.
Qed.

Lemma skip_escape_rest d i : (i < length d)%nat ->
  exists j, skip_escape d (length d) i = Some j /\ drop j d = escape_rest (drop (S i) d) /\ (S i <= j <= length d)%nat.
Proof.
  intros Hi. unfold skip_escape. destruct (Nat.leb_spec (length d) (S i)).
  { exists (S i). rewrite drop_ge by lia. split_and!; done || lia. }
  destruct (drop_get d (S i)) as (b & -> & -> & _); [done|]. cbn [escape_rest mbind option_bind].
  case_if; [|case_if; [|exists (S (S i)); split_and!; done || lia]].
  - destruct (skip_csi_rest d (S (length d)) (S (S i))) as (j & ? & ? & ?); [lia..|].
    exists j. split_and!; done || lia.
  - destruct (skip_osc_rest d (S (length d)) (S (S i))) as (j & ? & ? & ?); [lia..|].
    exists j. split_and!; done || lia.
Qed.

(** ** In place equals out of place *)

Lemma clean_loop_ref fuel : forall d i n, (n <= i)%nat -> (i <= length d)%nat -> (length d < i + fuel)%nat ->
  exists n' d', clean_loop fuel d (length d) i n = Some (n', d') /\
    take n' d' = clean_ref fuel (drop i d) (take n d) /\ length d' = length d /\ (n' <= length d)%nat.
Proof.
  induction fuel as [|f IH]; intros d i n Hn Hi Hf; cbn [clean_loop]; [lia|].
  destruct (Nat.ltb_spec i (length d)) as [Hlt|];
    [|exists n, d; rewrite drop_ge by lia; split_and!; done || lia].
  destruct (drop_get d i Hlt) as (b & -> & -> & _). cbn [clean_ref mbind option_bind].
  case_if.
  { destruct (skip_escape_rest d i Hlt) as (j & -> & <- & ?). apply IH; lia. }
  case_if.
  { destruct (drop_last_chop d n) as (m & -> & ? & <-); [lia|]. apply IH; lia. }
  assert (Hwrite : exists n' d', (d1 ← put d n (b2z b); clean_loop f d1 (length d) (S i) (S n)) = Some (n', d') /\
    take n' d' = clean_ref f (drop (S i) d) (take n d ++ [b]) /\ length d' = length d /\ (n' <= length d)%nat).
  { unfold put. rewrite (proj2 (Nat.ltb_lt n (length d))) by lia. cbn [mbind option_bind]. rewrite z2b_b2z.
    specialize (IH (<[n:=b]> d) (S i) (S n)). rewrite length_insert in IH.
    rewrite (drop_insert_lt d (S i) n b) in IH by lia.
    rewrite (take_S_r _ _ b) in IH by (apply list_lookup_insert_eq; lia).
    rewrite take_insert_ge in IH by lia. apply IH; lia. }
  assert (Hskip : exists n' d', clean_loop f d (length d) (S i) n = Some (n', d') /\
    take n' d' = clean_ref f (drop (S i) d) (take n d) /\ length d' = length d /\ (n' <= length d)%nat) by (apply IH; lia).
  unfold plain_byte. clear IH.
  destruct (b2z b =? 0x0A) eqn:E1, (b2z b =? 0x09) eqn:E2; cbn [orb]; try exact Hwrite.
  destruct (Z.leb_spec 0x20 (b2z b)), (Z.ltb_spec (b2z b) 0x20);
    try lia; cbn [orb andb negb]; [|exact Hskip].
  destruct (b2z b =? 0x7F); [exact Hskip|exact Hwrite].
Qed.

(** ** What is left *)

Lemma chop_prefix out : exists k, chop out = take k out.
Proof.
  unfold chop. induction out as [|b out [k IH]] using rev_ind; [by exists 0%nat|].
  rewrite rev_app_distr. cbn [rev app drop_char]. case_if.
  - exists (Nat.min k (length out)). rewrite IH, take_app_le by lia. by rewrite <- take_take, (take_ge out (length out)).
  - exists (length out). by rewrite rev_involutive, take_app_length.
Qed.

(** A backspace takes back a whole character. *)
Lemma chop_character out c : scalar c -> chop (out ++ encode_cp c) = out.
Proof.
  intros Hc. unfold chop. rewrite rev_app_distr.
  pose proof (encode_cp_head c []) as Hh. rewrite app_nil_r in Hh. pose proof (encode_cp_cont c) as Hk.
  destruct (encode_cp c) as [|b l] eqn:E.
  { pose proof (encode_cp_length c Hc) as HL. rewrite E in HL. cbn in HL. lia. }
  cbn [rev]. assert (Hl : Forall (fun x => is_cont (b2z x) = true) l).
  { apply List.Forall_forall. intros x Hx. apply (In_nth _ _ x00) in Hx as (k & Hk1 & <-).
    specialize (Hk (S k) Hc). unfold rd in Hk. cbn in Hk. apply Hk. lia. }
  assert (Hb : is_cont (b2z b) = false) by (by apply Hh).
  assert (forall r t, Forall (fun x => is_cont (b2z x) = true) r -> drop_char (r ++ b :: t) = t) as Hd.
  { induction 1 as [|x r Hx _ IH]; cbn; [by rewrite Hb|by rewrite Hx]. }
  rewrite <- app_assoc. cbn [app]. rewrite Hd by (by apply Forall_rev). apply rev_involutive.
Qed.

Lemma chop_plain out : forallb plain_byte out = true -> forallb plain_byte (chop out) = true.
Proof.
  destruct (chop_prefix out) as [k ->]. intros H. rewrite <- (take_drop k out), forallb_app in H.
  by apply andb_true_iff in H as [? _].
Qed.

Lemma clean_ref_plain fuel : forall s out,
  forallb plain_byte out = true -> forallb plain_byte (clean_ref fuel s out) = true.
Proof.
  induction fuel as [|f IH]; intros [|b s] out Ho; cbn [clean_ref]; try done.
  case_if; [by apply IH|]. case_if; apply IH.
  - by apply chop_plain.
  - case_if; [|done]. rewrite forallb_app, Ho. cbn. by rewrite E1.
Qed.

Lemma plain_byte_not_esc b : plain_byte b = true -> (b2z b =? 0x1B) = false /\ (b2z b =? 8) = false.
Proof. unfold plain_byte. intros. lia. Qed.

Lemma clean_ref_id s : forall fuel out, (length s <= fuel)%nat ->
  forallb plain_byte s = true -> clean_ref fuel s out = out ++ s.
Proof.
  induction s as [|b s IH]; intros [|f] out Hf Hs; cbn [clean_ref length] in *;
    rewrite ?app_nil_r; try done; try lia.
  cbn in Hs. apply andb_true_iff in Hs as [Hb Hs].
  destruct (plain_byte_not_esc b Hb) as [-> ->]. rewrite Hb, IH by (done || lia).
  by rewrite <- app_assoc.
Qed.

(** More turns than bytes change nothing. *)
Lemma escape_rest_length s : (length (escape_rest s) <= length s)%nat.
Proof.
  assert (H1 : forall t, (length (csi_rest t) <= length t)%nat).
  { induction t as [|b t IH]; cbn; [lia|]. case_if; cbn; lia. }
  assert (H2 : forall k t, (length t <= k)%nat -> (length (osc_rest t) <= length t)%nat).
  { induction k as [|k IH]; intros [|b t] Hk; cbn in *; try lia. case_if; [lia|].
    destruct t as [|c t]; [cbn; lia|]. case_if; [cbn; lia|]. specialize (IH (c :: t) ltac:(lia)). cbn in *. lia. }
  destruct s as [|b s]; cbn [escape_rest length]; [lia|]. case_if; [specialize (H1 s); lia|].
  case_if; [specialize (H2 _ s (le_n _)); lia|lia].
Qed.

Lemma clean_ref_fuel f : forall s out, (length s <= f)%nat -> clean_ref f s out = clean_ref (length s) s out.
Proof.
  assert (H : forall f g s out, (length s <= f)%nat -> (length s <= g)%nat -> clean_ref f s out = clean_ref g s out).
  { clear. induction f as [|f IH]; intros [|g] [|b s] out Hf Hg; cbn [clean_ref length] in *; try done; try lia.
    pose proof (escape_rest_length s). repeat case_if; apply IH; lia. }
  intros s out Hs. by apply H.
Qed.

Lemma clean_text_total d : exists n d', clm_clean_text (Some d) (length d) = Some (n, Some d').
Proof.
  destruct (clean_loop_ref (S (length d)) d 0 0) as (n & d' & E & _); [lia..|].
  exists n, d'. unfold clm_clean_text. by rewrite E.
Qed.

(** ** Properties *)

(** C26. [clm_clean_text] edits its buffer safely and does what it is for. On any
    buffer it ends, and neither reads nor writes outside it; although it
    writes while it reads, what it leaves in the first [n] bytes is what a
    function from the whole input to a fresh list computes, in which a
    backspace takes back one whole character. Every byte left is a newline, a
    tab, or neither a C0 control nor DEL, so no escape sequence survives; and
    a second pass changes nothing. *)
Theorem clean_text_in_place d : exists n d',
  clm_clean_text (Some d) (length d) = Some (n, Some d') /\
  length d' = length d /\ take n d' = clean d /\ length (clean d) = n /\
  Forall (fun b => b2z b = 0x0A \/ b2z b = 0x09 \/ (0x20 <= b2z b /\ b2z b <> 0x7F)) (clean d) /\
  clean (clean d) = clean d /\
  forall out c, scalar c -> chop (out ++ encode_cp c) = out.
Proof.
  destruct (clean_loop_ref (S (length d)) d 0 0) as (n & d' & E & Ht & Hl & Hn); [lia..|].
  exists n, d'. unfold clm_clean_text. rewrite E. cbn [mbind option_bind]. rewrite drop_0, take_0, clean_ref_fuel in Ht by lia. fold (clean d) in Ht.
  assert (Hp : forallb plain_byte (clean d) = true) by (by apply clean_ref_plain).
  split_and!; try done.
  - rewrite <- Ht, length_take. lia.
  - apply List.Forall_forall. intros b Hb. rewrite forallb_forall in Hp.
    specialize (Hp b Hb). unfold plain_byte in Hp. lia.
  - unfold clean at 1. by rewrite clean_ref_id.
  - intros out c. apply chop_character.
Qed.

(** An escape takes one byte of what follows it: of a character of several
    bytes it leaves the rest, which is no text. *)
Example escape_splits_a_character :
  clm_clean_text (Some [x1b; xc3; xa9]) 3 = Some (1%nat, Some [xa9; xc3; xa9]).
Proof. reflexivity. Qed.
