(* ===== verification/Image.v ===== *)
(** Image helpers of [src/libclm/image.c]: base64 for data URLs, and the
    recognition of an image by its header. The header readers use checked
    reads: [None] is a read out of bounds or a loop that did not end, and
    [Some None] is the code's [-EINVAL]. *)

From S2P Require Import Prelude.

(** ** Base64 *)

Definition clm_base64_len (n : Z) : Z := (n + 2) / 3 * 4.

Definition tab : list byte :=
  bs "ABCDEFGHIJKLMNOPQRSTUVWXYZabcdefghijklmnopqrstuvwxyz0123456789+/".

(** [tab[v & 63]] *)
Definition tabc (v : Z) : byte := nth (Z.to_nat (Z.land v 63)) tab x00.

(** [clm_base64_encode]: whole triples, then the one or two bytes left. *)
Fixpoint clm_base64_encode (l : list byte) : list byte :=
  match l with
  | a :: b :: c :: rest =>
      let v := Z.lor (Z.lor (Z.shiftl (b2z a) 16) (Z.shiftl (b2z b) 8)) (b2z c) in
      tabc (Z.shiftr v 18) :: tabc (Z.shiftr v 12) :: tabc (Z.shiftr v 6) :: tabc v
        :: clm_base64_encode rest
  | [a; b] =>
      let v := Z.lor (Z.shiftl (b2z a) 16) (Z.shiftl (b2z b) 8) in
      [tabc (Z.shiftr v 18); tabc (Z.shiftr v 12); tabc (Z.shiftr v 6); x3d]
  | [a] =>
      let v := Z.shiftl (b2z a) 16 in
      [tabc (Z.shiftr v 18); tabc (Z.shiftr v 12); x3d; x3d]
  | [] => []
  end.

Definition b64val (c : Z) : Z :=
  if (0x41 <=? c) && (c <=? 0x5A) then c - 0x41
  else if (0x61 <=? c) && (c <=? 0x7A) then c - 0x61 + 26
  else if (0x30 <=? c) && (c <=? 0x39) then c - 0x30 + 52
  else if c =? 0x2B then 62
  else if c =? 0x2F then 63
  else -1.

(** The loop of [clm_base64_decode], one quantum per iteration. *)
Fixpoint decode_quanta (s : list byte) : option (list byte) :=
  match s with
  | i0 :: i1 :: i2 :: i3 :: rest =>
      let a := b64val (b2z i0) in let b := b64val (b2z i1) in
      let c := b64val (b2z i2) in let d := b64val (b2z i3) in
      let last := match rest with [] => true | _ => false end in
      let pad := if c <? 0 then 2 else if d <? 0 then 1 else 0 in
      let eq2 := b2z i2 =? 0x3D in let eq3 := b2z i3 =? 0x3D in
      if (a <? 0) || (b <? 0) then None
      else if (c <? 0) && negb (last && eq2 && eq3) then None
      else if (d <? 0) && negb (last && eq3) then None
      else
        let v := Z.lor (Z.lor (Z.lor (Z.shiftl a 18) (Z.shiftl b 12))
                          (Z.shiftl (if c <? 0 then 0 else c) 6))
                   (if d <? 0 then 0 else d) in
        if ((pad =? 2) && negb (Z.land v 0xffff =? 0)) ||
           ((pad =? 1) && negb (Z.land v 0xff =? 0)) then None
        else
          rest' ← decode_quanta rest;
          Some (z2b (Z.shiftr v 16)
                :: (if pad <? 2 then [z2b (Z.shiftr v 8)] else [])
                ++ (if pad <? 1 then [z2b v] else []) ++ rest')
  | _ => Some []
  end.

Definition clm_base64_decode (s : list byte) : option (list byte) :=
  if negb (zlen s mod 4 =? 0) then None else decode_quanta s.

(** ** Headers *)

Definition be16 (d : list byte) (p : nat) : option Z :=
  a ← get d p; b ← get d (p + 1); Some (Z.lor (Z.shiftl a 8) b).

Definition be32 (d : list byte) (p : nat) : option Z :=
  a ← get d p; b ← get d (p + 1); c ← get d (p + 2); e ← get d (p + 3);
  Some (Z.lor (Z.lor (Z.lor (Z.shiftl a 24) (Z.shiftl b 16)) (Z.shiftl c 8)) e).

Definition le16 (d : list byte) (p : nat) : option Z :=
  a ← get d p; b ← get d (p + 1); Some (Z.lor (Z.shiftl b 8) a).

Definition le24 (d : list byte) (p : nat) : option Z :=
  a ← get d p; b ← get d (p + 1); c ← get d (p + 2);
  Some (Z.lor (Z.lor (Z.shiftl c 16) (Z.shiftl b 8)) a).

(** Width and height, [None] for [-EINVAL]; the outer [None] is an error of
    the C program itself. *)
Definition sniffed := option (option (Z * Z)).

Definition sniff_png (d : list byte) : sniffed :=
  if (length d <? 24)%nat then Some None
  else
    ihdr ← memeq d 12 (bs "IHDR");
    if negb ihdr then Some None
    else w ← be32 d 16; h ← be32 d 20; Some (Some (w, h)).

Fixpoint jpeg_walk (fuel : nat) (d : list byte) (i : nat) : sniffed :=
  match fuel with
  | O => None
  | S f =>
      if (i + 4 <=? length d)%nat then
        b0 ← get d i;
        if negb (b0 =? 0xff) then Some None
        else
          m ← get d (i + 1);
          if m =? 0xff then jpeg_walk f d (i + 1)
          else if (m =? 0x01) || ((0xd0 <=? m) && (m <=? 0xd8)) then
            jpeg_walk f d (i + 2)
          else
            seg ← be16 d (i + 2);
            if seg <? 2 then Some None
            else if (0xc0 <=? m) && (m <=? 0xcf) && negb (m =? 0xc4)
                    && negb (m =? 0xc8) && negb (m =? 0xcc) then
              if (length d <? i + 9)%nat || (seg <? 7) then Some None
              else h ← be16 d (i + 5); w ← be16 d (i + 7); Some (Some (w, h))
            else jpeg_walk f d (i + 2 + Z.to_nat seg)
      else Some None
  end.

(** Every iteration moves [i] forward, so the length bounds the iterations. *)
Definition sniff_jpeg (d : list byte) : sniffed := jpeg_walk (S (length d)) d 2.

Definition sniff_gif (d : list byte) : sniffed :=
  if (length d <? 10)%nat then Some None
  else w ← le16 d 6; h ← le16 d 8; Some (Some (w, h)).

Definition sniff_webp (d : list byte) : sniffed :=
  if (length d <? 30)%nat then Some None
  else
    vp8x ← memeq d 12 (bs "VP8X");
    if vp8x : bool then
      w ← le24 d 24; h ← le24 d 27; Some (Some (wrap32 (w + 1), wrap32 (h + 1)))
    else
      vp8l ← memeq d 12 (bs "VP8L");
      if vp8l : bool then
        sig ← get d 20;
        if negb (sig =? 0x2f) then Some None
        else
          b0 ← get d 21; b1 ← get d 22; b2 ← get d 23; b3 ← get d 24;
          let b := Z.lor (Z.lor (Z.lor b0 (Z.shiftl b1 8)) (Z.shiftl b2 16))
                     (Z.shiftl b3 24) in
          Some (Some (Z.land b 0x3fff + 1, Z.land (Z.shiftr b 14) 0x3fff + 1))
      else
        vp8 ← memeq d 12 (bs "VP8 ");
        if vp8 : bool then
          s0 ← get d 23; s1 ← get d 24; s2 ← get d 25;
          if negb (s0 =? 0x9d) || negb (s1 =? 0x01) || negb (s2 =? 0x2a) then Some None
          else
            w ← le16 d 26; h ← le16 d 28;
            Some (Some (Z.land w 0x3fff, Z.land h 0x3fff))
        else Some None.

(** [len >= n && memcmp(data + off, lit) == 0]: the guard runs first. *)
Definition magic (d : list byte) (n off : nat) (lit : list byte) : option bool :=
  if (n <=? length d)%nat then memeq d off lit else Some false.

Definition png_magic : list byte := [x89; x50; x4e; x47; x0d; x0a; x1a; x0a].
Definition jpeg_magic : list byte := [xff; xd8; xff].

(** Media type, width and height. *)
Definition clm_image_sniff (data : option (list byte))
  : option (option (list byte * Z * Z)) :=
  match data with
  | None => Some None
  | Some d =>
      let finish mt (r : sniffed) :=
        wh ← r;
        match wh with
        | None => Some None
        | Some (w, h) =>
            if (w =? 0) || (h =? 0) then Some None else Some (Some (mt, w, h))
        end in
      png ← magic d 8 0 png_magic;
      if png : bool then finish (bs "image/png") (sniff_png d)
      else
        jpg ← magic d 3 0 jpeg_magic;
        if jpg : bool then finish (bs "image/jpeg") (sniff_jpeg d)
        else
          gif87 ← magic d 6 0 (bs "GIF87a");
          gif89 ← magic d 6 0 (bs "GIF89a");
          if gif87 || gif89 then finish (bs "image/gif") (sniff_gif d)
          else
            riff ← magic d 12 0 (bs "RIFF");
            webp ← magic d 12 8 (bs "WEBP");
            if riff && webp then finish (bs "image/webp") (sniff_webp d)
            else Some None
  end.

(** ** Base64 round trips *)

Lemma b64val_range b : -1 <= b64val (b2z b) <= 63.
Proof. pose proof (b2z_range b). unfold b64val. case_ifs; lia. Qed.

Lemma tabc_b64val b : 0 <= b64val (b2z b) -> tabc (b64val (b2z b)) = b.
Proof.
  intros H. assert (E : (if b64val (b2z b) <? 0 then b else tabc (b64val (b2z b))) = b)
    by (clear H; by_all_bytes b). apply Z.ltb_ge in H. by rewrite H in E.
Qed.

Lemma tabc_mod v : tabc v = tabc (v mod 64).
Proof. unfold tabc. by rewrite !land_63, Z.mod_mod. Qed.

Lemma b64val_tabc v : b64val (b2z (tabc v)) = v mod 64.
Proof.
  rewrite tabc_mod. pose proof (Z.mod_pos_bound v 64 ltac:(lia)) as H.
  revert H. generalize (v mod 64). clear v. intros v H.
  assert (forall n, (n < 64)%nat -> b64val (b2z (tabc (Z.of_nat n))) = Z.of_nat n) as Hn.
  { intros n Hn. do 64 (destruct n as [|n]; [reflexivity|]). lia. }
  rewrite <- (Z2Nat.id v) by lia. apply Hn. lia.
Qed.


(** Three bytes as one 24-bit number. *)
Lemma join3 a b c :
  Z.lor (Z.lor (Z.shiftl (b2z a) 16) (Z.shiftl (b2z b) 8)) (b2z c)
  = b2z a * 65536 + b2z b * 256 + b2z c.
Proof.
  pose proof (b2z_range b). pose proof (b2z_range c).
  rewrite (lor_shiftl_add _ (Z.shiftl (b2z b) 8)) by shl_lia.
  rewrite Z.shiftl_mul_pow2 by lia.
  replace (b2z a * 2 ^ 16 + b2z b * 2 ^ 8) with (Z.shiftl (b2z a * 256 + b2z b) 8)
    by shl_lia.
  rewrite lor_shiftl_add by lia. lia.
Qed.

(** Four sextets as one 24-bit number. *)
Lemma join4 a b c d : 0 <= b < 64 -> 0 <= c < 64 -> 0 <= d < 64 ->
  Z.lor (Z.lor (Z.lor (Z.shiftl a 18) (Z.shiftl b 12)) (Z.shiftl c 6)) d
  = a * 262144 + b * 4096 + c * 64 + d.
Proof.
  intros. rewrite (lor_shiftl_add a (Z.shiftl b 12)) by shl_lia.
  replace (a * 2 ^ 18 + Z.shiftl b 12) with (Z.shiftl (a * 64 + b) 12)
    by shl_lia.
  rewrite lor_shiftl_add by shl_lia.
  replace ((a * 64 + b) * 2 ^ 12 + Z.shiftl c 6) with (Z.shiftl ((a * 64 + b) * 64 + c) 6)
    by shl_lia.
  rewrite lor_shiftl_add by lia. lia.
Qed.

(** Induction by groups, as the two loops go. *)
Lemma list_ind3 {A} (P : list A -> Prop) :
  P [] -> (forall a, P [a]) -> (forall a b, P [a; b]) ->
  (forall a b c l, P l -> P (a :: b :: c :: l)) -> forall l, P l.
Proof.
  intros H0 H1 H2 H3. fix IH 1.
  intros [|a [|b [|c l]]]; [apply H0|apply H1|apply H2|apply H3, IH].
Qed.

Lemma list_ind4 {A} (P : list A -> Prop) :
  (forall l, (length l < 4)%nat -> P l) ->
  (forall a b c d l, P l -> P (a :: b :: c :: d :: l)) -> forall l, P l.
Proof.
  intros H0 H4. fix IH 1.
  intros [|a [|b [|c [|d l]]]]; [apply H0; cbn; lia..|apply H4, IH].
Qed.


(** The 24 bits of a quantum, taken apart into sextets and joined again. *)
Lemma sextets v : 0 <= v < 16777216 ->
  Z.lor (Z.lor (Z.lor (Z.shiftl (Z.shiftr v 18 mod 64) 18)
                      (Z.shiftl (Z.shiftr v 12 mod 64) 12))
               (Z.shiftl (Z.shiftr v 6 mod 64) 6)) (v mod 64) = v.
Proof.
  intros Hv. rewrite join4 by (apply Z.mod_pos_bound; lia).
  rewrite !shiftr_div by lia. euclid.
Qed.

Lemma join_bytes a b c (v := b2z a * 65536 + b2z b * 256 + b2z c) :
  0 <= v < 16777216 /\ z2b (Z.shiftr v 16) = a /\ z2b (Z.shiftr v 8) = b /\ z2b v = c.
Proof.
  pose proof (b2z_range a). pose proof (b2z_range b). pose proof (b2z_range c).
  subst v. rewrite !shiftr_div by lia. split; [lia|].
  split_and!; apply b2z_inj; rewrite b2z_z2b; euclid.
Qed.

(** A quantum decodes to the bytes it was made from, the last one included. *)
Lemma sextet_nonneg v : (v mod 64 <? 0) = false.
Proof. apply Z.ltb_ge. apply Z.mod_pos_bound. lia. Qed.

Lemma decode_quanta_encode l : decode_quanta (clm_base64_encode l) = Some l.
Proof.
  induction l as [|a|a b|a b c l IH] using list_ind3; [done|..];
    cbn [clm_base64_encode decode_quanta]; rewrite !b64val_tabc;
    change (b64val (b2z x3d)) with (-1); change (b2z x3d =? 0x3D) with true; rewrite !sextet_nonneg; cbn [Z.ltb Z.compare].
  - pose proof (join3 a x00 x00) as Ej. pose proof (join_bytes a x00 x00) as (Hv & E1 & _).
    change (b2z x00) with 0 in *. rewrite Z.shiftl_0_l, !Z.lor_0_r in Ej. rewrite Ej.
    cbv zeta in *. set (v := _ + _ + _) in *.
    assert (v mod 2 ^ 16 = 0) as Hz by (subst v; euclid).
    pose proof (sextets v Hv) as Hs.
    assert (Z.shiftr v 6 mod 64 = 0 /\ v mod 64 = 0) as [H6 H0]
      by (rewrite shiftr_div by lia; split; euclid).
    rewrite H6, H0 in Hs. rewrite Hs.
    rewrite (land_ones_mod v 16 65535), Hz by done. cbn. by rewrite E1.
  - pose proof (join3 a b x00) as Ej. pose proof (join_bytes a b x00) as (Hv & E1 & E2 & _).
    change (b2z x00) with 0 in *. rewrite !Z.lor_0_r in Ej. rewrite Ej.
    cbv zeta in *. set (v := _ + _ + _) in *.
    assert (v mod 2 ^ 8 = 0) as Hz by (subst v; euclid).
    pose proof (sextets v Hv) as Hs.
    assert (v mod 64 = 0) as H0 by euclid.
    rewrite H0 in Hs. rewrite Hs.
    rewrite (land_ones_mod v 8 255), Hz by done. cbn. by rewrite E1, E2.
  - rewrite join3. pose proof (join_bytes a b c) as (Hv & E1 & E2 & E3).
    set (v := _ + _ + _) in *. rewrite (sextets v Hv). cbn [orb andb negb Z.eqb].
    rewrite IH. cbn. by rewrite E1, E2, E3.
Qed.

Lemma clm_base64_encode_length l : zlen (clm_base64_encode l) = clm_base64_len (zlen l).
Proof.
  unfold clm_base64_len, zlen.
  induction l as [|a|a b|a b c l IH] using list_ind3; [done..|].
  cbn [clm_base64_encode length]. rewrite !Nat2Z.inj_succ. euclid.
Qed.

Lemma decode_encode l : clm_base64_decode (clm_base64_encode l) = Some l.
Proof.
  unfold clm_base64_decode. rewrite clm_base64_encode_length. unfold clm_base64_len.
  rewrite Z_mod_mult. apply decode_quanta_encode.
Qed.

(** Base64 text is a C string. *)
Lemma tabc_not_nul v : tabc v <> x00.
Proof. intros E. pose proof (b64val_tabc v) as H. rewrite E in H. cbn in H.
  pose proof (Z.mod_pos_bound v 64 ltac:(lia)). unfold b64val in H. cbn in H. lia. Qed.

Lemma encode_no_nul l : Forall (fun b => b <> x00) (clm_base64_encode l).
Proof.
  induction l as [|a|a b|a b c l IH] using list_ind3; cbn [clm_base64_encode];
    repeat first [apply List.Forall_nil | apply List.Forall_cons]; auto using tabc_not_nul; done.
Qed.

(** Four decoded sextets, encoded again. *)
Lemma sextets_inv a b c d (v := a * 262144 + b * 4096 + c * 64 + d) :
  0 <= a < 64 -> 0 <= b < 64 -> 0 <= c < 64 -> 0 <= d < 64 ->
  tabc (Z.shiftr v 18) = tabc a /\ tabc (Z.shiftr v 12) = tabc b /\
  tabc (Z.shiftr v 6) = tabc c /\ tabc v = tabc d /\
  b2z (z2b (Z.shiftr v 16)) * 65536 + b2z (z2b (Z.shiftr v 8)) * 256 + b2z (z2b v) = v.
Proof.
  intros. subst v. rewrite !b2z_z2b, !shiftr_div by lia.
  split_and!; [rewrite (tabc_mod (_ / _)), (tabc_mod _); f_equal; euclid..|
    rewrite (tabc_mod (_ + _)), (tabc_mod d); f_equal; euclid|euclid].
Qed.

Lemma decode_quanta_canonical s : (length s mod 4 = 0)%nat ->
  forall x, decode_quanta s = Some x -> clm_base64_encode x = s.
Proof.
  induction s as [s Hs|i0 i1 i2 i3 s IH] using list_ind4; intros Hm x.
  { destruct s; [|rewrite Nat.mod_small in Hm by done; done]. by intros [= <-]. }
  assert (Hm' : (length s mod 4 = 0)%nat).
  { cbn [length] in Hm. replace (S (S (S (S (length s))))) with (length s + 1 * 4)%nat in Hm by lia.
    by rewrite Nat.Div0.mod_add in Hm. }
  specialize (IH Hm'). cbn [decode_quanta].
  pose proof (b64val_range i0). pose proof (b64val_range i1).
  pose proof (b64val_range i2). pose proof (b64val_range i3).
  pose proof (tabc_b64val i0) as T0. pose proof (tabc_b64val i1) as T1.
  pose proof (tabc_b64val i2) as T2. pose proof (tabc_b64val i3) as T3.
  set (a := b64val (b2z i0)) in *. set (b := b64val (b2z i1)) in *.
  set (c := b64val (b2z i2)) in *. set (d := b64val (b2z i3)) in *.
  destruct ((a <? 0) || (b <? 0)) eqn:Eab; [done|]. apply orb_false_iff in Eab as [Ha Hb].
  bool_facts. rewrite join4 by (case_ifs; lia).
  destruct (Z.ltb_spec c 0) as [Hc|Hc]; cbn [andb orb Z.eqb Z.ltb Z.compare Pos.eqb Pos.compare Pos.compare_cont].
  - (* xx== *)
    destruct s as [|? ?]; [|cbn; done]. cbn [andb].
    destruct ((b2z i2 =? 0x3D) && (b2z i3 =? 0x3D)) eqn:E23; [|done]. cbn [negb].
    apply andb_true_iff in E23 as [E2 E3]. rewrite E3, andb_false_r. bool_facts.
    assert (i2 = x3d /\ i3 = x3d) as [-> ->] by (split; apply b2z_inj; done).
    change (d <? 0) with true. cbn [orb andb negb].
    pose proof (sextets_inv a b 0 0 ltac:(lia) ltac:(lia) ltac:(lia) ltac:(lia)) as (S1 & S2 & S3 & S4 & S5).
    set (v := _ + _ + _ + _) in *. rewrite (land_ones_mod v 16 65535) by done.
    destruct (v mod 2 ^ 16 =? 0) eqn:Ev; [|done]. intros [= <-]. bool_facts.
    cbn [clm_base64_encode].
    assert (Z.shiftl (b2z (z2b (Z.shiftr v 16))) 16 = v) as ->.
    { rewrite Z.shiftl_mul_pow2, b2z_z2b, shiftr_div in * by lia. subst v. euclid. }
    rewrite S1, S2, T0, T1 by lia. done.
  - destruct (Z.ltb_spec d 0) as [Hd|Hd]; cbn [andb orb].
    + (* xxx= *)
      destruct s as [|? ?]; [|cbn; done]. cbn [andb].
      destruct (b2z i3 =? 0x3D) eqn:E3; [|done]. cbn [negb]. bool_facts.
      assert (i3 = x3d) as -> by (apply b2z_inj; done).
      pose proof (sextets_inv a b c 0 ltac:(lia) ltac:(lia) ltac:(lia) ltac:(lia)) as (S1 & S2 & S3 & S4 & S5).
      set (v := _ + _ + _ + _) in *. cbn [Z.eqb Pos.eqb andb orb].
      rewrite (land_ones_mod v 8 255) by done.
      destruct (v mod 2 ^ 8 =? 0) eqn:Ev; [|done]. intros [= <-]. bool_facts.
      cbn [clm_base64_encode]. pose proof (join3 (z2b (Z.shiftr v 16)) (z2b (Z.shiftr v 8)) x00) as Ej.
      change (b2z x00) with 0 in Ej. rewrite Z.lor_0_r in Ej. rewrite Ej.
      assert (b2z (z2b v) = 0) as E0 by (rewrite b2z_z2b; exact Ev).
      rewrite E0 in S5. rewrite S5, S1, S2, S3, T0, T1, T2 by lia. done.
    + pose proof (sextets_inv a b c d ltac:(lia) ltac:(lia) ltac:(lia) ltac:(lia)) as (S1 & S2 & S3 & S4 & S5).
      set (v := _ + _ + _ + _) in *. cbn [Z.eqb andb orb].
      destruct (decode_quanta s) as [r|]; [|done]. cbn. intros [= <-].
      cbn [clm_base64_encode]. rewrite join3, S5, S1, S2, S3, S4, T0, T1, T2, T3 by lia.
      by rewrite (IH r).
Qed.

Lemma decode_quanta_length s x : decode_quanta s = Some x ->
  (length x <= length s / 4 * 3)%nat.
Proof.
  revert x. induction s as [s Hs|i0 i1 i2 i3 s IH] using list_ind4; intros x.
  { destruct s as [|? [|? [|? [|? ?]]]]; cbn in *; try lia; intros [= <-]; cbn; lia. }
  assert (Hd : (length (i0 :: i1 :: i2 :: i3 :: s) / 4 = 1 + length s / 4)%nat).
  { cbn [length]. replace (S (S (S (S (length s))))) with (1 * 4 + length s)%nat by lia.
    by rewrite Nat.div_add_l. }
  rewrite Hd. clear Hd. cbn [decode_quanta]. case_ifs; try done;
    destruct (decode_quanta s) as [r|]; try done; cbn [mbind option_bind];
    intros [= <-]; specialize (IH r eq_refl); cbn [length app]; lia.
Qed.

(** ** Reads stay in bounds *)

(** Turn each checked read of the goal into a value, given that the offset is
    below a length the context bounds. *)
Ltac read_ok :=
  match goal with
  | |- context [get ?d ?i] =>
      let v := fresh "v" in let E := fresh "E" in
      destruct (get_Some d i ltac:(lia)) as (v & E & ?); rewrite E;
      cbn [mbind option_bind]
  | |- context [memeq ?d ?o ?l] =>
      let b := fresh "b" in let E := fresh "E" in
      destruct (memeq_Some d o l ltac:(let n := eval vm_compute in (length l) in
                                         change (length l) with n; lia)) as (b & E);
      rewrite E; cbn [mbind option_bind]
  end.

Ltac lor_add :=
  rewrite ?(lor_shiftl_add _ _ 8), ?(lor_shiftl_add _ _ 16), ?(lor_shiftl_add _ _ 24)
    by shl_lia.

Lemma be16_ok d p : (p + 1 < length d)%nat -> exists v, be16 d p = Some v /\ 0 <= v < 65536.
Proof.
  intros. unfold be16. repeat read_ok. eexists. split; [done|].
  rewrite lor_shiftl_add by lia. lia.
Qed.

Lemma le16_ok d p : (p + 1 < length d)%nat -> exists v, le16 d p = Some v /\ 0 <= v < 65536.
Proof.
  intros. unfold le16. repeat read_ok. eexists. split; [done|].
  rewrite lor_shiftl_add by lia. lia.
Qed.

Lemma lor_bound a b k : 0 <= k -> 0 <= a < 2 ^ k -> 0 <= b < 2 ^ k -> 0 <= Z.lor a b < 2 ^ k.
Proof.
  intros Hk Ha Hb. split; [apply Z.lor_nonneg; lia|].
  destruct (decide (Z.lor a b = 0)) as [->|]; [lia|].
  apply Z.log2_lt_pow2; [pose proof (proj2 (Z.lor_nonneg a b)); lia|].
  rewrite Z.log2_lor by lia.
  destruct (decide (k = 0)) as [->|]; [assert (a = 0 /\ b = 0) as [-> ->] by lia; done|].
  apply Z.max_lub_lt.
  - destruct (decide (a = 0)) as [->|]; [cbn; lia|]. apply Z.log2_lt_pow2; lia.
  - destruct (decide (b = 0)) as [->|]; [cbn; lia|]. apply Z.log2_lt_pow2; lia.
Qed.

Lemma be32_ok d p : (p + 3 < length d)%nat -> exists v, be32 d p = Some v /\ 0 <= v < 2 ^ 32.
Proof.
  intros. unfold be32. repeat read_ok. eexists. split; [done|].
  repeat (apply lor_bound; [lia| |shl_lia]). shl_lia.
Qed.

Lemma le24_ok d p : (p + 2 < length d)%nat -> exists v, le24 d p = Some v /\ 0 <= v < 2 ^ 24.
Proof.
  intros. unfold le24. repeat read_ok. eexists. split; [done|].
  repeat (apply lor_bound; [lia| |shl_lia]). shl_lia.
Qed.

(** The outcome of a header reader that stays in bounds and ends: a refusal,
    or dimensions of at most [m]. *)
Definition sniff_ok (m : Z) (r : sniffed) : Prop :=
  match r with
  | None => False
  | Some None => True
  | Some (Some (w, h)) => 0 <= w <= m /\ 0 <= h <= m
  end.

Ltac read_val lem d p :=
  let v := fresh "v" in let E := fresh "E" in
  destruct (lem d p ltac:(lia)) as (v & E & ?); rewrite E; cbn [mbind option_bind].

Lemma sniff_png_ok d : sniff_ok 4294967295 (sniff_png d).
Proof.
  unfold sniff_png. case_if; [done|]. read_ok. case_if; [done|].
  read_val be32_ok d 16%nat. read_val be32_ok d 20%nat. cbn. lia.
Qed.

Lemma sniff_gif_ok d : sniff_ok 65535 (sniff_gif d).
Proof.
  unfold sniff_gif. case_if; [done|].
  read_val le16_ok d 6%nat. read_val le16_ok d 8%nat. cbn. lia.
Qed.

Ltac read_tag d o lit b :=
  let E := fresh "E" in
  destruct (memeq_Some d o lit ltac:(let n := eval vm_compute in (length lit) in
      change (length lit) with n; lia)) as (b & E);
  rewrite E; cbn [mbind option_bind].

Ltac read_byte d i :=
  let v := fresh "v" in let E := fresh "E" in
  destruct (get_Some d i ltac:(lia)) as (v & E & ?); rewrite E; cbn [mbind option_bind].

Lemma jpeg_walk_ok d fuel : forall i, (length d - i < fuel)%nat ->
  sniff_ok 65535 (jpeg_walk fuel d i).
Proof.
  induction fuel as [|f IH]; intros i Hf; [lia|]. cbn [jpeg_walk].
  case_if; [|done]. read_byte d i. case_if; [done|]. read_byte d (i + 1)%nat.
  case_if; [apply IH; lia|]. case_if; [apply IH; lia|].
  read_val be16_ok d (i + 2)%nat. case_if; [done|].
  case_if; [|apply IH; lia]. case_if; [done|].
  read_val be16_ok d (i + 5)%nat. read_val be16_ok d (i + 7)%nat. cbn. lia.
Qed.

Lemma land_14 a : 0 <= Z.land a 0x3fff < 16384.
Proof. rewrite (land_ones_mod a 14) by done. apply Z.mod_pos_bound. lia. Qed.

Lemma sniff_webp_ok d : sniff_ok 16777216 (sniff_webp d).
Proof.
  unfold sniff_webp. case_if; [done|]. read_tag d 12%nat (bs "VP8X") b. destruct b.
  { read_val le24_ok d 24%nat. read_val le24_ok d 27%nat. cbn.
    rewrite !wrap32_id by (unfold is_u32, UINT32_MAX; lia). lia. }
  read_tag d 12%nat (bs "VP8L") b. destruct b.
  { read_byte d 20%nat. case_if; [done|]. repeat read_ok. cbn.
    match goal with |- 0 <= Z.land ?a _ + 1 <= _ /\ 0 <= Z.land ?b _ + 1 <= _ =>
      pose proof (land_14 a); pose proof (land_14 b) end. lia. }
  read_tag d 12%nat (bs "VP8 ") b. destruct b; [|done].
  read_byte d 23%nat. read_byte d 24%nat. read_byte d 25%nat. case_if; [done|].
  read_val le16_ok d 26%nat. read_val le16_ok d 28%nat. cbn.
  match goal with |- 0 <= Z.land ?a _ <= _ /\ 0 <= Z.land ?b _ <= _ =>
      pose proof (land_14 a); pose proof (land_14 b) end. lia.
Qed.

(** A magic number is looked at only when the buffer is long enough. *)
Lemma magic_ok d n off lit : (off + length lit <= n)%nat -> exists b, magic d n off lit = Some b.
Proof.
  intros. unfold magic. case_if; [|by eexists]. apply memeq_Some. lia.
Qed.

Definition media_types : list (list byte) :=
  [bs "image/png"; bs "image/jpeg"; bs "image/gif"; bs "image/webp"].

(** What [clm_image_sniff] answers: a refusal, or a known type with
    dimensions that are positive and fit the [uint32_t] outputs. *)
Definition sniff_answer (r : option (option (list byte * Z * Z))) : Prop :=
  match r with
  | None => False
  | Some None => True
  | Some (Some (mt, w, h)) =>
      mt ∈ media_types /\ 1 <= w <= UINT32_MAX /\ 1 <= h <= UINT32_MAX
  end.

(** ** Properties *)

(** C27. Base64 loses nothing: decoding what [clm_base64_encode] wrote gives
    the input back, and the text has exactly the [clm_base64_len(n)]
    characters the caller allocated for. *)
Theorem base64_roundtrip l :
  clm_base64_decode (clm_base64_encode l) = Some l /\
  zlen (clm_base64_encode l) = clm_base64_len (zlen l).
Proof.
  split; [apply decode_encode|apply clm_base64_encode_length].
Qed.

(** The decoder accepts canonical text only: what it decodes is the
    encoding of the result, so two different texts never decode to the same
    bytes; and the result fits the [n / 4 * 3] bytes the caller allocates. *)
Theorem base64_decode_canonical s x (H : clm_base64_decode s = Some x) :
  clm_base64_encode x = s /\ zlen x <= zlen s / 4 * 3.
Proof.
  unfold clm_base64_decode in H. destruct (zlen s mod 4 =? 0) eqn:E; cbn [negb] in H; [|done]. bool_facts. unfold zlen in *.
  split.
  - apply decode_quanta_canonical; [|done].
    apply Nat2Z.inj. rewrite Nat2Z.inj_mod. done.
  - pose proof (decode_quanta_length s x H).
    change 4 with (Z.of_nat 4). rewrite <- Nat2Z.inj_div. lia.
Qed.

Lemma base64_decode_canonical_witness :
  clm_base64_decode (bs "Zm9vYg==") = Some (bs "foob") /\
  clm_base64_encode (bs "foob") = bs "Zm9vYg==" /\ zlen (bs "foob") <= 6.
Proof.
  split; [by vm_compute|].
  apply (base64_decode_canonical (bs "Zm9vYg==") (bs "foob")). by vm_compute.
Defined.

Lemma sniff_answers data : sniff_answer (clm_image_sniff data).
Proof.
  destruct data as [d|]; [|done]. unfold clm_image_sniff.
  assert (Hfin : forall mt r m, mt ∈ media_types -> sniff_ok m r -> m <= UINT32_MAX ->
    sniff_answer (wh ← r; match wh with
      | None => Some None
      | Some (w, h) => if (w =? 0) || (h =? 0) then Some None else Some (Some (mt, w, h))
      end)).
  { intros mt [[[w h]|]|] m Hmt; cbn; [|done..]. intros [Hw Hh] Hm.
    case_if; [done|]. cbn. split; [done|lia]. }
  assert (Hj : sniff_ok 65535 (sniff_jpeg d)) by (apply jpeg_walk_ok; lia).
  destruct (magic_ok d 8 0 png_magic ltac:(done)) as [[] ->]; cbn [mbind option_bind].
  { eapply Hfin; [by left|apply sniff_png_ok|done]. }
  destruct (magic_ok d 3 0 jpeg_magic ltac:(done)) as [[] ->]; cbn [mbind option_bind].
  { eapply Hfin; [right; by left|exact Hj|done]. }
  destruct (magic_ok d 6 0 (bs "GIF87a") ltac:(vm_compute; lia)) as [g7 ->]; cbn [mbind option_bind].
  destruct (magic_ok d 6 0 (bs "GIF89a") ltac:(vm_compute; lia)) as [g9 ->]; cbn [mbind option_bind].
  destruct (g7 || g9).
  { eapply Hfin; [do 2 right; by left|apply sniff_gif_ok|done]. }
  destruct (magic_ok d 12 0 (bs "RIFF") ltac:(vm_compute; lia)) as [r ->]; cbn [mbind option_bind].
  destruct (magic_ok d 12 8 (bs "WEBP") ltac:(vm_compute; lia)) as [w ->]; cbn [mbind option_bind].
  destruct (r && w); [|done].
  eapply Hfin; [do 3 right; by left|apply sniff_webp_ok|done].
Qed.

(** [clm_image_sniff] is safe on every buffer: it never reads past the
    end and its JPEG walk ends, whatever the bytes are; and when it succeeds
    the type is one of the four it knows and both dimensions are at least 1
    and fit 32 bits. *)
Theorem image_sniff_safe data : sniff_answer (clm_image_sniff data).
Proof. apply sniff_answers. Qed.
