(* ===== verification/RateLimit.v ===== *)
(** The token bucket of [src/libclm/ratelimit.c].

    The clock is an argument: each operation reads [now_usec] at most once,
    in [refill], so an operation takes the reading it would make. *)

From S2P Require Import Prelude.

(** ** State *)

Record clm_ratelimit := mk_ratelimit {
  rl_rate : Z;      (* tokens per second, 0 = unlimited *)
  rl_burst : Z;     (* max tokens *)
  rl_tokens : Z;    (* current tokens *)
  rl_last_usec : Z  (* last refill timestamp *)
}.

(** ** Operations *)

Definition refill (rl : clm_ratelimit) (now : Z) : clm_ratelimit :=
  if rl_rate rl =? 0 then rl
  else
    let elapsed := wrap64 (now - rl_last_usec rl) in
    if elapsed =? 0 then rl
    else if UINT64_MAX / rl_rate rl <=? elapsed then
      mk_ratelimit (rl_rate rl) (rl_burst rl) (rl_burst rl) now
    else
      let added := wrap64 (rl_rate rl * elapsed) / 1000000 in
      if added =? 0 then rl
      else if wrap64 (rl_burst rl - rl_tokens rl) <=? added then
        mk_ratelimit (rl_rate rl) (rl_burst rl) (rl_burst rl) now
      else
        let used := wrap64 (added * 1000000) / rl_rate rl in
        mk_ratelimit (rl_rate rl) (rl_burst rl)
          (wrap64 (rl_tokens rl + added)) (wrap64 (rl_last_usec rl + used)).

Definition clm_ratelimit_new (rate burst now : Z) : clm_ratelimit :=
  let b := if burst =? 0 then rate else burst in
  mk_ratelimit rate b b now.

Definition clm_ratelimit_allow (o : option clm_ratelimit) (now n : Z)
  : bool * option clm_ratelimit :=
  match o with
  | None => (true, None)
  | Some rl =>
      if rl_rate rl =? 0 then (true, Some rl)
      else
        let r := refill rl now in
        if n <=? rl_tokens r then
          (true, Some (mk_ratelimit (rl_rate r) (rl_burst r)
                         (wrap64 (rl_tokens r - n)) (rl_last_usec r)))
        else (false, Some r)
  end.

Definition clm_ratelimit_delay (o : option clm_ratelimit) (now n : Z)
  : Z * option clm_ratelimit :=
  match o with
  | None => (0, None)
  | Some rl =>
      if rl_rate rl =? 0 then (0, Some rl)
      else
        let r := refill rl now in
        if n <=? rl_tokens r then (0, Some r)
        else
          let deficit := wrap64 (n - rl_tokens r) in
          (wrap64 (deficit * 1000000) / rl_rate r, Some r)
  end.

Definition clm_ratelimit_consume (o : option clm_ratelimit) (now n : Z)
  : option clm_ratelimit :=
  match o with
  | None => None
  | Some rl =>
      if rl_rate rl =? 0 then Some rl
      else
        let r := refill rl now in
        Some (mk_ratelimit (rl_rate r) (rl_burst r)
                (if n <=? rl_tokens r then wrap64 (rl_tokens r - n) else 0)
                (rl_last_usec r))
  end.

Definition clm_ratelimit_tokens (o : option clm_ratelimit) (now : Z)
  : Z * option clm_ratelimit :=
  match o with
  | None => (UINT64_MAX, None)
  | Some rl =>
      if rl_rate rl =? 0 then (UINT64_MAX, Some rl)
      else let r := refill rl now in (rl_tokens r, Some r)
  end.

Definition clm_ratelimit_set_rate (o : option clm_ratelimit) (now rate : Z)
  : option clm_ratelimit :=
  match o with
  | None => None
  | Some rl =>
      let r := refill rl now in
      Some (mk_ratelimit rate (rl_burst r) (rl_tokens r) (rl_last_usec r))
  end.

Definition clm_ratelimit_set_burst (o : option clm_ratelimit) (burst : Z)
  : option clm_ratelimit :=
  match o with
  | None => None
  | Some rl =>
      Some (mk_ratelimit (rl_rate rl) burst
              (if burst <? rl_tokens rl then burst else rl_tokens rl)
              (rl_last_usec rl))
  end.

(** ** Traces *)

(** The calls an embedder makes, each with the clock it would read. *)
Inductive rl_op :=
  | OpAllow (n : Z)
  | OpConsume (n : Z)
  | OpDelay (n : Z)
  | OpTokens
  | OpSetRate (rate : Z)
  | OpSetBurst (burst : Z).

(** One call: the tokens it took out of the bucket, and the bucket after. *)
Definition rl_step (rl : clm_ratelimit) (now : Z) (op : rl_op)
  : Z * clm_ratelimit :=
  let back o := default rl o in
  match op with
  | OpAllow n =>
      let '(ok, o) := clm_ratelimit_allow (Some rl) now n in
      (if ok then n else 0, back o)
  | OpConsume n =>
      (Z.min n (fst (clm_ratelimit_tokens (Some rl) now)),
       back (clm_ratelimit_consume (Some rl) now n))
  | OpDelay n => (0, back (snd (clm_ratelimit_delay (Some rl) now n)))
  | OpTokens => (0, back (snd (clm_ratelimit_tokens (Some rl) now)))
  | OpSetRate r => (0, back (clm_ratelimit_set_rate (Some rl) now r))
  | OpSetBurst b => (0, back (clm_ratelimit_set_burst (Some rl) b))
  end.

Fixpoint rl_run (rl : clm_ratelimit) (ops : list (Z * rl_op))
  : Z * clm_ratelimit :=
  match ops with
  | [] => (0, rl)
  | (now, op) :: rest =>
      let '(g, rl1) := rl_step rl now op in
      let '(gs, rl2) := rl_run rl1 rest in
      (g + gs, rl2)
  end.

(** Clock readings in order, from [t0] to at most [t1]. *)
Fixpoint rl_times (t0 t1 : Z) (ops : list (Z * rl_op)) : Prop :=
  match ops with
  | [] => t0 <= t1
  | (now, _) :: rest => t0 <= now /\ rl_times now t1 rest
  end.

Definition rl_op_ok (op : rl_op) : Prop :=
  match op with
  | OpAllow n | OpConsume n | OpDelay n | OpSetRate n | OpSetBurst n => is_u64 n
  | OpTokens => True
  end.

(** Calls that leave the rate and the burst alone. *)
Definition rl_op_plain (op : rl_op) : Prop :=
  match op with OpSetRate _ | OpSetBurst _ => False | _ => True end.

(** ** The unbounded reference *)

(** [refill] over unbounded integers: what the machine code means. *)
Definition refill_ideal (rl : clm_ratelimit) (now : Z) : clm_ratelimit :=
  let r := rl_rate rl in
  let elapsed := now - rl_last_usec rl in
  if (r =? 0) || (elapsed =? 0) then rl
  else if (UINT64_MAX / r <=? elapsed)
       || (rl_burst rl - rl_tokens rl <=? r * elapsed / 1000000)
          && negb (r * elapsed / 1000000 =? 0) then
    mk_ratelimit r (rl_burst rl) (rl_burst rl) now
  else
    mk_ratelimit r (rl_burst rl) (rl_tokens rl + r * elapsed / 1000000)
      (rl_last_usec rl + r * elapsed / 1000000 * 1000000 / r).

Record rl_wf (rl : clm_ratelimit) (now : Z) : Prop := {
  wf_rate : is_u64 (rl_rate rl);
  wf_burst : is_u64 (rl_burst rl);
  wf_tokens : 0 <= rl_tokens rl <= rl_burst rl;
  wf_last : 0 <= rl_last_usec rl <= now;
  wf_now : is_u64 now
}.

(** ** Arithmetic of one refill *)

Lemma div_mul_bounds a b : 0 < b -> a / b * b <= a < a / b * b + b.
Proof. intros. pose proof (Z.div_mod a b ltac:(lia)). pose proof (Z.mod_pos_bound a b ltac:(lia)). lia. Qed.

Lemma elapsed_small r e : 0 < r -> 0 <= e -> e < UINT64_MAX / r ->
  0 <= r * e <= UINT64_MAX - r.
Proof.
  intros Hr He H. pose proof (div_mul_bounds UINT64_MAX r Hr). nia.
Qed.

Lemma refill_matches_ideal rl now :
  rl_wf rl now -> refill rl now = refill_ideal rl now.
Proof.
  intros [Hr Hb Ht Hl Hn]. unfold refill, refill_ideal. cbv zeta.
  unfold is_u64 in *.
  destruct (Z.eqb_spec (rl_rate rl) 0) as [E0|E0]; [done|cbn [orb]].
  rewrite (wrap64_id (now - _)) by (unfold is_u64; lia).
  destruct (Z.eqb_spec (now - rl_last_usec rl) 0) as [E1|E1]; [done|].
  destruct (Z.leb_spec (UINT64_MAX / rl_rate rl) (now - rl_last_usec rl)) as [H|H];
    [done|cbn [orb]].
  pose proof (elapsed_small (rl_rate rl) (now - rl_last_usec rl) ltac:(lia) ltac:(lia) H) as He.
  rewrite (wrap64_id (rl_rate rl * _)) by (unfold is_u64; lia).
  set (a := rl_rate rl * (now - rl_last_usec rl) / 1000000).
  pose proof (div_mul_bounds (rl_rate rl * (now - rl_last_usec rl)) 1000000 ltac:(lia)) as Ha.
  fold a in Ha.
  rewrite (wrap64_id (rl_burst rl - _)) by (unfold is_u64; lia).
  destruct (Z.eqb_spec a 0) as [Ea|Ea].
  - rewrite Ea, andb_false_r, Z.add_0_r, Z.mul_0_l, Z.div_0_l, Z.add_0_r by lia.
    by destruct rl.
  - rewrite andb_true_r. destruct (Z.leb_spec (rl_burst rl - rl_tokens rl) a); [done|].
    pose proof (div_mul_bounds (a * 1000000) (rl_rate rl) ltac:(lia)).
    rewrite (wrap64_id (a * 1000000)) by (unfold is_u64; lia).
    rewrite !wrap64_id; [done|unfold is_u64; nia..].
Qed.

Lemma refill_wf rl now : rl_wf rl now -> rl_wf (refill rl now) now.
Proof.
  intros W. rewrite (refill_matches_ideal _ _ W). destruct W as [Hr Hb Ht Hl Hn].
  unfold refill_ideal; cbv zeta. unfold is_u64 in *.
  case_if; [constructor; done|].
  destruct ((UINT64_MAX / _ <=? _) || _) eqn:Ef; [constructor; cbn; unfold is_u64; lia|].
  apply orb_false_iff in Ef as [Es Ef]; bool_facts.
  pose proof (elapsed_small (rl_rate rl) (now - rl_last_usec rl) ltac:(lia) ltac:(lia) ltac:(lia)).
  set (a := rl_rate rl * (now - rl_last_usec rl) / 1000000) in *.
  pose proof (div_mul_bounds (rl_rate rl * (now - rl_last_usec rl)) 1000000 ltac:(lia)) as Ha.
  fold a in Ha.
  pose proof (div_mul_bounds (a * 1000000) (rl_rate rl) ltac:(lia)).
  assert (a = 0 \/ a < rl_burst rl - rl_tokens rl).
  { apply andb_false_iff in Ef as [Ef|Ef]; bool_facts; lia. }
  constructor; cbn; unfold is_u64; nia.
Qed.

Lemma refill_params rl now :
  rl_rate (refill rl now) = rl_rate rl /\ rl_burst (refill rl now) = rl_burst rl.
Proof. unfold refill; cbv zeta. case_ifs; done. Qed.

(** ** Reachable states *)

Lemma rl_step_wf rl now op :
  rl_op_ok op -> rl_wf rl now -> rl_wf (snd (rl_step rl now op)) now.
Proof.
  intros Hop W. pose proof (refill_wf _ _ W) as W'.
  pose proof W' as [? ? ? ? ?]. pose proof W as [? ? ? ? ?]. unfold is_u64 in *.
  destruct op; cbn in *; unfold is_u64 in *; case_ifs; cbn; try done;
    constructor; cbn; unfold is_u64; rewrite ?wrap64_id; unfold is_u64; lia.
Qed.

Lemma rl_wf_later rl t t' : rl_wf rl t -> t <= t' -> is_u64 t' -> rl_wf rl t'.
Proof. intros [] ? ?. constructor; unfold is_u64 in *; lia. Qed.

Lemma rl_times_le ops : forall t0 t1, rl_times t0 t1 ops -> t0 <= t1.
Proof.
  induction ops as [|[? ?] ? IH]; cbn; intros t0 t1 Ht; [done|].
  destruct Ht as [? Ht]. apply IH in Ht. lia.
Qed.

Lemma rl_run_wf ops : forall rl t0 t1,
  rl_wf rl t0 -> Forall (fun o => rl_op_ok (snd o)) ops ->
  rl_times t0 t1 ops -> is_u64 t1 -> rl_wf (snd (rl_run rl ops)) t1.
Proof.
  induction ops as [|[now op] ops IH]; intros rl t0 t1 W Hok Ht H1; cbn.
  - by eapply rl_wf_later.
  - destruct Ht as [? Ht]. inversion Hok as [|? ? Hop Hops]; subst.
    pose proof (rl_times_le _ _ _ Ht) as Hn.
    pose proof (rl_step_wf rl now op Hop) as Ws.
    destruct (rl_step rl now op) as [g rl1]. cbn in Ws.
    destruct (rl_run rl1 ops) as [gs rl2] eqn:E. cbn.
    change rl2 with (snd (gs, rl2)). rewrite <- E.
    eapply IH; [|done..]. apply Ws.
    destruct W. eapply rl_wf_later; [constructor; eauto| |]; unfold is_u64 in *; lia.
Qed.

Lemma new_wf rate burst now :
  is_u64 rate -> is_u64 burst -> is_u64 now -> rl_wf (clm_ratelimit_new rate burst now) now.
Proof.
  intros. unfold clm_ratelimit_new. constructor; cbn; unfold is_u64 in *; case_ifs; lia.
Qed.

(** ** The bucket as a potential *)

(** Micro-tokens the bucket stands for at [t]: what it holds plus what the
    time since the last refill is worth. *)
Definition credit (rl : clm_ratelimit) (t : Z) : Z :=
  rl_tokens rl * 1000000 + rl_rate rl * (t - rl_last_usec rl).

(** What one refill can create by rounding [used] down: nothing when the rate
    divides a million, or is a multiple of it. *)
Definition rounding (rate : Z) : Z :=
  if (1000000 mod rate =? 0) || (rate mod 1000000 =? 0) then 0 else rate - 1.

(** The settings for which the shortcut "already dwarfs a full burst" of
    [refill] is right. *)
Definition rl_sane (rate burst : Z) : Prop :=
  0 < rate /\ 0 <= burst /\ burst * 1000000 + rate <= UINT64_MAX.

Lemma used_rounding r e : 0 < r -> 0 <= e ->
  let a := r * e / 1000000 in
  a * 1000000 - rounding r <= r * (a * 1000000 / r) <= a * 1000000.
Proof.
  intros Hr He a. pose proof (div_mul_bounds (a * 1000000) r Hr) as Hu.
  unfold rounding. destruct (Z.eqb_spec (1000000 mod r) 0) as [E|E]; cbn [orb].
  - apply Z.mod_divide in E as [k Hk]; [|lia].
    rewrite Hk, Z.mul_assoc, Z.div_mul by lia. lia.
  - destruct (Z.eqb_spec (r mod 1000000) 0) as [F|F]; [|lia].
    apply Z.mod_divide in F as [k Hk]; [|lia].
    assert (a = k * e) as Ha.
    { unfold a. rewrite Hk. replace (k * 1000000 * e) with (k * e * 1000000) by ring.
      apply Z.div_mul. lia. }
    assert (a * 1000000 / r = e) as ->.
    { rewrite Ha. replace (k * e * 1000000) with (e * r) by (rewrite Hk; ring).
      apply Z.div_mul. lia. }
    nia.
Qed.

(** A refill never adds credit beyond the rounding slack. *)
Lemma refill_credit_upper rl now :
  rl_wf rl now -> rl_sane (rl_rate rl) (rl_burst rl) ->
  credit (refill rl now) now <= credit rl now + rounding (rl_rate rl).
Proof.
  intros W [Hr [Hb Hs]]. rewrite refill_matches_ideal by done.
  destruct W as [? ? Ht Hl ?]. unfold refill_ideal, credit; cbv zeta.
  set (e := now - rl_last_usec rl) in *.
  assert (0 <= rounding (rl_rate rl)) by (unfold rounding; case_ifs; lia).
  pose proof (used_rounding (rl_rate rl) e ltac:(lia) ltac:(lia)) as Hu.
  cbv zeta in Hu. pose proof (div_mul_bounds (rl_rate rl * e) 1000000 ltac:(lia)) as Ha.
  pose proof (div_mul_bounds UINT64_MAX (rl_rate rl) Hr).
  set (a := rl_rate rl * e / 1000000) in *.
  case_if; [subst e; lia|].
  destruct ((UINT64_MAX / _ <=? _) || _) eqn:Ef; cbn.
  - assert (rl_burst rl * 1000000 <= rl_tokens rl * 1000000 + rl_rate rl * e); [|nia].
    apply orb_true_iff in Ef as [Ef|Ef]; bool_facts; nia.
  - subst e. nia.
Qed.

(** A refill keeps what the bucket is worth, up to its capacity. *)
Lemma refill_credit_lower rl now :
  rl_wf rl now -> 0 < rl_rate rl ->
  Z.min (rl_burst rl * 1000000) (credit rl now)
    <= Z.min (rl_burst rl * 1000000) (credit (refill rl now) now).
Proof.
  intros W Hr. rewrite refill_matches_ideal by done.
  destruct W as [? ? Ht Hl ?]. unfold refill_ideal, credit; cbv zeta.
  set (e := now - rl_last_usec rl) in *.
  pose proof (used_rounding (rl_rate rl) e ltac:(lia) ltac:(lia)) as Hu.
  cbv zeta in Hu. set (a := rl_rate rl * e / 1000000) in *.
  case_if; [subst e; lia|]. case_if; cbn; subst e; nia.
Qed.

(** After a refill the bucket holds every whole token it is worth. *)
Lemma refill_whole_tokens rl now n :
  rl_wf rl now -> rl_sane (rl_rate rl) (rl_burst rl) ->
  n * 1000000 <= Z.min (rl_burst rl * 1000000) (credit rl now) ->
  n <= rl_tokens (refill rl now).
Proof.
  intros W [Hr [Hb Hs]] Hn. rewrite refill_matches_ideal by done.
  destruct W as [? ? Ht Hl ?]. unfold refill_ideal, credit in *; cbv zeta.
  set (e := now - rl_last_usec rl) in *.
  pose proof (div_mul_bounds (rl_rate rl * e) 1000000 ltac:(lia)) as Ha.
  set (a := rl_rate rl * e / 1000000) in *.
  case_if; [subst e; nia|]. case_if; cbn; nia.
Qed.

Definition rl_plain_op (o : Z * rl_op) : Prop :=
  rl_op_ok (snd o) /\ rl_op_plain (snd o).

(** One plain call: what it takes leaves the credit, and nothing else does. *)
Lemma rl_step_credit rl now op :
  rl_plain_op (now, op) -> rl_wf rl now -> 0 < rl_rate rl ->
  let '(g, rl') := rl_step rl now op in
  0 <= g /\ rl_rate rl' = rl_rate rl /\ rl_burst rl' = rl_burst rl /\
  credit rl' now + g * 1000000 = credit (refill rl now) now.
Proof.
  intros [Hok Hp] W Hr. pose proof (refill_wf _ _ W) as [? ? ? ? ?].
  destruct (refill_params rl now) as [Er Eb]. unfold credit, is_u64 in *.
  assert (E0 : (rl_rate rl =? 0) = false) by (apply Z.eqb_neq; lia).
  destruct op; cbn in *; try done; rewrite ?E0; case_ifs; cbn;
    unfold is_u64 in *; rewrite ?wrap64_id; unfold is_u64; repeat split; try done; lia.
Qed.

(** ** Rates that change *)

(** The potential at rate [R], which is the credit when [R] is the bucket's
    own rate and more when it is not. *)
Definition potential (R : Z) (rl : clm_ratelimit) (t : Z) : Z :=
  rl_tokens rl * 1000000 + R * (t - rl_last_usec rl).

(** The settings of the bucket stay within [R] and [B], the rounding of its
    rate within [d]. *)
Definition rl_within (R B d : Z) (rl : clm_ratelimit) : Prop :=
  0 < rl_rate rl <= R /\ 0 <= rl_burst rl <= B /\ rounding (rl_rate rl) <= d.

Definition op_within (R B d : Z) (op : rl_op) : Prop :=
  match op with
  | OpSetRate r => 0 < r <= R /\ rounding r <= d
  | OpSetBurst b => b <= B
  | _ => True
  end.

Lemma rounding_nonneg r : 0 < r -> 0 <= rounding r.
Proof. unfold rounding. case_ifs; lia. Qed.

Lemma within_sane R B d rl : rl_sane R B -> rl_within R B d rl -> rl_sane (rl_rate rl) (rl_burst rl).
Proof. unfold rl_sane, rl_within. lia. Qed.

Lemma refill_last rl now : rl_wf rl now -> rl_last_usec rl <= rl_last_usec (refill rl now).
Proof.
  intros W. rewrite refill_matches_ideal by done. destruct W as [[Hr _] _ _ ? _].
  unfold refill_ideal; cbv zeta. case_if; [lia|]. case_if; cbn; [lia|]. bool_facts.
  assert (0 <= rl_rate rl * (now - rl_last_usec rl) / 1000000) by (apply Z.div_pos; nia).
  assert (0 < rl_rate rl) by (unfold is_u64 in *; destruct (Z.eqb_spec (rl_rate rl) 0); cbn in *; done || lia).
  enough (0 <= rl_rate rl * (now - rl_last_usec rl) / 1000000 * 1000000 / rl_rate rl) by lia.
  apply Z.div_pos; lia.
Qed.

Lemma refill_potential R B d rl now : rl_wf rl now -> rl_sane R B -> rl_within R B d rl ->
  potential R (refill rl now) now <= potential R rl now + d.
Proof.
  intros W S Hw. pose proof (refill_credit_upper rl now W (within_sane _ _ _ _ S Hw)) as Hc.
  pose proof (refill_last rl now W) as Hl. destruct (refill_params rl now) as [Er _].
  destruct Hw as (? & ? & ?). unfold potential, credit in *. rewrite Er in Hc. nia.
Qed.

Lemma rl_step_potential R B d rl now op : rl_op_ok op -> op_within R B d op -> rl_wf rl now ->
  rl_sane R B -> rl_within R B d rl ->
  let '(g, rl') := rl_step rl now op in
  0 <= g /\ rl_within R B d rl' /\ potential R rl' now + g * 1000000 <= potential R rl now + d.
Proof.
  intros Hok Hop W S Hw. pose proof (refill_potential R B d rl now W S Hw) as Hp.
  pose proof (refill_wf _ _ W) as [? ? ? ? ?]. destruct (refill_params rl now) as [Er Eb].
  destruct Hw as (H1 & H2 & H3). pose proof (rounding_nonneg _ (proj1 H1)).
  assert (E0 : (rl_rate rl =? 0) = false) by (apply Z.eqb_neq; lia).
  unfold rl_within, potential, is_u64 in *.
  destruct op; cbn in *; unfold is_u64 in *; rewrite ?E0; case_ifs; cbn in *;
    rewrite ?wrap64_id, ?Er, ?Eb; unfold is_u64; repeat split; try done; try lia.
Qed.

Lemma rl_run_potential R B d ops : rl_sane R B -> forall rl t0 t1,
  rl_wf rl t0 -> rl_within R B d rl ->
  Forall (fun o => rl_op_ok (snd o) /\ op_within R B d (snd o)) ops ->
  rl_times t0 t1 ops -> is_u64 t1 ->
  let '(g, rl') := rl_run rl ops in
  g * 1000000 + potential R rl' t1 <= potential R rl t1 + Z.of_nat (length ops) * d.
Proof.
  intros S. induction ops as [|[now op] ops IH]; intros rl t0 t1 W Hw Hok Ht H1; cbn [rl_run].
  - cbn. lia.
  - destruct Ht as [H0 Ht]. inversion Hok as [|? ? [Ho1 Ho2] Hops]; subst. cbn in Ho1, Ho2.
    pose proof (rl_times_le _ _ _ Ht) as Hn.
    assert (W' : rl_wf rl now).
    { eapply rl_wf_later; [done..|]. destruct W; unfold is_u64 in *; lia. }
    pose proof (rl_step_potential R B d rl now op Ho1 Ho2 W' S Hw) as Hc.
    pose proof (rl_step_wf rl now op Ho1 W') as Ws.
    destruct (rl_step rl now op) as [g rl1]. cbn in Ws. destruct Hc as (Hg & Hw1 & Hc).
    specialize (IH rl1 now t1 Ws Hw1 Hops Ht H1).
    destruct (rl_run rl1 ops) as [gs rl2]. cbn [length]. unfold potential in *. nia.
Qed.

(** The rates and bursts a run goes through, and the largest of some. *)
Definition rates (rate : Z) (ops : list (Z * rl_op)) : list Z :=
  rate :: flat_map (fun o => match snd o with OpSetRate r => [r] | _ => [] end) ops.
Definition bursts (burst : Z) (ops : list (Z * rl_op)) : list Z :=
  burst :: flat_map (fun o => match snd o with OpSetBurst b => [b] | _ => [] end) ops.
Definition top (l : list Z) : Z := fold_right Z.max 0 l.

Lemma top_ge l x : In x l -> x <= top l.
Proof. induction l as [|y l IH]; [done|]. intros [->|Hx]; cbn; [lia|]. specialize (IH Hx). unfold top in IH. lia. Qed.

Lemma ops_within rate burst ops : Forall (fun r => 0 < r) (rates rate ops) ->
  Forall (fun o => op_within (top (rates rate ops)) (top (bursts burst ops))
                     (top (map rounding (rates rate ops))) (snd o)) ops.
Proof.
  intros Hr. rewrite List.Forall_forall in *. intros [now op] Hin. cbn [snd].
  destruct op as [| | | |r|b]; cbn [op_within]; try exact I.
  - assert (Hi : In r (rates rate ops)) by (right; apply in_flat_map; by eexists; split; [exact Hin|left]).
    split; [split; [by apply Hr|by apply top_ge]|]. by apply top_ge, in_map.
  - apply top_ge. right. apply in_flat_map. by eexists; split; [exact Hin|left].
Qed.

Lemma rl_run_nonneg ops : forall rl t0 t1,
  rl_wf rl t0 -> 0 < rl_rate rl ->
  Forall rl_plain_op ops -> rl_times t0 t1 ops -> is_u64 t1 ->
  0 <= fst (rl_run rl ops).
Proof.
  induction ops as [|[now op] ops IH]; intros rl t0 t1 W Hr Hok Ht H1; cbn; [lia|].
  destruct Ht as [H0 Ht]. inversion Hok as [|? ? Hop Hops]; subst.
  pose proof (rl_times_le _ _ _ Ht).
  assert (W' : rl_wf rl now).
  { eapply rl_wf_later; [done..|]. destruct W; unfold is_u64 in *; lia. }
  pose proof (rl_step_credit rl now op Hop W' Hr) as Hc.
  pose proof (rl_step_wf rl now op ltac:(apply Hop) W').
  destruct (rl_step rl now op) as [g rl1]. destruct Hc as (? & Er & ? & ?).
  specialize (IH rl1 now t1 ltac:(done) ltac:(lia) Hops Ht H1).
  destruct (rl_run rl1 ops). cbn in *. lia.
Qed.

(** Polls that were refused everything leave the value of the bucket, up to
    its capacity, at least what the elapsed time is worth. *)
Lemma rl_run_idle ops : forall rl t0 t1,
  rl_wf rl t0 -> 0 < rl_rate rl ->
  Forall rl_plain_op ops -> rl_times t0 t1 ops -> is_u64 t1 ->
  fst (rl_run rl ops) = 0 ->
  let rl' := snd (rl_run rl ops) in
  rl_rate rl' = rl_rate rl /\ rl_burst rl' = rl_burst rl /\ rl_wf rl' t1 /\
  Z.min (rl_burst rl * 1000000) (credit rl t1)
    <= Z.min (rl_burst rl * 1000000) (credit rl' t1).
Proof.
  induction ops as [|[now op] ops IH]; intros rl t0 t1 W Hr Hok Ht H1 G; cbn [rl_run] in *.
  - cbn. split_and!; try done. by eapply rl_wf_later.
  - destruct Ht as [H0 Ht]. inversion Hok as [|? ? Hop Hops]; subst.
    pose proof (rl_times_le _ _ _ Ht) as Hn.
    assert (W' : rl_wf rl now).
    { eapply rl_wf_later; [done..|]. destruct W; unfold is_u64 in *; lia. }
    pose proof (rl_step_credit rl now op Hop W' Hr) as Hc.
    pose proof (rl_step_wf rl now op ltac:(apply Hop) W') as Ws.
    pose proof (refill_credit_lower rl now W' Hr) as Hl.
    destruct (rl_step rl now op) as [g rl1]. cbn in Ws.
    destruct Hc as (Hg & Er & Eb & Hc).
    specialize (IH rl1 now t1 Ws ltac:(lia) Hops Ht H1).
    pose proof (rl_run_nonneg ops rl1 now t1 Ws ltac:(lia) Hops Ht H1) as Hpos.
    destruct (rl_run rl1 ops) as [gs rl2]. cbn in *.
    destruct IH as (? & ? & ? & Hm); [lia|]. split_and!; try done; try lia.
    rewrite Eb in Hm. etrans; [|exact Hm]. unfold credit in *. rewrite Er in *.
    destruct (refill_params rl now) as [Er' Eb']. rewrite Er' in *. nia.
Qed.

(** ** Properties *)

(** C22. The bucket is safe: whatever an embedder calls, in any order and at
    any (ordered) times, changes of the rate and of the burst included, the
    tokens granted between creation at [t0] and [t1] never exceed the burst
    it was created with plus what the highest rate it was ever given is worth
    over that time. (A rate of zero means no limit, so the rates are positive;
    a higher burst makes room, and no tokens.) The last summand is the
    rounding of [used] in [refill]; it is zero for every rate that divides a
    million or is a multiple of it, which are the rates clm configures itself
    (1 and 1000000 tokens per second). *)
Theorem ratelimit_never_overspends rate burst t0 t1 ops :
  let rl := clm_ratelimit_new rate burst t0 in
  let R := top (rates rate ops) in
  rl_sane R (top (bursts (rl_burst rl) ops)) -> Forall (fun r => 0 < r) (rates rate ops) ->
  is_u64 burst -> is_u64 t0 -> is_u64 t1 ->
  Forall (fun o => rl_op_ok (snd o)) ops -> rl_times t0 t1 ops ->
  fst (rl_run rl ops) * 1000000 <=
    rl_burst rl * 1000000 + R * (t1 - t0)
    + Z.of_nat (length ops) * top (map rounding (rates rate ops)).
Proof.
  intros rl R S Hr Hb H0 H1 Hok Ht. pose proof (ops_within rate (rl_burst rl) ops Hr) as Hin.
  pose proof (top_ge (rates rate ops) rate (or_introl eq_refl)) as HR.
  pose proof (top_ge (bursts (rl_burst rl) ops) (rl_burst rl) (or_introl eq_refl)) as HB.
  pose proof (top_ge (map rounding (rates rate ops)) (rounding rate) (or_introl eq_refl)) as Hd.
  pose proof (Forall_inv Hr) as Hpos. fold R in HR, Hin.
  assert (W : rl_wf rl t0) by (apply new_wf; try done; unfold rl_sane, is_u64 in *; lia).
  pose proof (rl_run_potential R _ (top (map rounding (rates rate ops))) ops S rl t0 t1 W) as Hc.
  pose proof (rl_run_wf ops rl t0 t1 W Hok Ht H1) as [_ _ ? ? _].
  assert (Hw : rl_within R (top (bursts (rl_burst rl) ops)) (top (map rounding (rates rate ops))) rl)
    by (pose proof (wf_tokens _ _ W); split_and!; cbn in *; done || lia).
  specialize (Hc Hw ltac:(by apply Forall_and) Ht H1).
  destruct (rl_run rl ops) as [g rl']. cbn [fst snd] in *. unfold potential in Hc. cbn in *.
  unfold rl_sane in S. nia.
Qed.

(** A run in which the rate is raised a millionfold after the first burst. *)
Lemma ratelimit_never_overspends_witness :
  let ops := [(0, OpAllow 8); (500000, OpAllow 1); (1000000, OpAllow 1); (1000000, OpSetRate 1000000);
              (1000004, OpAllow 4); (1000004, OpSetBurst 2)] in
  fst (rl_run (clm_ratelimit_new 1 8 0) ops) = 13
  /\ 13 * 1000000 <= 8 * 1000000 + 1000000 * (1000004 - 0) + 6 * 0.
Proof.
  split; [reflexivity|].
  apply (ratelimit_never_overspends 1 8 0 1000004
    [(0, OpAllow 8); (500000, OpAllow 1); (1000000, OpAllow 1); (1000000, OpSetRate 1000000);
     (1000004, OpAllow 4); (1000004, OpSetBurst 2)]);
    repeat constructor; cbn; unfold is_u64, UINT64_MAX; lia.
Defined.

(** Every state an embedder can reach, run-time changes of rate and burst
    included, holds at most a burst of tokens and a last refill that is not
    in the future; and there the 64-bit arithmetic of [refill] never wraps:
    it computes what the formula means over unbounded integers. *)
Theorem ratelimit_reachable_exact rate burst t0 t1 ops :
  is_u64 rate -> is_u64 burst -> is_u64 t0 -> is_u64 t1 ->
  Forall (fun o => rl_op_ok (snd o)) ops -> rl_times t0 t1 ops ->
  let rl := snd (rl_run (clm_ratelimit_new rate burst t0) ops) in
  0 <= rl_tokens rl <= rl_burst rl /\ 0 <= rl_last_usec rl <= t1 /\
  refill rl t1 = refill_ideal rl t1.
Proof.
  intros. assert (W : rl_wf rl t1) by (eapply rl_run_wf; eauto using new_wf).
  split_and!; [apply W..|]. by apply refill_matches_ideal.
Qed.

Lemma ratelimit_reachable_exact_witness :
  let rl := snd (rl_run (clm_ratelimit_new 3 0 5)
                   [(5, OpAllow 3); (400000, OpSetBurst 1); (900000, OpSetRate 7)]) in
  0 <= rl_tokens rl <= rl_burst rl /\ 0 <= rl_last_usec rl <= 900001 /\
  refill rl 900001 = refill_ideal rl 900001.
Proof.
  apply (ratelimit_reachable_exact 3 0 5 900001
    [(5, OpAllow 3); (400000, OpSetBurst 1); (900000, OpSetRate 7)]);
    repeat constructor; cbn; unfold is_u64, UINT64_MAX; lia.
Defined.

(** C23. Polling cannot starve the bucket: after any sequence of calls that
    were granted nothing, however fast they came, a request within the burst
    is granted as soon as the whole time is worth it. This is what carrying
    the remainder in [last_usec] is for. *)
Theorem ratelimit_polling_no_starvation rl t0 t1 ops n :
  rl_wf rl t0 -> rl_sane (rl_rate rl) (rl_burst rl) -> is_u64 t1 ->
  Forall rl_plain_op ops -> rl_times t0 t1 ops -> fst (rl_run rl ops) = 0 ->
  n <= rl_burst rl -> n * 1000000 <= rl_rate rl * (t1 - t0) ->
  fst (clm_ratelimit_allow (Some (snd (rl_run rl ops))) t1 n) = true.
Proof.
  intros W S H1 Hok Ht G Hn Hw.
  destruct (rl_run_idle ops rl t0 t1 W ltac:(apply S) Hok Ht H1 G) as (Er & Eb & W' & Hm).
  set (rl' := snd (rl_run rl ops)) in *. cbn.
  destruct (rl_rate rl' =? 0); [done|].
  pose proof (refill_whole_tokens rl' t1 n W') as Hr. rewrite Er, Eb in Hr.
  destruct W as [? ? ? ? ?]. unfold credit in Hm at 1. pose proof S as (? & ? & ?).
  assert (rl_rate rl * (t1 - t0) <= rl_rate rl * (t1 - rl_last_usec rl)) by nia.
  specialize (Hr S ltac:(lia)). apply Z.leb_le in Hr. by rewrite Hr.
Qed.

Lemma ratelimit_polling_no_starvation_witness :
  fst (clm_ratelimit_allow (Some (snd (rl_run (mk_ratelimit 2 4 0 0)
        [(200000, OpAllow 1); (400000, OpTokens); (499999, OpDelay 1)]))) 500000 1) = true.
Proof.
  apply (ratelimit_polling_no_starvation (mk_ratelimit 2 4 0 0) 0 500000); try reflexivity;
    repeat constructor; cbn; unfold is_u64, UINT64_MAX; lia.
Defined.

(** What a refill gives is covered by the credit. *)
Lemma refill_covered rl now : rl_wf rl now -> rl_sane (rl_rate rl) (rl_burst rl) ->
  rl_tokens (refill rl now) * 1000000 <= credit rl now.
Proof.
  intros W [Hr [Hb Hs]]. rewrite refill_matches_ideal by done.
  destruct W as [? ? Ht Hl ?]. unfold refill_ideal, credit; cbv zeta.
  set (e := now - rl_last_usec rl) in *.
  pose proof (div_mul_bounds (rl_rate rl * e) 1000000 ltac:(lia)) as Ha.
  pose proof (div_mul_bounds UINT64_MAX (rl_rate rl) Hr).
  set (a := rl_rate rl * e / 1000000) in *.
  case_if; [nia|]. destruct ((UINT64_MAX / _ <=? _) || _) eqn:Ef; cbn; [|nia].
  apply orb_true_iff in Ef as [Ef|Ef]; bool_facts; nia.
Qed.

(** The time a refill leaves for later is worth less than a token, up to its
    rounding. *)
Lemma refill_remainder rl now : rl_wf rl now -> 0 < rl_rate rl ->
  rl_rate rl * (now - rl_last_usec (refill rl now)) < 1000000 + rl_rate rl.
Proof.
  intros W Hr. rewrite refill_matches_ideal by done. destruct W as [? ? Ht Hl ?].
  unfold refill_ideal; cbv zeta. set (e := now - rl_last_usec rl) in *.
  pose proof (div_mul_bounds (rl_rate rl * e) 1000000 ltac:(lia)) as Ha.
  set (a := rl_rate rl * e / 1000000) in *.
  pose proof (div_mul_bounds (a * 1000000) (rl_rate rl) Hr).
  case_if; [subst e; nia|]. case_if; cbn; subst e; nia.
Qed.

Lemma allow_enough rl t n : 0 < rl_rate rl ->
  fst (clm_ratelimit_allow (Some rl) t n) = (n <=? rl_tokens (refill rl t)).
Proof.
  intros Hr. cbn. destruct (Z.eqb_spec (rl_rate rl) 0) as [|_]; [lia|]. by case_if.
Qed.

Lemma delay_value rl now n : rl_wf rl now -> rl_sane (rl_rate rl) (rl_burst rl) -> 0 <= n <= rl_burst rl ->
  let r := refill rl now in
  clm_ratelimit_delay (Some rl) now n
  = (if n <=? rl_tokens r then 0 else (n - rl_tokens r) * 1000000 / rl_rate rl, Some r).
Proof.
  intros W (S1 & S2 & S3) Hn r. pose proof (refill_wf _ _ W) as [? ? ? ? ?].
  destruct (refill_params rl now) as [Er Eb]. fold r in Er, Eb. cbn.
  destruct (Z.eqb_spec (rl_rate rl) 0) as [|_]; [lia|]. fold r. unfold is_u64 in *. subst r.
  case_if; [done|]. rewrite Er, !wrap64_id; [done|unfold is_u64; rewrite ?wrap64_id; unfold is_u64; lia..].
Qed.

(** C24. The delay an embedder is told is right: if nothing else draws from the
    bucket, the request is granted from one microsecond after it on, and it
    is refused until the time that one token takes, and two microseconds,
    before it (the delay does not count what the bucket had already saved up
    towards its next token). *)
Theorem ratelimit_delay_right rl now n t :
  rl_wf rl now -> rl_sane (rl_rate rl) (rl_burst rl) ->
  0 <= n <= rl_burst rl -> is_u64 t -> now <= t ->
  let '(d, o) := clm_ratelimit_delay (Some rl) now n in
  (now + d + 1 <= t -> fst (clm_ratelimit_allow o t n) = true) /\
  (t + 1000000 / rl_rate rl + 2 <= now + d -> fst (clm_ratelimit_allow o t n) = false).
Proof.
  intros W S Hn H1 Hnow. rewrite delay_value by done. pose proof (refill_wf _ _ W) as W'.
  pose proof (refill_remainder rl now W (proj1 S)) as Hrem. destruct (refill_params rl now) as [Er Eb].
  set (r := refill rl now) in *. pose proof S as (S1 & S2 & S3). pose proof (wf_tokens _ _ W').
  assert (Wt : rl_wf r t) by (by eapply rl_wf_later). rewrite <- Er, <- Eb in S.
  rewrite allow_enough by lia. pose proof (refill_whole_tokens r t n Wt S) as Hw.
  pose proof (refill_covered r t Wt S) as Hc. unfold credit in *. rewrite Er, Eb in *.
  pose proof (div_mul_bounds ((n - rl_tokens r) * 1000000) (rl_rate rl) S1) as Hd.
  pose proof (div_mul_bounds 1000000 (rl_rate rl) S1) as Hq. destruct W' as [_ _ _ ? _].
  destruct (Z.leb_spec n (rl_tokens r)).
  - split; intros Ht; [apply Z.leb_le, Hw; nia|].
    assert (0 <= 1000000 / rl_rate rl) by (apply Z.div_pos; lia). lia.
  - split; intros Ht; [apply Z.leb_le, Hw; nia|apply Z.leb_gt; nia].
Qed.

Lemma ratelimit_delay_right_witness :
  clm_ratelimit_delay (Some (mk_ratelimit 3 3 0 0)) 0 3 = (1000000, Some (mk_ratelimit 3 3 0 0)) /\
  fst (clm_ratelimit_allow (Some (mk_ratelimit 3 3 0 0)) 1000001 3) = true /\
  fst (clm_ratelimit_allow (Some (mk_ratelimit 3 3 0 0)) 666665 3) = false.
Proof.
  split; [reflexivity|]. split.
  - refine (proj1 (ratelimit_delay_right (mk_ratelimit 3 3 0 0) 0 3 1000001 _ _ _ _ _) _);
      repeat constructor; (cbn; unfold is_u64, UINT64_MAX; lia) || (vm_compute; discriminate).
  - refine (proj2 (ratelimit_delay_right (mk_ratelimit 3 3 0 0) 0 3 666665 _ _ _ _ _) _);
      repeat constructor; (cbn; unfold is_u64, UINT64_MAX; lia) || (vm_compute; discriminate).
Defined.

(** The rounding of [refill] is real: at 1500000 tokens per second, with one
    microsecond on the clock, [used] rounds to zero, so time never advances
    and an empty bucket of 1000 grants all thousand requests at one instant,
    where the rate allows one. *)
Example ratelimit_rounding_leak :
  fst (rl_run (mk_ratelimit 1500000 1000 0 0) (repeat (1, OpAllow 1) 1000)) = 1000.
Proof. vm_compute. reflexivity. Qed.

(** And the delay really can be one microsecond short: at 3 tokens per
    second an empty bucket asks for 333333 microseconds, after which the
    request is still refused. *)
Example ratelimit_delay_short :
  let '(d, o) := clm_ratelimit_delay (Some (mk_ratelimit 3 3 0 0)) 0 1 in
  d = 333333 /\ fst (clm_ratelimit_allow o (0 + d) 1) = false.
Proof. vm_compute. split; reflexivity. Qed.
