(* ===== verification/Sha256.v ===== *)
(** The SHA-256 of [src/libclmsession/sha256.c], which names the image files
    of a session by their content. [block] and [session_sha256_hex] follow
    the C; the second half states FIPS 180-4 on its own terms (rotations as
    arithmetic, the message schedule as a recurrence, the padding as its
    defining equation) and proves that the code computes it. *)

From S2P Require Import Prelude.

(** ** The code *)

(** The table, in decimal and in the rows of the source. *)
Definition k : list Z :=
  [1116352408; 1899447441; 3049323471; 3921009573; 961987163;
   1508970993; 2453635748; 2870763221; 3624381080; 310598401;
   607225278; 1426881987; 1925078388; 2162078206; 2614888103;
   3248222580; 3835390401; 4022224774; 264347078; 604807628;
   770255983; 1249150122; 1555081692; 1996064986; 2554220882;
   2821834349; 2952996808; 3210313671; 3336571891; 3584528711;
   113926993; 338241895; 666307205; 773529912; 1294757372;
   1396182291; 1695183700; 1986661051; 2177026350; 2456956037;
   2730485921; 2820302411; 3259730800; 3345764771; 3516065817;
   3600352804; 4094571909; 275423344; 430227734; 506948616;
   659060556; 883997877; 958139571; 1322822218; 1537002063;
   1747873779; 1955562222; 2024104815; 2227730452; 2361852424;
   2428436474; 2756734187; 3204031479; 3329325298].

Definition ror (x n : Z) : Z := Z.lor (Z.shiftr x n) (wrap32 (Z.shiftl x (32 - n))).

(** [~x] of a [uint32_t] *)
Definition not32 (x : Z) : Z := wrap32 (Z.lnot x).

(** The eight words: [h] of the caller, and the working variables. *)
Record hash8 := Hash8 {
  wa : Z; wb : Z; wc : Z; wd : Z; we : Z; wf : Z; wg : Z; wh : Z
}.

(** [w[i]] from the block's bytes *)
Definition word_at (p : list byte) (i : nat) : Z :=
  Z.lor (Z.lor (Z.lor (Z.shiftl (rd p (4 * i)) 24) (Z.shiftl (rd p (4 * i + 1)) 16))
           (Z.shiftl (rd p (4 * i + 2)) 8)) (rd p (4 * i + 3)).

(** The loop from 16: [w] holds the words so far, so [i] is its length. *)
Fixpoint expand (n : nat) (w : list Z) : list Z :=
  match n with
  | O => w
  | S n' =>
      let i := length w in
      let w15 := nth (i - 15) w 0 in
      let w2 := nth (i - 2) w 0 in
      let s0 := Z.lxor (Z.lxor (ror w15 7) (ror w15 18)) (Z.shiftr w15 3) in
      let s1 := Z.lxor (Z.lxor (ror w2 17) (ror w2 19)) (Z.shiftr w2 10) in
      expand n' (w ++ [wrap32 (nth (i - 16) w 0 + s0 + nth (i - 7) w 0 + s1)])
  end.

Definition round (s : hash8) (ki wi : Z) : hash8 :=
  let '(Hash8 a b c d e f g hh) := s in
  let t1 := wrap32 (hh + Z.lxor (Z.lxor (ror e 6) (ror e 11)) (ror e 25)
                    + Z.lxor (Z.land e f) (Z.land (not32 e) g) + ki + wi) in
  let t2 := wrap32 (Z.lxor (Z.lxor (ror a 2) (ror a 13)) (ror a 22)
                    + Z.lxor (Z.lxor (Z.land a b) (Z.land a c)) (Z.land b c)) in
  Hash8 (wrap32 (t1 + t2)) a b c (wrap32 (d + t1)) e f g.

Definition add8 (h s : hash8) : hash8 :=
  Hash8 (wrap32 (wa h + wa s)) (wrap32 (wb h + wb s)) (wrap32 (wc h + wc s))
        (wrap32 (wd h + wd s)) (wrap32 (we h + we s)) (wrap32 (wf h + wf s))
        (wrap32 (wg h + wg s)) (wrap32 (wh h + wh s)).

Definition block (h : hash8) (p : list byte) : hash8 :=
  let w := expand 48 (map (word_at p) (seq 0 16)) in
  add8 h (fold_left (fun s i => round s (nth i k 0) (nth i w 0)) (seq 0 64) h).

Definition init : hash8 :=
  Hash8 0x6a09e667 0xbb67ae85 0x3c6ef372 0xa54ff53a 0x510e527f 0x9b05688c
        0x1f83d9ab 0x5be0cd19.

(** [for (i = 0; i < full; i += 64) block(h, data + i)] *)
Fixpoint blocks (n : nat) (data : list byte) (h : hash8) : hash8 :=
  match n with
  | O => h
  | S n' => blocks n' (drop 64 data) (block h data)
  end.

(** The loop that stores the bit count, big end last. *)
Fixpoint store_bits (i : nat) (tlen : nat) (bits : Z) (tail : list byte) : list byte :=
  match i with
  | O => tail
  | S i' => <[(tlen - 1 - i')%nat := z2b (Z.shiftr bits (8 * Z.of_nat i'))]>
              (store_bits i' tlen bits tail)
  end.

(** The tail buffer: the [rest] bytes, 0x80, zeros, the bit count. *)
Definition tail_len (rest : nat) : nat := if (rest + 1 + 8 <=? 64)%nat then 64 else 128.

Definition make_tail (data : list byte) (len full : nat) : list byte :=
  let rest := (len - full)%nat in
  let tail := take rest (drop full data) ++ replicate (128 - rest) x00 in
  store_bits 8 (tail_len rest) (wrap64 (Z.of_nat len * 8)) (<[rest := x80]> tail).

Definition hexdigit (v : Z) : byte := nth (Z.to_nat v) (bs "0123456789abcdef") x00.

(** ["%08x"] *)
Definition hex8 (v : Z) : list byte :=
  map (fun i => hexdigit (Z.land (Z.shiftr v (4 * (7 - Z.of_nat i))) 15)) (seq 0 8).

Definition hex_out (h : hash8) : list byte :=
  hex8 (wa h) ++ hex8 (wb h) ++ hex8 (wc h) ++ hex8 (wd h)
  ++ hex8 (we h) ++ hex8 (wf h) ++ hex8 (wg h) ++ hex8 (wh h).

Definition session_sha256_hex (data : list byte) : list byte :=
  let len := length data in
  let full := (len / 64 * 64)%nat in
  let rest := (len - full)%nat in
  let h := blocks (len / 64) data init in
  let tail := make_tail data len full in
  let h := block h tail in
  let h := if (tail_len rest =? 128)%nat then block h (drop 64 tail) else h in
  hex_out h.

Example sha256_abc :
  session_sha256_hex (bs "abc")
  = bs "ba7816bf8f01cfea414140de5dae2223b00361a396177a9cb410ff61f20015ad".
Proof. vm_compute. reflexivity. Qed.

Example sha256_two_blocks :
  session_sha256_hex (bs "abcdbcdecdefdefgefghfghighijhijkijkljklmklmnlmnomnopnopq")
  = bs "248d6a61d20638b8e5c026930c3e6039a33ce45964ff2167f6ecedd419db06c1".
Proof. vm_compute. reflexivity. Qed.

(** ** FIPS 180-4 *)

Module Fips.

Definition rotr (n x : Z) : Z := x / 2 ^ n + (x mod 2 ^ n) * 2 ^ (32 - n).
Definition shr (n x : Z) : Z := x / 2 ^ n.
Definition compl (x : Z) : Z := 2 ^ 32 - 1 - x.

Definition Ch x y z := Z.lxor (Z.land x y) (Z.land (compl x) z).
Definition Maj x y z := Z.lxor (Z.lxor (Z.land x y) (Z.land x z)) (Z.land y z).
Definition Sigma0 x := Z.lxor (Z.lxor (rotr 2 x) (rotr 13 x)) (rotr 22 x).
Definition Sigma1 x := Z.lxor (Z.lxor (rotr 6 x) (rotr 11 x)) (rotr 25 x).
Definition sigma0 x := Z.lxor (Z.lxor (rotr 7 x) (rotr 18 x)) (shr 3 x).
Definition sigma1 x := Z.lxor (Z.lxor (rotr 17 x) (rotr 19 x)) (shr 10 x).

(** The message schedule of a 64-byte block, as its recurrence. *)
Definition schedule (p : list byte) (W : nat -> Z) : Prop :=
  (forall t, (t < 16)%nat ->
     W t = rd p (4 * t) * 2 ^ 24 + rd p (4 * t + 1) * 2 ^ 16
           + rd p (4 * t + 2) * 2 ^ 8 + rd p (4 * t + 3)) /\
  (forall t, (16 <= t < 64)%nat ->
     W t = (sigma1 (W (t - 2)%nat) + W (t - 7)%nat + sigma0 (W (t - 15)%nat)
            + W (t - 16)%nat) mod 2 ^ 32).

Definition step (s : hash8) (kt wt : Z) : hash8 :=
  let T1 := (wh s + Sigma1 (we s) + Ch (we s) (wf s) (wg s) + kt + wt) mod 2 ^ 32 in
  let T2 := (Sigma0 (wa s) + Maj (wa s) (wb s) (wc s)) mod 2 ^ 32 in
  Hash8 ((T1 + T2) mod 2 ^ 32) (wa s) (wb s) (wc s)
        ((wd s + T1) mod 2 ^ 32) (we s) (wf s) (wg s).

Definition compress (W : nat -> Z) (h : hash8) : hash8 :=
  add8 h (fold_left (fun s t => step s (nth t k 0) (W t)) (seq 0 64) h).

(** The round constants: the first 32 bits of the fractional parts of the cube
    roots of the first 64 primes. *)
Definition primes : list Z :=
  [2; 3; 5; 7; 11; 13; 17; 19; 23; 29; 31; 37; 41; 43; 47; 53;
   59; 61; 67; 71; 73; 79; 83; 89; 97; 101; 103; 107; 109; 113; 127; 131;
   137; 139; 149; 151; 157; 163; 167; 173; 179; 181; 191; 193; 197; 199; 211; 223;
   227; 229; 233; 239; 241; 251; 257; 263; 269; 271; 277; 281; 283; 293; 307; 311].

Definition root_fraction (p kt : Z) : Prop :=
  exists c, c ^ 3 <= p * 2 ^ 96 < (c + 1) ^ 3 /\ kt = c mod 2 ^ 32.

(** The intermediate hash values over a list of blocks. *)
Inductive digest : list (list byte) -> hash8 -> hash8 -> Prop :=
| digest_nil h : digest [] h h
| digest_cons p W bl h h' :
    length p = 64%nat -> schedule p W -> digest bl (compress W h) h' ->
    digest (p :: bl) h h'.

Definition be64 (v : Z) : list byte :=
  map (fun i => z2b (v / 256 ^ (7 - Z.of_nat i))) (seq 0 8).

(** The padded message, in blocks: a one bit, the fewest zero bits, and the
    length of the message in bits. *)
Definition padded (m : list byte) (bl : list (list byte)) : Prop :=
  exists zeros, (zeros < 64)%nat /\ Forall (fun p => length p = 64%nat) bl /\
    concat bl = m ++ x80 :: replicate zeros x00 ++ be64 (8 * zlen m).

End Fips.

(** ** The code computes the standard *)

Lemma ror_rotr x n : is_u32 x -> 0 < n < 32 -> ror x n = Fips.rotr n x.
Proof.
  unfold is_u32, UINT32_MAX, ror, Fips.rotr, wrap32. intros Hx Hn.
  rewrite Z.shiftl_mul_pow2, Z.shiftr_div_pow2 by lia.
  assert (Hp : 4294967296 = 2 ^ n * 2 ^ (32 - n))
    by (rewrite <- Z.pow_add_r by lia; by replace (n + (32 - n)) with 32 by lia).
  assert (0 < 2 ^ n) by (apply Z.pow_pos_nonneg; lia).
  assert (0 < 2 ^ (32 - n)) by (apply Z.pow_pos_nonneg; lia).
  rewrite Hp, Z.mul_mod_distr_r, Z.lor_comm by lia.
  rewrite <- Z.shiftl_mul_pow2 by lia. rewrite lor_shiftl_add; [|lia|].
  - rewrite Z.shiftl_mul_pow2 by lia. lia.
  - split; [apply Z.div_pos; lia|]. apply Z.div_lt_upper_bound; lia.
Qed.

Lemma not32_compl x : is_u32 x -> not32 x = Fips.compl x.
Proof.
  unfold is_u32, UINT32_MAX, not32, Fips.compl, wrap32, Z.lnot. intros. euclid.
Qed.

Lemma word_at_sum p i :
  word_at p i = rd p (4 * i) * 2 ^ 24 + rd p (4 * i + 1) * 2 ^ 16
                + rd p (4 * i + 2) * 2 ^ 8 + rd p (4 * i + 3).
Proof.
  unfold word_at.
  pose proof (rd_range p (4 * i)). pose proof (rd_range p (4 * i + 1)).
  pose proof (rd_range p (4 * i + 2)). pose proof (rd_range p (4 * i + 3)).
  rewrite (lor_shiftl_add _ (Z.shiftl _ 16)) by shl_lia.
  replace (rd p (4 * i) * 2 ^ 24 + Z.shiftl (rd p (4 * i + 1)) 16)
    with (Z.shiftl (rd p (4 * i) * 256 + rd p (4 * i + 1)) 16) by shl_lia.
  rewrite lor_shiftl_add by shl_lia.
  replace (_ * 2 ^ 16 + Z.shiftl _ 8)
    with (Z.shiftl ((rd p (4 * i) * 256 + rd p (4 * i + 1)) * 256 + rd p (4 * i + 2)) 8)
    by shl_lia.
  rewrite lor_shiftl_add by lia. lia.
Qed.

Lemma expand_prefix n : forall w t, (t < length w)%nat -> nth t (expand n w) 0 = nth t w 0.
Proof.
  induction n as [|n IH]; intros w t Ht; cbn [expand]; [done|].
  rewrite IH by (rewrite length_app; cbn; lia). by rewrite app_nth1.
Qed.

Definition sched_next (w : list Z) (i : nat) : Z :=
  let w15 := nth (i - 15) w 0 in
  let w2 := nth (i - 2) w 0 in
  let s0 := Z.lxor (Z.lxor (ror w15 7) (ror w15 18)) (Z.shiftr w15 3) in
  let s1 := Z.lxor (Z.lxor (ror w2 17) (ror w2 19)) (Z.shiftr w2 10) in
  wrap32 (nth (i - 16) w 0 + s0 + nth (i - 7) w 0 + s1).

Lemma expand_next n : forall w t, (16 <= length w)%nat ->
  (length w <= t < length w + n)%nat ->
  nth t (expand n w) 0 = sched_next (expand n w) t.
Proof.
  induction n as [|n IH]; intros w t Hw Ht; [lia|]. cbn [expand].
  fold (sched_next w (length w)).
  destruct (decide (t = length w)) as [->|].
  - rewrite expand_prefix by (rewrite length_app; cbn; lia).
    rewrite app_nth2, Nat.sub_diag by lia. cbn [nth]. unfold sched_next.
    rewrite !(expand_prefix n (_ ++ _)) by (rewrite length_app; cbn; lia).
    by rewrite !app_nth1 by lia.
  - apply IH; rewrite length_app; cbn; lia.
Qed.

Lemma expand_u32 n : forall w, Forall is_u32 w -> Forall is_u32 (expand n w).
Proof.
  induction n as [|n IH]; intros w Hw; cbn [expand]; [done|].
  apply IH, Forall_app. split; [done|]. constructor; auto with clm.
Qed.

Lemma nth_u32 l i : Forall is_u32 l -> is_u32 (nth i l 0).
Proof.
  intros H. destruct (nth_in_or_default i l 0) as [Hin| ->].
  - rewrite Stdlib.Lists.List.Forall_forall in H. by apply H.
  - unfold is_u32, UINT32_MAX. lia.
Qed.

(** The words [block] computes satisfy the standard's recurrence. *)
Lemma expand_schedule p :
  Fips.schedule p (fun t => nth t (expand 48 (map (word_at p) (seq 0 16))) 0).
Proof.
  set (w := map (word_at p) (seq 0 16)).
  assert (Hl : length w = 16%nat) by done.
  assert (Hu : Forall is_u32 (expand 48 w)).
  { apply expand_u32. subst w. apply Forall_map, List.Forall_forall. intros i _.
    rewrite word_at_sum. pose proof (rd_range p (4 * i)). pose proof (rd_range p (4 * i + 1)).
    pose proof (rd_range p (4 * i + 2)). pose proof (rd_range p (4 * i + 3)).
    unfold is_u32, UINT32_MAX. lia. }
  split; intros t Ht.
  - rewrite expand_prefix by lia. subst w.
    rewrite (nth_indep _ 0 (word_at p 0)) by (rewrite length_map, length_seq; lia).
    rewrite map_nth, seq_nth by lia. apply word_at_sum.
  - rewrite expand_next by lia. unfold sched_next, Fips.sigma0, Fips.sigma1, Fips.shr.
    rewrite !ror_rotr by (try apply nth_u32; done || lia).
    rewrite !shiftr_div by lia. unfold wrap32. change (2 ^ 32) with 4294967296. f_equal. lia.
Qed.

(** Every word of the state is a [uint32_t]. *)
Definition hash_u32 (s : hash8) : Prop :=
  Forall is_u32 [wa s; wb s; wc s; wd s; we s; wf s; wg s; wh s].

Ltac u32_words :=
  repeat match goal with H : Forall _ (_ :: _) |- _ => inversion H; clear H; subst end;
  repeat first [apply List.Forall_nil | apply List.Forall_cons]; auto with clm.

Lemma init_u32 : hash_u32 init.
Proof. unfold hash_u32, init. cbn. u32_words; unfold is_u32, UINT32_MAX; lia. Qed.

Lemma round_u32 s ki wi : hash_u32 s -> hash_u32 (round s ki wi).
Proof.
  destruct s as [a b c d e f g hh]. unfold hash_u32. cbn.
  intros H. u32_words.
Qed.

Lemma add8_u32 h s : hash_u32 (add8 h s).
Proof. unfold hash_u32, add8. cbn. u32_words. Qed.

(** One round of the code is one step of the standard. *)
Lemma round_step s kt wt : hash_u32 s -> round s kt wt = Fips.step s kt wt.
Proof.
  destruct s as [a b c d e f g hh]. unfold hash_u32. cbn. intros H.
  repeat match goal with H : Forall _ (_ :: _) |- _ => inversion H; clear H; subst end.
  unfold Fips.step, Fips.Sigma0, Fips.Sigma1, Fips.Ch, Fips.Maj, wrap32.
  change (2 ^ 32) with 4294967296. cbn [wa wb wc wd we wf wg wh].
  by rewrite !ror_rotr, not32_compl by (done || lia).
Qed.

Lemma rounds_steps W ts : forall s, hash_u32 s ->
  fold_left (fun s i => round s (nth i k 0) (W i)) ts s
  = fold_left (fun s t => Fips.step s (nth t k 0) (W t)) ts s.
Proof.
  induction ts as [|t ts IH]; intros s Hs; cbn [fold_left]; [done|].
  rewrite <- round_step by done. apply IH. by apply round_u32.
Qed.

Lemma word_at_take p i : (i < 16)%nat -> word_at (take 64 p) i = word_at p i.
Proof.
  intros Hi. assert (E : forall j, (j < 64)%nat -> rd (take 64 p) j = rd p j).
  { intros j Hj. unfold rd. f_equal. rewrite <- (take_drop 64 p) at 2.
    destruct (Nat.lt_ge_cases j (length p)) as [Hl|Hl].
    - rewrite app_nth1; [done|]. rewrite length_take. lia.
    - rewrite !nth_overflow; [done| |]; rewrite ?length_app, ?length_take, ?length_drop; lia. }
  unfold word_at. by rewrite !E by lia.
Qed.

Lemma block_compress h p : (64 <= length p)%nat -> hash_u32 h ->
  exists W, Fips.schedule (take 64 p) W /\ block h p = Fips.compress W h.
Proof.
  intros Hp Hh. eexists. split; [apply expand_schedule|].
  unfold block, Fips.compress. f_equal.
  rewrite (map_ext_in (word_at (take 64 p)) (word_at p)).
  - by apply (rounds_steps (fun i => nth i (expand 48 (map (word_at p) (seq 0 16))) 0)).
  - intros i Hi. apply word_at_take. apply in_seq in Hi. lia.
Qed.

Lemma block_u32 h p : hash_u32 (block h p).
Proof. apply add8_u32. Qed.

(** The list of the blocks the first loop hashes. *)
Fixpoint chunks (n : nat) (data : list byte) : list (list byte) :=
  match n with
  | O => []
  | S n' => take 64 data :: chunks n' (drop 64 data)
  end.

Lemma chunks_concat n : forall d, (64 * n <= length d)%nat ->
  concat (chunks n d) = take (64 * n) d.
Proof.
  induction n as [|n IH]; intros d Hd; [done|]. cbn [chunks concat].
  rewrite IH by (rewrite length_drop; lia).
  replace (64 * S n)%nat with (64 + 64 * n)%nat by lia.
  by rewrite <- take_take_drop.
Qed.

Lemma chunks_length n : forall d, (64 * n <= length d)%nat ->
  Forall (fun p => length p = 64%nat) (chunks n d).
Proof.
  induction n as [|n IH]; intros d Hd; [constructor|]. constructor.
  - rewrite length_take. lia.
  - apply IH. rewrite length_drop. lia.
Qed.

Lemma digest_block h p bl h' : (64 <= length p)%nat -> hash_u32 h ->
  Fips.digest bl (block h p) h' -> Fips.digest (take 64 p :: bl) h h'.
Proof.
  intros Hp Hh Hd. destruct (block_compress h p Hp Hh) as (W & HW & E).
  rewrite E in Hd. econstructor; [|exact HW|exact Hd]. rewrite length_take. lia.
Qed.

Lemma blocks_u32 n : forall d h, hash_u32 h -> hash_u32 (blocks n d h).
Proof.
  induction n as [|n IH]; intros d h Hh; [done|]. apply IH, block_u32.
Qed.

Lemma blocks_digest n : forall d h bl h', (64 * n <= length d)%nat -> hash_u32 h ->
  Fips.digest bl (blocks n d h) h' -> Fips.digest (chunks n d ++ bl) h h'.
Proof.
  induction n as [|n IH]; intros d h bl h' Hd Hh Hb; [done|]. cbn [chunks app].
  apply digest_block; [lia|done|]. apply IH; [rewrite length_drop; lia|apply block_u32|done].
Qed.

(** The integer cube root, to 32 fractional bits, by bisection. *)
Fixpoint root_bisect (n : nat) (p lo hi : Z) : Z :=
  match n with
  | O => lo
  | S n' => let c := (lo + hi) / 2 in
            if c ^ 3 <=? p * 2 ^ 96 then root_bisect n' p c hi else root_bisect n' p lo c
  end.

Definition root_check (p kt : Z) : bool :=
  let c := root_bisect 36 p 0 (2 ^ 35) in
  (c ^ 3 <=? p * 2 ^ 96) && (p * 2 ^ 96 <? (c + 1) ^ 3) && (kt =? c mod 2 ^ 32).

Lemma root_check_ok p kt : root_check p kt = true -> Fips.root_fraction p kt.
Proof.
  unfold root_check. generalize (root_bisect 36 p 0 (2 ^ 35)). intros c. cbv zeta.
  rewrite !andb_true_iff, Z.leb_le, Z.ltb_lt, Z.eqb_eq. intros [[H1 H2] H3].
  exists c. exact (conj (conj H1 H2) H3).
Qed.

(** A relation checked pairwise by a boolean function. *)
Fixpoint all2 {A B} (f : A -> B -> bool) (l : list A) (l' : list B) : bool :=
  match l, l' with
  | x :: l, y :: l' => if f x y then all2 f l l' else false
  | [], [] => true
  | _, _ => false
  end.

Lemma all2_ok {A B} (f : A -> B -> bool) (R : A -> B -> Prop) :
  (forall x y, f x y = true -> R x y) ->
  forall l l', all2 f l l' = true -> Forall2 R l l'.
Proof.
  intros H. induction l as [|x l IH]; intros [|y l'] E; try discriminate E; [constructor|].
  cbn [all2] in E. destruct (f x y) eqn:E1; [|discriminate E]. constructor; auto.
Qed.

Lemma k_root_fractions : Forall2 Fips.root_fraction Fips.primes k.
Proof. apply (all2_ok _ _ root_check_ok). vm_compute. reflexivity. Qed.

(** *** Padding *)

Lemma store_bits_spec bits l z0 z1 z2 z3 z4 z5 z6 z7 post :
  store_bits 8 (length l + 8) bits (l ++ [z0; z1; z2; z3; z4; z5; z6; z7] ++ post)
  = l ++ map (fun i => z2b (Z.shiftr bits (8 * (7 - Z.of_nat i)))) (seq 0 8) ++ post.
Proof.
  cbn [store_bits].
  replace (length l + 8 - 1 - 0)%nat with (length l + 7)%nat by lia.
  replace (length l + 8 - 1 - 1)%nat with (length l + 6)%nat by lia.
  replace (length l + 8 - 1 - 2)%nat with (length l + 5)%nat by lia.
  replace (length l + 8 - 1 - 3)%nat with (length l + 4)%nat by lia.
  replace (length l + 8 - 1 - 4)%nat with (length l + 3)%nat by lia.
  replace (length l + 8 - 1 - 5)%nat with (length l + 2)%nat by lia.
  replace (length l + 8 - 1 - 6)%nat with (length l + 1)%nat by lia.
  replace (length l + 8 - 1 - 7)%nat with (length l + 0)%nat by lia.
  by rewrite !insert_app_r.
Qed.

Lemma be64_shift v : Fips.be64 v = map (fun i => z2b (Z.shiftr v (8 * (7 - Z.of_nat i)))) (seq 0 8).
Proof.
  apply map_ext_in. intros i Hi. apply in_seq in Hi. f_equal.
  rewrite Z.shiftr_div_pow2 by lia. f_equal. by rewrite Z.pow_mul_r by lia.
Qed.

(** The tail is the rest of the message, padded, and zeros after that. *)
Lemma make_tail_padded data full (rest := (length data - full)%nat) :
  (full <= length data)%nat -> (rest < 64)%nat -> zlen data < 2 ^ 61 ->
  make_tail data (length data) full
  = (drop full data ++ x80 :: replicate (tail_len rest - rest - 9) x00
     ++ Fips.be64 (8 * zlen data)) ++ replicate (128 - tail_len rest) x00.
Proof.
  intros Hf Hr Hb. unfold make_tail. fold rest.
  assert (Hd : length (drop full data) = rest) by (rewrite length_drop; lia).
  rewrite take_ge by lia.
  assert (Ht : (rest + 9 <= tail_len rest <= 128)%nat) by (unfold tail_len; case_ifs; lia).
  rewrite wrap64_id by (unfold is_u64, UINT64_MAX, zlen in *; lia).
  rewrite (Z.mul_comm (Z.of_nat _)). fold (zlen data).
  rewrite <- (Nat.add_0_r rest) at 2. rewrite <- Hd at 2. rewrite insert_app_r.
  replace (128 - rest)%nat
    with (1 + (tail_len rest - rest - 9) + 8 + (128 - tail_len rest))%nat by lia.
  rewrite !replicate_add. cbn [replicate app]. cbn [insert list_insert].
  set (n := (tail_len rest - rest - 9)%nat). set (post := replicate (128 - tail_len rest) x00).
  rewrite !app_comm_cons, app_assoc.
  replace (tail_len rest) with (length (drop full data ++ x80 :: replicate n x00) + 8)%nat.
  2: { rewrite length_app, Hd. cbn [length]. rewrite length_replicate. subst n. lia. }
  rewrite be64_shift. 
  pose proof (store_bits_spec (8 * zlen data) (drop full data ++ x80 :: replicate n x00)
    x00 x00 x00 x00 x00 x00 x00 x00 post) as E.
  repeat (rewrite <- !app_assoc || rewrite <- !app_comm_cons).
  repeat (rewrite <- !app_assoc in E || rewrite <- !app_comm_cons in E). exact E.
Qed.

Lemma make_tail_length data full (rest := (length data - full)%nat) :
  (full <= length data)%nat -> (rest < 64)%nat -> zlen data < 2 ^ 61 ->
  length (make_tail data (length data) full) = 128%nat.
Proof.
  intros Hf Hr Hb. rewrite make_tail_padded by done. fold rest.
  rewrite !length_app. cbn [length]. rewrite length_app, !length_replicate, length_drop.
  fold rest. unfold tail_len. cbn. case_ifs; lia.
Qed.

(** ** Property *)

(** C28. [session_sha256_hex] is SHA-256: for every message under 2^61 bytes
    there is a padding of it into 64-byte blocks as FIPS 180-4 defines it,
    and the output is the hex text of the digest of those blocks, where
    rotations, schedule and rounds are the standard's and the round constants
    are the cube root fractions it asks for. *)
Theorem sha256_is_fips data (H : zlen data < 2 ^ 61) :
  Forall2 Fips.root_fraction Fips.primes k /\
  exists (bl : list (list byte)) (h : hash8), Fips.padded data bl /\ Fips.digest bl init h /\
    session_sha256_hex data = hex_out h.
Proof.
  split; [apply k_root_fractions|].
  pose proof (Nat.div_mod_eq (length data) 64) as Hdm.
  pose proof (Nat.mod_upper_bound (length data) 64 ltac:(lia)) as Hr.
  set (n := (length data / 64)%nat) in *.
  unfold session_sha256_hex. fold n. rewrite (Nat.mul_comm n 64).
  set (full := (64 * n)%nat) in *. set (rest := (length data - full)%nat).
  assert (Hrest : (rest < 64)%nat) by lia. assert (Hf : (full <= length data)%nat) by lia.
  pose proof (make_tail_padded data full Hf Hrest H) as Ht. fold rest in Ht.
  pose proof (make_tail_length data full Hf Hrest H) as Hl.
  set (tail := make_tail data (length data) full) in *.
  set (pad := drop full data ++ x80 :: replicate (tail_len rest - rest - 9) x00
     ++ Fips.be64 (8 * zlen data)) in Ht.
  assert (Hpad : length pad = tail_len rest).
  { subst pad. rewrite length_app. cbn [length]. rewrite length_app, length_replicate, length_drop.
    fold rest. unfold tail_len. cbn. case_ifs; lia. }
  assert (Hz : (tail_len rest - rest - 9 < 64)%nat) by (unfold tail_len; case_ifs; lia).
  pose proof (chunks_concat n data Hf) as Hc. pose proof (chunks_length n data Hf) as Hcl.
  pose proof (blocks_u32 n data init init_u32) as Hu.
  assert (Hsplit : concat (chunks n data) ++ pad
    = data ++ x80 :: replicate (tail_len rest - rest - 9) x00 ++ Fips.be64 (8 * zlen data)).
  { rewrite Hc. subst pad. by rewrite app_assoc, take_drop. }
  destruct (tail_len rest =? 128)%nat eqn:E128; bool_facts.
  - assert (tail = pad) as ->.
    { rewrite Ht, E128, Nat.sub_diag. apply app_nil_r. }
    exists (chunks n data ++ [take 64 pad; take 64 (drop 64 pad)]). eexists.
    split_and!; [|apply blocks_digest; [done|apply init_u32|];
      apply digest_block; [lia|done|]; apply digest_block;
      [rewrite length_drop; lia|apply block_u32|constructor]|done].
    exists (tail_len rest - rest - 9)%nat. split_and!; [done| |].
    + apply Forall_app. split; [done|]. u32_words; rewrite length_take, ?length_drop; lia.
    + rewrite concat_app, <- Hsplit. cbn [concat]. f_equal. rewrite app_nil_r.
      rewrite (take_ge (drop 64 pad)) by (rewrite length_drop; lia). apply take_drop.
  - assert (tail_len rest = 64%nat) as E64 by (unfold tail_len in *; case_ifs; lia).
    exists (chunks n data ++ [take 64 tail]). eexists.
    split_and!; [|apply blocks_digest; [done|apply init_u32|];
      apply digest_block; [lia|done|constructor]|done].
    exists (tail_len rest - rest - 9)%nat. split_and!; [done| |].
    + apply Forall_app. split; [done|]. u32_words; rewrite length_take; lia.
    + rewrite concat_app, <- Hsplit. cbn [concat]. f_equal. rewrite app_nil_r, Ht.
      rewrite E64 in Hpad. rewrite <- Hpad. apply take_app_length.
Qed.

Lemma sha256_is_fips_witness :
  zlen (bs "abc") < 2 ^ 61 /\
  Forall2 Fips.root_fraction Fips.primes k /\
  exists bl h, Fips.padded (bs "abc") bl /\ Fips.digest bl init h /\
    session_sha256_hex (bs "abc") = hex_out h.
Proof. split; [by vm_compute|]. apply (sha256_is_fips (bs "abc")). by vm_compute. Defined.
