(* ===== verification/HttpBuffer.v ===== *)
(** The response buffer of [src/libclmuv/http_response_buffer.c], which the
    HTTP client fills from the transfer's write callback: the overflow and
    limit checks, and what a refused write leaves behind. [size_t] is the
    64-bit one. Whether [realloc] succeeds is an argument. *)

From S2P Require Import Prelude.

Inductive http_response_buffer_result :=
| HTTP_RESPONSE_BUFFER_OK
| HTTP_RESPONSE_BUFFER_OVERFLOW
| HTTP_RESPONSE_BUFFER_TOO_LARGE
| HTTP_RESPONSE_BUFFER_NO_MEMORY.

(** [data] is the allocation, [None] before the first retained write. *)
Record http_response_buffer := mk_http_buffer {
  data : option (list byte);
  len : Z;
  received : Z;
  limit : Z
}.

Definition SIZE_MAX : Z := UINT64_MAX.

(** The first [n] bytes of an allocation that may be NULL. *)
Definition prefix (d : option (list byte)) (n : Z) : list byte :=
  take (Z.to_nat n) (default [] d).

(** The result, [*written] and the buffer after the call. *)
Definition http_response_buffer_write (buf : http_response_buffer) (contents : list byte)
    (size nmemb : Z) (retain realloc_ok : bool)
  : http_response_buffer_result * Z * http_response_buffer :=
  if negb (size =? 0) && (SIZE_MAX / size <? nmemb) then (HTTP_RESPONSE_BUFFER_OVERFLOW, 0, buf)
  else
    let realsize := wrap64 (size * nmemb) in
    if SIZE_MAX - received buf <? realsize then (HTTP_RESPONSE_BUFFER_OVERFLOW, 0, buf)
    else
      let new_received := wrap64 (received buf + realsize) in
      if limit buf <? new_received then (HTTP_RESPONSE_BUFFER_TOO_LARGE, 0, buf)
      else if negb retain then
        (HTTP_RESPONSE_BUFFER_OK, realsize,
         mk_http_buffer (data buf) (len buf) new_received (limit buf))
      else if SIZE_MAX - len buf <? realsize then (HTTP_RESPONSE_BUFFER_OVERFLOW, 0, buf)
      else
        let new_len := wrap64 (len buf + realsize) in
        if new_len =? SIZE_MAX then (HTTP_RESPONSE_BUFFER_OVERFLOW, 0, buf)
        else if negb realloc_ok then (HTTP_RESPONSE_BUFFER_NO_MEMORY, 0, buf)
        else
          (HTTP_RESPONSE_BUFFER_OK, realsize,
           mk_http_buffer
             (Some (prefix (data buf) (len buf) ++ take (Z.to_nat realsize) contents ++ [x00]))
             new_len new_received (limit buf)).

Inductive clm_http_request_state :=
| CLM_HTTP_PENDING | CLM_HTTP_RUNNING | CLM_HTTP_DONE | CLM_HTTP_ERROR.

(** The part of [struct clm_http_request] the callback works on;
    [delivered] is what [data_cb] was called with so far. *)
Record clm_http_request := mk_http_request {
  response_buf : http_response_buffer;
  state : clm_http_request_state;
  error_code : Z;
  has_data_cb : bool;
  delivered : list byte
}.

(** The error a failed write is reported with. *)
Definition result_error (r : http_response_buffer_result) : Z :=
  match r with
  | HTTP_RESPONSE_BUFFER_OVERFLOW => - EOVERFLOW
  | HTTP_RESPONSE_BUFFER_TOO_LARGE => - EFBIG
  | HTTP_RESPONSE_BUFFER_NO_MEMORY => - ENOMEM
  | HTTP_RESPONSE_BUFFER_OK => - EIO
  end.

(** [http_write_callback]; [code] is the response code curl has so far. *)
Definition http_write_callback (req : clm_http_request) (contents : list byte)
    (size nmemb code : Z) (realloc_ok : bool) : Z * clm_http_request :=
  let streaming := has_data_cb req && (200 <=? code) && (code <? 300) in
  let buf := response_buf req in
  let buf := if streaming && bool_decide (is_Some (data buf))
             then mk_http_buffer None 0 (received buf) (limit buf) else buf in
  let '(result, realsize, buf) :=
    http_response_buffer_write buf contents size nmemb (negb streaming) realloc_ok in
  match result with
  | HTTP_RESPONSE_BUFFER_OK =>
      (realsize,
       mk_http_request buf (state req) (error_code req) (has_data_cb req)
         (if streaming then delivered req ++ take (Z.to_nat realsize) contents
          else delivered req))
  | _ =>
      (0, mk_http_request buf CLM_HTTP_ERROR (result_error result) (has_data_cb req)
            (delivered req))
  end.

Definition CLM_HTTP_MAX_RESPONSE_BYTES : Z := 64 * 1024 * 1024.

Definition new_request (has_cb : bool) : clm_http_request :=
  mk_http_request (mk_http_buffer None 0 0 CLM_HTTP_MAX_RESPONSE_BYTES) CLM_HTTP_PENDING 0
    has_cb [].

(** ** A transfer: the calls curl makes, in order *)

Record write := mk_write {
  w_contents : list byte; w_size : Z; w_nmemb : Z; w_code : Z; w_realloc : bool
}.

(** What curl promises: two [size_t]s, and that many bytes behind the pointer. *)
Definition write_ok (w : write) : Prop :=
  is_u64 (w_size w) /\ is_u64 (w_nmemb w) /\ zlen (w_contents w) = w_size w * w_nmemb w.

Definition do_write (req : clm_http_request) (w : write) : Z * clm_http_request :=
  http_write_callback req (w_contents w) (w_size w) (w_nmemb w) (w_code w) (w_realloc w).

Definition run (ws : list write) (req : clm_http_request) : clm_http_request :=
  fold_left (fun r w => snd (do_write r w)) ws req.

(** What a transfer should leave: the body kept for the completion callback,
    the bytes counted, the bytes streamed, and the last error. *)
Record outcome := mk_outcome {
  o_body : list byte; o_count : Z; o_streamed : list byte; o_error : option Z
}.

Definition expect (has_cb : bool) (o : outcome) (w : write) : outcome :=
  let n := zlen (w_contents w) in
  let streaming := has_cb && (200 <=? w_code w) && (w_code w <? 300) in
  let body := if streaming then [] else o_body o in
  if CLM_HTTP_MAX_RESPONSE_BYTES <? o_count o + n then
    mk_outcome body (o_count o) (o_streamed o)
      (Some (if SIZE_MAX <? o_count o + n then - EOVERFLOW else - EFBIG))
  else if streaming then
    mk_outcome body (o_count o + n) (o_streamed o ++ w_contents w) (o_error o)
  else if w_realloc w then
    mk_outcome (body ++ w_contents w) (o_count o + n) (o_streamed o) (o_error o)
  else mk_outcome body (o_count o) (o_streamed o) (Some (- ENOMEM)).

(** The request's fields hold the outcome. *)
Record req_wf (has_cb : bool) (req : clm_http_request) (o : outcome) : Prop := {
  rw_cb : has_data_cb req = has_cb;
  rw_limit : limit (response_buf req) = CLM_HTTP_MAX_RESPONSE_BYTES;
  rw_len : len (response_buf req) = zlen (o_body o);
  rw_received : received (response_buf req) = o_count o;
  rw_order : zlen (o_body o) <= o_count o <= CLM_HTTP_MAX_RESPONSE_BYTES;
  rw_data : match data (response_buf req) with
            | Some d => d = o_body o ++ [x00]
            | None => o_body o = []
            end;
  rw_streamed : delivered req = o_streamed o;
  rw_error : match o_error o with
             | Some e => state req = CLM_HTTP_ERROR /\ error_code req = e
             | None => state req = CLM_HTTP_PENDING /\ error_code req = 0
             end
}.

(** The size computation is exact, or detected. *)
Lemma size_product s m : is_u64 s -> is_u64 m ->
  negb (s =? 0) && (SIZE_MAX / s <? m) = (SIZE_MAX <? s * m).
Proof.
  unfold is_u64, SIZE_MAX, UINT64_MAX. intros Hs Hm.
  destruct (Z.eqb_spec s 0) as [->|]; cbn [negb andb]; [symmetry; apply Z.ltb_ge; lia|].
  destruct (Z.ltb_spec (18446744073709551615 / s) m); symmetry.
  - apply Z.ltb_lt. assert (18446744073709551615 < s * (18446744073709551615 / s + 1)) by euclid.
    nia.
  - apply Z.ltb_ge. assert (s * (18446744073709551615 / s) <= 18446744073709551615) by euclid.
    nia.
Qed.

(** A write into a well-formed buffer, on every branch. *)
Lemma write_exact d body cnt lim c s m keep ok :
  let buf := mk_http_buffer d (zlen body) cnt lim in
  is_u64 s -> is_u64 m -> zlen c = s * m -> zlen body <= cnt <= lim -> lim < SIZE_MAX ->
  match d with Some x => x = body ++ [x00] | None => body = [] end ->
  http_response_buffer_write buf c s m keep ok =
  if lim <? cnt + zlen c then
    (if SIZE_MAX <? cnt + zlen c then HTTP_RESPONSE_BUFFER_OVERFLOW
     else HTTP_RESPONSE_BUFFER_TOO_LARGE, 0, buf)
  else if negb keep then
    (HTTP_RESPONSE_BUFFER_OK, zlen c, mk_http_buffer d (zlen body) (cnt + zlen c) lim)
  else if ok then
    (HTTP_RESPONSE_BUFFER_OK, zlen c,
     mk_http_buffer (Some ((body ++ c) ++ [x00])) (zlen (body ++ c)) (cnt + zlen c) lim)
  else (HTTP_RESPONSE_BUFFER_NO_MEMORY, 0, buf).
Proof.
  intros buf Hs Hm Hc Ho Hlim Hd. unfold http_response_buffer_write.
  rewrite (size_product s m Hs Hm), <- Hc. subst buf. cbn [data len received limit].
  assert (Hz : 0 <= zlen c /\ 0 <= zlen body) by (unfold zlen; lia).
  destruct (Z.ltb_spec SIZE_MAX (zlen c)) as [E1|E1].
  { assert ((lim <? cnt + zlen c) = true) as -> by lia.
    by assert ((SIZE_MAX <? cnt + zlen c) = true) as -> by lia. }
  rewrite (wrap64_id (zlen c)) by (unfold is_u64, SIZE_MAX in *; lia).
  assert ((SIZE_MAX - cnt <? zlen c) = (SIZE_MAX <? cnt + zlen c)) as -> by lia.
  destruct (Z.ltb_spec SIZE_MAX (cnt + zlen c)) as [E2|E2].
  { by assert ((lim <? cnt + zlen c) = true) as -> by lia. }
  rewrite !wrap64_id by (unfold is_u64, SIZE_MAX in *; lia).
  destruct (Z.ltb_spec lim (cnt + zlen c)) as [E3|E3]; [done|]. case_if; [done|].
  assert ((SIZE_MAX - zlen body <? zlen c) = false) as -> by lia.
  assert ((zlen body + zlen c =? SIZE_MAX) = false) as -> by lia.
  destruct ok; cbn [negb]; [|done].
  assert (prefix d (zlen body) = body) as ->.
  { unfold prefix, zlen. rewrite Nat2Z.id. destruct d as [d|]; subst; [|done].
    apply take_app_length. }
  replace (Z.to_nat (zlen c)) with (length c) by (unfold zlen; lia). rewrite take_ge by lia. rewrite <- app_assoc. do 3 f_equal.
  unfold zlen. rewrite length_app. lia.
Qed.

Lemma do_write_expect has_cb req o w : req_wf has_cb req o -> write_ok w ->
  req_wf has_cb (snd (do_write req w)) (expect has_cb o w).
Proof.
  intros Hwf (Hs & Hm & Hc). destruct Hwf as [Hcb Hlim Hlen Hrcv Hord Hd Hst Herr].
  destruct w as [c s m code ok], req as [[d l r lim] st err cb dl], o as [body cnt sd oe].
  cbn in *. subst cb lim l r sd.
  unfold do_write, http_write_callback, expect. cbn [w_contents w_size w_nmemb w_code w_realloc
    has_data_cb response_buf data received limit o_body o_count o_streamed o_error].
  set (streaming := has_cb && _ && _).
  assert (Hbuf : exists d', (if streaming && bool_decide (is_Some d)
      then mk_http_buffer None 0 cnt CLM_HTTP_MAX_RESPONSE_BYTES
      else mk_http_buffer d (zlen body) cnt CLM_HTTP_MAX_RESPONSE_BYTES)
    = mk_http_buffer d' (zlen (if streaming then [] else body)) cnt CLM_HTTP_MAX_RESPONSE_BYTES
    /\ match d' with Some x => x = (if streaming then [] else body) ++ [x00]
                   | None => (if streaming then [] else body) = [] end).
  { destruct streaming; cbn [andb]; [|by exists d]. exists None. split; [|done].
    destruct d as [d|]; [done|]. by rewrite bool_decide_eq_false_2, Hd by (intros []; done). }
  destruct Hbuf as (d' & -> & Hd').
  set (body' := if streaming then [] else body) in *.
  assert (Hord' : zlen body' <= cnt <= CLM_HTTP_MAX_RESPONSE_BYTES).
  { subst body'. destruct streaming; [|done]. unfold zlen in *. cbn. lia. }
  rewrite write_exact by (done || lia).
  assert (Hz : 0 <= zlen c) by (unfold zlen; lia).
  destruct (Z.ltb_spec CLM_HTTP_MAX_RESPONSE_BYTES (cnt + zlen c)) as [E|E].
  { destruct (SIZE_MAX <? cnt + zlen c); cbn; constructor; cbn; done. }
  destruct streaming; cbn [negb].
  { cbn. replace (Z.to_nat (zlen c)) with (length c) by (unfold zlen; lia). rewrite take_ge by lia. constructor; cbn; try done; lia. }
  destruct ok; cbn; constructor; cbn; try done. unfold zlen in *. rewrite length_app. lia.
Qed.

(** ** Property *)

(** The write callback of the HTTP client is exact for every transfer:
    over any sequence of calls, whatever sizes curl passes, whichever
    reallocations fail and whenever the response code starts or stops
    selecting the streaming path, no size computation wraps, the bytes
    counted never exceed the limit, the buffer holds exactly the retained
    writes that fit followed by one NUL, the data callback saw exactly the
    streamed ones, and a refused write leaves the error code of its cause. *)
Theorem http_writes_exact ws has_cb (Hws : Forall write_ok ws) :
  req_wf has_cb (run ws (new_request has_cb))
    (fold_left (expect has_cb) ws (mk_outcome [] 0 [] None)).
Proof.
  assert (Hwf : req_wf has_cb (new_request has_cb) (mk_outcome [] 0 [] None))
    by (constructor; cbn; done).
  revert Hwf. generalize (new_request has_cb), (mk_outcome [] 0 [] None).
  unfold run. induction Hws as [|w ws Hw Hws IH]; intros req o Hwf; cbn [fold_left]; [done|].
  apply IH. by apply do_write_expect.
Qed.

Lemma http_writes_exact_witness :
  let ws := [mk_write (bs "err") 1 3 500 true; mk_write (bs "data") 4 1 200 true] in
  Forall write_ok ws /\
  req_wf true (run ws (new_request true)) (mk_outcome [] 7 (bs "data") None).
Proof.
  cbv zeta.
  assert (H : Forall write_ok [mk_write (bs "err") 1 3 500 true; mk_write (bs "data") 4 1 200 true]).
  { repeat first [apply List.Forall_nil | apply List.Forall_cons];
      repeat split; vm_compute; done. }
  split; [exact H|]. exact (http_writes_exact _ true H).
Defined.
