(* ===== verification/Disk.v ===== *)
(** Files, as the session store sees them: names, inodes and what of them is
    safe from a crash; the system calls as steps of a state monad, each of
    which may be refused; and triples that speak of every disk on the way,
    since the machine may stop at any of them. *)

From S2P Require Import Prelude.
From stdpp Require Import gmap.
#[local] Open Scope Z_scope.

Abbreviation path := (list byte).

#[export] Instance byte_countable : Countable byte.
Proof. refine (inj_countable' Byte.to_nat (fun n => default x00 (Byte.of_nat n)) _). by intros []. Defined.

(** ** The disk *)

Record disk := mk_disk {
  names : gmap path nat;          (* the inode of a regular file's name *)
  dirs : gset path;
  files : gmap nat (list byte);   (* the bytes of an inode *)
  synced : gset nat;              (* the inodes whose bytes survive a crash *)
  next : nat                      (* no inode in use is this or above *)
}.

Definition set_names (d : disk) (n : gmap path nat) : disk := mk_disk n (dirs d) (files d) (synced d) (next d).
Definition set_dirs (d : disk) (n : gset path) : disk := mk_disk (names d) n (files d) (synced d) (next d).

(** The bytes a name stands for. *)
Definition contents (d : disk) (p : path) : option (list byte) := i ← names d !! p; files d !! i.

(** Give the inode these bytes, not yet on the medium. *)
Definition put (d : disk) (i : nat) (b : list byte) : disk :=
  mk_disk (names d) (dirs d) (<[i := b]> (files d)) (synced d ∖ {[i]}) (next d).

(** An empty file of a new name. *)
Definition create (d : disk) (p : path) : disk :=
  mk_disk (<[p := next d]> (names d)) (dirs d) (<[next d := []]> (files d)) (synced d ∖ {[next d]}) (S (next d)).

(** ** System calls *)

(** What the kernel makes of a call: it does it, it fails, or it writes only
    the first [n] bytes. *)
Inductive answer := Done | Fails (errno : positive) | Short (n : nat).

(** The process: the disk, the number of calls made, and the disks there
    were after each of them, the last one first. *)
Record io := mk_io { dk : disk; turn : nat; trail : list disk }.

Definition M (A : Type) : Type := io -> A * io.

#[export] Instance M_ret : MRet M := fun _ a w => (a, w).
#[export] Instance M_bind : MBind M := fun _ _ k m w => let '(a, w') := m w in k a w'.

Lemma run_bind {A B} (m : M A) (k : A -> M B) w : (m ≫= k) w = k (fst (m w)) (snd (m w)).
Proof. unfold mbind, M_bind. by destruct (m w). Qed.

Section Calls.
Context (env : nat -> answer).

Definition call {A} (f : answer -> disk -> A * disk) : M A := fun w =>
  let '(a, d) := f (env (turn w)) (dk w) in (a, mk_io d (S (turn w)) (d :: trail w)).

(** A call that does nothing but fail or succeed first. *)
Definition attempt {A} (fail : Z -> A) (f : disk -> A * disk) : M A :=
  call (fun a d => match a with Fails e => (fail (Z.neg e), d) | _ => f d end).

Definition mkdir (p : path) : M Z :=
  attempt id (fun d => if decide (p ∈ dirs d) then (- EEXIST, d) else (0, set_dirs d ({[p]} ∪ dirs d))).

(** [open] answers a file descriptor; a descriptor is the inode, with the
    position at its end, since nobody else writes to it. *)
Definition open_append (p : path) : M (Z + nat) :=
  attempt inl (fun d => match names d !! p with Some i => (inr i, d) | None => (inl (- ENOENT), d) end).

Definition open_excl (p : path) : M (Z + nat) :=
  attempt inl (fun d => match names d !! p with
    | Some _ => (inl (- EEXIST), d)
    | None => (inr (next d), create d p)
    end).

Definition open_trunc (p : path) : M (Z + nat) :=
  attempt inl (fun d => match names d !! p with
    | Some i => (inr i, put d i [])
    | None => (inr (next d), create d p)
    end).

Definition append (d : disk) (i : nat) (b : list byte) : disk := put d i (default [] (files d !! i) ++ b).

(** The number of bytes written, or the error. *)
Definition write (i : nat) (b : list byte) : M Z :=
  call (fun a d => match a with
    | Fails e => (Z.neg e, d)
    | Done => (zlen b, append d i b)
    | Short n => (zlen (take n b), append d i (take n b))
    end).

Definition fsync (i : nat) : M Z :=
  attempt id (fun d => (0, mk_disk (names d) (dirs d) (files d) ({[i]} ∪ synced d) (next d))).

(** Two names of one inode are left alone. *)
Definition rename (p q : path) : M Z :=
  attempt id (fun d => match names d !! p with
    | None => (- ENOENT, d)
    | Some i => if decide (names d !! q = Some i) then (0, d)
                else (0, set_names d (<[q := i]> (delete p (names d))))
    end).

Definition unlink (p : path) : M Z :=
  attempt id (fun d => match names d !! p with
    | None => (- ENOENT, d)
    | Some _ => (0, set_names d (delete p (names d)))
    end).

Definition link (p q : path) : M Z :=
  attempt id (fun d => match names d !! p, names d !! q with
    | None, _ => (- ENOENT, d)
    | _, Some _ => (- EEXIST, d)
    | Some i, None => (0, set_names d (<[q := i]> (names d)))
    end).

(** What [readdir] makes of a path in the directory: its last part. *)
Definition entry_of (dir p : path) : option path :=
  if has_prefix (dir ++ bs "/") p then
    let name := drop (length dir + 1) p in
    if bool_decide (x2f ∈ name) then None else Some name
  else None.

Definition entries (d : disk) (dir : path) : list path :=
  omap (entry_of dir) (elements (dom (names d)) ++ elements (dirs d)).

(** The names there are, "." and ".." first, or the error of [opendir]. *)
Definition readdir (dir : path) : M (Z + list path) :=
  attempt inl (fun d =>
    if decide (dir ∈ dirs d) then (inr ([bs "."; bs ".."] ++ entries d dir), d) else (inl (- ENOENT), d)).

Definition rmdir (dir : path) : M Z :=
  attempt id (fun d =>
    if decide (dir ∈ dirs d /\ entries d dir = []) then (0, set_dirs d (dirs d ∖ {[dir]})) else (- ENOENT, d)).

Definition access (p : path) : M Z :=
  attempt id (fun d => if decide (is_Some (names d !! p) \/ p ∈ dirs d) then (0, d) else (- ENOENT, d)).

(** [clm_read_file]: all of it, or the error of the [open] or a [read]. *)
Definition clm_read_file (p : path) : M (Z + list byte) :=
  attempt inl (fun d => match contents d p with Some b => (inr b, d) | None => (inl (- ENOENT), d) end).
End Calls.

(** ** Triples *)

(** From a disk where [P] holds [m] ends with [Q], and [I] holds of every
    disk there was after a call. *)
Definition hoare {A} (I P : disk -> Prop) (m : M A) (Q : A -> disk -> Prop) : Prop :=
  forall w, P (dk w) -> Q (fst (m w)) (dk (snd (m w))) /\
    exists l, trail (snd (m w)) = l ++ trail w /\ Forall I l.

Lemma h_ret {A} I (P : disk -> Prop) (a : A) (Q : A -> disk -> Prop) : (forall d, P d -> Q a d) -> hoare I P (mret a) Q.
Proof. intros HQ w Hw. split; [by apply HQ|]. by exists []. Qed.

Lemma h_bind {A B} I P (R : A -> disk -> Prop) (Q : B -> disk -> Prop) (m : M A) k :
  hoare I P m R -> (forall a, hoare I (R a) (k a) Q) -> hoare I P (m ≫= k) Q.
Proof.
  intros Hm Hk w Hw. unfold mbind, M_bind. destruct (Hm w Hw) as (Hr & l & El & Hl).
  destruct (m w) as [a w']. cbn in *. destruct (Hk a w' Hr) as (Hq & l' & El' & Hl').
  split; [done|]. exists (l' ++ l). by rewrite El', El, <- app_assoc, Forall_app.
Qed.

Lemma h_weaken {A} (I I' P P' : disk -> Prop) (Q Q' : A -> disk -> Prop) m : hoare I P m Q ->
  (forall d, I d -> I' d) -> (forall d, P' d -> P d) -> (forall a d, Q a d -> Q' a d) -> hoare I' P' m Q'.
Proof.
  intros Hm HI HP HQ w Hw. destruct (Hm w) as (Hq & l & El & Hl); [auto|]. split; [auto|].
  exists l. split; [done|]. revert Hl. apply List.Forall_impl. auto.
Qed.

Lemma h_post {A} (I P : disk -> Prop) (Q Q' : A -> disk -> Prop) m :
  hoare I P m Q -> (forall a d, Q a d -> Q' a d) -> hoare I P m Q'.
Proof. intros Hm HQ. by eapply h_weaken. Qed.

Lemma h_pre {A} (I P P' : disk -> Prop) (Q : A -> disk -> Prop) m :
  hoare I P m Q -> (forall d, P' d -> P d) -> hoare I P' m Q.
Proof. intros Hm HP. by eapply h_weaken. Qed.

(** A fact the disk has no part in. *)
Lemma h_fact {A} (I P : disk -> Prop) (F : Prop) (Q : A -> disk -> Prop) m :
  (F -> hoare I P m Q) -> hoare I (fun d => F /\ P d) m Q.
Proof. intros Hm w [HF Hw]. by apply Hm. Qed.

Lemma h_exists {A B} (I : disk -> Prop) (P : B -> disk -> Prop) (Q : A -> disk -> Prop) m :
  (forall x, hoare I (P x) m Q) -> hoare I (fun d => exists x, P x d) m Q.
Proof. intros Hm w [x Hw]. by apply (Hm x). Qed.

Lemma h_call {A} env (I P : disk -> Prop) (Q : A -> disk -> Prop) f :
  (forall a d, P d -> I (snd (f a d)) /\ Q (fst (f a d)) (snd (f a d))) -> hoare I P (call env f) Q.
Proof.
  intros Hf w Hw. unfold call. specialize (Hf (env (turn w)) _ Hw).
  destruct (f (env (turn w)) (dk w)) as [a d]. cbn in *. destruct Hf as [Hi Hq]. split; [done|].
  exists [d]. split; [done|by constructor].
Qed.

Lemma h_attempt {A} env (I P : disk -> Prop) (Q : A -> disk -> Prop) fail f :
  (forall d, P d -> I d) -> (forall d e, P d -> Q (fail (Z.neg e)) d) ->
  (forall d, P d -> I (snd (f d)) /\ Q (fst (f d)) (snd (f d))) -> hoare I P (attempt env fail f) Q.
Proof. intros HI Hn Hf. apply h_call. intros a d Hd. destruct a; cbn; auto. Qed.

(** What a program answers, on any disk. *)
Definition returns {A} (m : M A) (F : A -> Prop) : Prop := forall w, F (fst (m w)).

Lemma returns_ret {A} (a : A) (F : A -> Prop) : F a -> returns (mret a) F.
Proof. by intros Ha w. Qed.

Lemma returns_bind {A B} (m : M A) (k : A -> M B) (F : A -> Prop) (F' : B -> Prop) :
  returns m F -> (forall a, F a -> returns (k a) F') -> returns (m ≫= k) F'.
Proof.
  intros Hm Hk w. unfold mbind, M_bind. specialize (Hm w). destruct (m w) as [a w']. by apply Hk.
Qed.

Lemma returns_any {A} (m : M A) : returns m (fun _ => True).
Proof. done. Qed.

Lemma h_and {A} (I P : disk -> Prop) (m : M A) (Q : A -> disk -> Prop) F :
  hoare I P m Q -> returns m F -> hoare I P m (fun a d => Q a d /\ F a).
Proof. intros Hm HF w Hw. destruct (Hm w Hw) as [Hq Hl]. split; [|done]. split; [done|apply HF]. Qed.

(** An invariant that every call keeps. *)
Definition keeps {A} (I : disk -> Prop) (m : M A) : Prop := hoare I I m (fun _ => I).

Lemma keeps_ret {A} I (a : A) : keeps I (mret a).
Proof. by apply h_ret. Qed.

Lemma keeps_bind {A B} I (m : M A) (k : A -> M B) : keeps I m -> (forall a, keeps I (k a)) -> keeps I (m ≫= k).
Proof. intros Hm Hk. by eapply h_bind. Qed.

(** The same, and what the first part answers is known. *)
Lemma keeps_bind_returns {A B} I (m : M A) (k : A -> M B) (F : A -> Prop) :
  keeps I m -> returns m F -> (forall a, F a -> keeps I (k a)) -> keeps I (m ≫= k).
Proof.
  intros Hm Hf Hk. eapply h_bind; [by apply h_and|]. intros a. apply (h_pre _ (fun d => F a /\ I d)); [|by intros d []]. apply h_fact. apply Hk.
Qed.

Lemma keeps_attempt {A} env I (fail : Z -> A) f : (forall d, I d -> I (snd (f d))) -> keeps I (attempt env fail f).
Proof. intros Hf. apply h_attempt; auto. Qed.

(** A loop over a list. *)
Fixpoint each_entry {A} (f : A -> M unit) (l : list A) : M unit :=
  match l with [] => mret tt | x :: l' => f x ≫= fun _ => each_entry f l' end.

Lemma keeps_each_entry {A} I (f : A -> M unit) l : (forall x, x ∈ l -> keeps I (f x)) -> keeps I (each_entry f l).
Proof.
  induction l as [|x l IH]; intros Hf; [apply keeps_ret|]. apply keeps_bind; [apply Hf; by left|].
  intros _. apply IH. intros y Hy. apply Hf. by right.
Qed.

(** Calls that only look. *)
Lemma keeps_readdir env I p : keeps I (readdir env p).
Proof. apply keeps_attempt. intros d Hd. by case_decide. Qed.

(** No entry is a path. *)
Lemma entries_plain d dir x : x ∈ entries d dir -> x2f ∉ x.
Proof.
  unfold entries. intros (p & _ & Hp)%list_elem_of_omap. unfold entry_of in Hp.
  destruct (has_prefix _ _); [|done]. cbv zeta in Hp. case_bool_decide; [done|]. by injection Hp as <-.
Qed.

Lemma readdir_entries env dir : returns (readdir env dir) (fun r => forall es x, r = inr es -> x ∈ es -> x2f ∉ x).
Proof.
  intros w es x. unfold readdir, attempt, call.
  destruct (env (turn w)); cbn; [case_decide| |case_decide]; cbn; try done; intros [= <-];
    intros [->|[->|Hx]%elem_of_cons]%elem_of_cons; try (apply (bool_decide_unpack _); vm_compute; exact I); by apply entries_plain in Hx.
Qed.

Lemma keeps_access env I p : keeps I (access env p).
Proof. apply keeps_attempt. intros d Hd. by case_decide. Qed.

Lemma keeps_read env I p : keeps I (clm_read_file env p).
Proof. apply keeps_attempt. intros d Hd. by destruct (contents d p). Qed.

Lemma keeps_open_append env I p : keeps I (open_append env p).
Proof. apply keeps_attempt. intros d Hd. by destruct (names d !! p). Qed.

(** ** What the calls keep *)

(** The names of one inode: a log's and its backup's at most. *)
Definition backs (p q : path) : Prop := exists s, p = s ++ bs ".jsonl" /\ q = s ++ bs ".jsonl.bak".

Record tidy (d : disk) : Prop := {
  t_next p i : names d !! p = Some i -> (i < next d)%nat;
  t_alias p q i : names d !! p = Some i -> names d !! q = Some i -> p = q \/ backs p q \/ backs q p;
  t_files p i : names d !! p = Some i -> is_Some (files d !! i)
}.

(** A name that has an inode of its own. *)
Definition sole (p : path) : Prop := forall q, ~ backs p q /\ ~ backs q p.

Lemma sole_alias d p q i : tidy d -> sole p -> names d !! p = Some i -> names d !! q = Some i -> q = p.
Proof. intros [_ Ha _] Hs Hp Hq. destruct (Hs q) as [S1 S2]. destruct (Ha p q i Hp Hq) as [|[]]; done. Qed.

Lemma tidy_put d i b : tidy d -> tidy (put d i b).
Proof.
  intros [Hn Ha Hf]. split; [done..|]. cbn. intros p j Hp. destruct (decide (i = j)) as [<-|].
  - rewrite lookup_insert_eq. eauto.
  - rewrite lookup_insert_ne by done. eauto.
Qed.

Lemma tidy_dirs d n : tidy d -> tidy (set_dirs d n).
Proof. by intros []. Qed.

Lemma tidy_create d p : tidy d -> tidy (create d p).
Proof.
  intros [Hn Ha Hf]. split; cbn.
  - intros q i. rewrite lookup_insert_Some. intros [[_ <-]|[_ Hq]]; [lia|]. specialize (Hn _ _ Hq). lia.
  - intros q r i. rewrite !lookup_insert_Some. intros [[<- <-]|[_ Hq]] [[<- E]|[_ Hr]]; [by left| | |by eapply Ha].
    + specialize (Hn _ _ Hr). lia.
    + specialize (Hn _ _ Hq). lia.
  - intros q i Hq. destruct (decide (next d = i)) as [<-|Hne]; [rewrite lookup_insert_eq; eauto|].
    rewrite lookup_insert_ne by done. apply lookup_insert_Some in Hq as [[_ E]|[_ Hq]]; [done|by eapply Hf].
Qed.

(** Names that had an inode before. *)
Lemma tidy_names d n : tidy d -> (forall p i, n !! p = Some i -> exists q, names d !! q = Some i) ->
  (forall p q i, n !! p = Some i -> n !! q = Some i -> p = q \/ backs p q \/ backs q p) -> tidy (set_names d n).
Proof.
  intros [Hn _ Hf] Ho Ha. split; cbn; [|done|]; intros p i Hp; destruct (Ho p i Hp) as [q Hq]; [by eapply Hn|by eapply Hf].
Qed.

Lemma tidy_delete d p : tidy d -> tidy (set_names d (delete p (names d))).
Proof.
  intros Ht. apply tidy_names; [done| |].
  - intros q i. rewrite lookup_delete_Some. intros [_ Hq]. eauto.
  - intros q r i. rewrite !lookup_delete_Some. intros [_ Hq] [_ Hr]. by eapply t_alias.
Qed.

Lemma tidy_rename d p q i : tidy d -> sole p -> names d !! p = Some i ->
  tidy (set_names d (<[q := i]> (delete p (names d)))).
Proof.
  intros Ht Hs Hp.
  assert (Hi : forall r, delete p (names d) !! r <> Some i).
  { intros r. rewrite lookup_delete_Some. intros [Hne Hr]. apply Hne. symmetry. by eapply sole_alias. }
  apply tidy_names; [done| |].
  - intros r j. rewrite lookup_insert_Some, lookup_delete_Some. intros [[_ <-]|[_ [_ Hr]]]; eauto.
  - intros r t j. rewrite !lookup_insert_Some. intros [[<- <-]|[_ Hr]] [[<- E]|[_ Htt]]; [by left| | |].
    + by apply Hi in Htt.
    + subst. by apply Hi in Hr.
    + apply lookup_delete_Some in Hr as [_ Hr], Htt as [_ Htt]. by eapply t_alias.
Qed.

Lemma tidy_link d p q i : tidy d -> backs p q -> names d !! p = Some i -> names d !! q = None ->
  tidy (set_names d (<[q := i]> (names d))).
Proof.
  intros Ht Hb Hp Hq.
  assert (Hr : forall r, names d !! r = Some i -> r = p).
  { intros r Hr. destruct (t_alias _ Ht p r i Hp Hr) as [E|[Hb'|Hb']]; [done| |].
    - destruct Hb as (s & -> & ->), Hb' as (s' & E1 & ->). apply app_inv_tail in E1 as <-. congruence.
    - destruct Hb as (s & -> & ->), Hb' as (s' & -> & E1). apply (f_equal last) in E1. rewrite !last_app in E1. done. }
  apply tidy_names; [done| |].
  - intros r j. rewrite lookup_insert_Some. intros [[_ <-]|[_ Hj]]; eauto.
  - intros r t j. rewrite !lookup_insert_Some. intros [[<- <-]|[_ H1]] [[<- E]|[_ H2]]; [by left| | |by eapply t_alias].
    + apply Hr in H2 as ->. by right; right.
    + subst. apply Hr in H1 as ->. by right; left.
Qed.

(** The names in [G] stand for what they did on the disk [d0], and what of
    it was safe still is. *)
Record same (G : path -> Prop) (d0 d : disk) : Prop := {
  s_tidy : tidy d;
  s_name p : G p -> names d !! p = names d0 !! p;
  s_bytes p : G p -> contents d p = contents d0 p;
  s_synced p i : G p -> names d0 !! p = Some i -> i ∈ synced d0 -> i ∈ synced d;
  s_dirs p : G p -> p ∈ dirs d <-> p ∈ dirs d0
}.

Lemma same_refl G d : tidy d -> same G d d.
Proof. by split. Qed.

Lemma same_trans G d0 d1 d2 : same G d0 d1 -> same G d1 d2 -> same G d0 d2.
Proof.
  intros [T1 N1 B1 S1 D1] [T2 N2 B2 S2 D2]. split; [done| | | |].
  - intros p Hp. by rewrite N2, N1.
  - intros p Hp. by rewrite B2, B1.
  - intros p i Hp Hi Hs. apply (S2 p); [done|by rewrite N1|]. by apply (S1 p).
  - intros p Hp. by rewrite D2, D1.
Qed.

Lemma same_mono (G G' : path -> Prop) d0 d : (forall p, G' p -> G p) -> same G d0 d -> same G' d0 d.
Proof. intros HG [T N B S D]. split; eauto. Qed.

(** A descriptor: the inode of a name, with its bytes. *)
Definition at_file (p : path) (i : nat) (b : list byte) (d : disk) : Prop :=
  names d !! p = Some i /\ files d !! i = Some b.

Lemma contents_at p i b d : at_file p i b d -> contents d p = Some b.
Proof. intros [Hp Hf]. unfold contents. by rewrite Hp. Qed.

Lemma at_contents p b d : contents d p = Some b -> exists i, at_file p i b d.
Proof. unfold contents. destruct (names d !! p) as [i|] eqn:E; [|done]. intros Hf. by exists i. Qed.

Lemma same_at (G : path -> Prop) d0 d p i b : same G d0 d -> G p -> at_file p i b d0 -> at_file p i b d.
Proof.
  intros [_ N B _ _] Hp [Hi Hb]. specialize (N p Hp). specialize (B p Hp). unfold contents in B.
  rewrite N, Hi in B. cbn in B. split; [by rewrite N|by rewrite B].
Qed.

(** No name of [G] shares its inode. *)
Definition apart (G : path -> Prop) (p : path) : Prop := forall q, G q -> q <> p /\ ~ backs p q /\ ~ backs q p.

Lemma apart_inode G p d i : tidy d -> apart G p -> names d !! p = Some i -> forall q, G q -> names d !! q <> Some i.
Proof.
  intros Ht Ha Hi q Hq E. destruct (Ha q Hq) as (A1 & A2 & A3). by destruct (t_alias _ Ht p q i Hi E) as [|[]].
Qed.

Lemma apart_sole (G : path -> Prop) p : sole p -> ~ G p -> apart G p.
Proof. intros Hs Hg q Hq. destruct (Hs q). split_and!; [congruence|done..]. Qed.

Section Same.
Context (G : path -> Prop) (d0 : disk).
Abbreviation U := (same G d0).

Lemma same_names d n : U d -> tidy (set_names d n) -> (forall p, G p -> n !! p = names d !! p) -> U (set_names d n).
Proof.
  intros [Ht N B S D] Ht' Hn. split; [done| | |done|done].
  - intros p Hp. by cbn; rewrite Hn, N.
  - intros p Hp. rewrite <- B by done. unfold contents. cbn. by rewrite Hn.
Qed.

Lemma same_put d i b : U d -> (forall p, G p -> names d !! p <> Some i) -> U (put d i b).
Proof.
  intros [Ht N B S D] Hi. split; [by apply tidy_put|done| | |done].
  - intros p Hp. rewrite <- B by done. unfold contents, put. cbn. specialize (Hi p Hp).
    destruct (names d !! p) as [j|]; [|done]. cbn. rewrite lookup_insert_ne; [done|congruence].
  - intros p j Hp Hj Hs. cbn. specialize (Hi p Hp). rewrite N in Hi by done. specialize (S p j Hp Hj Hs). set_solver.
Qed.

Lemma same_create d p : U d -> ~ G p -> U (create d p).
Proof.
  intros [Ht N B S D] Hp. split; [by apply tidy_create| | | |done].
  - intros q Hq. cbn. rewrite lookup_insert_ne by congruence. by apply N.
  - intros q Hq. rewrite <- B by done. unfold contents, create. cbn. rewrite lookup_insert_ne by congruence.
    destruct (names d !! q) as [j|] eqn:E; [|done]. cbn. pose proof (t_next _ Ht _ _ E).
    rewrite lookup_insert_ne by lia. done.
  - intros q j Hq Hj Hs. cbn. specialize (S q j Hq Hj Hs). rewrite <- N in Hj by done.
    pose proof (t_next _ Ht _ _ Hj). assert (j <> next d) by lia. set_solver.
Qed.

Context (env : nat -> answer).

Lemma same_dirs d n : U d -> (forall p, G p -> p ∈ n <-> p ∈ dirs d) -> U (set_dirs d n).
Proof.
  intros [Ht N B S D] Hn. split; [by apply tidy_dirs|done..|]. intros p Hp. cbn. by rewrite Hn, D.
Qed.

Lemma keeps_mkdir p : ~ G p -> keeps U (mkdir env p).
Proof.
  intros Hp. apply keeps_attempt. intros d Hd. case_decide; [done|]. apply same_dirs; [done|].
  intros q Hq. assert (q <> p) by congruence. set_solver.
Qed.

Lemma keeps_rmdir p : ~ G p -> keeps U (rmdir env p).
Proof.
  intros Hp. apply keeps_attempt. intros d Hd. case_decide; [|done]. apply same_dirs; [done|].
  intros q Hq. assert (q <> p) by congruence. set_solver.
Qed.

Lemma keeps_unlink p : ~ G p -> keeps U (unlink env p).
Proof.
  intros Hp. apply keeps_attempt. intros d Hd. destruct (names d !! p) as [i|]; [|done]. cbn.
  apply same_names; [done|apply tidy_delete, Hd|]. intros q Hq. rewrite lookup_delete_ne; [done|congruence].
Qed.

Lemma keeps_fsync i : keeps U (fsync env i).
Proof.
  apply keeps_attempt. intros d [[Hn Ha Hf] N B S D]. split; [by split|done|done| |done]. intros p j Hp Hj Hs.
  cbn. specialize (S p j Hp Hj Hs). set_solver.
Qed.

Lemma keeps_rename p q : ~ G p -> ~ G q -> sole p -> keeps U (rename env p q).
Proof.
  intros Hp Hq Hs. apply keeps_attempt. intros d Hd. destruct (names d !! p) as [i|] eqn:E; [|done].
  case_decide; [done|]. cbn. apply same_names; [done|by apply tidy_rename; [apply Hd|..]|].
  intros r Hr. rewrite lookup_insert_ne, lookup_delete_ne; [done|congruence..].
Qed.

Lemma keeps_link p q : ~ G q -> backs p q -> keeps U (link env p q).
Proof.
  intros Hq Hb. apply keeps_attempt. intros d Hd. destruct (names d !! p) as [i|] eqn:E; [|done].
  destruct (names d !! q) eqn:Eq; [done|]. cbn. apply same_names; [done|by apply (tidy_link _ p); [apply Hd|..]|].
  intros r Hr. rewrite lookup_insert_ne; [done|congruence].
Qed.

Lemma h_open_excl p : ~ G p ->
  hoare U U (open_excl env p) (fun r d => U d /\ forall i, r = inr i -> at_file p i [] d).
Proof.
  intros Hp. apply h_attempt; [done|by split|]. intros d Hd. destruct (names d !! p); cbn; [by split|].
  split; [by apply same_create|]. split; [by apply same_create|]. intros i [= <-].
  split; cbn; by rewrite lookup_insert_eq.
Qed.

Lemma h_open_trunc p : ~ G p -> sole p ->
  hoare U U (open_trunc env p) (fun r d => U d /\ forall i, r = inr i -> at_file p i [] d).
Proof.
  intros Hp Hs. apply h_attempt; [done|by split|]. intros d Hd.
  destruct (names d !! p) as [i|] eqn:E; cbn.
  - assert (U (put d i [])) by (apply same_put; [done|]; eapply apart_inode; [apply Hd|by apply apart_sole|done]).
    split; [done|]. split; [done|]. intros j [= <-]. split; [done|]. cbn. by rewrite lookup_insert_eq.
  - assert (U (create d p)) by by apply same_create. split; [done|]. split; [done|].
    intros i [= <-]. split; cbn; by rewrite lookup_insert_eq.
Qed.

(** *** Writing to a descriptor *)

(** The file [p] is open as [i] and holds [b]. *)
Definition open_at (p : path) (i : nat) (b : list byte) (d : disk) : Prop := U d /\ at_file p i b d.

Lemma open_append_at p i b x d : apart G p -> open_at p i b d -> open_at p i (b ++ x) (append d i x).
Proof.
  intros Ha [Hd [Hn Hf]]. split.
  - apply same_put; [done|]. eapply apart_inode; [apply Hd|done..].
  - split; [done|]. cbn. by rewrite lookup_insert_eq, Hf.
Qed.

(** What is written is a part of the data from its start, as long as the
    call says. *)
Lemma h_write p i b x : apart G p ->
  hoare U (open_at p i b) (write env i x) (fun r d => open_at p i (b ++ take (Z.to_nat r) x) d /\ r <= zlen x).
Proof.
  intros Ha. apply h_call. intros a d Hd.
  assert (Hx : forall y, U (append d i y) /\ open_at p i (b ++ y) (append d i y)).
  { intros y. pose proof (open_append_at p i b y d Ha Hd) as Ho. split; [apply Ho|done]. }
  destruct a as [|e|n]; cbn.
  - destruct (Hx x) as [H1 H2]. unfold zlen. rewrite Nat2Z.id, take_ge by lia. split; [done|]. split; [done|lia].
  - rewrite take_0, app_nil_r. split; [apply Hd|]. unfold zlen. split; [done|lia].
  - destruct (Hx (take n x)) as [H1 H2]. unfold zlen. rewrite length_take, Nat2Z.id. split; [done|]. split; [|lia].
    assert (E : take (n `min` length x) x = take n x); [|by rewrite E].
    destruct (Nat.le_ge_cases n (length x)); [by rewrite Nat.min_l by lia|]. by rewrite Nat.min_r, !take_ge by lia.
Qed.
End Same.

(** A file beside those of [G] that is left alone. *)
Lemma keeps_beside {A} (G : path -> Prop) d0 p i b (sy : Prop) (m : M A) :
  (forall d1, keeps (same (fun q => G q \/ q = p) d1) m) ->
  hoare (same G d0) (fun d => open_at G d0 p i b d /\ (sy -> i ∈ synced d)) m
    (fun _ d => open_at G d0 p i b d /\ (sy -> i ∈ synced d)).
Proof.
  intros Hm w [[Hu Ha] Hs]. set (d1 := dk w) in *.
  assert (Ht : tidy d1) by apply Hu.
  assert (Hd : forall d, same (fun q => G q \/ q = p) d1 d -> same G d0 d).
  { intros d Hd. eapply same_trans; [done|]. eapply same_mono; [|done]. by left. }
  destruct (Hm d1 w) as (Hq & l & El & Hl); [by apply same_refl|]. split.
  - split; [split; [by apply Hd|]|].
    + eapply same_at; [done|by right|done].
    + intros Hy. apply (s_synced _ _ _ Hq p); [by right|apply Ha|by apply Hs].
  - exists l. split; [done|]. revert Hl. apply List.Forall_impl. exact Hd.
Qed.
