(* ===== verification/Tokens.v ===== *)
(** The output budget of [src/libclm/tools.c]: token estimates without a
    tokenizer, the head and tail that fit a budget, and [cut_output], which
    puts a marker between them. Costs are in twelfths of a token. [past] is
    the byte after the data, when there is one to read: with [None] there, a
    [None] from [fit_tail] and [cut_output] is a read past the end. *)

From S2P Require Import Prelude Utf8.

(** ** Estimates *)

Definition is_space (b : Z) : bool :=
  (b =? 0x20) || (b =? 0x09) || (b =? 0x0a) || (b =? 0x0d) || (b =? 0x0b) || (b =? 0x0c).

Definition byte_cost (b : Z) (wordlen : nat) : Z :=
  if (0x30 <=? b) && (b <=? 0x39) then 12
  else if (32 <=? wordlen)%nat then 8
  else if 0x80 <=? b then 5
  else if ((0x61 <=? b) && (b <=? 0x7a)) || ((0x41 <=? b) && (b <=? 0x5a)) then 3
  else 6.

(** The loop of [word_cost] over the bytes [w] of a word of [n] bytes. *)
Fixpoint bytes_cost (w : list byte) (n : nat) : Z :=
  match w with
  | [] => 0
  | b :: w' => byte_cost (b2z b) n + bytes_cost w' n
  end.

Definition word_cost (w : list byte) (n : nat) : Z := 3 + bytes_cost w n.

(** Length of the run of bytes satisfying [p] at the front. *)
Fixpoint run (p : Z -> bool) (s : list byte) : nat :=
  match s with
  | [] => 0
  | b :: s' => if p (b2z b) then S (run p s') else 0
  end.

Definition nonspace (b : Z) : bool := negb (is_space b).

(** [while (j < len && p(d[j])) j++] *)
Definition fwd (p : Z -> bool) (d : list byte) (j : nat) : nat := (j + run p (drop j d))%nat.

(** [while (j > 0 && p(d[j - 1])) j--] *)
Fixpoint bwd (p : Z -> bool) (d : list byte) (j : nat) : nat :=
  match j with
  | O => O
  | S j' => if p (rd d j') then bwd p d j' else j
  end.

(** [d + i .. d + j] *)
Definition slice (d : list byte) (i j : nat) : list byte := take (j - i) (drop i d).

Fixpoint est_loop (fuel : nat) (d : list byte) (i : nat) (c : Z) : Z :=
  match fuel with
  | O => c
  | S f =>
      if (i <? length d)%nat then
        let i := fwd is_space d i in
        let j := fwd nonspace d i in
        est_loop f d j (if (i <? j)%nat then c + word_cost (slice d i j) (j - i) else c)
      else c
  end.

Definition est_tokens (d : list byte) : Z := (est_loop (length d) d 0 0 + 11) / 12.

(** ** The head and the tail that fit *)

(** The loop inside the one word that fills the budget, from [end]. *)
Fixpoint head_in_word (n : nat) (d : list byte) (end_ k wl : nat) (cost budget maxbytes : Z) : nat :=
  match n with
  | O => end_
  | S n' =>
      if (end_ <? k)%nat && (Z.of_nat end_ <? maxbytes)
         && (cost + byte_cost (rd d end_) wl <=? budget)
      then head_in_word n' d (S end_) k wl (cost + byte_cost (rd d end_) wl) budget maxbytes
      else end_
  end.

(** [for (p = end; p > end / 2; p--)]: the offset after the newline found. *)
Fixpoint head_newline (p : nat) (d : list byte) (end_ : nat) : nat :=
  match p with
  | O => end_
  | S p' =>
      if (end_ / 2 <? p)%nat then
        if rd d p' =? 0x0a then p else head_newline p' d end_
      else end_
  end.

Fixpoint fit_head_loop (fuel : nat) (d : list byte) (i : nat) (cost budget maxbytes : Z) : nat :=
  match fuel with
  | O => head_newline i d i
  | S f =>
      if (i <? length d)%nat then
        let j := fwd is_space d i in
        let k := fwd nonspace d j in
        let c := word_cost (slice d j k) (k - j) in
        if (maxbytes <? Z.of_nat k) || (budget <? cost + c) then
          if (i =? 0)%nat
          then utf8_floor d (head_in_word (k - j) d j k (k - j) (cost + 3) budget maxbytes)
          else head_newline i d i
        else fit_head_loop f d k (cost + c) budget maxbytes
      else head_newline i d i
  end.

Definition fit_head (d : list byte) (budget maxbytes : Z) : nat :=
  fit_head_loop (length d) d 0 0 budget maxbytes.

Fixpoint tail_in_word (n : nat) (d : list byte) (start k wl : nat) (cost budget maxbytes : Z) : nat :=
  match n with
  | O => start
  | S n' =>
      if (k <? start)%nat && (zlen d - Z.of_nat start <? maxbytes)
         && (cost + byte_cost (rd d (start - 1)) wl <=? budget)
      then tail_in_word n' d (start - 1) k wl (cost + byte_cost (rd d (start - 1)) wl) budget maxbytes
      else start
  end.

(** [while (start > k && (d[start] & 0xC0) == 0x80) start--] *)
Fixpoint tail_floor (past : option Z) (d : list byte) (k start : nat) : option nat :=
  match start with
  | O => Some O
  | S s' =>
      if (k <? start)%nat then
        b ← match get d start with Some b => Some b | None => past end;
        if is_cont b then tail_floor past d k s' else Some start
      else Some start
  end.

(** [for (p = start; p < start + (len - start) / 2; p++)] *)
Fixpoint tail_newline (n : nat) (d : list byte) (p start : nat) : nat :=
  match n with
  | O => start
  | S n' => if rd d p =? 0x0a then S p else tail_newline n' d (S p) start
  end.

Fixpoint fit_tail_loop (past : option Z) (fuel : nat) (d : list byte) (i : nat) (cost budget maxbytes : Z)
  : option nat :=
  let done := Some (tail_newline ((length d - i) / 2) d i i) in
  match fuel with
  | O => done
  | S f =>
      if (0 <? i)%nat then
        let j := bwd is_space d i in
        let k := bwd nonspace d j in
        let c := word_cost (slice d k j) (j - k) in
        if (maxbytes <? zlen d - Z.of_nat k) || (budget <? cost + c) then
          if (i =? length d)%nat
          then tail_floor past d k (tail_in_word (j - k) d j k (j - k) (cost + 3) budget maxbytes)
          else done
        else fit_tail_loop past f d k (cost + c) budget maxbytes
      else done
  end.

Definition fit_tail (past : option Z) (d : list byte) (budget maxbytes : Z) : option nat :=
  fit_tail_loop past (length d) d (length d) 0 budget maxbytes.

(** ** [cut_output] *)

Definition count_nl (d : list byte) : Z :=
  Z.of_nat (length (List.filter (fun b => b2z b =? 0x0a) d)).

Definition count_lines (d : list byte) : Z :=
  count_nl d + (if (0 <? length d)%nat && negb (rd d (length d - 1) =? 0x0a) then 1 else 0).

(** The byte and token budgets of a cut: of the head, then of the tail. *)
Definition tok_cap (cap : Z) : Z := if 0 <? cap / 4 then cap / 4 else 1.
Definition cut_budget (cap : Z) : Z :=
  (if 128 <? tok_cap cap then tok_cap cap - 128 else tok_cap cap / 2) * 12.
Definition cut_bytes (cap : Z) : Z := if 1024 <? cap then cap - 1024 else cap / 2.

Definition cut_marker (d : list byte) (head tail : nat) (path : list byte) : list byte :=
  let total := est_tokens d in
  let lines := count_lines d in
  let first := count_nl (take head d) + 1 in
  let last := if (head <? tail)%nat then count_nl (take (tail - 1) d) + 1 else first in
  let where_ :=
    snprintf 64 (if first =? last then bs "inside line " ++ dec first
                 else bs "lines " ++ dec first ++ bs "-" ++ dec last) in
  let left := est_tokens (slice d head tail) in
  snprintf 1024
    ((if (0 <? head)%nat && negb (rd d (head - 1) =? 0x0a) then [x0a] else [])
     ++ bs "[output cut: about " ++ dec left ++ bs " of " ++ dec total
     ++ bs " tokens left out, " ++ where_ ++ bs " of " ++ dec lines ++ bs ", "
     ++ dec (zlen d) ++ bs " bytes in all. "
     ++ (match path with [] => bs "The full output was not saved." | _ => bs "Full output: " end)
     ++ path
     ++ (match path with [] => [] | _ =>
           bs "; read parts of it with read_file offset and limit, or grep it." end)
     ++ bs "]" ++ [x0a]).

(** [spool] is the embedder's callback, already applied to the call's id and
    name: the path it wrote to, or a refusal. *)
Definition cut_output (past : option Z) (spool : option (list byte -> option (list byte))) (cap : Z)
    (data : option (list byte)) : option (list byte) :=
  let d := default [] data in
  if (zlen d <=? cap) && (est_tokens d <=? tok_cap cap) then Some d
  else
    let path := match spool with
                | None => []
                | Some f => default [] (f d)
                end in
    let budget := cut_budget cap in
    let cap := cut_bytes cap in
    let head := fit_head d (budget * 2 / 3) (cap * 2 / 3) in
    tail ← fit_tail past (drop head d) (budget - budget * 2 / 3) (cap - cap * 2 / 3);
    let tail := (tail + head)%nat in
    Some (take head d ++ cut_marker d head tail path ++ drop tail d).

Definition fail_wrap (msg : option (list byte)) : list byte :=
  bs "[tool failed: " ++ default [] msg ++ bs "]".

Example est_example : est_tokens (bs "hello world 42") = 6.
Proof. vm_compute. reflexivity. Qed.

Example fit_head_example : fit_head (bs "one two three four") 40 100 = 7%nat.
Proof. vm_compute. reflexivity. Qed.

Example fit_tail_example : fit_tail None (bs "one two three four") 40 100 = Some 8%nat.
Proof. vm_compute. reflexivity. Qed.

(** With a byte to read after the data, [cut_output] always answers. *)
Lemma cut_output_total past spool cap d : is_Some (cut_output (Some past) spool cap d).
Proof.
  assert (Hf : forall e k s, is_Some (tail_floor (Some past) e k s)).
  { intros e k s. induction s as [|s IH]; cbn [tail_floor]; [by eexists|].
    case_if; [|by eexists]. destruct (get e (S s)); cbn; case_if; by eauto. }
  assert (Ht : forall e fuel i c b m, is_Some (fit_tail_loop (Some past) fuel e i c b m)).
  { intros e fuel. induction fuel as [|f IH]; intros i c b m; cbn [fit_tail_loop]; [by eexists|].
    repeat case_if; by eauto. }
  unfold cut_output. case_if; [by eexists|].
  destruct (Ht (drop (fit_head (default [] d) (cut_budget cap * 2 / 3) (cut_bytes cap * 2 / 3))
    (default [] d)) (length (drop (fit_head (default [] d) (cut_budget cap * 2 / 3)
    (cut_bytes cap * 2 / 3)) (default [] d))) (length (drop (fit_head (default [] d)
    (cut_budget cap * 2 / 3) (cut_bytes cap * 2 / 3)) (default [] d))) 0
    (cut_budget cap - cut_budget cap * 2 / 3) (cut_bytes cap - cut_bytes cap * 2 / 3)) as [t Et].
  unfold fit_tail. rewrite Et. by eexists.
Qed.

(** ** The cost of a text: its words, each with its cost *)

Fixpoint words (s : list byte) : list (list byte) :=
  match s with
  | [] => []
  | b :: s' =>
      if is_space (b2z b) then words s'
      else match s' with
           | c :: _ =>
               if is_space (b2z c) then [b] :: words s'
               else match words s' with
                    | w :: ws => (b :: w) :: ws
                    | [] => [[b]]
                    end
           | [] => [[b]]
           end
  end.

Definition cost (s : list byte) : Z :=
  fold_right (fun w c => word_cost w (length w) + c) 0 (words s).

Definition spaces (s : list byte) : Prop := Forall (fun b => is_space (b2z b) = true) s.
Definition no_spaces (s : list byte) : Prop := Forall (fun b => is_space (b2z b) = false) s.

(** The two texts meet at a word boundary. *)
Definition word_gap (a b : list byte) : Prop :=
  a = [] \/ b = [] \/ is_space (b2z (List.last a x00)) = true \/ is_space (rd b 0) = true.

Lemma words_nonempty b s : is_space (b2z b) = false -> exists w ws, words (b :: s) = w :: ws.
Proof.
  intros Hb. cbn. rewrite Hb. destruct s as [|c s]; [eauto|].
  destruct (is_space (b2z c)); [eauto|]. destruct (words (c :: s)); eauto.
Qed.

Lemma word_gap_cons x y a b : word_gap (x :: y :: a) b -> word_gap (y :: a) b.
Proof. unfold word_gap. cbn. intros [?|[?|[?|?]]]; try done; auto. Qed.

Lemma words_app a b : word_gap a b -> words (a ++ b) = words a ++ words b.
Proof.
  induction a as [|x a IH]; intros Hg; [done|]. destruct a as [|y a].
  - cbn [app]. destruct b as [|z b]; [by rewrite !app_nil_r|].
    destruct Hg as [Hg|[Hg|[Hg|Hg]]]; [done..|cbn in Hg|cbn in Hg].
    + cbn [words]. by rewrite Hg.
    + change (words [x]) with (if is_space (b2z x) then [] else [[x]]).
      rewrite rd_cons in Hg. cbn [words] in *. rewrite Hg. by destruct (is_space (b2z x)).
  - specialize (IH (word_gap_cons _ _ _ _ Hg)).
    change (words ((x :: y :: a) ++ b))
      with (if is_space (b2z x) then words ((y :: a) ++ b)
            else if is_space (b2z y) then [x] :: words ((y :: a) ++ b)
            else match words ((y :: a) ++ b) with w :: ws => (x :: w) :: ws | [] => [[x]] end).
    change (words (x :: y :: a))
      with (if is_space (b2z x) then words (y :: a)
            else if is_space (b2z y) then [x] :: words (y :: a)
            else match words (y :: a) with w :: ws => (x :: w) :: ws | [] => [[x]] end).
    rewrite IH. destruct (is_space (b2z x)); [done|].
    destruct (is_space (b2z y)) eqn:Ey; [done|].
    destruct (words_nonempty y a Ey) as (w & ws & ->). done.
Qed.

Lemma cost_app a b : word_gap a b -> cost (a ++ b) = cost a + cost b.
Proof.
  intros Hg. unfold cost. rewrite words_app by done. induction (words a); cbn; lia.
Qed.

Lemma words_spaces s : spaces s -> words s = [].
Proof. induction 1 as [|b s Hb _ IH]; [done|]. cbn. by rewrite Hb. Qed.

Lemma words_word w : no_spaces w -> w <> [] -> words w = [w].
Proof.
  induction 1 as [|b w Hb Hw IH]; [done|]. intros _. cbn [words]. rewrite Hb.
  destruct w as [|c w]; [done|]. inversion Hw as [|? ? Hc _]; subst. rewrite Hc.
  by rewrite IH.
Qed.

Lemma cost_spaces s : spaces s -> cost s = 0.
Proof. intros. unfold cost. by rewrite words_spaces. Qed.

Lemma cost_word w : no_spaces w -> w <> [] -> cost w = word_cost w (length w).
Proof. intros. unfold cost. rewrite words_word by done. cbn. lia. Qed.

(** ** Costs grow with the text *)

Lemma byte_cost_bounds b n : 0 <= b2z b < 256 -> 3 <= byte_cost (b2z b) n <= 12.
Proof. intros _. unfold byte_cost. case_ifs; lia. Qed.

Lemma byte_cost_mono b n m : (n <= m)%nat -> byte_cost b n <= byte_cost b m.
Proof. intros. unfold byte_cost. case_ifs; lia. Qed.

Lemma bytes_cost_mono w n m : (n <= m)%nat -> bytes_cost w n <= bytes_cost w m.
Proof.
  intros. induction w as [|b w IH]; cbn; [lia|]. pose proof (byte_cost_mono (b2z b) n m ltac:(lia)). lia.
Qed.

Lemma bytes_cost_app v w n : bytes_cost (v ++ w) n = bytes_cost v n + bytes_cost w n.
Proof. induction v as [|b v IH]; cbn; [lia|]. rewrite IH. lia. Qed.

Lemma bytes_cost_nonneg w n : 0 <= bytes_cost w n.
Proof.
  induction w as [|b w IH]; cbn; [lia|].
  pose proof (byte_cost_bounds b n (b2z_range b)). lia.
Qed.

Lemma cost_nonneg s : 0 <= cost s.
Proof.
  unfold cost. induction (words s) as [|w ws IH]; cbn; [lia|].
  pose proof (bytes_cost_nonneg w (length w)).
  assert (0 <= word_cost w (length w)) by (unfold word_cost; lia). lia.
Qed.

(** The longest prefix in a class, and the longest suffix. *)
Lemma run_split p s : Forall (fun b => p (b2z b) = true) (take (run p s) s) /\
  (drop (run p s) s = [] \/ p (rd (drop (run p s) s) 0) = false) /\ (run p s <= length s)%nat.
Proof.
  induction s as [|b s (IH1 & IH2 & IH3)]; cbn; [auto|].
  destruct (p (b2z b)) eqn:E; cbn; split_and!; auto; lia.
Qed.

Lemma bwd_split p d : forall j, (j <= length d)%nat ->
  (bwd p d j <= j)%nat /\
  Forall (fun b => p (b2z b) = true) (slice d (bwd p d j) j) /\
  (bwd p d j = 0%nat \/ p (rd d (bwd p d j - 1)) = false).
Proof.
  induction j as [|j IH]; intros Hj; cbn [bwd].
  - unfold slice. cbn. auto.
  - destruct (p (rd d j)) eqn:E.
    + destruct (IH ltac:(lia)) as (H1 & H2 & H3). split_and!; [lia| |done].
      unfold slice in *. replace (S j - bwd p d j)%nat with (S (j - bwd p d j)) by lia.
      destruct (lookup_lt_is_Some_2 d j ltac:(lia)) as [b Hb].
      rewrite (take_S_r _ _ b) by (rewrite lookup_drop, <- Hb; f_equal; lia).
      apply Forall_app. split; [done|]. constructor; [|constructor].
      unfold rd in E. by rewrite (nth_lookup_Some _ _ _ _ Hb) in E.
    + split_and!; [lia| |right; by rewrite Nat.sub_succ, Nat.sub_0_r].
      unfold slice. by rewrite Nat.sub_diag.
Qed.

(** ** Slices and gaps *)

Lemma rd_drop d i j : rd (drop i d) j = rd d (i + j).
Proof. unfold rd. by rewrite nth_skipn. Qed.

Lemma rd_slice d i j k : (i + k < j)%nat -> rd (slice d i j) k = rd d (i + k).
Proof. intros. unfold slice. rewrite rd_take by lia. apply rd_drop. Qed.

Lemma slice_app d i j k : (i <= j <= k)%nat -> slice d i j ++ slice d j k = slice d i k.
Proof.
  intros. unfold slice. replace (k - i)%nat with ((j - i) + (k - j))%nat by lia.
  rewrite <- take_take_drop, drop_drop. by replace (i + (j - i))%nat with j by lia.
Qed.

Lemma take_slice d i j : (i <= j)%nat -> take i d ++ slice d i j = take j d.
Proof.
  intros. pose proof (slice_app d 0 i j ltac:(lia)) as E. unfold slice in E.
  by rewrite !drop_0, !Nat.sub_0_r in E.
Qed.

Lemma slice_drop d i j : (i <= j)%nat -> slice d i j ++ drop j d = drop i d.
Proof.
  intros. unfold slice. rewrite <- (take_drop (j - i) (drop i d)) at 2.
  rewrite drop_drop. by replace (i + (j - i))%nat with j by lia.
Qed.

Lemma slice_length d i j : (i <= j <= length d)%nat -> length (slice d i j) = (j - i)%nat.
Proof. intros. unfold slice. rewrite length_take, length_drop. lia. Qed.

Lemma slice_nil d i : slice d i i = [].
Proof. unfold slice. by rewrite Nat.sub_diag. Qed.

Lemma last_rd l : l <> [] -> b2z (List.last l x00) = rd l (length l - 1).
Proof.
  intros Hl. destruct (exists_last Hl) as (l' & x & ->).
  rewrite last_last, length_app. cbn. replace (length l' + 1 - 1)%nat with (length l') by lia.
  by rewrite rd_app_r, Nat.sub_diag by lia.
Qed.

Lemma spaces_gap a b : spaces a -> word_gap a b.
Proof.
  intros Ha. destruct a as [|x a]; [by left|]. right; right; left.
  destruct (exists_last (l := x :: a)) as (l & y & E); [done|]. rewrite E in *.
  rewrite last_last. apply Forall_app in Ha as [_ Ha]. by inversion Ha.
Qed.

(** A word boundary of the text, as the loops see it. *)
Definition at_gap (d : list byte) (i : nat) : Prop :=
  i = 0%nat \/ (length d <= i)%nat \/ is_space (rd d i) = true \/ is_space (rd d (i - 1)) = true.

Lemma at_gap_word_gap d i a : at_gap d i -> (i <= length d)%nat -> (exists k, (k <= i)%nat /\ a = slice d k i) ->
  forall j, (i <= j <= length d)%nat -> word_gap a (slice d i j).
Proof.
  intros Hg Hi (k & Hk & ->) j Hj.
  destruct (decide (i = j)) as [<-|]; [rewrite slice_nil; right; by left|].
  destruct (decide (k = i)) as [->|]; [rewrite slice_nil; by left|].
  assert (Hne : slice d k i <> []) by (intros E; apply (f_equal length) in E;
    rewrite slice_length in E by lia; cbn in E; lia).
  destruct Hg as [->|[Hg|[Hg|Hg]]]; [lia|lia|..].
  - right; right; right. rewrite rd_slice by lia. by rewrite Nat.add_0_r.
  - right; right; left. rewrite last_rd, slice_length, rd_slice by (done || lia).
    by replace (k + (i - k - 1))%nat with (i - 1)%nat by lia.
Qed.

Lemma cost_split d i j k : at_gap d j -> (i <= j <= k)%nat -> (k <= length d)%nat ->
  cost (slice d i k) = cost (slice d i j) + cost (slice d j k).
Proof.
  intros Hg Hij Hk. rewrite <- (slice_app d i j k) by lia. apply cost_app.
  eapply at_gap_word_gap; [done|lia| |lia]. exists i. split; [lia|done].
Qed.

(** One turn of a forward loop: the spaces, then the word. *)
Lemma next_word d i (j := fwd is_space d i) (k := fwd nonspace d j) : (i <= length d)%nat ->
  (i <= j <= k)%nat /\ (k <= length d)%nat /\ ((i < length d)%nat -> (i < k)%nat) /\
  spaces (slice d i j) /\ no_spaces (slice d j k) /\
  (k = length d \/ is_space (rd d k) = true) /\ (j = length d \/ is_space (rd d j) = false).
Proof.
  intros Hi. subst j k. unfold fwd.
  set (s := drop i d). destruct (run_split is_space s) as (H1 & H2 & H3).
  assert (Hs : length s = (length d - i)%nat) by (subst s; by rewrite length_drop).
  set (r := run is_space s) in *.
  set (s' := drop (i + r) d). destruct (run_split nonspace s') as (H4 & H5 & H6).
  assert (Hs' : length s' = (length d - (i + r))%nat) by (subst s'; by rewrite length_drop).
  set (r' := run nonspace s') in *.
  assert (Hd : drop r s = s') by (subst s s'; by rewrite drop_drop).
  rewrite Hd in H2. subst s'. rewrite drop_drop, !rd_drop, !Nat.add_0_r in *.
  assert (Hj : (i + r)%nat = length d \/ is_space (rd d (i + r)) = false).
  { destruct H2 as [H2|H2]; [left|by right]. apply (f_equal length) in H2.
    rewrite length_drop in H2. cbn in H2. lia. }
  split_and!; try lia.
  - intros Hlt. destruct (decide (r = 0%nat)) as [E0|]; [|lia].
    destruct Hj as [Hj|Hj]; [lia|]. rewrite E0, Nat.add_0_r in *.
    assert (r' <> 0%nat); [|lia]. subst r'. subst s. rewrite E0, Nat.add_0_r in *.
    destruct (drop i d) as [|b t] eqn:Ed; [cbn in Hs; lia|].
    assert (rd d i = b2z b) as Eb by (rewrite <- (Nat.add_0_r i), <- rd_drop, Ed; done).
    cbn. unfold nonspace. rewrite <- Eb, Hj. cbn. lia.
  - unfold spaces, slice. by replace (i + r - i)%nat with r by lia.
  - unfold no_spaces, slice. replace (i + r + r' - (i + r))%nat with r' by lia.
    revert H4. unfold nonspace. apply Forall_impl. intros b Hb. by apply negb_true_iff.
  - destruct H5 as [H5|H5]; [left|right; unfold nonspace in H5; by apply negb_false_iff in H5].
    apply (f_equal length) in H5. rewrite length_drop in H5. cbn in H5. lia.
  - done.
Qed.

Lemma cost_spaces_word d i j k : (i <= j <= k)%nat -> (k <= length d)%nat ->
  spaces (slice d i j) -> no_spaces (slice d j k) ->
  cost (slice d i k) = if (j <? k)%nat then word_cost (slice d j k) (k - j) else 0.
Proof.
  intros Hij Hk Hs Hw. rewrite <- (slice_app d i j k) by lia.
  rewrite cost_app by (by apply spaces_gap). rewrite (cost_spaces _ Hs).
  case_if.
  - rewrite cost_word, slice_length; [lia|lia|done|].
    intros E'. apply (f_equal length) in E'. rewrite slice_length in E' by lia. cbn in E'. lia.
  - replace k with j by lia. by rewrite slice_nil.
Qed.

(** The loop of [est_tokens] adds up the words. *)
Lemma est_loop_cost fuel d : forall i c, (length d - i <= fuel)%nat -> (i <= length d)%nat ->
  at_gap d i -> est_loop fuel d i c = c + cost (drop i d).
Proof.
  induction fuel as [|f IH]; intros i c Hf Hi Hg; cbn [est_loop].
  - rewrite drop_ge by lia. cbn. lia.
  - case_if; [|rewrite drop_ge by lia; cbn; lia].
    destruct (next_word d i Hi) as (H1 & H2 & H3 & H4 & H5 & H6 & _).
    set (j := fwd is_space d i) in *. set (k := fwd nonspace d j) in *.
    specialize (H3 ltac:(lia)).
    assert (Hgk : at_gap d k) by (unfold at_gap; destruct H6; [right; left; lia|auto]).
    rewrite IH by (done || lia).
    assert (Ed : forall x, drop x d = slice d x (length d)).
    { intros. unfold slice. rewrite take_ge; [done|]. rewrite length_drop. lia. }
    rewrite (Ed i), (cost_split d i k) by (done || lia). rewrite (Ed k).
    rewrite (cost_spaces_word d i j k) by done. case_if; lia.
Qed.

Lemma est_tokens_cost d : est_tokens d = (cost d + 11) / 12.
Proof.
  unfold est_tokens. rewrite est_loop_cost; [|lia|lia|by left].
  by rewrite drop_0.
Qed.

(** ** A longer text costs more *)

Lemma last_word a : exists a1 w, a = a1 ++ w /\ no_spaces w /\ forall b, word_gap a1 b.
Proof.
  induction a as [|x a (a1 & w & -> & Hw & Hg)] using rev_ind.
  - exists [], []. split_and!; [done|constructor|by left].
  - destruct (is_space (b2z x)) eqn:E.
    + exists ((a1 ++ w) ++ [x]), []. rewrite app_nil_r. split_and!; [done|constructor|].
      intros b. right; right; left. by rewrite last_last.
    + exists a1, (w ++ [x]). rewrite app_assoc. split_and!; [done| |done].
      apply Forall_app. split; [done|]. constructor; [done|constructor].
Qed.

Lemma first_word b : exists w b1, b = w ++ b1 /\ no_spaces w /\ forall a, word_gap a b1.
Proof.
  induction b as [|x b (w & b1 & -> & Hw & Hg)].
  - exists [], []. split_and!; [done|constructor|right; by left].
  - destruct (is_space (b2z x)) eqn:E.
    + exists [], (x :: w ++ b1). split_and!; [done|constructor|]. right; right; right. done.
    + exists (x :: w), b1. split_and!; [done|by constructor|done].
Qed.

Lemma cost_word_app v w : no_spaces v -> no_spaces w -> cost v <= cost (v ++ w) /\ cost w <= cost (v ++ w).
Proof.
  intros Hv Hw. assert (Hvw : no_spaces (v ++ w)) by (by apply Forall_app).
  destruct (decide (v ++ w = [])) as [E|E].
  { apply app_eq_nil in E as [-> ->]. done. }
  rewrite (cost_word _ Hvw E).
  assert (H : forall u, no_spaces u -> (length u <= length (v ++ w))%nat ->
    bytes_cost u (length (v ++ w)) <= bytes_cost (v ++ w) (length (v ++ w)) ->
    cost u <= word_cost (v ++ w) (length (v ++ w))).
  { intros u Hu Hl Hb. destruct (decide (u = [])) as [->|].
    - cbn. unfold word_cost. pose proof (bytes_cost_nonneg (v ++ w) (length (v ++ w))). lia.
    - rewrite cost_word by done. unfold word_cost.
      pose proof (bytes_cost_mono u _ _ Hl). lia. }
  pose proof (bytes_cost_nonneg v (length (v ++ w))).
  pose proof (bytes_cost_nonneg w (length (v ++ w))).
  split; apply H; rewrite ?bytes_cost_app, ?length_app; try done; rewrite ?length_app in *; lia.
Qed.

Lemma cost_app_le a b : cost a <= cost (a ++ b) /\ cost b <= cost (a ++ b).
Proof.
  destruct (last_word a) as (a1 & v & -> & Hv & Ha).
  destruct (first_word b) as (w & b1 & -> & Hw & Hb).
  replace ((a1 ++ v) ++ w ++ b1) with (a1 ++ (v ++ w) ++ b1) by (by rewrite !app_assoc).
  rewrite !(cost_app a1), !(cost_app _ b1) by auto.
  pose proof (cost_word_app v w Hv Hw). pose proof (cost_nonneg a1). pose proof (cost_nonneg b1). lia.
Qed.

Lemma cost_take_mono d p e : (p <= e)%nat -> cost (take p d) <= cost (take e d).
Proof. intros. rewrite <- (take_slice d p e) by done. apply cost_app_le. Qed.

Lemma cost_drop_mono d p e : (p <= e)%nat -> cost (drop e d) <= cost (drop p d).
Proof. intros. rewrite <- (slice_drop d p e) by done. apply cost_app_le. Qed.

(** ** The head *)

(** A cut that does not split a character, in valid text. *)
Definition char_bound (d : list byte) (k : nat) : Prop :=
  k = 0%nat \/ (length d <= k)%nat \/ is_cont (rd d k) = false \/ rd d (k - 1) < 0x80.

Lemma is_space_ascii b : is_space b = true -> b < 0x80 /\ is_cont b = false.
Proof.
  unfold is_space. intros H.
  assert (b = 0x20 \/ b = 9 \/ b = 10 \/ b = 13 \/ b = 11 \/ b = 12) as Hb by lia.
  split; [lia|]. repeat destruct Hb as [->|Hb]; try reflexivity. by subst.
Qed.

Lemma after_ascii s : valid_utf8 s -> forall k, (k < length s)%nat -> rd s k < 0x80 ->
  is_cont (rd s (S k)) = false.
Proof.
  induction 1 as [|c s Hc Hs IH]; intros k Hk Hb; [cbn in Hk; lia|].
  pose proof (encode_cp_length c Hc) as Hl.
  destruct (Nat.lt_ge_cases k (length (encode_cp c))) as [Hlt|Hge].
  - rewrite rd_app_l in Hb by done. destruct k as [|k].
    + assert (length (encode_cp c) = 1%nat) as E1.
      { pose proof (encode_cp_need c Hc) as Hn.
        apply Z.ltb_lt in Hb. by rewrite Hb in Hn. }
      rewrite rd_app_r by lia. rewrite E1, Nat.sub_diag.
      destruct Hs as [|c' s' Hc' Hs']; [done|by apply encode_cp_head].
    + pose proof (encode_cp_cont c (S k) Hc ltac:(lia)) as Hcont.
      unfold rd in *. rewrite is_cont_range in Hcont. lia.
  - rewrite rd_app_r in * by lia. rewrite length_app in Hk.
    replace (S k - length (encode_cp c))%nat with (S (k - length (encode_cp c))) by lia.
    apply IH; [lia|done].
Qed.

Lemma char_bound_cut d k : valid_utf8 d -> (k <= length d)%nat -> char_bound d k ->
  valid_utf8 (take k d) /\ valid_utf8 (drop k d).
Proof.
  intros Hv Hk [->|[Hb|[Hb|Hb]]].
  - split; [constructor|by rewrite drop_0].
  - rewrite take_ge, drop_ge by done. split; [done|constructor].
  - by apply valid_cut.
  - destruct k as [|k]; [split; [constructor|by rewrite drop_0]|].
    apply valid_cut; [done..|]. apply after_ascii; [done|lia|].
    by rewrite Nat.sub_succ, Nat.sub_0_r in Hb.
Qed.

(** What both cuts promise of the piece they keep. *)
Lemma head_newline_ok d e p : (p <= e)%nat ->
  (head_newline p d e <= e)%nat /\ (head_newline p d e = e \/ char_bound d (head_newline p d e)).
Proof.
  induction p as [|p IH]; intros Hp; cbn [head_newline]; [auto|].
  case_if; [|auto]. case_if.
  - split; [lia|]. right. right; right; right. cbn. rewrite Nat.sub_0_r. lia.
  - destruct (IH ltac:(lia)) as [H1 H2]. auto.
Qed.

Lemma head_in_word_ok d j k budget maxbytes : (k <= length d)%nat -> forall n e c,
  (j <= e <= k)%nat -> c = 3 + bytes_cost (slice d j e) (k - j) ->
  c <= budget \/ e = j -> Z.of_nat e <= maxbytes \/ e = j ->
  let r := head_in_word n d e k (k - j) c budget maxbytes in
  (e <= r <= k)%nat /\ (3 + bytes_cost (slice d j r) (k - j) <= budget \/ r = j) /\
  (Z.of_nat r <= maxbytes \/ r = j).
Proof.
  intros Hk. induction n as [|n IH]; intros e c He Hc Hb Hm; cbn [head_in_word].
  { subst c. split_and!; auto; lia. }
  case_if; [|subst c; split_and!; auto; lia].
  destruct (lookup_lt_is_Some_2 d e ltac:(lia)) as [x Hx].
  assert (Es : slice d j (S e) = slice d j e ++ [x]).
  { unfold slice. replace (S e - j)%nat with (S (e - j)) by lia.
    apply take_S_r. rewrite lookup_drop, <- Hx. f_equal. lia. }
  assert (Er : rd d e = b2z x) by (unfold rd; by rewrite (nth_lookup_Some _ _ _ _ Hx)).
  assert (Hc' : c + byte_cost (rd d e) (k - j) = 3 + bytes_cost (slice d j (S e)) (k - j)).
  { rewrite Es, bytes_cost_app, Er. cbn. lia. }
  destruct (IH (S e) _ ltac:(lia) Hc' ltac:(lia) ltac:(lia)) as (R1 & R2 & R3).
  split_and!; [lia..|done|done].
Qed.

(** The promise of [fit_head]. *)
Definition head_ok (d : list byte) (budget maxbytes : Z) (h : nat) : Prop :=
  (h <= length d)%nat /\ char_bound d h /\ cost (take h d) <= budget /\
  (Z.of_nat h <= maxbytes \/ spaces (take h d)).

Lemma head_ok_le d budget maxbytes h e : cost (take e d) <= budget -> (h <= e <= length d)%nat ->
  Z.of_nat e <= maxbytes \/ spaces (take e d) -> char_bound d h -> head_ok d budget maxbytes h.
Proof.
  intros Hc Hh Hm Hb. split_and!; [lia|done| |].
  - etransitivity; [apply (cost_take_mono d h e); lia|done].
  - destruct Hm as [Hm|Hm]; [left; lia|right].
    rewrite <- (take_slice d h e) in Hm by lia. by apply Forall_app in Hm as [? _].
Qed.

Lemma at_gap_bound d i : at_gap d i -> char_bound d i.
Proof.
  intros [?|[?|[H|H]]]; [by left|right; by left|..]; apply is_space_ascii in H as [? ?];
    unfold char_bound; auto.
Qed.

Lemma at_gap_newline d i budget maxbytes : at_gap d i -> (i <= length d)%nat ->
  cost (take i d) <= budget -> Z.of_nat i <= maxbytes \/ spaces (take i d) ->
  head_ok d budget maxbytes (head_newline i d i).
Proof.
  intros Hg Hi Hc Hm. destruct (head_newline_ok d i i ltac:(lia)) as [H1 H2].
  apply (head_ok_le d budget maxbytes _ i); [done|lia|done|].
  destruct H2 as [->|H2]; [by apply at_gap_bound|done].
Qed.

Lemma fit_head_loop_ok d budget maxbytes : 0 <= budget -> forall fuel i c,
  (length d - i <= fuel)%nat -> (i <= length d)%nat -> at_gap d i ->
  cost (take i d) <= c -> (i = 0%nat -> c = 0) -> c <= budget ->
  Z.of_nat i <= maxbytes \/ i = 0%nat ->
  head_ok d budget maxbytes (fit_head_loop fuel d i c budget maxbytes).
Proof.
  intros Hb0. induction fuel as [|f IH]; intros i c Hf Hi Hg Hc Hc0 Hcb Hm; cbn [fit_head_loop];
    (assert (Hend : head_ok d budget maxbytes (head_newline i d i)) by
      (apply at_gap_newline; [done..|lia|destruct Hm as [?| ->]; [by left|right; constructor]])).
  { done. }
  case_if; [|done].
  destruct (next_word d i Hi) as (H1 & H2 & H3 & H4 & H5 & H6 & _).
  set (j := fwd is_space d i) in *. set (k := fwd nonspace d j) in *. specialize (H3 ltac:(lia)).
  assert (Hgk : at_gap d k) by (unfold at_gap; destruct H6; [right; left; lia|auto]).
  assert (Hck : cost (take k d) = cost (take i d) + cost (slice d i k)).
  { rewrite <- (take_slice d i k) by lia. apply cost_app.
    apply (at_gap_word_gap d i); [done..|exists 0%nat; split; [lia|]; unfold slice; by rewrite drop_0, Nat.sub_0_r|lia]. }
  rewrite (cost_spaces_word d i j k) in Hck by done.
  case_if.
  2: { assert (0 <= word_cost (slice d j k) (k - j)).
       { unfold word_cost. pose proof (bytes_cost_nonneg (slice d j k) (k - j)). lia. }
       apply IH; try done; try lia. rewrite Hck. case_if; lia. }
  case_if; [|done]. rewrite (Hc0 ltac:(lia)). subst i.
  destruct (head_in_word_ok d j k budget maxbytes H2 (k - j) j (0 + 3)) as (R1 & R2 & R3);
    [lia|by rewrite slice_nil|auto|auto|].
  set (e := head_in_word _ _ _ _ _ _ _ _) in *.
  destruct (utf8_floor_spec d e) as (U1 & U2). set (h := utf8_floor d e) in *.
  assert (Hse : take e d = slice d 0 j ++ slice d j e).
  { rewrite slice_app by lia. unfold slice. by rewrite drop_0, Nat.sub_0_r. }
  apply (head_ok_le d budget maxbytes h e); [|lia| |].
  - rewrite Hse, cost_app, (cost_spaces _ H4) by (by apply spaces_gap).
    assert (Hw : no_spaces (slice d j e)).
    { rewrite <- (slice_app d j e k) in H5 by lia. by apply Forall_app in H5 as [? _]. }
    destruct R2 as [R2|R2].
    + destruct (decide (slice d j e = [])) as [->|]; [cbn; lia|].
      rewrite cost_word by done. unfold word_cost.
      pose proof (bytes_cost_mono (slice d j e) (length (slice d j e)) (k - j)) as Hmono.
      rewrite slice_length in * by lia. specialize (Hmono ltac:(lia)). lia.
    + rewrite R2, slice_nil. cbn. lia.
  - destruct R3 as [R3|R3]; [by left|right]. rewrite Hse, R3, slice_nil, app_nil_r. done.
  - destruct U2 as [U2|[U2|U2]]; [by left|right; left; lia|right; right; by left].
Qed.

Lemma fit_head_ok d budget maxbytes : 0 <= budget ->
  head_ok d budget maxbytes (fit_head d budget maxbytes).
Proof.
  intros. apply fit_head_loop_ok; [done|lia|lia|by left|done|done|lia|by right].
Qed.

(** ** The tail *)

Lemma prev_word d i (j := bwd is_space d i) (k := bwd nonspace d j) : (i <= length d)%nat ->
  (k <= j <= i)%nat /\ ((0 < i)%nat -> (k < i)%nat) /\
  spaces (slice d j i) /\ no_spaces (slice d k j) /\
  (k = 0%nat \/ is_space (rd d (k - 1)) = true) /\ (j = 0%nat \/ is_space (rd d (j - 1)) = false).
Proof.
  intros Hi. destruct (bwd_split is_space d i Hi) as (H1 & H2 & H3). fold j in H1, H2, H3.
  destruct (bwd_split nonspace d j ltac:(lia)) as (H4 & H5 & H6). fold k in H4, H5, H6.
  split_and!; [lia..| |done| | |done].
  - intros Hi0. destruct (decide (k = i)) as [E|]; [|lia].
    assert (j = i) as Ej by lia. rewrite Ej in *. destruct H3 as [H3|H3]; [lia|].
    exfalso. revert E. subst k. rewrite Ej. destruct i as [|i']; [lia|]. cbn [bwd].
    rewrite Nat.sub_succ, Nat.sub_0_r in H3. unfold nonspace at 1. rewrite H3. cbn [negb].
    destruct (bwd_split nonspace d i' ltac:(lia)) as (? & _). lia.
  - revert H5. apply Forall_impl. intros b Hb. by apply negb_true_iff in Hb.
  - destruct H6 as [H6|H6]; [by left|right]. by apply negb_false_iff in H6.
Qed.

Lemma slice_to_end d i : slice d i (length d) = drop i d.
Proof. unfold slice. rewrite take_ge; [done|]. rewrite length_drop. lia. Qed.

Lemma tail_newline_ok d s : forall n p, (s <= p)%nat -> (p + n <= length d)%nat ->
  (s <= tail_newline n d p s <= length d)%nat /\
  (tail_newline n d p s = s \/ char_bound d (tail_newline n d p s)).
Proof.
  induction n as [|n IH]; intros p Hp Hn; cbn [tail_newline]; [split; [lia|by left]|].
  case_if; [|apply IH; lia]. split; [lia|]. right. right; right; right.
  rewrite Nat.sub_succ, Nat.sub_0_r. lia.
Qed.

Lemma slice_cons d s j : (s < j)%nat -> (j <= length d)%nat ->
  exists x, slice d s j = x :: slice d (S s) j /\ rd d s = b2z x.
Proof.
  intros Hs Hj. destruct (lookup_lt_is_Some_2 d s ltac:(lia)) as [x Hx]. exists x. split.
  - rewrite <- (slice_app d s (S s) j) by lia. unfold slice at 1.
    rewrite (drop_S d x s Hx). replace (S s - s)%nat with 1%nat by lia. done.
  - unfold rd. by rewrite (nth_lookup_Some _ _ _ _ Hx).
Qed.

Lemma tail_in_word_ok d k j budget maxbytes : (j <= length d)%nat -> forall n s c,
  (k <= s <= j)%nat -> c = 3 + bytes_cost (slice d s j) (j - k) ->
  c <= budget \/ s = j -> zlen d - Z.of_nat s <= maxbytes \/ s = j ->
  let r := tail_in_word n d s k (j - k) c budget maxbytes in
  (k <= r <= s)%nat /\ (3 + bytes_cost (slice d r j) (j - k) <= budget \/ r = j) /\
  (zlen d - Z.of_nat r <= maxbytes \/ r = j).
Proof.
  intros Hj. induction n as [|n IH]; intros s c Hs Hc Hb Hm; cbn [tail_in_word].
  { subst c. split_and!; auto; lia. }
  case_if; [|subst c; split_and!; auto; lia].
  destruct (slice_cons d (s - 1) j ltac:(lia) Hj) as (x & Ex & Er).
  replace (S (s - 1)) with s in Ex by lia.
  assert (Hc' : c + byte_cost (rd d (s - 1)) (j - k) = 3 + bytes_cost (slice d (s - 1) j) (j - k))
    by (rewrite Ex, Er; cbn; lia).
  destruct (IH (s - 1)%nat _ ltac:(lia) Hc' ltac:(lia) ltac:(lia)) as (R1 & R2 & R3).
  split_and!; [lia..|done|done].
Qed.

(** At least one byte of the word is taken when one fits. *)
Lemma tail_in_word_some d k j budget maxbytes : (k < j)%nat -> (j <= length d)%nat ->
  15 <= budget -> zlen d - Z.of_nat j < maxbytes ->
  (tail_in_word (j - k) d j k (j - k) 3 budget maxbytes < j)%nat.
Proof.
  intros Hkj Hj Hb Hm. destruct (j - k)%nat as [|n] eqn:En; [lia|]. cbn [tail_in_word].
  destruct (slice_cons d (j - 1) j ltac:(lia) Hj) as (x & Ex & Er).
  pose proof (byte_cost_bounds x (S n) (b2z_range x)) as Hbc. rewrite <- Er in Hbc.
  rewrite (proj2 (Nat.ltb_lt k j)), (proj2 (Z.ltb_lt _ maxbytes)), (proj2 (Z.leb_le _ budget)) by lia.
  cbn [andb]. rewrite <- En.
  replace (S (j - 1)) with j in Ex by lia. rewrite slice_nil in Ex.
  destruct (tail_in_word_ok d k j budget maxbytes Hj n (j - 1)
    (3 + byte_cost (rd d (j - 1)) (j - k))) as (R & _); [lia| |left; rewrite En; lia|left; lia|lia].
  rewrite Ex, Er. cbn. lia.
Qed.

Lemma tail_floor_ok past d k : forall s, (k <= s)%nat -> (s < length d \/ s = k)%nat ->
  exists r, tail_floor past d k s = Some r /\ (k <= r <= s)%nat /\
    (r = k \/ is_cont (rd d r) = false) /\
    forall x, (r < x <= s)%nat -> is_cont (rd d x) = true.
Proof.
  induction s as [|s IH]; intros Hk Hl; cbn [tail_floor].
  { exists 0%nat. split_and!; [done|lia|lia|left; lia|lia]. }
  case_if; [|exists (S s); split_and!; [done|lia|lia|left; lia|lia]].
  destruct (get_Some d (S s) ltac:(lia)) as (v & Ev & _). rewrite Ev. cbn [mbind option_bind].
  assert (rd d (S s) = v) as Er.
  { unfold get in Ev. unfold rd. destruct (d !! S s) as [b|] eqn:El; [|done].
    rewrite (nth_lookup_Some _ _ _ _ El). by injection Ev. }
  rewrite <- Er. destruct (is_cont (rd d (S s))) eqn:Ec.
  - destruct (IH ltac:(lia) ltac:(lia)) as (r & -> & H1 & H2 & H3).
    exists r. split_and!; [done|lia|lia|done|]. intros x Hx.
    destruct (decide (x = S s)) as [->|]; [done|apply H3; lia].
  - exists (S s). split_and!; [done|lia|lia|by right|lia].
Qed.

(** Where the tail has room for a byte of any word, nothing is read past the
    end, whatever the text. *)
Lemma fit_tail_loop_some d budget maxbytes : 15 <= budget -> 1 <= maxbytes ->
  forall fuel i c, (i <= length d)%nat -> (i = length d -> c = 0) ->
  is_Some (fit_tail_loop None fuel d i c budget maxbytes).
Proof.
  intros Hb Hm. induction fuel as [|f IH]; intros i c Hi Hc; cbn [fit_tail_loop]; [by eexists|].
  case_if; [|by eexists]. destruct (prev_word d i Hi) as (H1 & H2 & H3 & H4 & H5 & H6).
  specialize (H2 ltac:(lia)).
  set (j := bwd is_space d i) in *. set (k := bwd nonspace d j) in *.
  case_if; [|apply IH; [lia|intros ->; lia]]. case_if; [|by eexists].
  rewrite (Hc ltac:(lia)). change (0 + 3) with 3. set (s := tail_in_word _ _ _ _ _ _ _ _).
  destruct (tail_in_word_ok d k j budget maxbytes ltac:(lia) (j - k) j 3) as (R1 & _ & _);
    [lia|by rewrite slice_nil|by right|by right|]. fold s in R1.
  assert (Hs : (s < length d \/ s = k)%nat).
  { destruct (decide (j < length d)%nat) as [|Hj]; [lia|].
    destruct (decide (k < j)%nat) as [Hkj|]; [left|lia].
    pose proof (tail_in_word_some d k j budget maxbytes Hkj ltac:(lia) Hb) as Hsome.
    unfold zlen in Hsome. specialize (Hsome ltac:(lia)). fold s in Hsome. lia. }
  destruct (tail_floor_ok None d k s ltac:(lia) Hs) as (r & -> & _). by eexists.
Qed.

Definition tail_ok (d : list byte) (budget maxbytes : Z) (t : nat) : Prop :=
  (t <= length d)%nat /\ char_bound d t /\ cost (drop t d) <= budget + 36 /\
  (zlen d - Z.of_nat t <= maxbytes + 3 \/ spaces (drop t d)).

Lemma tail_newline_bound d i budget maxbytes : at_gap d i -> (i <= length d)%nat ->
  cost (drop i d) <= budget -> zlen d - Z.of_nat i <= maxbytes \/ i = length d ->
  tail_ok d budget maxbytes (tail_newline ((length d - i) / 2) d i i).
Proof.
  intros Hg Hi Hc Hm.
  assert ((length d - i) / 2 <= length d - i)%nat by (apply Nat.Div0.div_le_upper_bound; lia).
  destruct (tail_newline_ok d i ((length d - i) / 2) i ltac:(lia) ltac:(lia)) as [H1 H2].
  set (t := tail_newline _ _ _ _) in *. split_and!; [lia| | |].
  - destruct H2 as [->|]; [by apply at_gap_bound|done].
  - pose proof (cost_drop_mono d i t ltac:(lia)). lia.
  - destruct Hm as [Hm| ->]; [left; lia|right]. rewrite drop_ge by lia. constructor.
Qed.

Lemma drop_word_cost d r j : (r <= j <= length d)%nat -> spaces (slice d j (length d)) ->
  no_spaces (slice d r j) ->
  cost (drop r d) <= 3 + bytes_cost (slice d r j) (j - r).
Proof.
  intros Hr Hs Hw. rewrite <- (slice_to_end d r), <- (slice_app d r j) by lia.
  rewrite cost_app.
  - rewrite (cost_spaces _ Hs). destruct (decide (slice d r j = [])) as [->|Hn]; [cbn; lia|].
    rewrite cost_word, slice_length by (done || lia). unfold word_cost. lia.
  - destruct (slice d j (length d)) as [|x l] eqn:E; [right; by left|].
    right; right; right. by inversion Hs.
Qed.

Lemma bytes_cost_le w n : bytes_cost w n <= 12 * zlen w.
Proof.
  unfold zlen. induction w as [|b w IH]; cbn; [lia|].
  pose proof (byte_cost_bounds b n (b2z_range b)). lia.
Qed.

(** The one word that fills the budget, cut at a character. *)
Lemma tail_word_ok past d budget maxbytes i (j := bwd is_space d i) (k := bwd nonspace d j) :
  valid_utf8 d -> i = length d -> (0 < i)%nat -> 15 <= budget -> 1 <= maxbytes ->
  exists t, tail_floor past d k (tail_in_word (j - k) d j k (j - k) 3 budget maxbytes) = Some t /\
    tail_ok d budget maxbytes t.
Proof.
  intros Hv Hi Hi0 Hb Hm. destruct (prev_word d i ltac:(lia)) as (H1 & H2 & H3 & H4 & H5 & H6).
  fold j k in H1, H2, H3, H4, H5, H6.
  destruct (tail_in_word_ok d k j budget maxbytes ltac:(lia) (j - k) j 3) as (R1 & R2 & R3);
    [lia|by rewrite slice_nil|by right|by right|].
  set (s := tail_in_word _ _ _ _ _ _ _ _) in *.
  assert (Hs : (s < length d \/ s = k)%nat).
  { destruct (decide (j < length d)%nat) as [|Hj]; [lia|].
    destruct (decide (k < j)%nat) as [Hkj|]; [left|lia].
    pose proof (tail_in_word_some d k j budget maxbytes Hkj ltac:(lia) Hb) as Hsome.
    unfold zlen in Hsome. specialize (Hsome ltac:(lia)). lia. }
  destruct (tail_floor_ok past d k s ltac:(lia) Hs) as (r & -> & F1 & F2 & F3).
  exists r. split; [done|].
  assert (Hrs : (s - r <= 3)%nat).
  { destruct (decide (s - r <= 3)%nat) as [|Hgt]; [done|].
    destruct (valid_cont_run d Hv (s - 3) ltac:(lia)) as (x & Hx & Ex).
    rewrite F3 in Ex by lia. done. }
  rewrite Hi in H3.
  split_and!; [lia| | |].
  - destruct F2 as [->|F2]; [|right; right; by left]. apply at_gap_bound.
    unfold at_gap. destruct H5; auto.
  - assert (Hw : no_spaces (slice d r j)).
    { rewrite <- (slice_app d k r j) in H4 by lia. by apply Forall_app in H4 as [_ ?]. }
    pose proof (drop_word_cost d r j ltac:(lia) H3 Hw) as Hcost.
    pose proof (bytes_cost_mono (slice d r j) (j - r) (j - k) ltac:(lia)) as Hmono.
    assert (Esum : bytes_cost (slice d r j) (j - k)
      = bytes_cost (slice d r s) (j - k) + bytes_cost (slice d s j) (j - k))
      by (by rewrite <- (slice_app d r s j), bytes_cost_app by lia).
    pose proof (bytes_cost_le (slice d r s) (j - k)) as Hle. unfold zlen in Hle.
    rewrite slice_length in Hle by lia.
    destruct R2 as [R2|R2]; [lia|]. rewrite R2 in Hle, Hrs. lia.
  - destruct R3 as [R3|R3]; [left; unfold zlen in *; lia|].
    destruct (decide (r = j)) as [->|Hrj]; [right; by rewrite <- slice_to_end|].
    exfalso. rewrite R3 in F3. specialize (F3 j ltac:(lia)).
    assert (is_space (rd d j) = true) as Hsp.
    { destruct (slice_cons d j (length d) ltac:(lia) ltac:(lia)) as (x & Ex & ->).
      rewrite Ex in H3. by inversion H3. }
    apply is_space_ascii in Hsp as [_ Hsp]. congruence.
Qed.

Lemma fit_tail_loop_ok past d budget maxbytes : valid_utf8 d -> 15 <= budget -> 1 <= maxbytes ->
  forall fuel i c, (i <= fuel)%nat -> (i <= length d)%nat -> at_gap d i ->
  cost (drop i d) <= c -> (i = length d -> c = 0) -> c <= budget ->
  zlen d - Z.of_nat i <= maxbytes \/ i = length d ->
  exists t, fit_tail_loop past fuel d i c budget maxbytes = Some t /\ tail_ok d budget maxbytes t.
Proof.
  intros Hv Hb0 Hm0. induction fuel as [|f IH]; intros i c Hf Hi Hg Hc Hc0 Hcb Hm;
    cbn [fit_tail_loop];
    (assert (Hend : exists t, Some (tail_newline ((length d - i) / 2) d i i) = Some t /\
       tail_ok d budget maxbytes t) by
      (eexists; split; [done|]; apply tail_newline_bound; [done..|lia|done])).
  { done. }
  case_if; [|done].
  destruct (prev_word d i Hi) as (H1 & H2 & H3 & H4 & H5 & H6). specialize (H2 ltac:(lia)).
  set (j := bwd is_space d i) in *. set (k := bwd nonspace d j) in *.
  assert (Hck : cost (drop k d) <= c + word_cost (slice d k j) (j - k)).
  { rewrite <- (slice_to_end d k), (cost_split d k i) by (done || lia). rewrite slice_to_end.
    rewrite <- (slice_app d k j i), cost_app by
      (lia || (destruct (slice d j i) as [|x l] eqn:E2; [right; by left|right; right; right; by inversion H3])).
    rewrite (cost_spaces _ H3). destruct (decide (slice d k j = [])) as [->|Hn].
    - unfold word_cost. cbn. lia.
    - rewrite (cost_word _ H4 Hn), slice_length by lia. lia. }
  case_if; [|apply IH; try done; try lia].
  - case_if; [|done]. rewrite (Hc0 ltac:(lia)). by apply tail_word_ok.
  - unfold at_gap. destruct H5; auto.
Qed.

Lemma fit_tail_ok past d budget maxbytes : valid_utf8 d -> 15 <= budget -> 1 <= maxbytes ->
  exists t, fit_tail past d budget maxbytes = Some t /\ tail_ok d budget maxbytes t.
Proof.
  intros. apply fit_tail_loop_ok; try done; try lia.
  - right; left. lia.
  - rewrite drop_ge by lia. done.
Qed.

(** ** [cut_output] *)

(** The caps at which the tail's budget holds a byte. *)
Definition cap_ok (cap : Z) : Prop := 32 <= cap < 516 \/ 528 <= cap.

#[export] Instance cap_ok_dec cap : Decision (cap_ok cap).
Proof. unfold cap_ok. apply _. Defined.

Lemma cap_ok_budget cap : cap_ok cap ->
  0 <= cut_budget cap * 2 / 3 /\ 15 <= cut_budget cap - cut_budget cap * 2 / 3 /\
  1 <= cut_bytes cap - cut_bytes cap * 2 / 3.
Proof.
  unfold cap_ok, cut_budget, cut_bytes, tok_cap. intros Hc. case_ifs; euclid.
Qed.

Lemma cut_output_in_bounds spool cap d : cap_ok cap -> is_Some (cut_output None spool cap d).
Proof.
  intros Hc. destruct (cap_ok_budget cap Hc) as (_ & H1 & H2). unfold cut_output. case_if; [by eexists|].
  unfold fit_tail. set (e := drop _ _).
  destruct (fit_tail_loop_some e _ _ H1 H2 (length e) (length e) 0 (le_n _) (fun _ => eq_refl)) as [t ->].
  by eexists.
Qed.

(** What a cut keeps: a head and a tail of the text, both valid and both
    within their budgets, and a marker of under a kilobyte between. *)
Definition is_cut (cap : Z) (d out : list byte) : Prop :=
  exists H M T marker, d = H ++ M ++ T /\ out = H ++ marker ++ T /\
    valid_utf8 H /\ valid_utf8 T /\ zlen marker <= 1023 /\
    cost H <= cut_budget cap * 2 / 3 /\
    cost T <= cut_budget cap - cut_budget cap * 2 / 3 + 36 /\
    (zlen H <= cut_bytes cap * 2 / 3 \/ spaces H) /\
    (zlen T <= cut_bytes cap - cut_bytes cap * 2 / 3 + 3 \/ spaces T).

Lemma cut_marker_length d head tail path : zlen (cut_marker d head tail path) <= 1023.
Proof. unfold cut_marker, snprintf, zlen. rewrite length_take. lia. Qed.

(** What the model is shown of a tool's output. Output within the cap
    and its token budget is passed on whole. Otherwise, when the text is
    UTF-8, [cut_output] keeps a head and a tail of it around a marker:
    neither end splits a character (or reads past the data), the head is
    within its token budget, the tail within three more characters of its
    own, and both within their byte budgets unless they are blank. *)
Theorem cut_output_correct past spool cap d (Hv : valid_utf8 d) (Hc : cap_ok cap) :
  exists out, cut_output past spool cap (Some d) = Some out /\
    if (zlen d <=? cap) && ((cost d + 11) / 12 <=? tok_cap cap)
    then out = d else is_cut cap d out.
Proof.
  unfold cut_output. change (default [] (Some d)) with d. rewrite est_tokens_cost.
  case_if; [by eexists|].
  destruct (cap_ok_budget cap Hc) as (B1 & B2 & B3).
  destruct (fit_head_ok d _ (cut_bytes cap * 2 / 3) B1) as (H1 & H2 & H3 & H4).
  set (h := fit_head _ _ _) in *.
  destruct (char_bound_cut d h Hv H1 H2) as [Vh Vd].
  destruct (fit_tail_ok past (drop h d) _ _ Vd B2 B3) as (t & -> & T1 & T2 & T3 & T4).
  cbn [mbind option_bind]. eexists. split; [done|].
  exists (take h d), (take t (drop h d)), (drop (t + h) d). eexists. split_and!; [|done|done|..].
  - rewrite (Nat.add_comm t h), <- drop_drop. by rewrite !take_drop.
  - rewrite (Nat.add_comm t h), <- drop_drop. by apply char_bound_cut.
  - apply cut_marker_length.
  - done.
  - by rewrite (Nat.add_comm t h), <- drop_drop.
  - unfold zlen. rewrite length_take. destruct H4 as [H4|H4]; [left; lia|by right].
  - rewrite (Nat.add_comm t h), <- drop_drop. unfold zlen in *. rewrite length_drop.
    destruct T4 as [T4|T4]; [left; lia|by right].
Qed.

Lemma cut_output_correct_witness :
  valid_utf8 (bs "one two") /\ cap_ok 64 /\
  exists out, cut_output None None 64 (Some (bs "one two")) = Some out /\
    if (zlen (bs "one two") <=? 64) && ((cost (bs "one two") + 11) / 12 <=? tok_cap 64)
    then out = bs "one two" else is_cut 64 (bs "one two") out.
Proof.
  assert (Hv : valid_utf8 (bs "one two")) by (apply (count_bad_zero _ 7); vm_compute; lia).
  assert (Hc : cap_ok 64) by (left; lia).
  split; [exact Hv|]. split; [exact Hc|]. exact (cut_output_correct None None 64 _ Hv Hc).
Defined.

(** Outside those caps [fit_tail] does read past its data: at a cap of 4
    bytes, or of 516, the tail's token budget is smaller than one digit, and
    the scan back to a character boundary starts at [d[len]]. *)
Example cut_output_overread :
  cut_output None None 4 (Some (bs "abcdefgh")) = None /\
  cut_output None None 516 (Some (replicate 600 x37)) = None.
Proof. split; vm_compute; reflexivity. Qed.

(** The byte cap does not hold for blank output: a thousand newlines
    before the first word are a head of no tokens, so at a cap of 64 bytes
    the model is sent more than ten times that. *)
Example cut_output_blank_head :
  (fun o => 10 * 64 <? zlen o) <$> cut_output None None 64 (Some (replicate 1000 x0a ++ bs "word"))
  = Some true.
Proof. vm_compute. reflexivity. Qed.
