(* ===== verification/CJson.v ===== *)
(** The interface of cJSON, the JSON library the program links with. A tree
    is a value here: a function that changes one in place returns the changed
    tree. [CJson] lists the operations the modelled code calls, [CJsonLaws]
    what cJSON's documentation says of them; every client is proved against
    these two classes. The instance at the end shows that the laws can hold
    and lets the clients be evaluated. *)

From S2P Require Import Prelude.

(** ** Numbers *)

(** A [double]: the value of a finite one is [m * 2^e]. *)
Inductive double := Finite (m e : Z) | Infinite (negative : bool) | NotANumber.

(** Toward zero, as a conversion to an integer rounds. *)
Definition truncate (m e : Z) : Z := if 0 <=? e then m * 2 ^ e else Z.quot m (2 ^ (- e)).

(** [(int64_t)d]. C leaves open what becomes of a number that does not fit. *)
Definition to_int64 (d : double) : option Z :=
  match d with
  | Finite m e =>
      let z := truncate m e in
      if (- 2 ^ 63 <=? z) && (z <? 2 ^ 63) then Some z else None
  | _ => None
  end.

Example to_int64_rounds : map to_int64 [Finite 5 (-1); Finite (-5) (-1); Finite 1 63; Finite 1 1023; NotANumber]
  = [Some 2; Some (-2); None; None; None].
Proof. reflexivity. Qed.

(** ** The interface *)

Class CJson := {
  cJSON : Type;
  cJSON_CreateObject : cJSON;
  cJSON_CreateArray : cJSON;
  cJSON_CreateNull : cJSON;
  (** also [cJSON_CreateStringReference], which only skips the copy *)
  cJSON_CreateString : list byte -> cJSON;
  cJSON_CreateNumber : Z -> cJSON;
  cJSON_CreateBool : bool -> cJSON;
  (** also [cJSON_AddStringToObject] and the like: create, then add *)
  cJSON_AddItemToObject : cJSON -> list byte -> cJSON -> cJSON;
  cJSON_AddItemToArray : cJSON -> cJSON -> cJSON;
  cJSON_DeleteItemFromObjectCaseSensitive : cJSON -> list byte -> cJSON;
  cJSON_GetObjectItemCaseSensitive : cJSON -> list byte -> option cJSON;
  (** the same, with the case of the name ignored *)
  cJSON_GetObjectItem : cJSON -> list byte -> option cJSON;
  cJSON_GetStringValue : cJSON -> option (list byte);
  (** most of the development takes the numbers of a tree for integers, *)
  cJSON_GetNumberValue : cJSON -> option Z;
  (** and this is [valuedouble] as it is, of an item that is a number *)
  cJSON_valuedouble : cJSON -> option double;
  cJSON_IsObject : cJSON -> bool;
  cJSON_IsArray : cJSON -> bool;
  (** what [cJSON_ArrayForEach] visits *)
  cJSON_elements : cJSON -> list cJSON;
  (** the tree after the value of a member was changed in place *)
  cJSON_update : cJSON -> list byte -> cJSON -> cJSON;
  (** the array after its elements were changed in place *)
  cJSON_update_elements : cJSON -> list cJSON -> cJSON
}.

Definition cJSON_IsString `{CJson} (j : cJSON) : bool :=
  bool_decide (is_Some (cJSON_GetStringValue j)).
Definition cJSON_IsNumber `{CJson} (j : cJSON) : bool :=
  bool_decide (is_Some (cJSON_GetNumberValue j)).
Definition cJSON_AddStringToObject `{CJson} (o : cJSON) (k v : list byte) : cJSON :=
  cJSON_AddItemToObject o k (cJSON_CreateString v).

(** [cJSON_GetStringValue(cJSON_GetObjectItemCaseSensitive(o, k))]: both
    accept NULL. *)
Definition get_string `{CJson} (o : option cJSON) (k : list byte) : option (list byte) :=
  j ← o; v ← cJSON_GetObjectItemCaseSensitive j k; cJSON_GetStringValue v.

(** The member is added when there is a value for it. *)
Definition add_opt `{CJson} (o : cJSON) (k : list byte) (v : option (list byte)) : cJSON :=
  match v with Some s => cJSON_AddStringToObject o k s | None => o end.

(** ** Reading a message *)

Definition role_is `{CJson} (msg : cJSON) (r : list byte) : bool :=
  match get_string (Some msg) (bs "role") with Some s => beq s r | None => false end.

(** What [cJSON_ArrayForEach] visits: nothing, for NULL. *)
Definition each `{CJson} (o : option cJSON) : list cJSON := match o with Some j => cJSON_elements j | None => [] end.

Definition type_is `{CJson} (part : cJSON) (t : list byte) : bool :=
  match get_string (Some part) (bs "type") with Some s => beq s t | None => false end.

(** [j] may be NULL. *)
Definition is_array `{CJson} (j : option cJSON) : bool := match j with Some c => cJSON_IsArray c | None => false end.
Definition string_of `{CJson} (j : option cJSON) : option (list byte) := c ← j; cJSON_GetStringValue c.

Definition array_from `{CJson} (l : list cJSON) : cJSON := fold_left cJSON_AddItemToArray l cJSON_CreateArray.

Class CJsonLaws `{CJson} : Prop := {
  isobject_create : cJSON_IsObject cJSON_CreateObject = true;
  isobject_add o k v : cJSON_IsObject (cJSON_AddItemToObject o k v) = cJSON_IsObject o;
  isobject_delete o k :
    cJSON_IsObject (cJSON_DeleteItemFromObjectCaseSensitive o k) = cJSON_IsObject o;
  isobject_update o k v : cJSON_IsObject (cJSON_update o k v) = cJSON_IsObject o;
  isarray_create : cJSON_IsArray cJSON_CreateArray = true;
  isarray_add a v : cJSON_IsArray (cJSON_AddItemToArray a v) = cJSON_IsArray a;
  isarray_update a l : cJSON_IsArray (cJSON_update_elements a l) = cJSON_IsArray a;
  get_nocase o k v : cJSON_GetObjectItemCaseSensitive o k = Some v -> is_Some (cJSON_GetObjectItem o k);
  get_create k : cJSON_GetObjectItemCaseSensitive cJSON_CreateObject k = None;
  (** a lookup finds the first member of the name *)
  get_add o k v k' : cJSON_IsObject o = true ->
    cJSON_GetObjectItemCaseSensitive (cJSON_AddItemToObject o k v) k'
    = match cJSON_GetObjectItemCaseSensitive o k' with
      | Some x => Some x
      | None => if beq k' k then Some v else None
      end;
  (** names are not repeated in the trees the program deletes from *)
  get_delete_other o k k' : k' <> k ->
    cJSON_GetObjectItemCaseSensitive (cJSON_DeleteItemFromObjectCaseSensitive o k) k'
    = cJSON_GetObjectItemCaseSensitive o k';
  get_delete_add o k v : cJSON_IsObject o = true ->
    cJSON_GetObjectItemCaseSensitive o k = None ->
    cJSON_DeleteItemFromObjectCaseSensitive (cJSON_AddItemToObject o k v) k = o;
  delete_absent o k : cJSON_GetObjectItemCaseSensitive o k = None ->
    cJSON_DeleteItemFromObjectCaseSensitive o k = o;
  get_update o k v x k' : cJSON_GetObjectItemCaseSensitive o k = Some x ->
    cJSON_GetObjectItemCaseSensitive (cJSON_update o k v) k'
    = if beq k' k then Some v else cJSON_GetObjectItemCaseSensitive o k';
  elements_create : cJSON_elements cJSON_CreateArray = [];
  elements_add a v : cJSON_IsArray a = true ->
    cJSON_elements (cJSON_AddItemToArray a v) = cJSON_elements a ++ [v];
  elements_update a l : cJSON_IsArray a = true -> cJSON_elements (cJSON_update_elements a l) = l;
  (** a string item holds a C string *)
  string_create s : cJSON_GetStringValue (cJSON_CreateString s) = Some (c_str s);
  string_value j s : cJSON_GetStringValue j = Some s -> c_str s = s;
  string_null : cJSON_GetStringValue cJSON_CreateNull = None;
  string_bool b : cJSON_GetStringValue (cJSON_CreateBool b) = None;
  string_number z : cJSON_GetStringValue (cJSON_CreateNumber z) = None;
  string_object o : cJSON_IsObject o = true -> cJSON_GetStringValue o = None;
  string_array a : cJSON_IsArray a = true -> cJSON_GetStringValue a = None;
  array_object a : cJSON_IsArray a = true -> cJSON_IsObject a = false;
  null_not_array : cJSON_IsArray cJSON_CreateNull = false;
  number_create z : cJSON_GetNumberValue (cJSON_CreateNumber z) = Some z
}.

(** ** Reading back what was built *)

Section Build.
Context `{CJsonLaws}.

Lemma isobject_add_string o k s : cJSON_IsObject (cJSON_AddStringToObject o k s) = cJSON_IsObject o.
Proof. apply isobject_add. Qed.

Lemma get_add_string o k s k' : cJSON_IsObject o = true ->
  cJSON_GetObjectItemCaseSensitive (cJSON_AddStringToObject o k s) k'
  = match cJSON_GetObjectItemCaseSensitive o k' with
    | Some x => Some x
    | None => if beq k' k then Some (cJSON_CreateString s) else None
    end.
Proof. apply get_add. Qed.
Lemma isobject_add_opt o k v : cJSON_IsObject (add_opt o k v) = cJSON_IsObject o.
Proof. destruct v; [apply isobject_add|done]. Qed.

Lemma get_add_opt o k v k' : cJSON_IsObject o = true ->
  cJSON_GetObjectItemCaseSensitive (add_opt o k v) k'
  = match cJSON_GetObjectItemCaseSensitive o k' with
    | Some x => Some x
    | None => if beq k' k then cJSON_CreateString <$> v else None
    end.
Proof.
  intros Ho. destruct v as [s|]; cbn; [by apply get_add|].
  destruct (cJSON_GetObjectItemCaseSensitive o k'); [done|]. by destruct (beq k' k).
Qed.

Lemma elements_fold {A} (f : A -> cJSON) l : forall a, cJSON_IsArray a = true ->
  cJSON_IsArray (fold_left (fun a x => cJSON_AddItemToArray a (f x)) l a) = true /\
  cJSON_elements (fold_left (fun a x => cJSON_AddItemToArray a (f x)) l a)
    = cJSON_elements a ++ map f l.
Proof.
  induction l as [|x l IH]; intros a Ha; cbn [fold_left map]; [by rewrite app_nil_r|].
  destruct (IH (cJSON_AddItemToArray a (f x))) as [H1 H2]; [by rewrite isarray_add|].
  split; [done|]. by rewrite H2, elements_add, <- app_assoc.
Qed.

Lemma array_from_elements l : cJSON_IsArray (array_from l) = true /\ cJSON_elements (array_from l) = l.
Proof.
  unfold array_from. destruct (elements_fold (fun x => x) l cJSON_CreateArray isarray_create) as [E1 E2].
  rewrite elements_create, map_id in E2. done.
Qed.

Lemma c_str_value (o : option cJSON) k s : get_string o k = Some s -> c_str s = s.
Proof.
  unfold get_string. destruct o as [j|]; [|done]. cbn [mbind option_bind].
  destruct (cJSON_GetObjectItemCaseSensitive j k); [|done]. cbn. apply string_value.
Qed.

Lemma get_string_built o k s : cJSON_GetObjectItemCaseSensitive o k = Some (cJSON_CreateString s) ->
  get_string (Some o) k = Some (c_str s).
Proof. intros E. unfold get_string. cbn [mbind option_bind]. rewrite E. apply string_create. Qed.

Lemma type_is_built o s t : cJSON_GetObjectItemCaseSensitive o (bs "type") = Some (cJSON_CreateString s) ->
  c_str s = s -> type_is o t = beq s t.
Proof. intros E Es. unfold type_is. by rewrite (get_string_built _ _ _ E), Es. Qed.

Lemma type_is_other b t t' : type_is b t = true -> beq t t' = false -> type_is b t' = false.
Proof. unfold type_is. destruct (get_string _ _); [|done]. by intros ->%beq_eq. Qed.

Lemma default_c_str o k : c_str (default [] (get_string o k)) = default [] (get_string o k).
Proof. destruct (get_string o k) eqn:E; [by eapply c_str_value|done]. Qed.

Lemma string_not_array c s : cJSON_GetStringValue c = Some s -> cJSON_IsArray c = false.
Proof. intros E. apply not_true_is_false. intros Ha. by rewrite string_array in E. Qed.

Lemma created_string_not_array s : cJSON_IsArray (cJSON_CreateString s) = false.
Proof. apply (string_not_array _ (c_str s)), string_create. Qed.

End Build.

(** Decide the tests on literal member names. *)
Ltac lit :=
  repeat match goal with
  | |- context [beq (bs ?a) (bs ?b)] =>
      let r := eval vm_compute in (beq (bs a) (bs b)) in
      change (beq (bs a) (bs b)) with r; cbv iota
  end.

(** An object made by adding members; what a member of it is. *)
Ltac is_built := repeat first
  [ rewrite isobject_add_opt | rewrite isobject_add_string | rewrite isobject_add
  | rewrite isobject_delete]; apply isobject_create.

Ltac built_get := repeat first
  [ rewrite get_add_opt by is_built | rewrite get_add_string by is_built
  | rewrite get_add by is_built | rewrite get_create ]; lit.

(** ** A tree that satisfies the laws *)

Inductive json :=
| JNull
| JBool (b : bool)
| JNumber (z : Z)
| JString (s : list byte)
| JArray (l : list json)
| JObject (l : list (list byte * json)).

#[export] Instance json_eq_dec : EqDecision json.
Proof.
  unfold EqDecision, Decision. fix go 1. intros a b.
  pose proof (list_eq_dec byte_eq_dec) as Hs.
  destruct a as [|x|x|x|x|x], b as [|y|y|y|y|y]; try (right; discriminate).
  - by left.
  - destruct (decide (x = y)); [left|right]; congruence.
  - destruct (decide (x = y)); [left|right]; congruence.
  - destruct (decide (x = y)); [left|right]; congruence.
  - destruct (List.list_eq_dec go x y); [left|right]; congruence.
  - destruct (List.list_eq_dec (fun p q : list byte * json =>
      match p, q with (k, u), (l, v) =>
       match decide (k = l), go u v with left E1, left E2 => left (f_equal2 pair E1 E2) | left _, right E => right (fun F : (k, u) = (l, v) => E (f_equal snd F)) | right E, _ => right (fun F : (k, u) = (l, v) => E (f_equal fst F)) end end) x y);
    [left|right]; congruence.
Defined.

Fixpoint assoc (l : list (list byte * json)) (k : list byte) : option json :=
  match l with
  | [] => None
  | (k', v) :: l' => if beq k k' then Some v else assoc l' k
  end.

Fixpoint assoc_delete (l : list (list byte * json)) (k : list byte) : list (list byte * json) :=
  match l with
  | [] => []
  | (k', v) :: l' => if beq k k' then l' else (k', v) :: assoc_delete l' k
  end.

Fixpoint assoc_update (l : list (list byte * json)) (k : list byte) (v : json)
  : list (list byte * json) :=
  match l with
  | [] => []
  | (k', v') :: l' => if beq k k' then (k', v) :: l' else (k', v') :: assoc_update l' k v
  end.

#[export] Instance json_cjson : CJson := {|
  cJSON := json;
  cJSON_CreateObject := JObject [];
  cJSON_CreateArray := JArray [];
  cJSON_CreateNull := JNull;
  cJSON_CreateString s := JString (c_str s);
  cJSON_CreateNumber := JNumber;
  cJSON_CreateBool := JBool;
  cJSON_AddItemToObject o k v :=
    match o with JObject l => JObject (l ++ [(k, v)]) | _ => o end;
  cJSON_AddItemToArray a v := match a with JArray l => JArray (l ++ [v]) | _ => a end;
  cJSON_DeleteItemFromObjectCaseSensitive o k :=
    match o with JObject l => JObject (assoc_delete l k) | _ => o end;
  cJSON_GetObjectItemCaseSensitive o k := match o with JObject l => assoc l k | _ => None end;
  cJSON_GetObjectItem o k := match o with JObject l => assoc (map (fun p => (map lower (fst p), snd p)) l) (map lower k) | _ => None end;
  cJSON_GetStringValue j := match j with JString s => Some (c_str s) | _ => None end;
  cJSON_GetNumberValue j := match j with JNumber z => Some z | _ => None end;
  cJSON_valuedouble j := match j with JNumber z => Some (Finite z 0) | _ => None end;
  cJSON_IsObject j := match j with JObject _ => true | _ => false end;
  cJSON_IsArray j := match j with JArray _ => true | _ => false end;
  cJSON_elements j := match j with JArray l => l | JObject l => map snd l | _ => [] end;
  cJSON_update o k v := match o with JObject l => JObject (assoc_update l k v) | _ => o end;
  cJSON_update_elements a l := match a with JArray _ => JArray l | _ => a end
|}.

Lemma assoc_app l l' k : assoc (l ++ l') k = match assoc l k with Some x => Some x | None => assoc l' k end.
Proof. induction l as [|[k' v] l IH]; [done|]. cbn. by destruct (beq k k'). Qed.

Lemma assoc_delete_other l k k' : k' <> k -> assoc (assoc_delete l k) k' = assoc l k'.
Proof.
  intros Hk. induction l as [|[k0 v] l IH]; [done|]. cbn. destruct (beq k k0) eqn:E.
  - apply beq_eq in E as <-. apply beq_neq in Hk. by rewrite Hk.
  - cbn. by rewrite IH.
Qed.

Lemma assoc_delete_add l k v : assoc l k = None -> assoc_delete (l ++ [(k, v)]) k = l.
Proof.
  induction l as [|[k0 v0] l IH]; cbn; [by rewrite beq_refl|].
  destruct (beq k k0); [done|]. intros H. by rewrite IH.
Qed.

Lemma assoc_delete_absent l k : assoc l k = None -> assoc_delete l k = l.
Proof.
  induction l as [|[k0 v0] l IH]; cbn; [done|]. destruct (beq k k0); [done|].
  intros H. by rewrite IH.
Qed.

Lemma assoc_update_get l k v x k' : assoc l k = Some x ->
  assoc (assoc_update l k v) k' = if beq k' k then Some v else assoc l k'.
Proof.
  induction l as [|[k0 v0] l IH]; cbn; [done|]. destruct (beq k k0) eqn:E.
  - apply beq_eq in E as <-. intros _. cbn. by destruct (beq k' k).
  - intros H. cbn. rewrite IH by done. destruct (beq k' k0) eqn:E'; [|done].
    apply beq_eq in E' as ->. destruct (beq k0 k) eqn:E2; [|done].
    apply beq_eq in E2 as ->. by rewrite beq_refl in E.
Qed.

Lemma assoc_nocase l k v : assoc l k = Some v ->
  is_Some (assoc (map (fun p => (map lower (fst p), snd p)) l) (map lower k)).
Proof.
  induction l as [|[k' v'] l IH]; [done|]. cbn. destruct (beq k k') eqn:E.
  - apply beq_eq in E as <-. rewrite beq_refl. eauto.
  - intros H. destruct (beq (map lower k) (map lower k')); [eauto|by apply IH].
Qed.

Lemma c_str_twice s : c_str (c_str s) = c_str s.
Proof. induction s as [|b s IH]; [done|]. cbn [c_str]. destruct (b2z b =? 0) eqn:E; [done|]. cbn [c_str]. by rewrite E, IH. Qed.

#[export] Instance json_laws : CJsonLaws.
Proof.
  constructor; cbn; try done; try (by intros []); try (by intros [] ?).
  - intros o k v. destruct o; try done. apply assoc_nocase.
  - intros o k v k'. destruct o as [| | | | |l]; try done. intros _. rewrite assoc_app. done.
  - intros o k k' Hk. destruct o; try done. by apply assoc_delete_other.
  - intros o k v. destruct o; try done. intros _ H. by rewrite assoc_delete_add.
  - intros o k. destruct o; try done. intros H. by rewrite assoc_delete_absent.
  - intros o k v x k'. destruct o; try done. apply assoc_update_get.
  - intros s. by rewrite c_str_twice.
  - intros j s. destruct j; try done. intros [= <-]. apply c_str_twice.
Qed.
