(* ===== verification/History.v ===== *)
(** The conversation history of [src/libclm/history.c]: the stored form of a
    message, the two compactions, superseding stale tool results, and the
    repair of tool calls without a result. The TAILQ of messages is the list
    of them, a pointer into it a position, and the compressor the embedder
    may install an argument. Allocation is taken to succeed, so no [-ENOMEM]
    is returned here. *)

From S2P Require Import Prelude Utf8.

(** ** Messages *)

Inductive clm_role := CLM_ROLE_SYSTEM | CLM_ROLE_USER | CLM_ROLE_ASSISTANT | CLM_ROLE_TOOL.

#[export] Instance clm_role_eq_dec : EqDecision clm_role.
Proof. solve_decision. Defined.

Record clm_tool_call := mk_tool_call {
  tc_id : option (list byte);
  tc_name : option (list byte);
  tc_args : option (list byte)
}.

Record clm_attachment := mk_attachment { media_type : list byte; a_data : list byte }.

Record clm_message := mk_message {
  role : clm_role;
  content : option (list byte);
  content_len : Z;
  content_compressed : bool;
  tool_call_id : option (list byte);
  tool_name : option (list byte);
  tool_calls : list clm_tool_call;
  attachments : list clm_attachment
}.

Abbreviation clm_history := (list clm_message).

(** [struct clm_compressor]: [write] answers the packed bytes, or fails. *)
Record clm_compressor := mk_compressor {
  cz_write : option (list byte -> option (list byte));
  cz_read : option (list byte -> option (list byte));
  min_len : Z
}.

Definition clm_message_create (r : clm_role) : clm_message :=
  mk_message r None 0 false None None [] [].

Definition set_stored (m : clm_message) (c : option (list byte)) (len : Z) (packed : bool)
  : clm_message :=
  mk_message (role m) c len packed (tool_call_id m) (tool_name m) (tool_calls m) (attachments m).

Definition clm_message_add_attachment (m : clm_message) (mt data : list byte) : clm_message :=
  mk_message (role m) (content m) (content_len m) (content_compressed m) (tool_call_id m)
    (tool_name m) (tool_calls m) (attachments m ++ [mk_attachment mt data]).

Definition drop_attachments (m : clm_message) : clm_message :=
  mk_message (role m) (content m) (content_len m) (content_compressed m) (tool_call_id m)
    (tool_name m) (tool_calls m) [].

(** The text after the repair and the cut at 64 KiB - 1. *)
Definition clip (s : list byte) : list byte :=
  if UINT16_MAX <? zlen s then take (utf8_floor s (Z.to_nat UINT16_MAX)) s else s.

(** What the compressor makes of a text, when it is worth keeping. *)
Definition packed (cz : option clm_compressor) (s : list byte) : option (list byte) :=
  c ← cz;
  w ← cz_write c;
  if min_len c <=? zlen s then
    p ← w s;
    if (zlen p <? zlen s) && (zlen p <=? UINT16_MAX) then Some p else None
  else None.

Definition message_set_content_len (m : clm_message) (c : option (list byte))
    (cz : option clm_compressor) : clm_message :=
  match c with
  | None => set_stored m None 0 false
  | Some s =>
      let s := clip (default s (utf8_repair s)) in
      match packed cz s with
      | Some p => set_stored m (Some p) (zlen p) true
      | None => set_stored m (Some s) (zlen s) false
      end
  end.

(** The wrapper for C strings: the length is [strlen]. *)
Definition message_set_content (m : clm_message) (c : option (list byte))
    (cz : option clm_compressor) : clm_message :=
  message_set_content_len m (c_str <$> c) cz.

(** ** Adding messages *)

Definition clm_history_add_system (h : clm_history) (c : option (list byte)) cz : clm_history :=
  h ++ [message_set_content (clm_message_create CLM_ROLE_SYSTEM) c cz].

Definition clm_history_add_user (h : clm_history) (c : option (list byte)) cz : clm_history :=
  h ++ [message_set_content (clm_message_create CLM_ROLE_USER) c cz].

Definition clm_history_add_assistant_text (h : clm_history) (c : option (list byte)) cz
  : clm_history :=
  h ++ [message_set_content (clm_message_create CLM_ROLE_ASSISTANT) c cz].

Definition clm_history_add_assistant_tool_calls (h : clm_history) : clm_history :=
  h ++ [clm_message_create CLM_ROLE_ASSISTANT].

Definition set_ids (m : clm_message) (id name : option (list byte)) : clm_message :=
  mk_message (role m) (content m) (content_len m) (content_compressed m) id name
    (tool_calls m) (attachments m).

Definition clm_history_add_tool_result (h : clm_history) (id name c : option (list byte)) cz
  : clm_history :=
  h ++ [message_set_content_len (set_ids (clm_message_create CLM_ROLE_TOOL) id name) c cz].

(** [None] is the NULL for a message that is not an assistant's. *)
Definition clm_message_add_tool_call (m : clm_message) (id name args : option (list byte))
  : option clm_message :=
  match role m with
  | CLM_ROLE_ASSISTANT =>
      Some (mk_message (role m) (content m) (content_len m) (content_compressed m)
              (tool_call_id m) (tool_name m) (tool_calls m ++ [mk_tool_call id name args])
              (attachments m))
  | _ => None
  end.

(** ** Compaction *)

Definition opt_len (s : option (list byte)) : Z :=
  match s with Some s => zlen s | None => 0 end.

Definition message_bytes (m : clm_message) : Z :=
  fold_left (fun n tc => n + (opt_len (tc_name tc) + opt_len (tc_args tc) + 48))
    (tool_calls m) (content_len m + 32).

Definition is_system (m : clm_message) : bool :=
  match role m with CLM_ROLE_SYSTEM => true | _ => false end.
Definition is_user (m : clm_message) : bool :=
  match role m with CLM_ROLE_USER => true | _ => false end.
Definition is_tool (m : clm_message) : bool :=
  match role m with CLM_ROLE_TOOL => true | _ => false end.

(** An assistant message that opens a tool exchange. *)
Definition has_calls (m : clm_message) : bool :=
  match role m, tool_calls m with
  | CLM_ROLE_ASSISTANT, _ :: _ => true
  | _, _ => false
  end.

Definition is_cut_point (m : clm_message) : bool := is_user m || has_calls m.

(** Position of the first message of the list that satisfies [p]. *)
Fixpoint find_first (p : clm_message -> bool) (h : clm_history) : option nat :=
  match h with
  | [] => None
  | m :: h' => if p m then Some 0%nat else S <$> find_first p h'
  end.

(** The leading system messages, and what follows them. *)
Fixpoint split_system (h : clm_history) : clm_history * clm_history :=
  match h with
  | [] => ([], [])
  | m :: h' =>
      if is_system m then let '(s, r) := split_system h' in (m :: s, r) else ([], h)
  end.

Definition summary_message (summary : list byte) cz : clm_message :=
  message_set_content (clm_message_create CLM_ROLE_USER) (Some summary) cz.

(** [fold_range]: positions [start] and [cut] of the whole history. *)
Definition fold_range (h : clm_history) (start cut : nat) (summary : list byte) cz
  : Z * clm_history :=
  (Z.of_nat (cut - start), take start h ++ [summary_message summary cz] ++ drop cut h).

Definition total_bytes (h : clm_history) : Z :=
  fold_left (fun n m => n + message_bytes m) h 0.

(** The walk back over the first [i] messages of [rest]: [newest_cut] and
    [cut] when it ends. *)
Fixpoint walk_back (rest : clm_history) (i : nat) (bytes keep_bytes : Z)
    (newest_cut cut : option nat) (turns keep_min_turns : Z) : option nat * option nat :=
  match i with
  | O => (newest_cut, cut)
  | S i' =>
      match rest !! i' with
      | None => (newest_cut, cut)
      | Some m =>
          let bytes := bytes + message_bytes m in
          if negb (is_cut_point m)
          then walk_back rest i' bytes keep_bytes newest_cut cut turns keep_min_turns
          else
            let newest_cut := match newest_cut with None => Some i' | _ => newest_cut end in
            if keep_bytes <? bytes then (newest_cut, cut)
            else
              let turns' := if is_user m then turns + 1 else turns in
              if is_user m && (keep_min_turns <=? turns') && (keep_bytes <? bytes)
              then (newest_cut, Some i')
              else walk_back rest i' bytes keep_bytes newest_cut (Some i') turns' keep_min_turns
      end
  end.

(** A cut at the first message steps forward to the next boundary; without a
    cut, the newest one is used. [rest'] is what follows the first message. *)
Definition final_cut (rest' : clm_history) (newest_cut cut : option nat) : option nat :=
  let cut := match cut with
             | Some O => S <$> find_first is_cut_point rest'
             | _ => cut
             end in
  match cut with None => newest_cut | _ => cut end.

Definition clm_history_compact_within (h : clm_history) (summary : list byte)
    (keep_bytes keep_min_turns : Z) cz : Z * clm_history :=
  let '(sys, rest) := split_system h in
  match rest with
  | [] => (0, h)
  | _ :: rest' =>
      let total := total_bytes rest in
      let keep_bytes := if total / 2 <? keep_bytes then total / 2 else keep_bytes in
      let '(newest_cut, cut) :=
        walk_back rest (length rest) 0 keep_bytes None None 0 keep_min_turns in
      match final_cut rest' newest_cut cut with
      | None | Some O => (0, h)
      | Some c =>
          let removed := total_bytes (take c rest) in
          if removed <=? zlen summary + 32 then (0, h)
          else fold_range h (length sys) (length sys + c) summary cz
      end
  end.

(** The walk of [clm_history_compact]: the [keep]-th message from the end
    that satisfies [p], among the first [i] of the list. *)
Fixpoint nth_from_end (p : clm_message -> bool) (h : clm_history) (i : nat) (seen keep : Z)
  : option nat :=
  match i with
  | O => None
  | S i' =>
      match h !! i' with
      | None => None
      | Some m =>
          if p m then if seen + 1 =? keep then Some i' else nth_from_end p h i' (seen + 1) keep
          else nth_from_end p h i' seen keep
      end
  end.

(** No user boundary to cut at: keep the first user message, the mission, and
    cut at the [keep_recent]-th exchange head. [n] is the length of the system
    prologue; the walk stops at the mission, so its positions are relative to
    the message after it. *)
Definition compact_exchanges (h rest : clm_history) (n : nat) (summary : list byte)
    (keep_recent : Z) cz : Z * clm_history :=
  let start := match find_first is_user rest with Some k => S k | None => 0%nat end in
  if (length rest <=? start)%nat then (0, h)
  else
    match nth_from_end has_calls (drop start rest) (length rest - start) 0 keep_recent with
    | Some (S c) => fold_range h (n + start) (n + start + S c) summary cz
    | _ => (0, h)
    end.

Definition clm_history_compact (h : clm_history) (summary : list byte) (keep_recent : Z) cz
  : Z * clm_history :=
  if keep_recent =? 0 then (- EINVAL, h)
  else
    let '(sys, rest) := split_system h in
    match rest with
    | [] => (0, h)
    | _ =>
        let n := length sys in
        match nth_from_end is_user rest (length rest) 0 keep_recent with
        | Some (S c) => fold_range h n (n + S c) summary cz
        | _ => compact_exchanges h rest n summary keep_recent cz
        end
    end.

(** ** Superseded tool results *)

Definition needs_stub (name stub : list byte) (m : clm_message) : bool :=
  match role m, tool_name m with
  | CLM_ROLE_TOOL, Some n =>
      beq n name &&
      negb (negb (content_compressed m) &&
            match content m with Some c => beq (c_str c) stub | None => false end)
  | _, _ => false
  end.

Definition stubbed (stub : list byte) (m : clm_message) : clm_message :=
  drop_attachments (message_set_content m (Some stub) None).

(** Position of the message that opened the current batch: the last one with
    tool calls. *)
Fixpoint batch_head (h : clm_history) (i : nat) : option nat :=
  match i with
  | O => None
  | S i' =>
      match h !! i' with
      | Some m => if has_calls m then Some i' else batch_head h i'
      | None => None
      end
  end.

Fixpoint supersede (name stub : list byte) (h : clm_history) : Z * clm_history :=
  match h with
  | [] => (0, [])
  | m :: h' =>
      let '(n, h'') := supersede name stub h' in
      if needs_stub name stub m then (n + 1, stubbed stub m :: h'') else (n, m :: h'')
  end.

(** Without a batch head the loop runs to the end. *)
Definition clm_history_supersede_tool (h : clm_history) (name stub : list byte)
  : Z * clm_history :=
  let stop := default (length h) (batch_head h (length h)) in
  let '(n, older) := supersede name stub (take stop h) in
  (n, older ++ drop stop h).

(** ** Dangling tool calls *)

Definition answers (id : list byte) (m : clm_message) : bool :=
  match role m, tool_call_id m with
  | CLM_ROLE_TOOL, Some i => beq i id
  | _, _ => false
  end.

Fixpoint tool_result_present (h : clm_history) (id : option (list byte)) : bool :=
  match id, h with
  | Some i, m :: h' =>
      if is_tool m then answers i m || tool_result_present h' id else false
  | _, _ => false
  end.

(** The first later result for [id]: it, and the list without it. *)
Fixpoint tool_result_later (h : clm_history) (id : option (list byte))
  : option (clm_message * clm_history) :=
  match id, h with
  | Some i, m :: h' =>
      if answers i m then Some (m, h')
      else '(late, rest) ← tool_result_later h' id; Some (late, m :: rest)
  | _, _ => None
  end.

Definition missing_text : list byte :=
  bs "[tool result missing: session ended before this tool call finished]".

Definition synth_result (tc : clm_tool_call) : clm_message :=
  message_set_content (set_ids (clm_message_create CLM_ROLE_TOOL) (tc_id tc) (tc_name tc))
    (Some missing_text) None.

(** The run of tool results at the front, and what follows it. *)
Fixpoint split_run (h : clm_history) : clm_history * clm_history :=
  match h with
  | m :: h' => if is_tool m then let '(r, t) := split_run h' in (m :: r, t) else ([], h)
  | [] => ([], [])
  end.

(** The loop over one message's calls. [run] is what lies between the message
    and [insert_after], that one included; [after] is the rest. The scan for a
    result starts at [batch_first]: at the run, or, when the run was empty at
    the start of the loop ([hidden]), at the message after it, so that what
    this loop inserts is not seen. *)
Fixpoint repair_calls (tcs : list clm_tool_call) (hidden : bool) (run after : clm_history)
    (repaired : Z) : clm_history * clm_history * Z :=
  match tcs with
  | [] => (run, after, repaired)
  | tc :: tcs' =>
      if tool_result_present (if hidden then after else run ++ after) (tc_id tc)
      then repair_calls tcs' hidden run after repaired
      else
        match tool_result_later after (tc_id tc) with
        | Some (late, after') =>
            repair_calls tcs' hidden (run ++ [late]) after' (repaired + 1)
        | None =>
            repair_calls tcs' hidden (run ++ [synth_result tc]) after (repaired + 1)
        end
  end.

(** The outer loop. [next] is taken before the repair of a message, and its
    run is walked over by the loop's [continue]s. *)
Fixpoint repair_from (fuel : nat) (h : clm_history) : clm_history * Z :=
  match fuel, h with
  | S f, m :: h' =>
      if has_calls m then
        let '(run, after) := split_run h' in
        let hidden := match run with [] => true | _ => false end in
        let '(run', after', n) := repair_calls (tool_calls m) hidden run after 0 in
        let '(rest, n') := repair_from f after' in
        (m :: run' ++ rest, n + n')
      else
        let '(rest, n') := repair_from f h' in (m :: rest, n')
  | _, _ => (h, 0)
  end.

Definition clm_history_repair_dangling_tool_calls (h : clm_history) : Z * clm_history :=
  let '(h', n) := repair_from (length h) h in (n, h').
