(* ===== verification/HistoryFacts.v ===== *)
(** The theorems about [History]: what a message stores, what compaction
    keeps, what superseding touches and what the repair of dangling calls
    guarantees. *)

From S2P Require Import Prelude Utf8 History.

#[local] Arguments message_set_content_len : simpl never.
#[local] Arguments message_set_content : simpl never.
#[local] Arguments summary_message : simpl never.
#[local] Arguments synth_result : simpl never.

(** ** C strings *)

Lemma c_str_app s t : no_nul s -> c_str (s ++ x00 :: t) = s.
Proof.
  induction 1 as [|b s Hb _ IH]; [done|]. cbn [app c_str]. case_if; [|by rewrite IH].
  exfalso. apply Hb. by apply b2z_inj.
Qed.

Lemma c_str_id s : no_nul s -> c_str s = s.
Proof.
  induction 1 as [|b s Hb _ IH]; [done|]. cbn [c_str]. case_if; [|by rewrite IH].
  exfalso. apply Hb. by apply b2z_inj.
Qed.

Lemma c_str_no_nul s : no_nul (c_str s).
Proof.
  induction s as [|b s IH]; cbn [c_str]; [constructor|]. case_if; [constructor|].
  constructor; [|done]. by intros ->.
Qed.

Lemma c_str_idemp s : c_str (c_str s) = c_str s.
Proof. apply c_str_id, c_str_no_nul. Qed.

Lemma c_str_length s : zlen (c_str s) <= zlen s.
Proof.
  unfold zlen. induction s as [|b s IH]; cbn [c_str]; [lia|]. case_if; cbn [length]; lia.
Qed.

(** ** What a message stores *)

(** The fields agree, plain content is UTF-8, and nothing exceeds the width
    of [content_len]. *)
Definition msg_ok (m : clm_message) : Prop :=
  match content m with
  | None => content_len m = 0 /\ content_compressed m = false
  | Some c => content_len m = zlen c /\ zlen c <= UINT16_MAX /\
      (content_compressed m = false -> valid_utf8 c)
  end.

(** The cut loses at most three bytes to a character boundary. *)
Lemma utf8_floor_near s off : valid_utf8 s -> (off < length s)%nat ->
  let k := utf8_floor s off in
  (off - 3 <= k <= off)%nat /\ valid_utf8 (take k s).
Proof.
  intros Hv Ho. cbv zeta. destruct (utf8_floor_spec s off) as [H1 H2].
  pose proof (utf8_floor_last s off) as Hl. set (k := utf8_floor s off) in *.
  assert (Hk : is_cont (rd s k) = false).
  { destruct H2 as [H2|[H2|H2]]; [|lia|done]. rewrite H2.
    destruct Hv as [|c s' Hc Hs']; [done|by apply encode_cp_head]. }
  split; [split; [|done]|by apply valid_cut; [|lia|]].
  destruct (decide (off - 3 <= k)%nat) as [|Hlt]; [done|exfalso].
  destruct (valid_cont_run s Hv (off - 3) ltac:(lia)) as (j & Hj & Hc).
  rewrite (Hl (off - 3 + j)%nat ltac:(lia)) in Hc. done.
Qed.

Lemma clip_ok s : valid_utf8 s -> exists k, clip s = take k s /\ valid_utf8 (clip s) /\
  zlen (clip s) <= UINT16_MAX /\
  if UINT16_MAX <? zlen s then 65532 <= Z.of_nat k <= 65535 else k = length s.
Proof.
  intros Hv. unfold clip, UINT16_MAX, zlen.
  destruct (Z.ltb_spec 65535 (Z.of_nat (length s))) as [E|E].
  - assert (Ho : Z.of_nat (Z.to_nat 65535) = 65535) by done.
    revert Ho. generalize (Z.to_nat 65535). intros off Ho.
    destruct (utf8_floor_near s off Hv ltac:(lia)) as [H1 H2].
    exists (utf8_floor s off). split_and!; [done|done| |lia|lia].
    rewrite length_take. lia.
  - exists (length s). rewrite take_ge by done. split_and!; [done..|lia|done].
Qed.

Lemma packed_Some cz s p : packed cz s = Some p -> zlen p < zlen s /\ zlen p <= UINT16_MAX.
Proof.
  unfold packed. destruct cz as [c|]; [|done]. cbn.
  destruct (cz_write c) as [w|]; [|done]. cbn. case_if; [|done].
  destruct (w s) as [p'|]; [|done]. cbn. case_if; [|done]. intros [= <-]. done.
Qed.

Lemma set_content_len_ok m c cz : msg_ok (message_set_content_len m c cz).
Proof.
  destruct c as [s|]; [|done]. unfold message_set_content_len.
  change (default s (utf8_repair s)) with (utf8_clean s).
  destruct (clip_ok (utf8_clean s) (utf8_clean_valid s)) as (k & _ & Hv & Hl & _).
  destruct (packed cz (clip (utf8_clean s))) as [p|] eqn:E; unfold msg_ok; cbn; [|done].
  apply packed_Some in E as [_ E]. done.
Qed.

Lemma set_content_ok m c cz : msg_ok (message_set_content m c cz).
Proof. apply set_content_len_ok. Qed.

Lemma set_content_len_fields m c cz (m' := message_set_content_len m c cz) :
  role m' = role m /\ tool_call_id m' = tool_call_id m /\ tool_name m' = tool_name m /\
  tool_calls m' = tool_calls m /\ attachments m' = attachments m.
Proof. subst m'. unfold message_set_content_len. destruct c; [destruct (packed _ _)|]; done. Qed.

Lemma set_content_plain m s : valid_utf8 s ->
  content (message_set_content_len m (Some s) None) = Some (clip s).
Proof.
  intros Hv. unfold message_set_content_len.
  change (default s (utf8_repair s)) with (utf8_clean s). by rewrite utf8_clean_id.
Qed.

Lemma clip_short s : zlen s <= UINT16_MAX -> clip s = s.
Proof. intros. unfold clip. apply Z.ltb_ge in H. by rewrite H. Qed.

(** Stored bytes never exceed the text's, once that is valid. *)
Lemma set_content_len_bound m s cz : valid_utf8 s ->
  content_len (message_set_content_len m (Some s) cz) <= zlen s.
Proof.
  intros Hv. unfold message_set_content_len.
  change (default s (utf8_repair s)) with (utf8_clean s). rewrite utf8_clean_id by done.
  assert (Hc : zlen (clip s) <= zlen s).
  { unfold clip. case_if; [|done]. unfold zlen. rewrite length_take. lia. }
  destruct (packed cz (clip s)) as [p|] eqn:E; cbn; [|done]. apply packed_Some in E. lia.
Qed.

(** ** Sequences of operations *)

Inductive hist_op :=
| OpSystem (c : option (list byte))
| OpUser (c : option (list byte))
| OpAssistantText (c : option (list byte))
| OpAssistantCalls
| OpToolCall (id name args : option (list byte))
| OpAttachment (mt data : list byte)
| OpToolResult (id name c : option (list byte))
| OpCompactWithin (summary : list byte) (keep_bytes keep_min_turns : Z)
| OpCompact (summary : list byte) (keep_recent : Z)
| OpSupersede (name stub : list byte)
| OpRepair.

(** Change the newest message, as the callers of the two [clm_message_add]
    functions do. *)
Definition on_last (f : clm_message -> clm_message) (h : clm_history) : clm_history :=
  match h !! (length h - 1)%nat with
  | Some m => take (length h - 1) h ++ [f m]
  | None => h
  end.

Definition hist_step (cz : option clm_compressor) (h : clm_history) (op : hist_op) : clm_history :=
  match op with
  | OpSystem c => clm_history_add_system h c cz
  | OpUser c => clm_history_add_user h c cz
  | OpAssistantText c => clm_history_add_assistant_text h c cz
  | OpAssistantCalls => clm_history_add_assistant_tool_calls h
  | OpToolCall id name args =>
      on_last (fun m => default m (clm_message_add_tool_call m id name args)) h
  | OpAttachment mt data => on_last (fun m => clm_message_add_attachment m mt data) h
  | OpToolResult id name c => clm_history_add_tool_result h id name c cz
  | OpCompactWithin s kb kt => snd (clm_history_compact_within h s kb kt cz)
  | OpCompact s k => snd (clm_history_compact h s k cz)
  | OpSupersede name stub => snd (clm_history_supersede_tool h name stub)
  | OpRepair => snd (clm_history_repair_dangling_tool_calls h)
  end.

Lemma msg_ok_take_drop n h : Forall msg_ok h -> Forall msg_ok (take n h) /\ Forall msg_ok (drop n h).
Proof. intros H. rewrite <- (take_drop n h) in H. by apply Forall_app in H. Qed.

Lemma split_system_app h : fst (split_system h) ++ snd (split_system h) = h.
Proof.
  induction h as [|m h IH]; [done|]. cbn. destruct (is_system m); [|done].
  destruct (split_system h). cbn in *. by rewrite IH.
Qed.

Lemma split_system_spec h sys rest : split_system h = (sys, rest) ->
  h = sys ++ rest /\ Forall (fun m => role m = CLM_ROLE_SYSTEM) sys /\
  match rest with m :: _ => role m <> CLM_ROLE_SYSTEM | [] => True end.
Proof.
  revert sys rest. induction h as [|m h IH]; intros sys rest; cbn [split_system].
  { intros [= <- <-]. split_and!; [done|constructor|done]. }
  destruct (is_system m) eqn:E.
  - destruct (split_system h) as [s r]. intros [= <- <-].
    destruct (IH s r eq_refl) as (-> & Hs & Hr). split_and!; [done| |done].
    constructor; [|done]. unfold is_system in E. by destruct (role m).
  - intros [= <- <-]. split_and!; [done|constructor|].
    unfold is_system in E. by destruct (role m).
Qed.

Lemma fold_range_ok h a b s cz : Forall msg_ok h -> Forall msg_ok (snd (fold_range h a b s cz)).
Proof.
  intros H. cbn. apply Forall_app. split; [by apply msg_ok_take_drop|].
  constructor; [apply set_content_ok|by apply msg_ok_take_drop].
Qed.

Lemma compact_within_ok h s kb kt cz : Forall msg_ok h ->
  Forall msg_ok (snd (clm_history_compact_within h s kb kt cz)).
Proof.
  intros H. unfold clm_history_compact_within. destruct (split_system h) as [sys rest].
  destruct rest as [|m rest]; [done|]. destruct (walk_back _ _ _ _ _ _ _ _) as [nc c].
  destruct (final_cut rest nc c) as [[|k]|]; [done| |done].
  case_if; [done|]. by apply fold_range_ok.
Qed.

Lemma compact_ok h s k cz : Forall msg_ok h -> Forall msg_ok (snd (clm_history_compact h s k cz)).
Proof.
  intros H. unfold clm_history_compact. case_if; [done|].
  destruct (split_system h) as [sys [|m rest]]; [done|].
  destruct (nth_from_end is_user _ _ _ _) as [[|c]|]; [|by apply fold_range_ok|];
    (unfold compact_exchanges; case_if; [done|]; destruct (nth_from_end has_calls _ _ _ _) as [[|c']|];
     [done|by apply fold_range_ok|done]).
Qed.

Lemma stubbed_ok stub m : msg_ok (stubbed stub m).
Proof.
  unfold stubbed, message_set_content. apply (set_content_len_ok m (c_str <$> Some stub) None).
Qed.

Lemma supersede_ok name stub h : Forall msg_ok h -> Forall msg_ok (snd (supersede name stub h)).
Proof.
  induction 1 as [|m h Hm Hh IH]; [constructor|]. cbn [supersede].
  destruct (supersede name stub h) as [n h']. cbn in IH.
  destruct (needs_stub name stub m); constructor; auto using stubbed_ok.
Qed.

Lemma supersede_tool_ok h name stub : Forall msg_ok h ->
  Forall msg_ok (snd (clm_history_supersede_tool h name stub)).
Proof.
  intros H. unfold clm_history_supersede_tool.
  set (stop := default _ _). destruct (msg_ok_take_drop stop h H) as [H1 H2].
  pose proof (supersede_ok name stub _ H1) as H3.
  destruct (supersede name stub (take stop h)) as [n o]. apply Forall_app. by split.
Qed.

(** A predicate of single messages that the repair keeps. *)
Section RepairForall.
Context (P : clm_message -> Prop) (Hsynth : forall tc, P (synth_result tc)).

Lemma later_forall h id late rest : tool_result_later h id = Some (late, rest) ->
  Forall P h -> P late /\ Forall P rest.
Proof.
  destruct id as [i|]; [|by destruct h]. revert late rest.
  induction h as [|m h IH]; intros late rest; [done|]. cbn [tool_result_later]. intros E H.
  inversion H; subst. destruct (answers i m).
  - injection E as <- <-. done.
  - destruct (tool_result_later h (Some i)) as [[l r]|]; [|done]. cbn in E.
    injection E as <- <-. destruct (IH l r eq_refl) as [? ?]; [done|].
    split; [done|by constructor].
Qed.

Lemma repair_calls_forall tcs hidden : forall run after k,
  Forall P run -> Forall P after ->
  let '(run', after', _) := repair_calls tcs hidden run after k in
  Forall P run' /\ Forall P after'.
Proof.
  induction tcs as [|tc tcs IH]; intros run after k Hr Ha; cbn [repair_calls]; [done|].
  destruct (tool_result_present _ _); [by apply IH|].
  destruct (tool_result_later after (tc_id tc)) as [[late after']|] eqn:E.
  - destruct (later_forall _ _ _ _ E Ha) as [? ?].
    apply IH; [|done]. apply Forall_app. split; [done|]. constructor; [done|constructor].
  - apply IH; [|done]. apply Forall_app. split; [done|]. constructor; [done|constructor].
Qed.

Lemma split_run_forall h : Forall P h -> Forall P (fst (split_run h)) /\ Forall P (snd (split_run h)).
Proof.
  induction 1 as [|m h Hm Hh IH]; cbn [split_run]; [split; constructor|].
  destruct (is_tool m); [|split; [constructor|by constructor]].
  destruct (split_run h). cbn in *. destruct IH. split; [by constructor|done].
Qed.

Lemma repair_from_forall fuel : forall h, Forall P h -> Forall P (fst (repair_from fuel h)).
Proof.
  induction fuel as [|f IH]; intros [|m h] H; cbn [repair_from]; try done.
  inversion H; subst. destruct (has_calls m).
  - pose proof (split_run_forall h) as Hs. destruct (split_run h) as [run after].
    destruct Hs as [Hr Ha]; [done|].
    pose proof (repair_calls_forall (tool_calls m) (match run with [] => true | _ => false end)
      run after 0 Hr Ha) as Hc.
    destruct (repair_calls _ _ _ _ _) as [[run' after'] n]. destruct Hc as [Hr' Ha'].
    specialize (IH after' Ha'). destruct (repair_from f after') as [rest n']. cbn in *.
    constructor; [done|]. by apply Forall_app.
  - specialize (IH h). destruct (repair_from f h) as [rest n']. cbn in *.
    constructor; auto.
Qed.
End RepairForall.

Lemma synth_ok tc : msg_ok (synth_result tc).
Proof. apply set_content_len_ok. Qed.

Lemma on_last_ok f h : (forall m, msg_ok m -> msg_ok (f m)) -> Forall msg_ok h ->
  Forall msg_ok (on_last f h).
Proof.
  intros Hf H. unfold on_last. destruct (h !! (length h - 1)%nat) as [m|] eqn:E; [|done].
  apply Forall_app. split; [by apply msg_ok_take_drop|]. constructor; [|constructor].
  apply Hf. by apply (Forall_lookup_1 _ _ _ _ H E).
Qed.

Lemma hist_step_ok cz h op : Forall msg_ok h -> Forall msg_ok (hist_step cz h op).
Proof.
  intros H. destruct op; cbn [hist_step];
    try (apply Forall_app; split; [done|]; constructor; [|constructor];
         (apply set_content_ok || apply set_content_len_ok || done)).
  - apply on_last_ok; [|done]. intros m Hm. unfold clm_message_add_tool_call.
    by destruct (role m).
  - by apply on_last_ok.
  - by apply compact_within_ok.
  - by apply compact_ok.
  - by apply supersede_tool_ok.
  - unfold clm_history_repair_dangling_tool_calls.
    pose proof (repair_from_forall msg_ok synth_ok (length h) h H) as Hr.
    by destruct (repair_from _ _).
Qed.

(** ** Tool exchanges *)

(** The ids a message's calls ask results for. *)
Definition call_ids (m : clm_message) : list (option (list byte)) :=
  if has_calls m then map tc_id (tool_calls m) else [].

(** Every tool result lies in the run after the message that made its call.
    [ids] are the calls still open at the front of the list. *)
Fixpoint orphan_free (ids : list (option (list byte))) (h : clm_history) : Prop :=
  match h with
  | [] => True
  | m :: h' =>
      if is_tool m then In (tool_call_id m) ids /\ orphan_free ids h'
      else orphan_free (call_ids m) h'
  end.

(** Every call has its result in the run after the message that made it. *)
Fixpoint answered (h : clm_history) : Prop :=
  match h with
  | [] => True
  | m :: h' =>
      (forall id, In id (call_ids m) -> tool_result_present h' id = true) /\ answered h'
  end.

(** The list does not start inside a run of results. *)
Definition fresh (h : clm_history) : Prop :=
  match h with [] => True | m :: _ => is_tool m = false end.

Lemma orphan_free_fresh ids ids' h : fresh h -> orphan_free ids h -> orphan_free ids' h.
Proof. destruct h as [|m h]; [done|]. cbn. by intros ->. Qed.

Lemma orphan_free_app ids a b : fresh b ->
  orphan_free ids (a ++ b) <-> orphan_free ids a /\ orphan_free [] b.
Proof.
  intros Hb. revert ids. induction a as [|m a IH]; intros ids; cbn.
  - split; [|intros [_ ?]]; [split; [done|]|]; by eapply orphan_free_fresh.
  - destruct (is_tool m); rewrite IH; tauto.
Qed.

Lemma orphan_free_prefix ids a b : orphan_free ids (a ++ b) -> orphan_free ids a.
Proof.
  revert ids. induction a as [|m a IH]; intros ids; cbn; [done|].
  destruct (is_tool m); intros H; [destruct H; split; [done|]|]; by apply IH.
Qed.

Lemma result_present_app a b id : fresh b ->
  tool_result_present (a ++ b) id = tool_result_present a id.
Proof.
  intros Hb. destruct id as [i|]; [|by destruct a, b].
  induction a as [|m a IH]; cbn [app].
  - destruct b as [|m b]; [done|]. cbn in *. by rewrite Hb.
  - cbn. by rewrite IH.
Qed.

Lemma answered_app a b : fresh b -> answered (a ++ b) <-> answered a /\ answered b.
Proof.
  intros Hb. induction a as [|m a IH]; cbn; [tauto|]. rewrite IH.
  assert (H : (forall id, In id (call_ids m) -> tool_result_present (a ++ b) id = true) <->
    (forall id, In id (call_ids m) -> tool_result_present a id = true)).
  { split; intros H id Hid; specialize (H id Hid); by rewrite result_present_app in *. }
  rewrite H. tauto.
Qed.

Lemma user_plain m : is_user m = true -> is_tool m = false /\ call_ids m = [] /\ has_calls m = false.
Proof. unfold is_user, is_tool, call_ids, has_calls. by destruct (role m). Qed.

Lemma system_plain m : role m = CLM_ROLE_SYSTEM -> is_tool m = false /\ call_ids m = [].
Proof. unfold is_tool, call_ids, has_calls. by intros ->. Qed.

Lemma cut_point_fresh m h : is_cut_point m = true -> fresh (m :: h).
Proof. unfold is_cut_point, is_user, has_calls. cbn. unfold is_tool. by destruct (role m). Qed.

Lemma summary_role s cz : role (summary_message s cz) = CLM_ROLE_USER.
Proof. unfold summary_message, message_set_content. exact (proj1 (set_content_len_fields _ _ cz)). Qed.

(** What both compactions do: nothing, or replace a middle piece by the
    summary. The piece starts after the system prologue, and after the first
    user message when that is kept; the tail starts at a cut point. *)
Inductive folds (h : clm_history) (summary : list byte) cz : Z -> clm_history -> Prop :=
| folds_not n : n <= 0 -> folds h summary cz n h
| folds_range pre mid post :
    h = pre ++ mid ++ post -> mid <> [] ->
    (Forall (fun m => role m = CLM_ROLE_SYSTEM) pre \/
     exists pre' u, pre = pre' ++ [u] /\ is_user u = true) ->
    (exists m post', post = m :: post' /\ is_cut_point m = true) ->
    folds h summary cz (zlen mid) (pre ++ [summary_message summary cz] ++ post).

Lemma fold_range_folds h start cut summary cz pre mid post :
  h = pre ++ mid ++ post -> length pre = start -> (start + length mid)%nat = cut -> mid <> [] ->
  (Forall (fun m => role m = CLM_ROLE_SYSTEM) pre \/
   exists pre' u, pre = pre' ++ [u] /\ is_user u = true) ->
  (exists m post', post = m :: post' /\ is_cut_point m = true) ->
  folds h summary cz (fst (fold_range h start cut summary cz)) (snd (fold_range h start cut summary cz)).
Proof.
  intros Hh Hs Hc Hm Hpre Hpost. unfold fold_range. cbn [fst snd].
  assert (take start h = pre) as -> by (by rewrite Hh, <- Hs, take_app_length).
  assert (drop cut h = post) as ->.
  { rewrite Hh, app_assoc. apply drop_app_length'. rewrite length_app. lia. }
  replace (Z.of_nat (cut - start)) with (zlen mid) by (unfold zlen; lia).
  by econstructor.
Qed.

Lemma total_bytes_acc h n : fold_left (fun n m => n + message_bytes m) h n = n + total_bytes h.
Proof.
  unfold total_bytes. revert n. induction h as [|m h IH]; intros n; cbn [fold_left]; [lia|].
  rewrite IH, (IH (0 + message_bytes m)). lia.
Qed.

Lemma total_bytes_cons m h : total_bytes (m :: h) = message_bytes m + total_bytes h.
Proof. unfold total_bytes at 1. cbn [fold_left]. rewrite total_bytes_acc. lia. Qed.

Lemma total_bytes_app a b : total_bytes (a ++ b) = total_bytes a + total_bytes b.
Proof.
  induction a as [|m a IH]; cbn [app]; [unfold total_bytes at 2; cbn; lia|].
  rewrite !total_bytes_cons, IH. lia.
Qed.

Lemma opt_len_nonneg o : 0 <= opt_len o.
Proof. destruct o; cbn; unfold zlen; lia. Qed.

Lemma message_bytes_min m : content_len m + 32 <= message_bytes m.
Proof.
  unfold message_bytes. generalize (content_len m + 32).
  induction (tool_calls m) as [|tc l IH]; intros z; cbn [fold_left]; [lia|].
  etransitivity; [|apply IH]. pose proof (opt_len_nonneg (tc_name tc)).
  pose proof (opt_len_nonneg (tc_args tc)). lia.
Qed.

Lemma msg_ok_len m : msg_ok m -> 0 <= content_len m.
Proof.
  unfold msg_ok. destruct (content m); [intros (-> & _); unfold zlen; lia|]. by intros [-> _].
Qed.

Lemma total_bytes_pos h : Forall msg_ok h -> 32 * zlen h <= total_bytes h.
Proof.
  induction 1 as [|m h Hm Hh IH]; [unfold zlen; cbn; lia|]. rewrite total_bytes_cons.
  pose proof (message_bytes_min m). pose proof (msg_ok_len m Hm). unfold zlen in *. cbn [length]. lia.
Qed.

(** The walk back from position [i]: what it found so far, and what it keeps. *)
Lemma walk_back_spec rest keep min i : forall bytes newest cut turns,
  (i <= length rest)%nat -> bytes = total_bytes (drop i rest) ->
  (forall c, cut = Some c -> (i <= c)%nat /\ total_bytes (drop c rest) <= keep /\
     exists m, rest !! c = Some m /\ is_cut_point m = true) ->
  (forall c, newest = Some c -> (i <= c)%nat /\ 
     (exists m, rest !! c = Some m /\ is_cut_point m = true) /\
     forall j m, (c < j)%nat -> rest !! j = Some m -> is_cut_point m = false) ->
  (newest = None -> cut = None /\
     forall j m, (i <= j)%nat -> rest !! j = Some m -> is_cut_point m = false) ->
  let '(newest', cut') := walk_back rest i bytes keep newest cut turns min in
  (forall c, cut' = Some c -> total_bytes (drop c rest) <= keep /\
     exists m, rest !! c = Some m /\ is_cut_point m = true) /\
  (forall c, newest' = Some c -> (exists m, rest !! c = Some m /\ is_cut_point m = true) /\
     forall j m, (c < j)%nat -> rest !! j = Some m -> is_cut_point m = false) /\
  (newest' = None -> cut' = None).
Proof.
  induction i as [|i IH]; intros bytes newest cut turns Hi Hb Hcut Hnew Hnone; cbn [walk_back].
  { split_and!; [intros c Hc; destruct (Hcut c Hc) as (_ & ? & ?); done|
                 intros c Hc; destruct (Hnew c Hc) as (_ & ? & ?); done|apply Hnone]. }
  destruct (lookup_lt_is_Some_2 rest i ltac:(lia)) as [m Hm]. rewrite Hm.
  assert (Hb' : bytes + message_bytes m = total_bytes (drop i rest)).
  { rewrite (drop_S rest m i Hm), total_bytes_cons. lia. }
  destruct (is_cut_point m) eqn:Ec; cbn [negb].
  2: { apply IH; [lia|done| | |].
       - intros c Hc. destruct (Hcut c Hc) as (? & ? & ?). split_and!; [lia|done|done].
       - intros c Hc. destruct (Hnew c Hc) as (? & ? & ?). split_and!; [lia|done|done].
       - intros Hn. destruct (Hnone Hn) as [? Hno]. split; [done|]. intros j m' Hj Hm'.
         destruct (decide (j = i)) as [->|]; [congruence|apply (Hno j m'); [lia|done]]. }
  assert (Hnew' : forall c, (match newest with None => Some i | _ => newest end) = Some c ->
     (i <= c)%nat /\ (exists m, rest !! c = Some m /\ is_cut_point m = true) /\
     forall j m, (c < j)%nat -> rest !! j = Some m -> is_cut_point m = false).
  { intros c. destruct newest as [c'|].
    - intros Hc. destruct (Hnew c Hc) as (? & ? & ?). split_and!; [lia|done|done].
    - intros [= <-]. destruct (Hnone eq_refl) as [_ Hno]. split_and!; [lia|by exists m|].
      intros j m' Hj Hm'. apply (Hno j m'); [lia|done]. }
  set (nw := match newest with None => Some i | _ => newest end) in *.
  assert (Hnn : nw <> None) by (by destruct newest).
  destruct (Z.ltb_spec keep (bytes + message_bytes m)) as [Ek|Ek].
  { split_and!; [|intros c Hc; by destruct (Hnew' c Hc) as (_ & ? & ?)|done].
    intros c Hc. by destruct (Hcut c Hc) as (_ & ? & ?). }
  rewrite andb_false_r.
  apply IH; [lia|done| |done|done].
  intros c [= <-]. split_and!; [lia|lia|by exists m].
Qed.

Lemma split_at_lookup (h : clm_history) c m : h !! c = Some m ->
  h = take c h ++ m :: drop (S c) h /\ length (take c h) = c.
Proof.
  intros Hm. pose proof (lookup_lt_Some _ _ _ Hm). split.
  - by rewrite <- (drop_S h m c Hm), take_drop.
  - rewrite length_take. lia.
Qed.

Lemma fold_at h sys rest start c m summary cz : h = sys ++ rest ->
  Forall (fun m => role m = CLM_ROLE_SYSTEM) sys ->
  (start = 0%nat \/ exists u, rest !! (start - 1)%nat = Some u /\ is_user u = true /\ (1 <= start)%nat) ->
  rest !! (start + c)%nat = Some m -> (0 < c)%nat -> is_cut_point m = true ->
  folds h summary cz (Z.of_nat c)
    (take (length sys + start) h ++ [summary_message summary cz] ++ drop (length sys + (start + c)) h).
Proof.
  intros -> Hsys Hstart Hm Hc Hcp.
  destruct (split_at_lookup rest (start + c) m Hm) as [Er El].
  pose proof (fold_range_folds (sys ++ rest) (length sys + start) (length sys + (start + c))
    summary cz (sys ++ take start rest) (take c (drop start rest)) (m :: drop (S (start + c)) rest))
    as H.
  unfold fold_range in H. cbn [fst snd] in H.
  replace (length sys + (start + c) - (length sys + start))%nat with c in H by lia.
  pose proof (lookup_lt_Some _ _ _ Hm) as Hlt.
  apply H; clear H.
  - rewrite <- app_assoc. f_equal. rewrite Er at 1. rewrite <- take_take_drop.
    by rewrite <- app_assoc.
  - rewrite length_app, length_take. lia.
  - rewrite length_take, length_drop. lia.
  - intros E. apply (f_equal length) in E. rewrite length_take, length_drop in E. cbn in E. lia.
  - destruct Hstart as [->|(u & Hu & Hut & Hs1)].
    + left. rewrite take_0, app_nil_r. done.
    + right. exists (sys ++ take (start - 1) rest), u. split; [|done].
      replace start with (S (start - 1)) at 1 by lia. by rewrite (take_S_r _ _ u Hu), app_assoc.
  - by exists m, (drop (S (start + c)) rest).
Qed.

(** No cut point follows position [c]. *)
Definition newest_at (rest : clm_history) (c : nat) : Prop :=
  forall j m, (c < j)%nat -> rest !! j = Some m -> is_cut_point m = false.

(** What [clm_history_compact_within] does, in terms of the list after the
    system prologue: it folds the first [c] of it, or nothing. *)
Definition within_case (h : clm_history) (summary : list byte) (kb : Z) cz
    (r : Z * clm_history) : Prop :=
  let '(sys, rest) := split_system h in
  r = (0, h) \/
  exists c m, rest !! c = Some m /\ is_cut_point m = true /\ (0 < c)%nat /\
    zlen summary + 32 < total_bytes (take c rest) /\
    (total_bytes (drop c rest) <= Z.min kb (total_bytes rest / 2) \/ newest_at rest c) /\
    r = (Z.of_nat c, sys ++ [summary_message summary cz] ++ drop c rest).

Lemma compact_within_cases h summary kb kt cz : Forall msg_ok h ->
  within_case h summary kb cz (clm_history_compact_within h summary kb kt cz).
Proof.
  intros Hok. unfold clm_history_compact_within, within_case.
  destruct (split_system h) as [sys rest] eqn:Es.
  destruct (split_system_spec h sys rest Es) as (Hh & Hsys & _).
  destruct rest as [|m0 rest']; [by left|]. set (rest := m0 :: rest') in *.
  set (keep := if total_bytes rest / 2 <? kb then total_bytes rest / 2 else kb).
  assert (Hkeep : keep = Z.min kb (total_bytes rest / 2)) by (subst keep; case_if; lia).
  pose proof (walk_back_spec rest keep kt (length rest) 0 None None 0) as Hw.
  rewrite drop_ge in Hw by done.
  destruct (walk_back rest (length rest) 0 keep None None 0 kt) as [nw cut].
  destruct Hw as (Hcut & Hnew & _); [done|done|done|done|split; [done|]|].
  { intros j m Hj Hm. apply lookup_lt_Some in Hm. lia. }
  rewrite Hkeep in Hcut. clearbody keep.
  assert (Hc0 : forall c, final_cut rest' nw cut = Some c ->
    (exists m, rest !! c = Some m /\ is_cut_point m = true) /\
    (total_bytes (drop c rest) <= Z.min kb (total_bytes rest / 2) \/ newest_at rest c)).
  { intros c. unfold final_cut. destruct cut as [[|c']|].
    - exfalso. destruct (Hcut 0%nat eq_refl) as [Hle _]. rewrite drop_0 in Hle.
      assert (Hr : Forall msg_ok rest) by (rewrite Hh in Hok; by apply Forall_app in Hok as [_ ?]).
      pose proof (total_bytes_pos rest Hr) as Hp. unfold zlen in Hp.
      assert (length rest = S (length rest')) as El by done. rewrite El in Hp. euclid.
    - intros [= <-]. destruct (Hcut _ eq_refl) as [? ?]. auto.
    - intros ->. destruct (Hnew _ eq_refl) as [? ?]. auto. }
  destruct (final_cut rest' nw cut) as [[|c]|]; [by left| |by left].
  case_if; [by left|]. right.
  destruct (Hc0 (S c) eq_refl) as [(m & Hm & Hcp) Htail].
  exists (S c), m. split_and!; [done|done|lia|done|done|].
  unfold fold_range. replace (length sys + S c - length sys)%nat with (S c) by lia.
  assert (take (length sys) h = sys) as -> by (rewrite Hh; apply take_app_length).
  assert (drop (length sys + S c) h = drop (S c) rest) as -> by (rewrite Hh, drop_app_add; done).
  reflexivity.
Qed.

Lemma compact_within_folds h summary kb kt cz : Forall msg_ok h ->
  let r := clm_history_compact_within h summary kb kt cz in folds h summary cz (fst r) (snd r).
Proof.
  intros Hok. cbv zeta. pose proof (compact_within_cases h summary kb kt cz Hok) as H.
  unfold within_case in H. destruct (split_system h) as [sys rest] eqn:Es.
  destruct (split_system_spec h sys rest Es) as (Hh & Hsys & _).
  destruct H as [->|(c & m & Hm & Hcp & Hc & _ & _ & ->)]; [by constructor|]. cbn [fst snd].
  pose proof (fold_at h sys rest 0 c m summary cz Hh Hsys ltac:(by left) Hm Hc Hcp) as H.
  rewrite !Nat.add_0_r, Nat.add_0_l in H.
  assert (take (length sys) h = sys) as E1 by (rewrite Hh; apply take_app_length).
  assert (drop (length sys + c) h = drop c rest) as E2 by (rewrite Hh, drop_app_add; done).
  by rewrite E1, E2 in H.
Qed.

(** Number of messages of a kind. *)
Fixpoint count (p : clm_message -> bool) (h : clm_history) : Z :=
  match h with
  | [] => 0
  | m :: h' => (if p m then 1 else 0) + count p h'
  end.

Lemma nth_from_end_spec p h i : forall seen keep c, (i <= length h)%nat ->
  seen = count p (drop i h) -> nth_from_end p h i seen keep = Some c ->
  count p (drop c h) = keep /\ exists m, h !! c = Some m /\ p m = true.
Proof.
  induction i as [|i IH]; intros seen keep c Hi Hs; cbn [nth_from_end]; [done|].
  destruct (lookup_lt_is_Some_2 h i ltac:(lia)) as [m Hm]. rewrite Hm.
  assert (Hd : count p (drop i h) = (if p m then 1 else 0) + seen) by (by rewrite (drop_S h m i Hm), Hs).
  destruct (p m) eqn:Ep.
  - case_if; [|apply IH; lia]. intros [= <-]. split; [lia|by exists m].
  - apply IH; lia.
Qed.

Lemma find_first_spec p h k : find_first p h = Some k ->
  (exists m, h !! k = Some m /\ p m = true) /\ forall j m, (j < k)%nat -> h !! j = Some m -> p m = false.
Proof.
  revert k. induction h as [|m h IH]; intros k; cbn [find_first]; [done|].
  destruct (p m) eqn:Ep.
  - intros [= <-]. split; [by exists m|lia].
  - destruct (find_first p h) as [k'|]; [|done]. intros [= <-].
    destruct (IH k' eq_refl) as [Hm Hno]. split; [done|].
    intros [|j] m' Hj; [by intros [= <-]|]. intros Hm'. apply (Hno j m'); [lia|done].
Qed.

Lemma compact_exchanges_folds h sys rest summary keep cz : h = sys ++ rest ->
  Forall (fun m => role m = CLM_ROLE_SYSTEM) sys ->
  let r := compact_exchanges h rest (length sys) summary keep cz in
  folds h summary cz (fst r) (snd r).
Proof.
  intros Hh Hsys. cbv zeta. unfold compact_exchanges.
  set (start := match find_first is_user rest with Some k => S k | None => 0%nat end).
  assert (Hstart : start = 0%nat \/
    exists u, rest !! (start - 1)%nat = Some u /\ is_user u = true /\ (1 <= start)%nat).
  { subst start. destruct (find_first is_user rest) as [k|] eqn:Ef; [right|by left].
    destruct (find_first_spec _ _ _ Ef) as [(u & Hu & Hut) _].
    exists u. rewrite Nat.sub_succ, Nat.sub_0_r. split_and!; [done|done|lia]. }
  case_if; [by constructor|].
  destruct (nth_from_end has_calls _ _ _ _) as [[|c]|] eqn:En; [by constructor| |by constructor].
  apply nth_from_end_spec in En as [_ (m & Hm & Hp)];
    [|rewrite length_drop; lia|rewrite drop_ge; [done|rewrite length_drop; lia]].
  rewrite lookup_drop in Hm. unfold fold_range. cbn [fst snd].
  replace (length sys + start + S c - (length sys + start))%nat with (S c) by lia.
  rewrite <- Nat.add_assoc.
  apply (fold_at h sys rest start (S c) m summary cz Hh Hsys Hstart Hm); [lia|].
  unfold is_cut_point. by rewrite Hp, orb_true_r.
Qed.

Lemma compact_folds h summary keep cz :
  let r := clm_history_compact h summary keep cz in folds h summary cz (fst r) (snd r).
Proof.
  cbv zeta. unfold clm_history_compact. case_if; [by constructor|].
  destruct (split_system h) as [sys rest] eqn:Es.
  destruct (split_system_spec h sys rest Es) as (Hh & Hsys & _).
  destruct rest as [|m0 rest']; [by constructor|]. set (rest := m0 :: rest') in *.
  destruct (nth_from_end is_user rest (length rest) 0 keep) as [[|c]|] eqn:En;
    [by apply compact_exchanges_folds| |by apply compact_exchanges_folds].
  apply nth_from_end_spec in En as [_ (m & Hm & Hp)]; [|done|by rewrite drop_ge].
  unfold fold_range. cbn [fst snd].
  replace (length sys + S c - length sys)%nat with (S c) by lia.
  pose proof (fold_at h sys rest 0 (S c) m summary cz Hh Hsys) as H.
  rewrite Nat.add_0_r in H. apply H; [by left|done|lia|].
  unfold is_cut_point. by rewrite Hp.
Qed.

(** ** Properties *)

Lemma folds_exchanges h summary cz n h' : folds h summary cz n h' ->
  (orphan_free [] h -> orphan_free [] h') /\ (answered h -> answered h').
Proof.
  intros [n' Hn|pre mid post -> Hmid Hpre (m & post' & -> & Hm)]; [done|].
  pose proof (cut_point_fresh m post' Hm) as Hf.
  pose proof (user_plain (summary_message summary cz)) as (Hs1 & Hs2 & _).
  { unfold is_user. by rewrite summary_role. }
  assert (Hfs : fresh ([summary_message summary cz] ++ m :: post')) by done.
  split; intros H.
  - rewrite orphan_free_app by done. split.
    + by apply orphan_free_prefix in H.
    + cbn [app orphan_free]. rewrite Hs1, Hs2. rewrite app_assoc in H.
      by apply orphan_free_app in H as [_ H].
  - rewrite answered_app by done. rewrite app_assoc in H. apply answered_app in H as [H1 H2]; [|done].
    split; [|cbn [app answered]; rewrite Hs2; split; [done|done]].
    destruct Hpre as [Hpre|(pre' & u & -> & Hu)].
    + clear - Hpre. induction Hpre as [|x l Hx _ IH]; [done|]. cbn [answered].
      destruct (system_plain x Hx) as [_ ->]. done.
    + destruct (user_plain u Hu) as (Hu1 & Hu2 & _).
      rewrite <- app_assoc in H1. apply answered_app in H1 as [H1 _]; [|done].
      apply answered_app; [done|]. split; [done|]. cbn. by rewrite Hu2.
Qed.

(** C34. Neither compaction ever separates a tool result from its call.
    Whatever the budget or the number of turns to keep, the history is either
    unchanged or one contiguous piece of it, right after the system prologue
    or after the first user message, is replaced by the summary, the tail
    starting at a user turn or an exchange; so a history whose results all
    follow their calls, and whose calls all have results, stays one. *)
Theorem compaction_keeps_exchanges h summary keep_bytes turns keep_recent cz
  (Hok : Forall msg_ok h) (Ho : orphan_free [] h) (Ha : answered h) :
  let w := clm_history_compact_within h summary keep_bytes turns cz in
  let c := clm_history_compact h summary keep_recent cz in
  (folds h summary cz (fst w) (snd w) /\ orphan_free [] (snd w) /\ answered (snd w)) /\
  (folds h summary cz (fst c) (snd c) /\ orphan_free [] (snd c) /\ answered (snd c)).
Proof.
  cbv zeta. pose proof (compact_within_folds h summary keep_bytes turns cz Hok) as Hw.
  pose proof (compact_folds h summary keep_recent cz) as Hc. cbv zeta in Hw, Hc.
  destruct (folds_exchanges _ _ _ _ _ Hw). destruct (folds_exchanges _ _ _ _ _ Hc). auto 10.
Qed.

(** A small history to evaluate the theorems on: a prologue, a finished turn
    with a tool exchange, and a new user turn. *)
Definition demo_history : clm_history :=
  let msg r c := message_set_content (clm_message_create r) (Some c) None in
  let call := mk_message CLM_ROLE_ASSISTANT None 0 false None None
    [mk_tool_call (Some (bs "c1")) (Some (bs "grep")) (Some (bs "{}"))] [] in
  let res := message_set_content
    (set_ids (clm_message_create CLM_ROLE_TOOL) (Some (bs "c1")) (Some (bs "grep")))
    (Some (bs "src/main.c:1: int main")) None in
  [msg CLM_ROLE_SYSTEM (bs "be brief"); msg CLM_ROLE_USER (bs "find main"); call; res;
   msg CLM_ROLE_ASSISTANT (bs "it is in src/main.c"); msg CLM_ROLE_USER (bs "thanks")].

Lemma demo_ok : Forall msg_ok demo_history.
Proof.
  unfold demo_history. repeat first [apply List.Forall_nil | apply List.Forall_cons];
    solve [apply set_content_ok | vm_compute; done].
Qed.

Lemma compaction_keeps_exchanges_witness :
  (Forall msg_ok demo_history /\ orphan_free [] demo_history /\ answered demo_history) /\
  answered (snd (clm_history_compact demo_history (bs "found it") 1 None)).
Proof.
  assert (Ho : orphan_free [] demo_history) by (vm_compute; auto).
  assert (Ha : answered demo_history).
  { cbn -[bs demo_history]. unfold demo_history. repeat split; intros id Hid;
      try (vm_compute in Hid; destruct Hid as [<-|[]]; vm_compute; reflexivity);
      vm_compute in Hid; contradiction. }
  split; [split_and!; [exact demo_ok|exact Ho|exact Ha]|].
  exact (proj2 (proj2 (proj2 (compaction_keeps_exchanges demo_history (bs "found it") 0 1 1 None demo_ok Ho Ha)))).
Defined.

Lemma summary_bytes summary cz : valid_utf8 summary -> no_nul summary ->
  message_bytes (summary_message summary cz) <= zlen summary + 32.
Proof.
  intros Hv Hn. unfold summary_message, message_set_content. cbn [fmap option_fmap option_map].
  rewrite c_str_id by done.
  pose proof (set_content_len_bound (clm_message_create CLM_ROLE_USER) summary cz Hv) as Hb.
  destruct (set_content_len_fields (clm_message_create CLM_ROLE_USER) (Some summary) cz)
    as (_ & _ & _ & Htc & _).
  unfold message_bytes. rewrite Htc. cbn [fold_left tool_calls clm_message_create]. lia.
Qed.

(** A positive answer of [clm_history_compact_within] means the history
    shrank, for a summary that is UTF-8: the fold is refused unless the bytes
    it removes exceed the summary's. What is kept after the summary fits both
    the byte budget and half of the conversation, or is no more than the
    newest exchange or turn. So an agent that folds whenever it is over its
    budget cannot loop. *)
Theorem compact_within_shrinks h summary keep_bytes turns cz
  (Hok : Forall msg_ok h) (Hv : valid_utf8 summary) (Hn : no_nul summary) :
  let r := clm_history_compact_within h summary keep_bytes turns cz in
  let '(sys, rest) := split_system h in
  r = (0, h) \/
  (0 < fst r /\ total_bytes (snd r) < total_bytes h /\
   exists tail, snd r = sys ++ [summary_message summary cz] ++ tail /\
     (total_bytes tail <= Z.min keep_bytes (total_bytes rest / 2) \/ newest_at tail 0)).
Proof.
  cbv zeta. pose proof (compact_within_cases h summary keep_bytes turns cz Hok) as H.
  unfold within_case in H. destruct (split_system h) as [sys rest] eqn:Es.
  destruct (split_system_spec h sys rest Es) as (Hh & _ & _).
  destruct H as [->|(c & m & Hm & Hcp & Hc & Hrm & Htail & ->)]; [by left|right]. cbn [fst snd].
  split_and!; [lia| |].
  - pose proof (summary_bytes summary cz Hv Hn). rewrite Hh, !total_bytes_app.
    rewrite <- (take_drop c rest) at 2. rewrite total_bytes_app.
    rewrite total_bytes_cons. unfold total_bytes at 2. cbn [fold_left]. lia.
  - exists (drop c rest). split; [done|]. destruct Htail as [Ht|Ht]; [by left|right].
    intros j m' Hj Hm'. rewrite lookup_drop in Hm'. apply (Ht (c + j)%nat m'); [lia|done].
Qed.

Lemma compact_within_shrinks_witness :
  (Forall msg_ok demo_history /\ valid_utf8 (bs "ok") /\ no_nul (bs "ok")) /\
  fst (clm_history_compact_within demo_history (bs "ok") 40 1 None) = 4 /\
  let r := clm_history_compact_within demo_history (bs "ok") 40 1 None in
  let '(sys, rest) := split_system demo_history in
  r = (0, demo_history) \/
  (0 < fst r /\ total_bytes (snd r) < total_bytes demo_history /\
   exists tail, snd r = sys ++ [summary_message (bs "ok") None] ++ tail /\
     (total_bytes tail <= Z.min 40 (total_bytes rest / 2) \/ newest_at tail 0)).
Proof.
  assert (Hv : valid_utf8 (bs "ok")) by (apply (count_bad_zero _ 2); vm_compute; lia).
  assert (Hn : no_nul (bs "ok")) by (repeat constructor; discriminate).
  split; [split_and!; [exact demo_ok|exact Hv|exact Hn]|].
  split; [vm_compute; reflexivity|].
  exact (compact_within_shrinks demo_history (bs "ok") 40 1 None demo_ok Hv Hn).
Defined.

(** The answer is not to be trusted for a summary that is not UTF-8: the
    size is compared before the repair, which can triple it, so a fold that
    reports five messages folded leaves a larger history. *)
Theorem compact_within_can_grow :
  let h := clm_history_add_user demo_history (Some (bs "go on")) None in
  let summary := replicate 200 xff in
  let r := clm_history_compact_within h summary 40 1 None in
  fst r = 5 /\ total_bytes h < total_bytes (snd r).
Proof. vm_compute. done. Qed.

Lemma walk_back_turns rest keep a b i : forall bytes newest cut t u,
  walk_back rest i bytes keep newest cut t a = walk_back rest i bytes keep newest cut u b.
Proof.
  induction i as [|i IH]; intros bytes newest cut t u; cbn [walk_back]; [done|].
  destruct (rest !! i) as [m|]; [|done]. case_if; [apply IH|].
  destruct (keep <? bytes + message_bytes m) eqn:Ek; [done|].
  rewrite !andb_false_r. apply IH.
Qed.

(** [keep_min_turns] has no effect: the test that would use it asks for
    more bytes than the budget in a place only reached within it. *)
Theorem compact_within_ignores_turns h summary keep_bytes a b cz :
  clm_history_compact_within h summary keep_bytes a cz
  = clm_history_compact_within h summary keep_bytes b cz.
Proof.
  unfold clm_history_compact_within. destruct (split_system h) as [sys [|m rest]]; [done|].
  by rewrite (walk_back_turns _ _ a b _ _ _ _ 0 0).
Qed.

(** Every message of every history an embedder can build is well stored:
    through any sequence of additions, attachments, compactions, supersedings
    and repairs, with or without a compressor, [content_len] is the length of
    the stored bytes and fits its 16 bits, and content that is not compressed
    is UTF-8. Without a compressor UTF-8 text is stored as it is, up to a cut
    that loses at most three bytes of the 65535 to a character boundary. *)
Theorem history_content_ok cz ops m s k :
  Forall msg_ok (fold_left (hist_step cz) ops []) /\
  (valid_utf8 s -> exists n,
     content (message_set_content_len m (Some s) None) = Some (take n s) /\
     (if UINT16_MAX <? zlen s then 65532 <= Z.of_nat n <= 65535 else n = length s)) /\
  content (message_set_content_len m (Some k) None) = Some (clip (utf8_clean k)).
Proof.
  split_and!.
  - assert (H : Forall msg_ok []) by constructor. revert H. generalize (@nil clm_message).
    induction ops as [|op ops IH]; intros h Hh; [done|]. by apply IH, hist_step_ok.
  - intros Hv. rewrite set_content_plain by done.
    destruct (clip_ok s Hv) as (n & -> & _ & _ & Hn). by exists n.
  - done.
Qed.

Lemma history_content_ok_witness :
  Forall msg_ok (fold_left (hist_step None)
    [OpUser (Some (bs "hi")); OpAssistantCalls; OpToolCall (Some (bs "1")) None None; OpRepair] []).
Proof.
  exact (proj1 (history_content_ok None
    [OpUser (Some (bs "hi")); OpAssistantCalls; OpToolCall (Some (bs "1")) None None; OpRepair]
    (clm_message_create CLM_ROLE_USER) [] [])).
Defined.

(** ** Superseding *)

Lemma stubbed_fields stub m (m' := stubbed stub m) :
  role m' = role m /\ tool_call_id m' = tool_call_id m /\ tool_name m' = tool_name m /\
  tool_calls m' = tool_calls m /\ attachments m' = [].
Proof.
  subst m'. unfold stubbed, message_set_content.
  destruct (set_content_len_fields m (c_str <$> Some stub) None) as (? & ? & ? & ? & _). done.
Qed.

Lemma supersede_map name stub h : supersede name stub h =
  (count (needs_stub name stub) h,
   map (fun m => if needs_stub name stub m then stubbed stub m else m) h).
Proof.
  induction h as [|m h IH]; [done|]. cbn [supersede count map]. rewrite IH.
  destruct (needs_stub name stub m); f_equal; lia.
Qed.

Lemma stubbed_content stub m : valid_utf8 stub -> no_nul stub -> zlen stub <= UINT16_MAX ->
  content (stubbed stub m) = Some stub /\ content_compressed (stubbed stub m) = false.
Proof.
  intros Hv Hn Hl. unfold stubbed, message_set_content. cbn [fmap option_fmap option_map].
  rewrite c_str_id by done. unfold message_set_content_len.
  change (default stub (utf8_repair stub)) with (utf8_clean stub).
  rewrite utf8_clean_id, clip_short by done. done.
Qed.

Lemma needs_stub_stubbed name stub m : valid_utf8 stub -> no_nul stub -> zlen stub <= UINT16_MAX ->
  needs_stub name stub (stubbed stub m) = false.
Proof.
  intros Hv Hn Hl. destruct (stubbed_content stub m Hv Hn Hl) as [Ec Ep].
  unfold needs_stub. rewrite Ec, Ep, c_str_id, beq_refl by done. cbn.
  destruct (role _); try done. destruct (tool_name _); [|done]. by rewrite andb_false_r.
Qed.

Lemma has_calls_stubbed stub m : has_calls (stubbed stub m) = has_calls m.
Proof. destruct (stubbed_fields stub m) as (E1 & _ & _ & E2 & _). unfold has_calls. by rewrite E1, E2. Qed.

Lemma batch_head_ext h h' i : (forall j, (j < i)%nat -> has_calls <$> h !! j = has_calls <$> h' !! j) ->
  batch_head h i = batch_head h' i.
Proof.
  induction i as [|i IH]; intros H; cbn [batch_head]; [done|].
  pose proof (H i ltac:(lia)) as Hi.
  destruct (h !! i) as [m|], (h' !! i) as [m'|]; cbn in Hi; try done.
  injection Hi as Hi. rewrite Hi, IH by (intros; apply H; lia). done.
Qed.

(** A change of messages that keeps role, ids and calls keeps the exchanges. *)
Definition same_shape (m m' : clm_message) : Prop :=
  role m' = role m /\ tool_call_id m' = tool_call_id m /\ tool_calls m' = tool_calls m.

Lemma shape_facts m m' : same_shape m m' ->
  is_tool m' = is_tool m /\ call_ids m' = call_ids m /\ forall i, answers i m' = answers i m.
Proof.
  intros (E1 & E2 & E3). unfold is_tool, call_ids, has_calls, answers. by rewrite E1, E2, E3.
Qed.

Lemma shape_present h h' id : Forall2 same_shape h h' ->
  tool_result_present h' id = tool_result_present h id.
Proof.
  intros H. destruct id as [i|]; [|by destruct h, h'].
  induction H as [|m m' h h' Hm _ IH]; [done|]. destruct (shape_facts _ _ Hm) as (E1 & _ & E2).
  cbn [tool_result_present]. by rewrite E1, E2, IH.
Qed.

Lemma shape_exchanges h h' : Forall2 same_shape h h' ->
  (forall ids, orphan_free ids h <-> orphan_free ids h') /\ (answered h <-> answered h').
Proof.
  induction 1 as [|m m' h h' Hm Hh [IH1 IH2]]; [done|].
  destruct (shape_facts _ _ Hm) as (E1 & E2 & _). destruct Hm as (_ & E3 & _).
  split; [intros ids|]; cbn [orphan_free answered].
  - rewrite E1, E2, E3. destruct (is_tool m); by rewrite IH1.
  - rewrite E2, IH2.
    assert (Hp : forall id, tool_result_present h' id = tool_result_present h id)
      by (intros; by apply shape_present).
    by setoid_rewrite Hp.
Qed.

Lemma stub_shape name stub m :
  same_shape m (if needs_stub name stub m then stubbed stub m else m).
Proof.
  destruct (needs_stub name stub m); [|done].
  destruct (stubbed_fields stub m) as (? & ? & _ & ? & _). done.
Qed.

Lemma count_zero p h : (forall m, In m h -> p m = false) -> count p h = 0.
Proof.
  induction h as [|m h IH]; intros H; [done|]. cbn [count].
  rewrite (H m) by (by left). rewrite IH; [done|]. intros; apply H. by right.
Qed.

(** [clm_history_supersede_tool] touches exactly what it should: before
    the message that opened the newest batch, each result of the named tool
    that is not the stub already becomes the stub, and loses its images;
    every other message keeps its place and its bytes, so calls stay paired
    with results. It answers how many it changed, and doing it again changes
    nothing, which keeps the cached prefix stable. *)
Theorem supersede_exact h name stub (Hv : valid_utf8 stub) (Hn : no_nul stub)
  (Hl : zlen stub <= UINT16_MAX) :
  let '(n, h') := clm_history_supersede_tool h name stub in
  let stop := default (length h) (batch_head h (length h)) in
  let update m := if needs_stub name stub m then stubbed stub m else m in
  h' = map update (take stop h) ++ drop stop h /\
  n = count (needs_stub name stub) (take stop h) /\
  (forall m, In m (take stop h') -> role m = CLM_ROLE_TOOL -> tool_name m = Some name ->
     content_compressed m = false /\ exists c, content m = Some c /\ c_str c = stub) /\
  (orphan_free [] h <-> orphan_free [] h') /\ (answered h <-> answered h') /\
  clm_history_supersede_tool h' name stub = (0, h').
Proof.
  unfold clm_history_supersede_tool. set (stop := default (length h) (batch_head h (length h))).
  rewrite supersede_map. set (upd := fun m => if needs_stub name stub m then stubbed stub m else m).
  set (h' := map upd (take stop h) ++ drop stop h).
  assert (Hshape : Forall2 same_shape h h').
  { subst h'. rewrite <- (take_drop stop h) at 1. apply Forall2_app.
    - induction (take stop h); constructor; [apply stub_shape|done].
    - induction (drop stop h); by constructor. }
  assert (Hlen : length h' = length h) by (symmetry; by apply Forall2_length in Hshape).
  assert (Hstop : default (length h') (batch_head h' (length h')) = stop).
  { subst stop. rewrite Hlen. f_equal. symmetry. apply batch_head_ext. intros j _.
    destruct (h !! j) as [m|] eqn:Em.
    - destruct (Forall2_lookup_l _ _ _ _ _ Hshape Em) as (m' & -> & Hm). cbn. f_equal.
      destruct Hm as (E1 & _ & E2). unfold has_calls. by rewrite E1, E2.
    - assert (h' !! j = None) as -> by (apply lookup_ge_None; apply lookup_ge_None in Em; lia). done. }
  assert (Htake : take stop h' = map upd (take stop h)).
  { subst h'. destruct (Nat.le_gt_cases stop (length h)).
    - apply take_app_length'. rewrite length_map, length_take. lia.
    - rewrite (drop_ge h), app_nil_r by lia. apply take_ge. rewrite length_map, length_take. lia. }
  assert (Hdrop : drop stop h' = drop stop h).
  { apply (app_inv_head (map upd (take stop h))). rewrite <- Htake at 1. by rewrite take_drop. }
  assert (Hnone : forall m, In m (map upd (take stop h)) -> needs_stub name stub m = false).
  { intros m Hm. apply in_map_iff in Hm as (x & <- & _). unfold upd.
    destruct (needs_stub name stub x) eqn:E; [by apply needs_stub_stubbed|done]. }
  destruct (shape_exchanges h h' Hshape) as [Hof Han].
  split_and!; [done|done| |apply Hof|apply Han|].
  - rewrite Htake. intros m Hm Hr Hname. specialize (Hnone m Hm). revert Hnone.
    unfold needs_stub. rewrite Hr, Hname, beq_refl. cbn [andb].
    rewrite negb_false_iff, andb_true_iff, negb_true_iff.
    destruct (content m) as [c|]; [|intros [_ ?]; done]. intros [? Hb]. split; [done|].
    exists c. split; [done|by apply beq_eq].
  - rewrite Hstop, supersede_map, Htake, Hdrop. f_equal; [by apply count_zero|].
    unfold h'. f_equal. rewrite map_map. apply map_ext_in. intros x Hx.
    pose proof (Hnone (upd x) (in_map upd _ _ Hx)) as E. unfold upd in E at 1 |- * at 1.
    by rewrite E.
Qed.

Lemma supersede_exact_witness :
  (valid_utf8 (bs "[old]") /\ no_nul (bs "[old]") /\ zlen (bs "[old]") <= UINT16_MAX) /\
  let h := clm_history_add_assistant_tool_calls demo_history in
  let '(n, h') := clm_history_supersede_tool demo_history (bs "grep") (bs "[old]") in
  clm_history_supersede_tool h' (bs "grep") (bs "[old]") = (0, h').
Proof.
  assert (Hv : valid_utf8 (bs "[old]")) by (apply (count_bad_zero _ 5); vm_compute; lia).
  assert (Hn : no_nul (bs "[old]")) by (repeat constructor; discriminate).
  assert (Hl : zlen (bs "[old]") <= UINT16_MAX) by (vm_compute; discriminate).
  split; [split_and!; [exact Hv|exact Hn|exact Hl]|]. cbv zeta.
  pose proof (supersede_exact demo_history (bs "grep") (bs "[old]") Hv Hn Hl) as H.
  destruct (clm_history_supersede_tool demo_history (bs "grep") (bs "[old]")) as [n h'].
  exact (proj2 (proj2 (proj2 (proj2 (proj2 H))))).
Defined.

(** ** Repair *)

Definition answers_id (id : option (list byte)) (m : clm_message) : bool :=
  match id with Some i => answers i m | None => false end.

Definition all_tools (h : clm_history) : Prop := Forall (fun m => is_tool m = true) h.

Lemma answers_tool i m : answers i m = true -> is_tool m = true.
Proof. unfold answers, is_tool. by destruct (role m). Qed.

Lemma present_run run after id : all_tools run -> fresh after ->
  tool_result_present (run ++ after) id = existsb (answers_id id) run.
Proof.
  intros Hr Ha. rewrite result_present_app by done.
  destruct id as [i|]; [|assert (E : existsb (answers_id None) run = false) by (clear; by induction run);
    rewrite E; by destruct run].
  induction Hr as [|m run Hm _ IH]; [done|]. cbn [tool_result_present existsb answers_id].
  by rewrite Hm, IH.
Qed.

Lemma split_run_spec h : let '(run, after) := split_run h in
  h = run ++ after /\ all_tools run /\ fresh after.
Proof.
  induction h as [|m h IH]; cbn [split_run]; [split_and!; [done|constructor|done]|].
  destruct (is_tool m) eqn:E.
  - destruct (split_run h) as [r a]. destruct IH as (-> & Hr & Ha).
    split_and!; [done|by constructor|done].
  - split_and!; [done|constructor|done].
Qed.

Lemma later_spec h id late rest : tool_result_later h id = Some (late, rest) ->
  answers_id id late = true /\ Permutation h (late :: rest) /\ (fresh h -> fresh rest) /\
  (length rest < length h)%nat.
Proof.
  destruct id as [i|]; [|by destruct h]. revert late rest.
  induction h as [|m h IH]; intros late rest; [done|]. cbn [tool_result_later].
  destruct (answers i m) eqn:Ea.
  - intros [= <- <-]. split_and!; [done|done| |cbn; lia].
    intros Hf. apply answers_tool in Ea. cbn in Hf. congruence.
  - destruct (tool_result_later h (Some i)) as [[l r]|]; [|done]. cbn. intros [= <- <-].
    destruct (IH l r eq_refl) as (H1 & H2 & H3 & H4). split_and!; [done| |done|cbn; lia].
    rewrite H2. apply perm_swap.
Qed.

Lemma synth_fields tc : is_tool (synth_result tc) = true /\
  forall id, tc_id tc = Some id -> answers_id (Some id) (synth_result tc) = true.
Proof.
  unfold synth_result, message_set_content.
  destruct (set_content_len_fields (set_ids (clm_message_create CLM_ROLE_TOOL) (tc_id tc) (tc_name tc))
    (c_str <$> Some missing_text) None) as (E1 & E2 & _).
  unfold is_tool, answers_id, answers. rewrite E1, E2. cbn. split; [done|].
  intros id ->. apply beq_refl.
Qed.

(** One message's calls: all are answered in the run, nothing is lost. *)
Lemma repair_calls_spec tcs : forall hidden run after k,
  Forall (fun tc => tc_id tc <> None) tcs -> all_tools run -> fresh after ->
  let '(run', after', n) := repair_calls tcs hidden run after k in
  all_tools run' /\ fresh after' /\ (length after' <= length after)%nat /\
  (forall id, existsb (answers_id id) run = true -> existsb (answers_id id) run' = true) /\
  (forall tc, In tc tcs -> existsb (answers_id (tc_id tc)) run' = true) /\
  exists synths, Permutation (run' ++ after') (run ++ after ++ map synth_result synths) /\
    (forall tc, In tc synths -> In tc tcs).
Proof.
  induction tcs as [|tc tcs IH]; intros hidden run after k Hids Hr Ha; cbn [repair_calls].
  { split_and!; [done|done|lia|done|done|]. exists []. by rewrite app_nil_r. }
  inversion Hids as [|? ? Hid Hids']; subst.
  assert (Hpres : tool_result_present (if hidden then after else run ++ after) (tc_id tc)
    = if hidden then false else existsb (answers_id (tc_id tc)) run).
  { destruct hidden; [|by apply present_run]. apply (present_run [] after); [constructor|done]. }
  assert (Hstep : forall m after', existsb (answers_id (tc_id tc)) [m] = true ->
    is_tool m = true -> fresh after' -> (length after' <= length after)%nat ->
    (exists s, Permutation ((run ++ [m]) ++ after') (run ++ after ++ map synth_result s) /\
       forall t, In t s -> t = tc) ->
    let '(run', after'', n) := repair_calls tcs hidden (run ++ [m]) after' (k + 1) in
    all_tools run' /\ fresh after'' /\ (length after'' <= length after)%nat /\
    (forall id, existsb (answers_id id) run = true -> existsb (answers_id id) run' = true) /\
    (forall t, In t (tc :: tcs) -> existsb (answers_id (tc_id t)) run' = true) /\
    exists synths, Permutation (run' ++ after'') (run ++ after ++ map synth_result synths) /\
      (forall t, In t synths -> In t (tc :: tcs))).
  { intros m after' Hm Ht Hf Hl (s & Hp & Hs).
    specialize (IH hidden (run ++ [m]) after' (k + 1) Hids').
    destruct (repair_calls tcs hidden (run ++ [m]) after' (k + 1)) as [[run' after''] n].
    destruct IH as (I1 & I2 & I3 & I4 & I5 & synths & I6 & I7); [|done|].
    { apply Forall_app. split; [done|]. by constructor. }
    split_and!; [done|done|lia| | |].
    - intros id Hi. apply I4. by rewrite existsb_app, Hi.
    - intros t [<-|Hin]; [|by apply I5]. apply I4. by rewrite existsb_app, Hm, orb_true_r.
    - exists (s ++ synths). split.
      + rewrite I6, app_assoc, Hp, map_app, <- !app_assoc. done.
      + intros t Hin. apply in_app_iff in Hin as [Hin|Hin]; [left; symmetry; by apply Hs|right; by apply I7]. }
  rewrite Hpres. destruct (if hidden then false else existsb (answers_id (tc_id tc)) run) eqn:Ep.
  - specialize (IH hidden run after k Hids' Hr Ha).
    destruct (repair_calls tcs hidden run after k) as [[run' after'] n].
    destruct IH as (I1 & I2 & I3 & I4 & I5 & synths & I6 & I7).
    split_and!; [done|done|done|done| |].
    + intros t [<-|Hin]; [|by apply I5]. apply I4. by destruct hidden.
    + exists synths. split; [done|]. intros t Hin. right. by apply I7.
  - destruct (tool_result_later after (tc_id tc)) as [[late after']|] eqn:El.
    + destruct (later_spec _ _ _ _ El) as (L1 & L2 & L3 & L4). apply Hstep.
      * cbn. by rewrite L1.
      * destruct (tc_id tc) as [i|]; [|done]. by apply answers_tool in L1.
      * by apply L3.
      * lia.
      * exists []. split; [|done]. cbn. rewrite app_nil_r, <- app_assoc. cbn. by rewrite L2.
    + destruct (synth_fields tc) as [S1 S2]. apply Hstep; [|done|done|lia|].
      * cbn [existsb]. destruct (tc_id tc) as [i|]; [|done]. by rewrite (S2 i eq_refl).
      * exists [tc]. split; [|by intros t [->|[]]]. cbn. rewrite <- app_assoc. cbn.
        by rewrite Permutation_middle, app_nil_r || (rewrite (Permutation_app_comm after); done).
Qed.

(** Every call names its id, as every provider's do. *)
Definition calls_have_ids (h : clm_history) : Prop :=
  Forall (fun m => Forall (fun tc => tc_id tc <> None) (tool_calls m)) h.

Lemma all_tools_answered run : all_tools run -> answered run.
Proof.
  induction 1 as [|m run Hm _ IH]; [done|]. cbn [answered]. split; [|done].
  intros id. unfold call_ids, has_calls. unfold is_tool in Hm. by destruct (role m).
Qed.

Lemma has_calls_not_tool m : has_calls m = true -> is_tool m = false.
Proof. unfold has_calls, is_tool. by destruct (role m). Qed.

Lemma calls_have_ids_perm h h' : Permutation h h' -> calls_have_ids h -> calls_have_ids h'.
Proof. unfold calls_have_ids. by intros ->. Qed.

Lemma repair_from_spec fuel : forall h, (length h <= fuel)%nat -> calls_have_ids h ->
  let '(h', n) := repair_from fuel h in
  answered h' /\ (fresh h -> fresh h') /\
  exists synths, Permutation h' (h ++ map synth_result synths) /\
    forall tc, In tc synths -> exists m, In m h /\ In tc (tool_calls m).
Proof.
  induction fuel as [|f IH]; intros h Hl Hids.
  { destruct h; [|cbn in Hl; lia]. cbn. split_and!; [done|done|]. by exists []. }
  destruct h as [|m h]; cbn [repair_from]; [split_and!; [done|done|by exists []]|].
  inversion Hids as [|? ? Hm Hids']; subst. cbn [length] in Hl.
  destruct (has_calls m) eqn:Ec.
  - pose proof (split_run_spec h) as Hs. destruct (split_run h) as [run after].
    destruct Hs as (-> & Hr & Ha).
    pose proof (repair_calls_spec (tool_calls m) (match run with [] => true | _ => false end)
      run after 0 Hm Hr Ha) as Hc.
    destruct (repair_calls _ _ _ _ _) as [[run' after'] n].
    destruct Hc as (C1 & C2 & C3 & _ & C5 & s1 & C6 & C7).
    rewrite length_app in Hl.
    assert (Hids2 : calls_have_ids (run' ++ after')).
    { apply (calls_have_ids_perm ((run ++ after) ++ map synth_result s1)); [by rewrite C6, app_assoc|].
      apply Forall_app. split; [done|].
      apply List.Forall_forall. intros x Hx. apply in_map_iff in Hx as (tc & <- & _).
      unfold synth_result, message_set_content.
      destruct (set_content_len_fields (set_ids (clm_message_create CLM_ROLE_TOOL) (tc_id tc) (tc_name tc))
        (c_str <$> Some missing_text) None) as (_ & _ & _ & -> & _). constructor. }
    specialize (IH after' ltac:(lia)). destruct (repair_from f after') as [rest n'].
    destruct IH as (I1 & I2 & s2 & I3 & I4); [by apply Forall_app in Hids2 as [_ ?]|].
    split_and!.
    + cbn [answered]. split; [|apply answered_app; auto using all_tools_answered].
      intros id Hid. unfold call_ids in Hid. rewrite Ec in Hid.
      apply in_map_iff in Hid as (tc & <- & Htc). rewrite present_run by auto. by apply C5.
    + intros _. cbn. by apply has_calls_not_tool.
    + exists (s1 ++ s2). split.
      * cbn [app]. constructor. by rewrite I3, app_assoc, C6, map_app, <- !app_assoc.
      * intros tc Hin. apply in_app_iff in Hin as [Hin|Hin].
        -- exists m. split; [by left|by apply C7].
        -- destruct (I4 tc Hin) as (x & Hx & Hxt).
           assert (In x ((run ++ after) ++ map synth_result s1)) as Hin2.
           { apply (Permutation_in x (l := run' ++ after')); [by rewrite C6, app_assoc|].
             apply in_app_iff. by right. }
           apply in_app_iff in Hin2 as [Hin2|Hin2]; [exists x; split; [by right|done]|].
           apply in_map_iff in Hin2 as (t & <- & _). exfalso.
           unfold synth_result, message_set_content in Hxt.
           destruct (set_content_len_fields (set_ids (clm_message_create CLM_ROLE_TOOL) (tc_id t) (tc_name t))
             (c_str <$> Some missing_text) None) as (_ & _ & _ & E & _).
           rewrite E in Hxt. done.
  - specialize (IH h ltac:(lia) Hids'). destruct (repair_from f h) as [rest n'].
    destruct IH as (I1 & I2 & s & I3 & I4). split_and!.
    + cbn [answered]. split; [|done]. unfold call_ids. rewrite Ec. done.
    + done.
    + exists s. split; [by rewrite I3|]. intros tc Hin. destruct (I4 tc Hin) as (x & ? & ?).
      exists x. split; [by right|done].
Qed.

(** A history with every call answered is left alone. *)
Lemma repair_calls_id tcs : forall (hidden : bool) run after k,
  (forall tc, In tc tcs -> tool_result_present (if hidden then after else run ++ after) (tc_id tc) = true) ->
  repair_calls tcs hidden run after k = (run, after, k).
Proof.
  induction tcs as [|tc tcs IH]; intros hidden run after k H; cbn [repair_calls]; [done|].
  rewrite (H tc) by (by left). apply IH. intros t Ht. apply H. by right.
Qed.

Lemma repair_from_id fuel : forall h, answered h -> repair_from fuel h = (h, 0).
Proof.
  induction fuel as [|f IH]; intros [|m h]; cbn [repair_from answered]; try done.
  intros [Hm Hh]. destruct (has_calls m) eqn:Ec; [|by rewrite IH].
  pose proof (split_run_spec h) as Hs. destruct (split_run h) as [run after].
  destruct Hs as (-> & Hr & Ha).
  assert (Hall : forall tc, In tc (tool_calls m) ->
    tool_result_present (run ++ after) (tc_id tc) = true).
  { intros tc Htc. apply Hm. unfold call_ids. rewrite Ec. by apply in_map. }
  rewrite repair_calls_id.
  - rewrite IH; [done|]. by apply answered_app in Hh as [_ ?].
  - intros tc Htc. specialize (Hall tc Htc). by destruct run.
Qed.

(** C35. After [clm_history_repair_dangling_tool_calls] every provider's rule
    holds: each call of the history has its result in the run of tool
    messages right after it, given that each call has an id. Nothing is
    lost: the repaired history is the old one with stubs added for calls of
    the history, possibly with results moved. And a history in which every
    call is answered is left as it is, so repairing twice is repairing
    once. *)
Theorem repair_answers_every_call h (Hids : calls_have_ids h) :
  let '(n, h') := clm_history_repair_dangling_tool_calls h in
  answered h' /\ clm_history_repair_dangling_tool_calls h' = (0, h') /\
  (answered h -> n = 0 /\ h' = h) /\
  exists synths, Permutation h' (h ++ map synth_result synths) /\
    forall tc, In tc synths -> exists m, In m h /\ In tc (tool_calls m).
Proof.
  unfold clm_history_repair_dangling_tool_calls.
  pose proof (repair_from_spec (length h) h ltac:(done) Hids) as H.
  pose proof (repair_from_id (length h) h) as Hid.
  destruct (repair_from (length h) h) as [h' n]. destruct H as (H1 & _ & H3).
  split_and!; [done| | |done].
  - by rewrite repair_from_id.
  - intros Ha. specialize (Hid Ha). by injection Hid as -> ->.
Qed.

(** A call the process died on, in the turn before a finished exchange that
    reuses its id. *)
Definition reused_id_history : clm_history :=
  let msg r c := message_set_content (clm_message_create r) (Some c) None in
  let call := mk_message CLM_ROLE_ASSISTANT None 0 false None None
    [mk_tool_call (Some (bs "call_0")) (Some (bs "grep")) (Some (bs "{}"))] [] in
  [call; msg CLM_ROLE_USER (bs "again"); call;
   message_set_content (set_ids (clm_message_create CLM_ROLE_TOOL) (Some (bs "call_0")) (Some (bs "grep")))
     (Some (bs "second answer")) None].

Lemma repair_answers_every_call_witness :
  calls_have_ids reused_id_history /\
  answered (snd (clm_history_repair_dangling_tool_calls reused_id_history)).
Proof.
  assert (H : calls_have_ids reused_id_history).
  { unfold calls_have_ids, reused_id_history.
    repeat first [apply List.Forall_nil | apply List.Forall_cons]; discriminate. }
  split; [exact H|]. pose proof (repair_answers_every_call reused_id_history H) as Hr.
  destruct (clm_history_repair_dangling_tool_calls reused_id_history) as [n h'].
  exact (proj1 Hr).
Defined.

(** The search for a late result does not stop at another call with the
    same id. When a model numbers its calls from zero in every turn, the
    repair of an unfinished turn takes the result of the next one: the old
    call is answered with the new output, and the call that did run is told
    its result is missing. *)
Theorem repair_takes_reused_id :
  content <$> snd (clm_history_repair_dangling_tool_calls reused_id_history) !! 1%nat
    = Some (Some (bs "second answer")) /\
  content <$> snd (clm_history_repair_dangling_tool_calls reused_id_history) !! 4%nat
    = Some (Some missing_text).
Proof. split; vm_compute; reflexivity. Qed.
