(* ===== verification/HistoryJson.v ===== *)
(** The two JSON forms of a message in [src/libclm/history.c]: the wire form
    of a request, and the lossless form of the session log with its parser.
    The JSON library is the [CJson] interface. [None] is the NULL of a failed
    serialization: content that is compressed and cannot be read back. *)

From S2P Require Import Prelude Utf8 Image CJson History HistoryFacts.

Section Json.
Context `{CJ : CJson}.

(** ** Attachments and content *)

Definition data_url (a : clm_attachment) : list byte :=
  bs "data:" ++ media_type a ++ bs ";base64," ++ clm_base64_encode (a_data a).

Definition attachment_part (a : clm_attachment) : cJSON :=
  let iu := cJSON_AddStringToObject cJSON_CreateObject (bs "url") (data_url a) in
  let part := cJSON_AddStringToObject cJSON_CreateObject (bs "type") (bs "image_url") in
  cJSON_AddItemToObject part (bs "image_url") iu.

Definition text_part (text : list byte) : cJSON :=
  cJSON_AddStringToObject
    (cJSON_AddStringToObject cJSON_CreateObject (bs "type") (bs "text")) (bs "text") text.

Definition content_to_parts (msg : cJSON) (m : clm_message) : cJSON :=
  let text := get_string (Some msg) (bs "content") in
  let parts := match text with
               | Some (c :: t) => cJSON_AddItemToArray cJSON_CreateArray (text_part (c :: t))
               | _ => cJSON_CreateArray
               end in
  let parts := fold_left (fun p a => cJSON_AddItemToArray p (attachment_part a))
                 (attachments m) parts in
  cJSON_AddItemToObject (cJSON_DeleteItemFromObjectCaseSensitive msg (bs "content"))
    (bs "content") parts.

(** The plain text of a message's content; the outer [None] is a failure. *)
Definition plain_content (m : clm_message) (cz : option clm_compressor)
  : option (option (list byte)) :=
  match content m with
  | None => Some None
  | Some c =>
      if content_compressed m then
        z ← cz; r ← cz_read z; p ← r c; Some (Some p)
      else Some (Some c)
  end.

(** ** The wire form *)

Definition role_to_str (r : clm_role) : list byte :=
  match r with
  | CLM_ROLE_SYSTEM => bs "system"
  | CLM_ROLE_USER => bs "user"
  | CLM_ROLE_ASSISTANT => bs "assistant"
  | CLM_ROLE_TOOL => bs "tool"
  end.

Definition clm_tool_call_to_json (tc : clm_tool_call) : cJSON :=
  let tool_call := add_opt cJSON_CreateObject (bs "id") (tc_id tc) in
  let tool_call := cJSON_AddStringToObject tool_call (bs "type") (bs "function") in
  let func := add_opt cJSON_CreateObject (bs "name") (tc_name tc) in
  let func := add_opt func (bs "arguments") (tc_args tc) in
  cJSON_AddItemToObject tool_call (bs "function") func.

Definition clm_message_to_json (m : clm_message) (cz : option clm_compressor) : option cJSON :=
  let msg := cJSON_AddStringToObject cJSON_CreateObject (bs "role") (role_to_str (role m)) in
  plain ← plain_content m cz;
  let msg := match plain, role m with
             | Some p, _ => cJSON_AddStringToObject msg (bs "content") p
             | None, CLM_ROLE_ASSISTANT => cJSON_AddItemToObject msg (bs "content") cJSON_CreateNull
             | None, _ => msg
             end in
  let msg := match attachments m with [] => msg | _ => content_to_parts msg m end in
  let msg := match role m with
             | CLM_ROLE_TOOL => add_opt msg (bs "tool_call_id") (tool_call_id m)
             | _ => msg
             end in
  Some (match role m, tool_calls m with
        | CLM_ROLE_ASSISTANT, _ :: _ =>
            cJSON_AddItemToObject msg (bs "tool_calls")
              (fold_left (fun a tc => cJSON_AddItemToArray a (clm_tool_call_to_json tc))
                 (tool_calls m) cJSON_CreateArray)
        | _, _ => msg
        end).

Fixpoint history_array (h : clm_history) (cz : option clm_compressor) (arr : cJSON)
  : option cJSON :=
  match h with
  | [] => Some arr
  | m :: h' =>
      j ← clm_message_to_json m cz; history_array h' cz (cJSON_AddItemToArray arr j)
  end.

Definition clm_history_to_json (h : clm_history) (cz : option clm_compressor) : option cJSON :=
  history_array h cz cJSON_CreateArray.

(** ** The lossless form *)

Definition flat_call (tc : clm_tool_call) : cJSON :=
  add_opt (add_opt (add_opt cJSON_CreateObject (bs "id") (tc_id tc)) (bs "name") (tc_name tc))
    (bs "args") (tc_args tc).

Definition clm_message_to_json_full (m : clm_message) (cz : option clm_compressor)
  : option cJSON :=
  let msg := cJSON_AddStringToObject cJSON_CreateObject (bs "role") (role_to_str (role m)) in
  plain ← plain_content m cz;
  let msg := add_opt msg (bs "content") plain in
  let msg := add_opt msg (bs "tool_call_id") (tool_call_id m) in
  let msg := add_opt msg (bs "tool_name") (tool_name m) in
  Some (match tool_calls m with
        | [] => msg
        | tcs => cJSON_AddItemToObject msg (bs "tool_calls")
                   (fold_left (fun a tc => cJSON_AddItemToArray a (flat_call tc)) tcs
                      cJSON_CreateArray)
        end).

Definition role_from_str (s : option (list byte)) : option clm_role :=
  match s with
  | None => None
  | Some s =>
      if beq s (bs "system") then Some CLM_ROLE_SYSTEM
      else if beq s (bs "user") then Some CLM_ROLE_USER
      else if beq s (bs "assistant") then Some CLM_ROLE_ASSISTANT
      else if beq s (bs "tool") then Some CLM_ROLE_TOOL
      else None
  end.

(** The loop over [tool_calls]; [None] is [fail_inval]. *)
Fixpoint add_calls (m : clm_message) (l : list cJSON) : option clm_message :=
  match l with
  | [] => Some m
  | jtc :: l' =>
      if cJSON_IsObject jtc then
        m' ← clm_message_add_tool_call m (get_string (Some jtc) (bs "id"))
               (get_string (Some jtc) (bs "name")) (get_string (Some jtc) (bs "args"));
        add_calls m' l'
      else None
  end.

Definition clm_message_from_json (h : clm_history) (obj : cJSON) (cz : option clm_compressor)
  : Z * clm_history :=
  if negb (cJSON_IsObject obj) then (- EINVAL, h)
  else
    match role_from_str (get_string (Some obj) (bs "role")) with
    | None => (- EINVAL, h)
    | Some r =>
        let jcontent := cJSON_GetObjectItemCaseSensitive obj (bs "content") in
        if match jcontent with Some j => negb (cJSON_IsString j) | None => false end
        then (- EINVAL, h)
        else
          let c := j ← jcontent; cJSON_GetStringValue j in
          match r with
          | CLM_ROLE_SYSTEM => (0, clm_history_add_system h c cz)
          | CLM_ROLE_USER => (0, clm_history_add_user h c cz)
          | CLM_ROLE_TOOL =>
              (0, clm_history_add_tool_result h (get_string (Some obj) (bs "tool_call_id"))
                    (get_string (Some obj) (bs "tool_name")) c cz)
          | CLM_ROLE_ASSISTANT =>
              match cJSON_GetObjectItemCaseSensitive obj (bs "tool_calls") with
              | None => (0, clm_history_add_assistant_text h c cz)
              | Some jtcs =>
                  if negb (cJSON_IsArray jtcs) then (- EINVAL, h)
                  else
                    let m := clm_message_create CLM_ROLE_ASSISTANT in
                    let m := match c with
                             | Some _ => message_set_content m c cz
                             | None => m
                             end in
                    match add_calls m (cJSON_elements jtcs) with
                    | Some m => (0, h ++ [m])
                    | None => (- EINVAL, h)
                    end
              end
          end
    end.

(** ** Lookups in what was built *)

Context `{Laws : !CJsonLaws}.

(** ** The session log round trip *)

Definition str_ok (o : option (list byte)) : Prop :=
  match o with Some s => no_nul s | None => True end.

Definition call_ok (tc : clm_tool_call) : Prop :=
  str_ok (tc_id tc) /\ str_ok (tc_name tc) /\ str_ok (tc_args tc).

(** The embedder's [read] is the inverse of its [write]. *)
Definition cz_inverse (cz : option clm_compressor) : Prop :=
  match cz with
  | Some c => forall w, cz_write c = Some w ->
      exists r, cz_read c = Some r /\ forall s q, w s = Some q -> r q = Some s
  | None => True
  end.

(** A message as the adders make it, under the compressor [cz]: its content
    is the stored form of a text without NULs, and only the fields its role
    uses are set. *)
Definition persistable (cz : option clm_compressor) (m : clm_message) : Prop :=
  (m = message_set_content m None cz \/
   exists p, no_nul p /\ valid_utf8 p /\ zlen p <= UINT16_MAX /\
     m = message_set_content m (Some p) cz) /\
  str_ok (tool_call_id m) /\ str_ok (tool_name m) /\ Forall call_ok (tool_calls m) /\
  match role m with
  | CLM_ROLE_SYSTEM | CLM_ROLE_USER =>
      tool_call_id m = None /\ tool_name m = None /\ tool_calls m = []
  | CLM_ROLE_ASSISTANT => tool_call_id m = None /\ tool_name m = None
  | CLM_ROLE_TOOL => tool_calls m = []
  end.

(** The text a persistable message holds. *)
Lemma persistable_plain cz m : cz_inverse cz -> persistable cz m ->
  exists p, plain_content m cz = Some p /\ str_ok p /\ m = message_set_content m p cz.
Proof.
  intros Hcz [[Hm|(p & Hn & Hv & Hl & Hm)] _].
  - exists None. split_and!; [|done|done]. rewrite Hm. done.
  - exists (Some p). split_and!; [|done|done]. rewrite Hm.
    unfold message_set_content. cbn [fmap option_fmap option_map]. rewrite c_str_id by done.
    unfold message_set_content_len. change (default p (utf8_repair p)) with (utf8_clean p).
    rewrite utf8_clean_id, clip_short by done.
    destruct (packed cz p) as [q|] eqn:E; [|done]. unfold plain_content. cbn.
    unfold packed in E. destruct cz as [c|]; [|done]. cbn in E.
    destruct (cz_write c) as [w|] eqn:Ew; [|done]. cbn in E. case_if_in E; [|done].
    destruct (w p) as [q'|] eqn:Eq; [|done]. cbn in E. case_if_in E; [|done]. injection E as <-.
    destruct (Hcz w Ew) as (r & Er & Hr). cbn. rewrite Er. cbn. by rewrite (Hr p q' Eq).
Qed.

(** The content fields depend on the text only. *)
Lemma set_content_fields m m' c cz :
  message_set_content m c cz =
  set_stored m (content (message_set_content m' c cz)) (content_len (message_set_content m' c cz))
    (content_compressed (message_set_content m' c cz)).
Proof.
  unfold message_set_content, message_set_content_len.
  destruct (c_str <$> c); [|done]. by destruct (packed _ _).
Qed.

Lemma restored m m0 p cz : m = message_set_content m p cz ->
  role m0 = role m -> tool_call_id m0 = tool_call_id m -> tool_name m0 = tool_name m ->
  tool_calls m0 = tool_calls m -> attachments m0 = [] ->
  message_set_content m0 p cz = drop_attachments m.
Proof.
  intros Hm E1 E2 E3 E4 E5. rewrite (set_content_fields m0 m p cz), <- Hm.
  unfold set_stored, drop_attachments. by rewrite E1, E2, E3, E4, E5.
Qed.

Lemma role_str_inv r : role_from_str (Some (c_str (role_to_str r))) = Some r.
Proof. by destruct r; vm_compute. Qed.

Lemma c_str_ok o : str_ok o -> c_str <$> o = o.
Proof. destruct o as [s|]; [|done]. intros H. cbn. by rewrite c_str_id. Qed.

Lemma get_string_flat tc : call_ok tc ->
  get_string (Some (flat_call tc)) (bs "id") = tc_id tc /\
  get_string (Some (flat_call tc)) (bs "name") = tc_name tc /\
  get_string (Some (flat_call tc)) (bs "args") = tc_args tc.
Proof.
  intros (H1 & H2 & H3). unfold get_string, flat_call. cbn [mbind option_bind].
  apply c_str_ok in H1, H2, H3. split_and!; built_get.
  - destruct (tc_id tc); cbn in *; [by rewrite string_create|done].
  - destruct (tc_id tc), (tc_name tc); cbn in *; by rewrite ?string_create.
  - destruct (tc_id tc), (tc_name tc), (tc_args tc); cbn in *; by rewrite ?string_create.
Qed.

Lemma add_calls_flat tcs : forall m, role m = CLM_ROLE_ASSISTANT -> Forall call_ok tcs ->
  add_calls m (map flat_call tcs) =
  Some (mk_message (role m) (content m) (content_len m) (content_compressed m) (tool_call_id m)
          (tool_name m) (tool_calls m ++ tcs) (attachments m)).
Proof.
  induction tcs as [|tc tcs IH]; intros m Hr Hok; cbn [map add_calls].
  { rewrite app_nil_r. by destruct m. }
  inversion Hok as [|? ? Hc Hok']; subst. destruct (get_string_flat tc Hc) as (-> & -> & ->).
  assert (cJSON_IsObject (flat_call tc) = true) as -> by (unfold flat_call; is_built).
  unfold clm_message_add_tool_call. rewrite Hr. cbn [mbind option_bind].
  rewrite IH by done. cbn. rewrite <- app_assoc. destruct tc. done.
Qed.

Definition calls_array (tcs : list clm_tool_call) : cJSON :=
  fold_left (fun a tc => cJSON_AddItemToArray a (flat_call tc)) tcs cJSON_CreateArray.

(** What a reader finds in the lossless form. *)
Record full_members (m : clm_message) (p : option (list byte)) (j : cJSON) : Prop := {
  fm_object : cJSON_IsObject j = true;
  fm_role : get_string (Some j) (bs "role") = Some (c_str (role_to_str (role m)));
  fm_content : cJSON_GetObjectItemCaseSensitive j (bs "content") = cJSON_CreateString <$> p;
  fm_id : get_string (Some j) (bs "tool_call_id") = c_str <$> tool_call_id m;
  fm_name : get_string (Some j) (bs "tool_name") = c_str <$> tool_name m;
  fm_calls : cJSON_GetObjectItemCaseSensitive j (bs "tool_calls")
    = match tool_calls m with [] => None | tcs => Some (calls_array tcs) end
}.

Lemma full_members_ok m cz p : plain_content m cz = Some p ->
  exists j, clm_message_to_json_full m cz = Some j /\ full_members m p j.
Proof.
  intros Hp. unfold clm_message_to_json_full. rewrite Hp. cbn [mbind option_bind].
  eexists. split; [done|].
  destruct (tool_calls m) as [|tc tcs] eqn:Et; fold (calls_array (tc :: tcs)) || idtac;
    constructor; unfold get_string; cbn [mbind option_bind]; rewrite ?Et; try is_built; built_get;
    destruct p, (tool_call_id m), (tool_name m); cbn; by rewrite ?string_create.
Qed.

(** What the parser makes of an object with the members of a message. *)
Lemma from_members cz h m p j : full_members m p j -> str_ok p -> str_ok (tool_call_id m) -> str_ok (tool_name m) ->
  Forall call_ok (tool_calls m) ->
  match role m with
  | CLM_ROLE_SYSTEM | CLM_ROLE_USER => tool_call_id m = None /\ tool_name m = None /\ tool_calls m = []
  | CLM_ROLE_ASSISTANT => tool_call_id m = None /\ tool_name m = None
  | CLM_ROLE_TOOL => tool_calls m = []
  end ->
  clm_message_from_json h j cz = (0, h ++ [message_set_content (drop_attachments m) p cz]).
Proof.
  intros [F1 F2 F3 F4 F5 F6] Hpok Hid Hname Hcalls Hrole. apply c_str_ok in Hid, Hname.
  unfold clm_message_from_json. rewrite F1, F2, role_str_inv, F3, F4, F5, F6, Hid, Hname.
  cbn [negb].
  assert (match cJSON_CreateString <$> p with Some j0 => negb (cJSON_IsString j0) | None => false end
    = false) as ->.
  { destruct p as [s|]; [|done]. cbn. unfold cJSON_IsString. by rewrite string_create. }
  assert ((j0 ← cJSON_CreateString <$> p; cJSON_GetStringValue j0) = p) as ->.
  { destruct p as [s|]; [|done]. cbn. rewrite string_create. f_equal. by apply c_str_id. }
  assert (Hadd : forall m0, role m0 = role m -> tool_call_id m0 = tool_call_id m ->
    tool_name m0 = tool_name m -> tool_calls m0 = tool_calls m -> attachments m0 = [] ->
    h ++ [message_set_content m0 p cz] = h ++ [message_set_content (drop_attachments m) p cz]).
  { intros m0 E1 E2 E3 E4 E5. do 2 f_equal.
    unfold message_set_content, message_set_content_len, set_stored. cbn. by rewrite E1, E2, E3, E4, E5. }
  destruct (role m) eqn:Er.
  - destruct Hrole as (E1 & E2 & E3). unfold clm_history_add_system. by rewrite Hadd.
  - destruct Hrole as (E1 & E2 & E3). unfold clm_history_add_user. by rewrite Hadd.
  - destruct Hrole as (E1 & E2). destruct (tool_calls m) as [|tc tcs] eqn:Et.
    { unfold clm_history_add_assistant_text. by rewrite Hadd. }
    rewrite <- Et in *. unfold calls_array.
    destruct (elements_fold flat_call (tool_calls m) cJSON_CreateArray isarray_create) as [A1 A2].
    rewrite A1, A2, elements_create. cbn [negb app].
    rewrite add_calls_flat;
      [|destruct p; [exact (proj1 (set_content_len_fields _ _ _))|done]|done]. cbv iota.
    do 3 f_equal. unfold message_set_content, message_set_content_len, set_stored, drop_attachments.
    cbn [role tool_call_id tool_name tool_calls attachments]. rewrite Er, E1, E2.
    destruct p as [s|]; [|done]. cbn [fmap option_fmap option_map]. by destruct (packed _ _).
  - unfold clm_history_add_tool_result.
    assert (p = c_str <$> p) as Ep.
    { destruct p as [s|]; [|done]. cbn. by rewrite c_str_id. }
    assert (Hs : forall x, message_set_content_len x p cz = message_set_content x p cz)
      by (intros x; unfold message_set_content; by rewrite <- Ep).
    by rewrite Hs, Hadd.
Qed.

(** The session log is lossless: a message an embedder's history can
    hold, serialized by [clm_message_to_json_full] and parsed back by
    [clm_message_from_json], is appended exactly as it was: its role, its
    text (read back from the compressor's form and stored again), its ids
    and its tool calls, all but the images, which the session keeps in files
    of their own. It needs the compressor's [read] to be the inverse of its
    [write], and texts without NUL bytes. *)
Theorem session_roundtrip cz h m (Hcz : cz_inverse cz) (Hm : persistable cz m) :
  exists j, clm_message_to_json_full m cz = Some j /\
    clm_message_from_json h j cz = (0, h ++ [drop_attachments m]).
Proof.
  destruct (persistable_plain cz m Hcz Hm) as (p & Hp & Hpok & Hst).
  destruct (full_members_ok m cz p Hp) as (j & Hj & F). exists j. split; [done|].
  destruct Hm as (_ & Hid & Hname & Hcalls & Hrole). rewrite (from_members cz h m p j) by done.
  do 3 f_equal. by apply restored.
Qed.

(** ** The wire form *)

(** The parts of a message with images: the text if there is any, then the
    images in order. *)
Definition wire_parts (m : clm_message) (p : option (list byte)) : list cJSON :=
  match c_str <$> p with Some (c :: t) => [text_part (c :: t)] | _ => [] end
  ++ map attachment_part (attachments m).

(** What a provider finds in the message. *)
Record wire_members (m : clm_message) (p : option (list byte)) (j : cJSON) : Prop := {
  wm_role : get_string (Some j) (bs "role") = Some (role_to_str (role m));
  wm_content : match attachments m, p with
    | [], Some s => get_string (Some j) (bs "content") = Some (c_str s)
    | [], None => cJSON_GetObjectItemCaseSensitive j (bs "content")
        = match role m with CLM_ROLE_ASSISTANT => Some cJSON_CreateNull | _ => None end
    | _, _ => exists a, cJSON_GetObjectItemCaseSensitive j (bs "content") = Some a /\
        cJSON_IsArray a = true /\ cJSON_elements a = wire_parts m p
    end;
  wm_id : get_string (Some j) (bs "tool_call_id")
    = match role m with CLM_ROLE_TOOL => c_str <$> tool_call_id m | _ => None end;
  wm_calls : if has_calls m then
      exists a, cJSON_GetObjectItemCaseSensitive j (bs "tool_calls") = Some a /\
        cJSON_IsArray a = true /\ cJSON_elements a = map clm_tool_call_to_json (tool_calls m)
    else cJSON_GetObjectItemCaseSensitive j (bs "tool_calls") = None
}.

Lemma role_str_c_str r : c_str (role_to_str r) = role_to_str r.
Proof. by destruct r; vm_compute. Qed.

(** The message object before ids and calls. *)
Definition wire_head (m : clm_message) (p : option (list byte)) : cJSON :=
  let msg := cJSON_AddStringToObject cJSON_CreateObject (bs "role") (role_to_str (role m)) in
  let msg := match p, role m with
             | Some p, _ => cJSON_AddStringToObject msg (bs "content") p
             | None, CLM_ROLE_ASSISTANT => cJSON_AddItemToObject msg (bs "content") cJSON_CreateNull
             | None, _ => msg
             end in
  match attachments m with [] => msg | _ => content_to_parts msg m end.

Lemma content_parts_base o m p : cJSON_IsObject o = true ->
  cJSON_GetObjectItemCaseSensitive o (bs "content") = None ->
  let msg := match p, role m with
             | Some p, _ => cJSON_AddStringToObject o (bs "content") p
             | None, CLM_ROLE_ASSISTANT => cJSON_AddItemToObject o (bs "content") cJSON_CreateNull
             | None, _ => o
             end in
  exists a, content_to_parts msg m = cJSON_AddItemToObject o (bs "content") a /\
    cJSON_IsArray a = true /\ cJSON_elements a = wire_parts m p.
Proof.
  intros Ho Hc msg. unfold content_to_parts.
  assert (cJSON_DeleteItemFromObjectCaseSensitive msg (bs "content") = o) as ->.
  { subst msg. destruct p; [by apply get_delete_add|].
    destruct (role m); try (by apply delete_absent). by apply get_delete_add. }
  assert (get_string (Some msg) (bs "content") = c_str <$> p) as ->.
  { subst msg. unfold get_string. cbn [mbind option_bind]. destruct p as [s|].
    - rewrite get_add_string, Hc, beq_refl by done. cbn. by rewrite string_create.
    - destruct (role m); rewrite ?get_add, ?Hc by done; try done.
      rewrite beq_refl. cbn. apply string_null. }
  unfold wire_parts. eexists. split; [done|].
  set (base := match c_str <$> p with
    | Some (c :: t) => cJSON_AddItemToArray cJSON_CreateArray (text_part (c :: t))
    | _ => cJSON_CreateArray end).
  assert (Hb : cJSON_IsArray base = true /\ cJSON_elements base =
    match c_str <$> p with Some (c :: t) => [text_part (c :: t)] | _ => [] end).
  { subst base. destruct (c_str <$> p) as [[|c t]|]; [split; [apply isarray_create|apply elements_create]| |
      split; [apply isarray_create|apply elements_create]].
    rewrite isarray_add, elements_add, elements_create by apply isarray_create.
    split; [apply isarray_create|done]. }
  destruct Hb as [Hb1 Hb2]. destruct (elements_fold attachment_part (attachments m) base Hb1) as [E1 E2].
  split; [done|]. by rewrite E2, Hb2.
Qed.

Lemma wire_head_ok m p : cJSON_IsObject (wire_head m p) = true /\
  get_string (Some (wire_head m p)) (bs "role") = Some (role_to_str (role m)) /\
  (match attachments m, p with
    | [], Some s => get_string (Some (wire_head m p)) (bs "content") = Some (c_str s)
    | [], None => cJSON_GetObjectItemCaseSensitive (wire_head m p) (bs "content")
        = match role m with CLM_ROLE_ASSISTANT => Some cJSON_CreateNull | _ => None end
    | _, _ => exists a, cJSON_GetObjectItemCaseSensitive (wire_head m p) (bs "content") = Some a /\
        cJSON_IsArray a = true /\ cJSON_elements a = wire_parts m p
    end) /\
  cJSON_GetObjectItemCaseSensitive (wire_head m p) (bs "tool_call_id") = None /\
  cJSON_GetObjectItemCaseSensitive (wire_head m p) (bs "tool_calls") = None.
Proof.
  unfold wire_head. set (o := cJSON_AddStringToObject _ _ _).
  assert (Ho : cJSON_IsObject o = true) by (subst o; is_built).
  assert (Hoc : cJSON_GetObjectItemCaseSensitive o (bs "content") = None) by (subst o; by built_get).
  assert (Hor : get_string (Some o) (bs "role") = Some (role_to_str (role m))).
  { unfold get_string. cbn [mbind option_bind]. subst o. built_get. cbn.
    by rewrite string_create, role_str_c_str. }
  assert (Hoi : cJSON_GetObjectItemCaseSensitive o (bs "tool_call_id") = None) by (subst o; by built_get).
  assert (Hot : cJSON_GetObjectItemCaseSensitive o (bs "tool_calls") = None) by (subst o; by built_get).
  assert (Hadd : forall v, let o' := cJSON_AddItemToObject o (bs "content") v in
    cJSON_IsObject o' = true /\ get_string (Some o') (bs "role") = Some (role_to_str (role m)) /\
    cJSON_GetObjectItemCaseSensitive o' (bs "content") = Some v /\
    cJSON_GetObjectItemCaseSensitive o' (bs "tool_call_id") = None /\
    cJSON_GetObjectItemCaseSensitive o' (bs "tool_calls") = None).
  { intros v o'. subst o'. unfold get_string in *. cbn [mbind option_bind] in *.
    rewrite isobject_add, !get_add, Hoc, Hoi, Hot by done. lit.
    split_and!; try done. by destruct (cJSON_GetObjectItemCaseSensitive o (bs "role")). }
  clearbody o. destruct (attachments m) as [|x l] eqn:Ea.
  - destruct p as [s|].
    + destruct (Hadd (cJSON_CreateString s)) as (H1 & H2 & H3 & H4 & H5).
      split_and!; try done. unfold get_string, cJSON_AddStringToObject. cbn [mbind option_bind].
      rewrite H3. cbn. apply string_create.
    + destruct (role m); split_and!; try done;
        destruct (Hadd cJSON_CreateNull) as (H1 & H2 & H3 & H4 & H5); done.
  - destruct (content_parts_base o m p Ho Hoc) as (a & -> & A1 & A2).
    destruct (Hadd a) as (H1 & H2 & H3 & H4 & H5). split_and!; try done. exists a. done.
Qed.

Lemma message_wire m cz p : plain_content m cz = Some p ->
  exists j, clm_message_to_json m cz = Some j /\ wire_members m p j.
Proof.
  intros Hp. unfold clm_message_to_json. rewrite Hp. cbn [mbind option_bind].
  eexists. split; [done|]. fold (wire_head m p).
  destruct (wire_head_ok m p) as (W1 & W2 & W3 & W4 & W5).
  set (o := wire_head m p) in *. clearbody o.
  set (o' := match role m with CLM_ROLE_TOOL => add_opt o (bs "tool_call_id") (tool_call_id m) | _ => o end).
  assert (Ho' : cJSON_IsObject o' = true /\
    cJSON_GetObjectItemCaseSensitive o' (bs "role") = cJSON_GetObjectItemCaseSensitive o (bs "role") /\
    cJSON_GetObjectItemCaseSensitive o' (bs "content") = cJSON_GetObjectItemCaseSensitive o (bs "content") /\
    cJSON_GetObjectItemCaseSensitive o' (bs "tool_calls") = None /\
    get_string (Some o') (bs "tool_call_id")
      = match role m with CLM_ROLE_TOOL => c_str <$> tool_call_id m | _ => None end).
  { subst o'. destruct (role m); try (split_and!; try done; unfold get_string; cbn; by rewrite W4).
    unfold get_string. cbn [mbind option_bind]. rewrite isobject_add_opt, !get_add_opt, W4, W5 by done. lit.
    split_and!; [done|by destruct (cJSON_GetObjectItemCaseSensitive o (bs "role"))
      |by destruct (cJSON_GetObjectItemCaseSensitive o (bs "content"))|done|].
    destruct (tool_call_id m); cbn; [apply string_create|done]. }
  clearbody o'. destruct Ho' as (O1 & O2 & O3 & O4 & O5).
  assert (Hbase : wire_members m p o' \/ has_calls m = true).
  { destruct (has_calls m) eqn:Ec; [by right|left]. constructor; rewrite ?Ec; try done.
    - unfold get_string in *. cbn [mbind option_bind] in *. by rewrite O2.
    - unfold get_string in *. cbn [mbind option_bind] in *. by rewrite O3. }
  destruct (has_calls m) eqn:Ec.
  2: { destruct Hbase as [Hb|]; [|done]. unfold has_calls in Ec.
       destruct (role m); try exact Hb. destruct (tool_calls m); [exact Hb|done]. }
  assert (Hr : role m = CLM_ROLE_ASSISTANT /\ tool_calls m <> []).
  { unfold has_calls in Ec. destruct (role m); try done. by destruct (tool_calls m). }
  destruct Hr as [Hr Htc]. rewrite Hr in *.
  destruct (tool_calls m) as [|tc tcs] eqn:Et; [done|]. rewrite <- Et in *.
  destruct (elements_fold clm_tool_call_to_json (tool_calls m) cJSON_CreateArray isarray_create)
    as [A1 A2]. rewrite elements_create in A2.
  set (arr := fold_left _ _ _) in *. clearbody arr.
  constructor; rewrite ?Hr, ?Ec; unfold get_string in *; cbn [mbind option_bind] in *;
    rewrite ?get_add by done; lit.
  - rewrite O2. by destruct (cJSON_GetObjectItemCaseSensitive o (bs "role")).
  - rewrite O3. destruct (attachments m), p; try (by destruct (cJSON_GetObjectItemCaseSensitive o (bs "content")));
      try (destruct W3 as (x & -> & ?); by exists x).

  - by destruct (cJSON_GetObjectItemCaseSensitive o' (bs "tool_call_id")).
  - rewrite O4. by exists arr.
Qed.

Lemma history_array_elements h cz : forall arr, cJSON_IsArray arr = true ->
  Forall (fun m => exists p, plain_content m cz = Some p) h ->
  exists out l, history_array h cz arr = Some out /\ cJSON_elements out = cJSON_elements arr ++ l /\
    Forall2 (fun m j => exists p, plain_content m cz = Some p /\ wire_members m p j) h l.
Proof.
  induction h as [|m h IH]; intros arr Ha H; cbn [history_array].
  { exists arr, []. rewrite app_nil_r. split_and!; [done|done|constructor]. }
  inversion H as [|? ? (p & Hp) H']; subst. destruct (message_wire m cz p Hp) as (j & -> & Hj).
  cbn [mbind option_bind].
  destruct (IH (cJSON_AddItemToArray arr j)) as (out & l & H1 & H2 & H3); [by rewrite isarray_add|done|].
  exists out, (j :: l). split_and!; [done| |].
  - rewrite H2, elements_add by done. by rewrite <- app_assoc.
  - constructor; [by exists p|done].
Qed.

(** The request a provider is sent says what the history holds: one
    element per message, in order, with its role; its text, or null for an
    assistant without one, or the array of its text and images; the call id
    of a tool result; and for an assistant that called tools the calls, in
    order. *)
Theorem history_wire h cz (Hp : Forall (fun m => exists p, plain_content m cz = Some p) h) :
  exists arr, clm_history_to_json h cz = Some arr /\
    Forall2 (fun m j => exists p, plain_content m cz = Some p /\ wire_members m p j)
      h (cJSON_elements arr).
Proof.
  destruct (history_array_elements h cz cJSON_CreateArray isarray_create Hp) as (out & l & H1 & H2 & H3).
  exists out. split; [done|]. by rewrite H2, elements_create.
Qed.

(** An image survives the request: the part it is sent as holds a data
    URL, whose base64 text, after the media type, decodes to the image's
    bytes. *)
Theorem attachment_part_decodes a (Hm : no_nul (media_type a)) :
  let iu := cJSON_GetObjectItemCaseSensitive (attachment_part a) (bs "image_url") in
  get_string (Some (attachment_part a)) (bs "type") = Some (bs "image_url") /\
  exists url, get_string iu (bs "url") = Some url /\
    take (length (bs "data:") + length (media_type a) + length (bs ";base64,")) url
      = bs "data:" ++ media_type a ++ bs ";base64," /\
    clm_base64_decode
      (drop (length (bs "data:") + length (media_type a) + length (bs ";base64,")) url)
      = Some (a_data a).
Proof.
  cbv zeta. unfold attachment_part, get_string. cbn [mbind option_bind].
  assert (Hnn : no_nul (data_url a)).
  { unfold data_url, no_nul. repeat (apply Forall_app; split); [|done| |apply encode_no_nul];
      repeat constructor; discriminate. }
  built_get. cbn [mbind option_bind]. built_get. cbn [mbind option_bind]. rewrite !string_create. split; [done|].
  exists (data_url a). split; [by rewrite c_str_id|]. unfold data_url.
  rewrite !app_assoc, <- !length_app. rewrite take_app_length, drop_app_length.
  split; [done|apply decode_encode].
Qed.

End Json.

(** ** Witnesses, on the concrete tree *)

(** A compressor that knows one text. *)
Definition toy_text : list byte := replicate 40 x61.
Definition toy_compressor : clm_compressor :=
  mk_compressor (Some (fun s => if beq s toy_text then Some (bs "40a") else None))
    (Some (fun q => if beq q (bs "40a") then Some toy_text else None)) 16.

Lemma toy_inverse : cz_inverse (Some toy_compressor).
Proof.
  intros w [= <-]. eexists. split; [done|]. intros s q. destruct (beq s toy_text) eqn:E; [|done].
  intros [= <-]. apply beq_eq in E as ->. done.
Qed.

Definition toy_message : clm_message :=
  message_set_content
    (mk_message CLM_ROLE_ASSISTANT None 0 false None None
       [mk_tool_call (Some (bs "c1")) (Some (bs "ls")) (Some (bs "{}"))] [])
    (Some toy_text) (Some toy_compressor).

Lemma toy_text_ok : no_nul toy_text /\ valid_utf8 toy_text /\ zlen toy_text <= UINT16_MAX.
Proof.
  split_and!.
  - unfold toy_text. cbn. repeat (constructor; [discriminate|]). constructor.
  - apply (count_bad_zero _ 40); vm_compute; lia.
  - vm_compute. discriminate.
Qed.

Lemma toy_stored : toy_message = message_set_content toy_message (Some toy_text) (Some toy_compressor).
Proof. vm_compute. reflexivity. Qed.

Lemma toy_fields : tool_call_id toy_message = None /\ tool_name toy_message = None /\
  role toy_message = CLM_ROLE_ASSISTANT /\
  tool_calls toy_message = [mk_tool_call (Some (bs "c1")) (Some (bs "ls")) (Some (bs "{}"))].
Proof. vm_compute. auto. Qed.

Lemma toy_persistable : persistable (Some toy_compressor) toy_message.
Proof.
  destruct toy_fields as (F1 & F2 & F3 & F4). unfold persistable. rewrite F1, F2, F3, F4.
  split; [right; exists toy_text; destruct toy_text_ok as (? & ? & ?);
          exact (conj H (conj H0 (conj H1 toy_stored)))|].
  split; [exact I|]. split; [exact I|]. split; [|split; reflexivity].
  constructor; [|constructor]. split_and!; cbn; repeat constructor; discriminate.
Qed.

Lemma session_roundtrip_witness :
  (cz_inverse (Some toy_compressor) /\ persistable (Some toy_compressor) toy_message /\
   content toy_message = Some (bs "40a")) /\
  exists j : json, clm_message_to_json_full toy_message (Some toy_compressor) = Some j /\
    clm_message_from_json [] j (Some toy_compressor) = (0, [] ++ [drop_attachments toy_message]).
Proof.
  split; [split_and!; [exact toy_inverse|exact toy_persistable|vm_compute; reflexivity]|].
  exact (session_roundtrip (Some toy_compressor) [] toy_message toy_inverse toy_persistable).
Defined.

Lemma history_wire_witness :
  Forall (fun m => exists p, plain_content m None = Some p) demo_history /\
  exists arr : json, clm_history_to_json demo_history None = Some arr /\
    Forall2 (fun m j => exists p, plain_content m None = Some p /\ wire_members m p j)
      demo_history (cJSON_elements arr).
Proof.
  assert (H : Forall (fun m => exists p, plain_content m None = Some p) demo_history).
  { unfold demo_history. repeat first [apply List.Forall_nil | apply List.Forall_cons];
      eexists; vm_compute; reflexivity. }
  split; [exact H|]. exact (history_wire demo_history None H).
Defined.

Lemma attachment_part_decodes_witness :
  no_nul (media_type (mk_attachment (bs "image/gif") (bs "GIF89a"))) /\
  get_string (Some (attachment_part (mk_attachment (bs "image/gif") (bs "GIF89a")))) (bs "type")
    = Some (bs "image_url").
Proof.
  assert (H : no_nul (media_type (mk_attachment (bs "image/gif") (bs "GIF89a"))))
    by (repeat constructor; discriminate).
  split; [exact H|].
  exact (proj1 (attachment_part_decodes (mk_attachment (bs "image/gif") (bs "GIF89a")) H)).
Defined.
