(* ===== verification/Session.v ===== *)
(** The session store of [src/libclmsession/session.c]: the conversation as a
    log of JSON lines in [<dir>/<id>.jsonl], its images as files named by
    their SHA-256 in [<id>.blobs], tool output that was cut in [<id>.spool].
    A function that makes system calls is in the monad of [Disk]; a session
    it changes is returned. Closing a descriptor changes no disk and has no
    step. A loop that retries interrupted writes gives up, with EINTR, when
    it was interrupted [patience] times. *)

From S2P Require Import Prelude Utf8 Image Sha256 CJson History HistoryJson Disk.
From stdpp Require Import gmap sorting.
#[local] Open Scope Z_scope.

(** ** Names *)

Definition SESSION_FMT_VERSION : Z := 1.
Definition SESSION_ID_MAX : nat := 64.
Definition SESSION_SNIPPET_MAX : nat := 80.
Definition SESSION_BLOB_MAX : Z := 32 * 1024 * 1024.
Definition PATH_MAX : Z := 4096.
Definition ENAMETOOLONG : Z := 36.
Definition EPROTONOSUPPORT : Z := 93.

Definition in_range (a c b : Z) : bool := (a <=? c) && (c <=? b).
Definition is_digit (c : byte) : bool := in_range 48 (b2z c) 57.
Definition is_lower (c : byte) : bool := in_range 97 (b2z c) 122.
Definition is_upper (c : byte) : bool := in_range 65 (b2z c) 90.
Definition id_char (c : byte) : bool := is_digit c || is_lower c || is_upper c || Byte.eqb c x2d.

Fixpoint id_valid_from (i : nat) (s : list byte) : bool :=
  match s with
  | [] => true
  | c :: s' => id_char c && negb (SESSION_ID_MAX <=? i)%nat && id_valid_from (S i) s'
  end.

Definition id_valid (id : list byte) : bool :=
  match id with [] => false | _ => id_valid_from 0 id end.

(** ["%0<n>d"] of a number that is not negative. *)
Definition zero_pad (n : nat) (z : Z) : list byte :=
  let d := dec z in replicate (n - length d) x30 ++ d.

(** ["%02x"] *)
Definition hex_byte (b : byte) : list byte := [hexdigit (Z.shiftr (b2z b) 4); hexdigit (Z.land (b2z b) 15)].

(** [struct tm] *)
Record tm := mk_tm { tm_year : Z; tm_mon : Z; tm_mday : Z; tm_hour : Z; tm_min : Z; tm_sec : Z }.

Definition id_text (t : tm) (rnd : list byte) : list byte :=
  zero_pad 4 (tm_year t + 1900) ++ zero_pad 2 (tm_mon t + 1) ++ zero_pad 2 (tm_mday t) ++ bs "-"
  ++ zero_pad 2 (tm_hour t) ++ zero_pad 2 (tm_min t) ++ zero_pad 2 (tm_sec t) ++ bs "-"
  ++ concat (map hex_byte rnd).

(** [rnd] holds four bytes; [None] for the time when [localtime_r] fails. *)
Definition generate_id (t : option tm) (rnd : list byte) (bufsz : Z) : Z + list byte :=
  match t with
  | None => inl (- EINVAL)
  | Some t => let s := id_text t rnd in if bufsz <=? zlen s then inl (- ENAMETOOLONG) else inr s
  end.

Definition jsonl : list byte := bs ".jsonl".

Definition log_path (d id : list byte) : path := d ++ bs "/" ++ id ++ jsonl.

(** A path without the [.jsonl] at its end. *)
Definition stem (p : path) : path :=
  let n := length p in
  if ((6 <? n) && beq (drop (n - 6) p) jsonl)%nat then take (n - 6) p else p.

Definition blob_dir_of (p : path) : path := stem p ++ bs ".blobs".
Definition spool_dir_of (p : path) : path := stem p ++ bs ".spool".

Definition blob_ext (mt : list byte) : list byte :=
  if beq mt (bs "image/png") then bs "png"
  else if beq mt (bs "image/jpeg") then bs "jpg"
  else if beq mt (bs "image/gif") then bs "gif"
  else if beq mt (bs "image/webp") then bs "webp"
  else bs "bin".

Definition sha_valid (sha : option (list byte)) : bool :=
  match sha with
  | None => false
  | Some s => (length s =? 64)%nat && forallb (fun c => is_digit c || in_range 97 (b2z c) 102) s
  end.

Definition blob_path (bdir sha mt : list byte) : path := bdir ++ bs "/" ++ sha ++ bs "." ++ blob_ext mt.

Definition has_suffix (name suffix : list byte) : bool :=
  ((length suffix <? length name)%nat && beq (drop (length name - length suffix) name) suffix).

(** [snprintf] to a buffer that may be too small: the text, when it fits. *)
Definition fits (bufsz : Z) (s : list byte) : Z + list byte :=
  if bufsz <=? zlen s then inl (- ENAMETOOLONG) else inr s.

(** ** Texts *)

(** FNV-1a *)
Definition prompt_hash (s : list byte) : Z :=
  let h := fold_left (fun h c => wrap64 (Z.lxor h (b2z c) * 1099511628211)) (c_str s) 14695981039346656037 in
  if h =? 0 then 1 else h.

(** ["%016" PRIx64] *)
Definition hash_text (h : Z) : list byte := map (fun i => hexdigit (Z.land (Z.shiftr h (4 * (15 - Z.of_nat i))) 15)) (seq 0 16).

Definition hex_value (c : byte) : option Z :=
  if is_digit c then Some (b2z c - 48)
  else if in_range 97 (b2z c) 102 then Some (b2z c - 87)
  else if in_range 65 (b2z c) 70 then Some (b2z c - 55)
  else None.

Definition is_c_space (c : byte) : bool := Byte.eqb c x20 || in_range 9 (b2z c) 13.

Fixpoint skip_c_spaces (s : list byte) : list byte :=
  match s with c :: s' => if is_c_space c then skip_c_spaces s' else s | [] => [] end.

Fixpoint hex_number (acc : Z) (s : list byte) : Z :=
  match s with
  | c :: s' => match hex_value c with Some v => hex_number (16 * acc + v) s' | None => acc end
  | [] => acc
  end.

(** An optional "0x" is only one before a digit. *)
Definition hex_prefix (s : list byte) : list byte :=
  match s with
  | x30 :: x :: c :: s' => if (Byte.eqb x x78 || Byte.eqb x x58) && bool_decide (is_Some (hex_value c)) then c :: s' else s
  | _ => s
  end.

(** [strtoull(s, NULL, 16)] *)
Definition strtoull16 (s : list byte) : Z :=
  let s := skip_c_spaces s in
  let '(neg, s) := match s with x2d :: s' => (true, s') | x2b :: s' => (false, s') | _ => (false, s) end in
  let v := hex_number 0 (hex_prefix s) in
  if UINT64_MAX <? v then UINT64_MAX else if neg : bool then wrap64 (- v) else v.

(** The lines of a text, each with its newline; the last may have none. *)
Fixpoint chunks (s : list byte) : list (list byte) :=
  match s with
  | [] => []
  | x0a :: s' => [x0a] :: chunks s'
  | c :: s' => match chunks s' with [] => [[c]] | l :: r => (c :: l) :: r end
  end.

(** The line up to its newline. *)
Definition chomp (line : list byte) : list byte :=
  match rev line with x0a :: r => rev r | _ => line end.

Definition lines (s : list byte) : list (list byte) := map chomp (chunks s).

Definition snippet (s : list byte) : list byte :=
  map (fun c => if Byte.eqb c x0a || Byte.eqb c x0d then x20 else c) (take SESSION_SNIPPET_MAX s).

(** What stands before a hash in a log: the member's name, in quotes, a colon
    and a quote. *)
Definition sha_key : list byte := [x22] ++ bs "sha256" ++ [x22; x3a; x22].

(** The record of a system prompt begins so. *)
Definition prompt_pre : list byte := bs "{" ++ [x22] ++ bs "type" ++ [x22; x3a; x22] ++ bs "prompt" ++ [x22].

(** The hashes after each key, from the text [p] on. Every turn of the loop
    consumes the key, so the length of the text bounds the turns. *)
Fixpoint refs_in (fuel : nat) (p : list byte) : list (list byte) :=
  match fuel with
  | O => []
  | S fuel =>
      match find_sub sha_key p with
      | None => []
      | Some i =>
          let p := drop (i + length sha_key) p in
          if (length p <? 64)%nat then []
          else let sha := take 64 p in
            (if sha_valid (Some sha) then [sha] else []) ++ refs_in fuel (drop 64 p)
      end
  end.

Definition blob_refs (data : list byte) : list (list byte) := let s := c_str data in refs_in (length s) s.

(** [strncmp(r->valuestring, name, 64) == 0] for one of them; a hash has 64
    bytes. *)
Definition refs_have (refs : list (list byte)) (name : list byte) : bool :=
  existsb (fun r => has_prefix r name) refs.

(** [struct clm_session] *)
Record clm_session := mk_session {
  sfd : nat;
  sid : list byte;
  spath : path;
  has_msgs : bool;
  hash : Z;                          (* [prompt_hash] *)
  cur_model : option (list byte);
  cur_provider : option (list byte)
}.

Definition session_alloc (fd : nat) (id : list byte) (p : path) : clm_session :=
  mk_session fd id p false 0 None None.
Definition with_hash (s : clm_session) (h : Z) : clm_session :=
  mk_session (sfd s) (sid s) (spath s) (has_msgs s) h (cur_model s) (cur_provider s).
Definition with_msgs (s : clm_session) (b : bool) : clm_session :=
  mk_session (sfd s) (sid s) (spath s) b (hash s) (cur_model s) (cur_provider s).
Definition with_fd (s : clm_session) (fd : nat) : clm_session :=
  mk_session fd (sid s) (spath s) (has_msgs s) (hash s) (cur_model s) (cur_provider s).
Definition with_model (s : clm_session) (m p : option (list byte)) : clm_session :=
  mk_session (sfd s) (sid s) (spath s) (has_msgs s) (hash s) m p.

Definition clm_session_id (s : option clm_session) : option (list byte) := sid <$> s.
Definition clm_session_is_empty (s : option clm_session) : bool :=
  match s with Some s => negb (has_msgs s) | None => true end.

Definition is_talk (r : clm_role) : bool :=
  match r with CLM_ROLE_USER | CLM_ROLE_ASSISTANT => true | _ => false end.

(** ** Operations *)

Section Store.
Context `{CJson} (env : nat -> answer).
Context (cJSON_PrintUnformatted : cJSON -> option (list byte)).
Context (cJSON_ParseWithLength : list byte -> option cJSON).
(** [time(NULL)], and how often a call may be interrupted *)
Context (now : Z) (patience : nat).

Definition cJSON_Parse (s : list byte) : option cJSON := cJSON_ParseWithLength (c_str s).

Definition retv (r : Z) : M Z := mret r.

(** [mkdir_p]: a call for each of the path's prefixes that ends before a
    slash, or at its end. *)
Fixpoint mkdir_prefixes (p : path) (ends : list nat) : M Z :=
  match ends with
  | [] => mret 0
  | i :: ends' =>
      if match p !! i with Some c => negb (Byte.eqb c x2f) | None => false end then mkdir_prefixes p ends'
      else r ← mkdir env (take i p);
           if (r <? 0) && negb (r =? - EEXIST) then mret r else mkdir_prefixes p ends'
  end.

Definition mkdir_p (p : path) : M Z :=
  if (length p =? 0)%nat then mret (- EINVAL) else mkdir_prefixes p (seq 1 (length p)).

(** [getenv] of the two variables. *)
Definition clm_session_state_dir (xdg home : option (list byte)) (bufsz : Z) : M (Z + path) :=
  let made t := match fits bufsz t with
                | inl r => mret (inl r)
                | inr d => r ← mkdir_p d; mret (if r <? 0 then inl r else inr d)
                end in
  match xdg, home with
  | Some (c :: x), _ => made ((c :: x) ++ bs "/clm")
  | _, Some (c :: h) => made ((c :: h) ++ bs "/.local/state/clm")
  | _, _ => mret (inl (- ENOENT))
  end.

Definition resolve_dir (xdg home : option (list byte)) (dir : option path) : M (Z + path) :=
  match dir with
  | None => clm_session_state_dir xdg home PATH_MAX
  | Some d => mret (inr d)
  end.

Definition session_path (xdg home : option (list byte)) (dir : option path) (id : list byte) : M (Z + path) :=
  r ← resolve_dir xdg home dir;
  mret match r with inl e => inl e | inr d => inr (log_path d id) end.

(** One write: a line that was cut short is an error, and stays. *)
Definition write_line (fd : nat) (obj : cJSON) : M Z :=
  match cJSON_PrintUnformatted obj with
  | None => mret (- ENOMEM)
  | Some line =>
      let line := c_str line ++ [x0a] in
      w ← write env fd line;
      mret (if w <? 0 then w else if w =? zlen line then 0 else - EIO)
  end.

(** The loop of a full write. [retry]: an interrupted call is made again;
    [stops]: one that wrote nothing is an error. *)
Fixpoint full_write (retry stops : bool) (fuel : nat) (fd : nat) (data : list byte) : M Z :=
  match data, fuel with
  | [], _ => mret 0
  | _, O => mret (- EINTR)
  | _, S fuel =>
      w ← write env fd data;
      if w <? 0 then
        if retry && (w =? - EINTR) then full_write retry stops fuel fd data else mret w
      else if stops && (w =? 0) then mret (- EIO)
      else full_write retry stops fuel fd (drop (Z.to_nat w) data)
  end.

(** [dprintf], which writes until all is written or a call fails. *)
Definition dprintf (fd : nat) (text : list byte) : M Z :=
  full_write false false (patience + length text) fd text.

Definition opt_member (k : list byte) (v : option (list byte)) (o : cJSON) : cJSON := add_opt o k v.

(** The meta record. *)
Definition meta_record (id : list byte) (model provider_name agent_name : option (list byte)) : cJSON :=
  opt_member (bs "agent") agent_name
    (opt_member (bs "provider") provider_name
       (opt_member (bs "model") model
          (cJSON_AddItemToObject
             (cJSON_AddStringToObject
                (cJSON_AddItemToObject
                   (cJSON_AddStringToObject cJSON_CreateObject (bs "type") (bs "meta"))
                   (bs "v") (cJSON_CreateNumber SESSION_FMT_VERSION))
                (bs "id") id)
             (bs "created") (cJSON_CreateNumber now)))).

Definition session_create_at (xdg home : option (list byte)) (dir : option path) (id : list byte)
    (model provider_name agent_name : option (list byte)) : M (Z + clm_session) :=
  p ← session_path xdg home dir id;
  match p with
  | inl r => mret (inl r)
  | inr p =>
      fd ← open_excl env p;
      match fd with
      | inl r => mret (inl r)
      | inr fd =>
          r ← write_line fd (meta_record id model provider_name agent_name);
          if r <? 0 then (unlink env p) ≫= fun _ => mret (inl r)
          else mret (inr (session_alloc fd id p))
      end
  end.

Definition clm_session_create (xdg home : option (list byte)) (t : option tm) (rnd : list byte) (dir : option path)
    (model provider_name agent_name : option (list byte)) : M (Z + clm_session) :=
  match generate_id t rnd (Z.of_nat SESSION_ID_MAX) with
  | inl r => mret (inl r)
  | inr id => session_create_at xdg home dir id model provider_name agent_name
  end.

Definition clm_session_create_id (xdg home : option (list byte)) (dir : option path) (id : list byte)
    (model provider_name agent_name : option (list byte)) : M (Z + clm_session) :=
  if negb (id_valid id) || (SESSION_ID_MAX <=? length id)%nat then mret (inl (- EINVAL))
  else session_create_at xdg home dir id model provider_name agent_name.

(** *** Images *)

(** A temporary file, then its name: unless the name is there. *)
Definition blob_write (p : path) (data : list byte) : M Z :=
  a ← access env p;
  if a =? 0 then mret 0
  else
    let tmp := p ++ bs ".tmp" in
    fd ← open_trunc env tmp;
    match fd with
    | inl r => mret r
    | inr fd =>
        r ← full_write true true (patience + length data) fd data;
        r ← (if r =? 0 then fsync env fd else mret r);
        r ← (if r =? 0 then rename env tmp p else mret r);
        if r <? 0 then (unlink env tmp) ≫= fun _ => mret r else mret r
    end.

Definition attachment_record (mt sha : list byte) (len : Z) : cJSON :=
  cJSON_AddItemToObject
    (cJSON_AddStringToObject
       (cJSON_AddStringToObject (cJSON_AddStringToObject cJSON_CreateObject (bs "type") (bs "image"))
          (bs "media_type") mt)
       (bs "sha256") sha)
    (bs "bytes") (cJSON_CreateNumber len).

(** The loop of [store_attachments] over the images. *)
Fixpoint store_images (bdir : path) (l : list clm_attachment) (arr : cJSON) : M (Z * cJSON) :=
  match l with
  | [] => mret (0, arr)
  | a :: l' =>
      let sha := session_sha256_hex (a_data a) in
      r ← blob_write (blob_path bdir sha (media_type a)) (a_data a);
      if r <? 0 then mret (r, arr)
      else store_images bdir l' (cJSON_AddItemToArray arr (attachment_record (media_type a) sha (zlen (a_data a))))
  end.

(** The object comes back with its attachments, if all went well. *)
Definition store_attachments (log : path) (m : clm_message) (obj : cJSON) : M (Z * cJSON) :=
  match attachments m with
  | [] => mret (0, obj)
  | l =>
      let bdir := blob_dir_of log in
      r ← mkdir env bdir;
      if (r <? 0) && negb (r =? - EEXIST) then mret (r, obj)
      else '(r, arr) ← store_images bdir l cJSON_CreateArray;
           mret (r, cJSON_AddItemToObject obj (bs "attachments") arr)
  end.

(** The file whole; nothing when it is missing, unreadable, empty or over
    the cap. *)
Definition blob_read (p : path) : M (option (list byte)) :=
  attempt env (fun _ => None) (fun d =>
    (match contents d p with
     | Some b => if (zlen b <=? 0) || (SESSION_BLOB_MAX <? zlen b) then None else Some b
     | None => None
     end, d)).

Definition blob_refs_from (p : path) : M (list (list byte)) :=
  r ← clm_read_file env p;
  mret match r with inl _ => [] | inr data => blob_refs data end.

Definition starts_with_dot (name : list byte) : bool := match name with x2e :: _ => true | _ => false end.

(** What [blob_gc] does to one entry of the directory. *)
Definition gc_entry (bdir : path) (refs : list (list byte)) (name : list byte) : M unit :=
  if starts_with_dot name then mret tt
  else if negb (has_suffix name (bs ".tmp")) && refs_have refs name then mret tt
  else (unlink env (bdir ++ bs "/" ++ name)) ≫= fun _ => mret tt.

Definition blob_gc (log : path) : M unit :=
  let bdir := blob_dir_of log in
  es ← readdir env bdir;
  match es with
  | inl _ => mret tt
  | inr es =>
      r1 ← blob_refs_from log;
      r2 ← blob_refs_from (log ++ bs ".bak");
      each_entry (gc_entry bdir (r1 ++ r2)) es ≫= fun _ =>
      (rmdir env bdir) ≫= fun _ => mret tt
  end.

Definition remove_entry (bdir : path) (name : list byte) : M unit :=
  if beq name (bs ".") || beq name (bs "..") then mret tt
  else (unlink env (bdir ++ bs "/" ++ name)) ≫= fun _ => mret tt.

Definition blob_dir_remove (bdir : path) : M unit :=
  es ← readdir env bdir;
  match es with
  | inl _ => mret tt
  | inr es => each_entry (remove_entry bdir) es ≫= fun _ => (rmdir env bdir) ≫= fun _ => mret tt
  end.

(** *** Prompt records *)

Definition prompt_record (h : Z) (content : list byte) : cJSON :=
  cJSON_AddStringToObject
    (cJSON_AddStringToObject (cJSON_AddStringToObject cJSON_CreateObject (bs "type") (bs "prompt"))
       (bs "hash") (hash_text h))
    (bs "content") content.

Definition write_prompt (s : clm_session) (fd : nat) (content : list byte) : M (Z * clm_session) :=
  let h := prompt_hash content in
  if h =? hash s then mret (0, s)
  else r ← write_line fd (prompt_record h content);
       mret (r, if r =? 0 then with_hash s h else s).

Definition system_text (m : clm_message) (cz : option clm_compressor) : list byte :=
  default [] (get_string (clm_message_to_json_full m cz) (bs "content")).

(** What a line makes of the hash of the last prompt record. *)
Definition prompt_line (h : Z) (line : list byte) : Z :=
  if has_prefix prompt_pre line then
    match get_string (cJSON_Parse line) (bs "hash") with Some hex => strtoull16 hex | None => h end
  else h.

Definition last_prompt_hash (p : path) : M Z :=
  r ← clm_read_file env p;
  mret match r with inl _ => 0 | inr data => fold_left prompt_line (lines (c_str data)) 0 end.

(** What a line makes of the last model. *)
Definition model_line (mp : option (list byte) * option (list byte)) (line : list byte) :=
  let obj := cJSON_Parse line in
  match get_string obj (bs "type") with
  | Some t => if beq t (bs "model") then (get_string obj (bs "model"), get_string obj (bs "provider")) else mp
  | None => mp
  end.

Definition last_model_line (p : path) : M (option (list byte) * option (list byte)) :=
  r ← clm_read_file env p;
  mret match r with inl _ => (None, None) | inr data => fold_left model_line (lines (c_str data)) (None, None) end.

Definition clm_session_open (xdg home : option (list byte)) (dir : option path) (id : list byte)
  : M (Z + clm_session) :=
  if negb (id_valid id) then mret (inl (- EINVAL))
  else
    p ← session_path xdg home dir id;
    match p with
    | inl r => mret (inl r)
    | inr p =>
        fd ← open_append env p;
        match fd with
        | inl r => mret (inl r)
        | inr fd =>
            h ← last_prompt_hash p;
            blob_gc p ≫= fun _ =>
            mret (inr (with_hash (with_msgs (session_alloc fd id p) true) h))
        end
    end.

(** The record of a message, without its images. *)
Definition msg_record (m : clm_message) (cz : option clm_compressor) : option cJSON :=
  obj ← clm_message_to_json_full m cz;
  Some (cJSON_AddStringToObject obj (bs "type") (bs "msg")).

(** The images to their files, then the line that names them to [fd]. *)
Definition write_message (log : path) (fd : nat) (m : clm_message) (cz : option clm_compressor) : M Z :=
  match msg_record m cz with
  | None => mret (- ENOMEM)
  | Some obj =>
      '(r, obj) ← store_attachments log m obj;
      if r <? 0 then mret r else write_line fd obj
  end.

Definition clm_session_append (s : clm_session) (m : clm_message) (cz : option clm_compressor)
  : M (Z * clm_session) :=
  if bool_decide (role m = CLM_ROLE_SYSTEM) then write_prompt s (sfd s) (system_text m cz)
  else
    r ← write_message (spath s) (sfd s) m cz;
    mret (if r <? 0 then (r, s) else (0, if is_talk (role m) then with_msgs s true else s)).

Definition model_record (model provider_name : option (list byte)) : cJSON :=
  add_opt
    (add_opt
       (cJSON_AddItemToObject (cJSON_AddStringToObject cJSON_CreateObject (bs "type") (bs "model"))
          (bs "ts") (cJSON_CreateNumber now))
       (bs "model") model)
    (bs "provider") provider_name.

Definition write_model_line (fd : nat) (model provider_name : option (list byte)) : M Z :=
  write_line fd (model_record model provider_name).

Definition clm_session_log_model (s : clm_session) (model provider_name : option (list byte))
  : M (Z * clm_session) :=
  r ← write_model_line (sfd s) model provider_name;
  mret (if r <? 0 then (r, s) else (0, with_model s model provider_name)).

(** The first line of a log; the text ends at a NUL. *)
Definition first_line (data : list byte) : option (list byte) :=
  match lines (c_str data) with [] => None | l :: _ => Some l end.

Definition read_meta_line (p : path) : M (option (list byte)) :=
  r ← clm_read_file env p;
  mret match r with inl _ => None | inr data => first_line data end.

(** The loop of [clm_session_rewrite] over the history, up to the first
    error: its result, whether there was a user's or the model's message,
    and the session. *)
Fixpoint rewrite_messages (log : path) (fd : nat) (cz : option clm_compressor) (h : clm_history)
    (msgs : bool) (s : clm_session) : M (Z * bool * clm_session) :=
  match h with
  | [] => mret (0, msgs, s)
  | m :: h' =>
      if bool_decide (role m = CLM_ROLE_SYSTEM) then
        '(r, s) ← write_prompt (with_hash s 0) fd (system_text m cz);
        if r <? 0 then mret (r, msgs, s) else rewrite_messages log fd cz h' msgs s
      else
        r ← write_message log fd m cz;
        if r <? 0 then mret (r, msgs, s) else rewrite_messages log fd cz h' (msgs || is_talk (role m)) s
  end.

(** The model record the rewritten log begins with: this run's switch, or
    the last one of the log. *)
Definition rewrite_model (s : clm_session) (fd : nat) : M Z :=
  mp ← match cur_model s, cur_provider s with
       | None, None => last_model_line (spath s)
       | m, p => mret (m, p)
       end;
  match mp with
  | (None, None) => mret 0
  | (m, p) => write_model_line fd m p
  end.

(** What is written to the temporary file, synced. *)
Definition rewrite_body (s : clm_session) (fd : nat) (meta : list byte) (h : clm_history)
    (cz : option clm_compressor) : M (Z * bool * clm_session) :=
  r ← dprintf fd (meta ++ [x0a]);
  if r <? 0 then mret (- EIO, false, s)
  else
    r ← rewrite_model s fd;
    if r <? 0 then mret (r, false, s)
    else
      '(r, msgs, s) ← rewrite_messages (spath s) fd cz h false s;
      if r <? 0 then mret (r, msgs, s)
      else r ← fsync env fd; mret (r, msgs, s).

Definition clm_session_rewrite (s : clm_session) (h : clm_history) (cz : option clm_compressor)
  : M (Z * clm_session) :=
  meta ← read_meta_line (spath s);
  match meta with
  | None => mret (- EIO, s)
  | Some meta =>
      let tmp := spath s ++ bs ".tmp" in
      let bak := spath s ++ bs ".bak" in
      fd ← open_trunc env tmp;
      match fd with
      | inl r => mret (r, s)
      | inr fd =>
          '(r, msgs, s) ← rewrite_body s fd meta h cz;
          r ← (if r <? 0 then mret r
               else (unlink env bak) ≫= fun _ =>
                    (link env (spath s) bak) ≫= fun _ =>
                    rename env tmp (spath s));
          if r <? 0 then (unlink env tmp) ≫= fun _ => mret (r, s)
          else
            blob_gc (spath s) ≫= fun _ =>
            r ← attempt env id (fun d => (0, d));   (* lseek *)
            mret (r, with_msgs (with_fd s fd) msgs)
      end
  end.

Definition clm_session_discard (s : clm_session) : M Z :=
  r ← unlink env (spath s);
  (unlink env (spath s ++ bs ".bak")) ≫= fun _ =>
  blob_dir_remove (blob_dir_of (spath s)) ≫= fun _ =>
  blob_dir_remove (spool_dir_of (spath s)) ≫= fun _ =>
  mret r.

(** The first 128 bytes of a call's id, without path syntax. *)
Definition safe_name (name : list byte) : list byte :=
  map (fun c => if is_lower c || is_upper c || is_digit c || Byte.eqb c x2d then c else x5f) (take 128 (c_str name)).

Definition spool_path (log : path) (name : list byte) : path :=
  spool_dir_of log ++ bs "/" ++ safe_name name ++ bs ".txt".

Definition clm_session_spool (s : clm_session) (name data : list byte) (pathsz : Z) : M (Z * path) :=
  match safe_name name with
  | [] => mret (- EINVAL, [])
  | _ =>
      r ← mkdir env (spool_dir_of (spath s));
      if (r <? 0) && negb (r =? - EEXIST) then mret (r, [])
      else
        fd ← open_trunc env (spool_path (spath s) name);
        match fd with
        | inl r => mret (r, [])
        | inr fd =>
            r ← full_write true false (patience + length data) fd data;
            mret (if r =? 0
                  then if pathsz <=? zlen (spool_path (spath s) name)
                       then (- ENAMETOOLONG, take (Z.to_nat pathsz - 1) (spool_path (spath s) name))
                       else (0, spool_path (spath s) name)
                  else (r, []))
        end
  end.

(** *** Loading *)

Definition missing_note (c : option (list byte)) (mt : list byte) : list byte :=
  default [] c ++ [x0a] ++ bs "[image missing from the session log: " ++ mt ++ bs "]".

(** Nothing is replaced in a record without content. *)
Definition add_note (obj : cJSON) (mt : list byte) : cJSON :=
  match cJSON_GetObjectItemCaseSensitive obj (bs "content") with
  | None => obj
  | Some _ => cJSON_update obj (bs "content")
                (cJSON_CreateString (missing_note (get_string (Some obj) (bs "content")) mt))
  end.

(** The loop of [load_attachments] over the records of the images. *)
Fixpoint load_images (obj : cJSON) (bdir : option path) (es : list cJSON) (imgs : list clm_attachment) (max : nat)
  : M (cJSON * list clm_attachment) :=
  match es with
  | [] => mret (obj, imgs)
  | e :: es' =>
      match get_string (Some e) (bs "media_type"), get_string (Some e) (bs "sha256") with
      | Some mt, Some sha =>
          if negb (sha_valid (Some sha)) || (max <=? length imgs)%nat then load_images obj bdir es' imgs max
          else
            data ← match bdir with Some b => blob_read (blob_path b sha mt) | None => mret None end;
            match data with
            | None => load_images (add_note obj mt) bdir es' imgs max
            | Some data => load_images obj bdir es' (imgs ++ [mk_attachment mt data]) max
            end
      | _, _ => load_images obj bdir es' imgs max
      end
  end.

Definition attachment_records (obj : cJSON) : list cJSON :=
  match cJSON_GetObjectItemCaseSensitive obj (bs "attachments") with Some a => cJSON_elements a | None => [] end.

Definition load_attachments (obj : cJSON) (bdir : option path) (max : nat) : M (cJSON * list clm_attachment) :=
  load_images obj bdir (attachment_records obj) [] max.

(** The images go to the message that was added. *)
Fixpoint add_images (h : clm_history) (imgs : list clm_attachment) : clm_history :=
  match h with
  | [] => []
  | [m] => [fold_left (fun m a => clm_message_add_attachment m (media_type a) (a_data a)) imgs m]
  | m :: h' => m :: add_images h' imgs
  end.

(** [out_meta]: [None] for NULL, else what it points to. *)
Definition set_member (meta : cJSON) (k : list byte) (v : option (list byte)) : cJSON :=
  match v with
  | None => meta
  | Some v => cJSON_AddStringToObject (cJSON_DeleteItemFromObjectCaseSensitive meta k) k v
  end.

Definition session_parse_line (h : clm_history) (line : list byte) (out_meta : option (option cJSON))
    (blob_dir : option path) : M (Z * clm_history * option (option cJSON)) :=
  match cJSON_ParseWithLength line with
  | None => mret (0, h, out_meta)
  | Some obj =>
      match (if cJSON_IsObject obj then get_string (Some obj) (bs "type") else None) with
      | None => mret (0, h, out_meta)
      | Some type =>
          if beq type (bs "meta") then
            if match v ← cJSON_GetObjectItemCaseSensitive obj (bs "v"); cJSON_GetNumberValue v with
               | Some v => SESSION_FMT_VERSION <? v
               | None => false
               end
            then mret (- EPROTONOSUPPORT, h, out_meta)
            else mret (0, h, match out_meta with Some None => Some (Some obj) | _ => out_meta end)
          else if beq type (bs "msg") then
            '(obj, imgs) ← load_attachments obj blob_dir (length (attachment_records obj));
            let '(r, h) := clm_message_from_json h obj None in
            mret (0, if r =? 0 then add_images h imgs else h, out_meta)
          else if beq type (bs "model") then
            mret (0, h, match out_meta with
                        | Some (Some meta) =>
                            Some (Some (set_member (set_member meta (bs "model") (get_string (Some obj) (bs "model")))
                                          (bs "provider") (get_string (Some obj) (bs "provider"))))
                        | _ => out_meta
                        end)
          else mret (0, h, out_meta)
      end
  end.

Fixpoint load_lines (h : clm_history) (ls : list (list byte)) (out_meta : option (option cJSON))
    (blob_dir : option path) : M (Z * clm_history * option (option cJSON)) :=
  match ls with
  | [] => mret (0, h, out_meta)
  | l :: ls' =>
      '(r, h, out_meta) ← session_parse_line h l out_meta blob_dir;
      if r <? 0 then mret (r, h, out_meta) else load_lines h ls' out_meta blob_dir
  end.

(** The load of the log at a path. *)
Definition load_log (p : path) (h : clm_history) (out_meta : option (option cJSON))
  : M (Z * clm_history * option (option cJSON)) :=
  data ← clm_read_file env p;
  match data with
  | inl r => mret (r, h, out_meta)
  | inr data => load_lines h (chunks data) out_meta (Some (blob_dir_of p))
  end.

Definition clm_session_load (xdg home : option (list byte)) (dir : option path) (id : list byte) (h : clm_history)
    (want_meta : bool) : M (Z * clm_history * option (option cJSON)) :=
  let out_meta := if want_meta then Some None else None in
  if negb (id_valid id) then mret (- EINVAL, h, out_meta)
  else
    p ← session_path xdg home dir id;
    match p with
    | inl r => mret (r, h, out_meta)
    | inr p => load_log p h out_meta
    end.

(** *** Listings *)

Record clm_session_info := mk_info {
  i_id : list byte;
  i_model : option (list byte);
  i_agent : option (list byte);
  created : Z;
  first_user : option (list byte)
}.

(** The text a listing shows: of the first message of the user that is not
    the frontend's. *)
Fixpoint first_prompt (h : clm_history) : option (list byte) :=
  match h with
  | [] => None
  | m :: h' =>
      match role m, content m with
      | CLM_ROLE_USER, Some c => if has_prefix (bs "[context update]") c then first_prompt h' else Some (snippet c)
      | _, _ => first_prompt h'
      end
  end.

Definition info_fill (xdg home : option (list byte)) (dir : option path) (id : list byte) : M (Z + clm_session_info) :=
  '(r, h, out_meta) ← clm_session_load xdg home dir id [] true;
  mret (if r <? 0 then inl r
        else let meta := default None out_meta in
             inr (mk_info id (get_string meta (bs "model")) (get_string meta (bs "agent"))
                    (default 0 (meta ← meta; c ← cJSON_GetObjectItemCaseSensitive meta (bs "created"); cJSON_GetNumberValue c))
                    (first_prompt h))).

(** The id a directory entry is the log of. *)
Definition log_id (name : list byte) : option (list byte) :=
  let n := (length name - length jsonl)%nat in
  if ((length name <=? length jsonl) || (SESSION_ID_MAX + 8 <=? n))%nat then None
  else if negb (beq (drop n name) jsonl) then None
  else if id_valid (take n name) then Some (take n name) else None.

Fixpoint fill_infos (xdg home : option (list byte)) (dir : option path) (es : list path) (infos : list clm_session_info)
  : M (list clm_session_info) :=
  match es with
  | [] => mret infos
  | name :: es' =>
      match log_id name with
      | None => fill_infos xdg home dir es' infos
      | Some id =>
          r ← info_fill xdg home dir id;
          fill_infos xdg home dir es' match r with inr i => infos ++ [i] | inl _ => infos end
      end
  end.

(** [strcmp], on C strings *)
Fixpoint strcmp (a b : list byte) : comparison :=
  match a, b with
  | [], [] => Eq
  | [], _ => Lt
  | _, [] => Gt
  | x :: a', y :: b' => match Z.compare (b2z x) (b2z y) with Eq => strcmp a' b' | c => c end
  end.

Definition info_cmp (a b : clm_session_info) : comparison :=
  match Z.compare (created b) (created a) with Eq => strcmp (i_id b) (i_id a) | c => c end.

Definition info_le (a b : clm_session_info) : Prop := info_cmp a b <> Gt.

#[export] Instance info_le_dec a b : Decision (info_le a b).
Proof. unfold info_le. destruct (info_cmp a b); [left|left|right]; by try congruence. Defined.

(** [qsort] by the comparison. *)
Definition clm_session_list (xdg home : option (list byte)) (dir : option path) : M (Z + list clm_session_info) :=
  d ← resolve_dir xdg home dir;
  match d with
  | inl r => mret (inl r)
  | inr d =>
      es ← readdir env d;
      match es with
      | inl r => mret (if r =? - ENOENT then inr [] else inl r)
      | inr es => infos ← fill_infos xdg home dir es []; mret (inr (merge_sort info_le infos))
      end
  end.

(** *** Old sessions *)

(** [age]: the seconds since a file was last written. *)
Definition gc_file (age : path -> Z) (d : path) (max_age_days : Z) (name : list byte) : M bool :=
  let tmp := has_suffix name (bs ".tmp") in
  if negb tmp && negb (has_suffix name jsonl) && negb (has_suffix name (bs ".bak")) then mret false
  else
    let p := d ++ bs "/" ++ name in
    st ← access env p;   (* stat *)
    if negb (st =? 0) then mret false
    else if age p <? (if tmp then 1 else max_age_days) * 86400 then mret false
    else r ← unlink env p; mret (r =? 0).

Fixpoint gc_files (age : path -> Z) (d : path) (max_age_days : Z) (es : list path) (n : Z) : M Z :=
  match es with
  | [] => mret n
  | e :: es' => b ← gc_file age d max_age_days e; gc_files age d max_age_days es' (if b : bool then n + 1 else n)
  end.

Definition gc_dir (d : path) (name : list byte) : M unit :=
  if negb (has_suffix name (bs ".blobs")) && negb (has_suffix name (bs ".spool")) then mret tt
  else
    a ← access env (d ++ bs "/" ++ take (length name - 6) name ++ jsonl);
    if a =? 0 then mret tt else blob_dir_remove (d ++ bs "/" ++ name).

Definition clm_session_gc (xdg home : option (list byte)) (age : path -> Z) (dir : option path) (max_age_days : Z)
  : M (Z + Z) :=
  if max_age_days =? 0 then mret (inr 0)
  else
    d ← resolve_dir xdg home dir;
    match d with
    | inl r => mret (inl r)
    | inr d =>
        es ← readdir env d;
        match es with
        | inl r => mret (if r =? - ENOENT then inr 0 else inl r)
        | inr es =>
            n ← gc_files age d max_age_days es 0;
            es ← readdir env d;   (* rewinddir *)
            each_entry (gc_dir d) match es with inr es => es | inl _ => [] end ≫= fun _ => mret (inr n)
        end
    end.
End Store.
