(* ===== verification/SessionFacts.v ===== *)
(** What the session store promises: a rewrite that is stopped anywhere
    leaves the old log or the new one, a session touches no file but its own,
    and the collection of unused images keeps what the log names. *)

From S2P Require Import Prelude Utf8 Image Sha256 CJson History HistoryJson Disk Session.
From stdpp Require Import gmap.
#[local] Open Scope Z_scope.
#[local] Opaque session_sha256_hex.

(** ** The names of a session *)

Section Names.
Context (st : path) (Hst : st <> []).
Abbreviation log := (st ++ jsonl).

Lemma stem_log : stem log = st.
Proof.
  unfold stem. assert (E : (length log - 6 = length st)%nat) by (rewrite length_app; change (length jsonl) with 6%nat; lia).
  rewrite E, drop_app_length, take_app_length, beq_refl.
  assert ((6 <? length log)%nat = true) as ->; [|done].
  apply Nat.ltb_lt. rewrite length_app. change (length jsonl) with 6%nat. destruct st; [done|]. cbn. lia.
Qed.

Lemma blob_dir_log : blob_dir_of log = st ++ bs ".blobs".
Proof. unfold blob_dir_of. by rewrite stem_log. Qed.

Lemma spool_dir_log : spool_dir_of log = st ++ bs ".spool".
Proof. unfold spool_dir_of. by rewrite stem_log. Qed.
End Names.

(** The name of an entry: not a path, and not the directory or its parent. *)
Definition plain (x : path) : Prop := (x2f ∉ x) /\ (x <> bs ".") /\ (x <> bs "..").

(** A directory and the names in it. *)
Definition under (dir p : path) : Prop := p = dir \/ exists x, p = dir ++ bs "/" ++ x /\ plain x.

Lemma under_dir dir : under dir dir.
Proof. by left. Qed.

Lemma under_entry dir x : plain x -> under dir (dir ++ bs "/" ++ x).
Proof. right. by exists x. Qed.

Lemma plain_ext x y : x2f ∉ x -> x2f ∉ y -> last y <> Some x2e -> y <> [] -> plain (x ++ y).
Proof.
  intros Hx Hy Hl Hn. split; [by intros [?|?]%elem_of_app|].
  destruct (last y) as [c|] eqn:Ey; [|by apply last_None in Ey].
  split; intros E; apply (f_equal last) in E; rewrite last_app, Ey in E; apply Hl; rewrite E; reflexivity.
Qed.

Lemma no_slash (l : list byte) : forallb (fun c => negb (Byte.eqb c x2f)) l = true -> x2f ∉ l.
Proof. intros Hl Hx. apply list_elem_of_In in Hx. rewrite forallb_forall in Hl. by specialize (Hl _ Hx). Qed.

Definition hash_char (c : byte) : bool := is_digit c || in_range 97 (b2z c) 102.

Lemma hexdigit_ok v : hash_char (hexdigit (Z.land v 15)) = true.
Proof.
  assert (Hv : 0 <= Z.land v 15 < 16) by (rewrite (land_ones_mod v 4 15) by done; apply Z.mod_pos_bound; lia).
  set (x := Z.land v 15) in *. clearbody x.
  assert (Hx : exists n, (n < 16)%nat /\ x = Z.of_nat n) by (exists (Z.to_nat x); lia).
  destruct Hx as (n & Hn & ->). clear Hv. do 16 (destruct n as [|n]; [reflexivity|]). lia.
Qed.

Lemma hex8_ok v : forallb hash_char (hex8 v) = true.
Proof. apply forallb_forall. unfold hex8. intros c (i & <- & _)%in_map_iff. apply hexdigit_ok. Qed.

Lemma sha_valid_hex data : sha_valid (Some (session_sha256_hex data)) = true.
Proof.
  assert (Hh : forall h, sha_valid (Some (hex_out h)) = true).
  { intros h. unfold sha_valid, hex_out. rewrite !length_app. unfold hex8 at 1 2 3 4 5 6 7 8.
    rewrite !length_map, !length_seq. cbn [Nat.add Nat.eqb]. cbv iota. fold hash_char.
    rewrite !forallb_app. change (fun c : byte => is_digit c || in_range 97 (b2z c) 102) with hash_char.
    by rewrite !hex8_ok. }
  apply Hh.
Qed.

Lemma hash_no_slash data : x2f ∉ session_sha256_hex data.
Proof.
  pose proof (sha_valid_hex data) as [_ Hv]%andb_true_iff. apply no_slash. revert Hv. rewrite !forallb_forall.
  intros Hv c Hc. specialize (Hv c Hc). by destruct c.
Qed.

Lemma blob_ext_no_slash mt : x2f ∉ bs "." ++ blob_ext mt.
Proof. apply no_slash. unfold blob_ext. by repeat case_match. Qed.

Lemma safe_name_no_slash name : x2f ∉ safe_name name.
Proof.
  intros Hx. unfold safe_name in Hx. apply list_elem_of_In, in_map_iff in Hx as (c & E & _).
  destruct (_ || _) eqn:Ec in E; [|done]. by subst c.
Qed.

(** The files of the session of a log. *)
Definition owned (log p : path) : Prop :=
  p = log \/ p = log ++ bs ".tmp" \/ p = log ++ bs ".bak" \/ under (blob_dir_of log) p \/ under (spool_dir_of log) p.

Lemma sole_last p c : last p = Some c -> c <> x6c -> c <> x6b -> sole p.
Proof.
  intros Hl H1 H2 q. split; intros (s & E1 & E2).
  - rewrite E1, last_app in Hl. change (last (bs ".jsonl")) with (Some x6c) in Hl. congruence.
  - rewrite E2, last_app in Hl. change (last (bs ".jsonl.bak")) with (Some x6b) in Hl. congruence.
Qed.

Lemma sole_tmp p : sole (p ++ bs ".tmp").
Proof. apply (sole_last _ x70); [by rewrite last_app|done..]. Qed.

Lemma sole_txt p : sole (p ++ bs ".txt").
Proof. apply (sole_last _ x74); [by rewrite last_app|done..]. Qed.

Lemma under_log st dir x : dir = bs ".blobs" \/ dir = bs ".spool" -> st ++ dir ++ x <> st ++ jsonl.
Proof. intros Hd E. apply app_inv_head in E. by destruct Hd as [-> | ->]. Qed.

Lemma not_under_log st dir : dir = bs ".blobs" \/ dir = bs ".spool" -> ~ under (st ++ dir) (st ++ jsonl).
Proof.
  intros Hd [E|(x & E & _)]; [|rewrite <- app_assoc in E]; symmetry in E.
  - apply (under_log st dir []) in Hd. by rewrite app_nil_r in Hd.
  - by apply under_log in E.
Qed.

Lemma log_tmp_ne (p s : path) : s <> [] -> p ++ s <> p.
Proof. intros Hs E. apply (f_equal length) in E. rewrite length_app in E. destruct s; [done|]. cbn in E. lia. Qed.

Section Facts.
Context `{J : CJson} (env : nat -> answer).
Context (cJSON_PrintUnformatted : cJSON -> option (list byte)).
Context (cJSON_ParseWithLength : list byte -> option cJSON).
Context (now : Z) (patience : nat).

Abbreviation write_line := (write_line env cJSON_PrintUnformatted).
Abbreviation blob_write := (blob_write env patience).
Abbreviation full_write := (full_write env).
Abbreviation store_images := (store_images env patience).
Abbreviation store_attachments := (store_attachments env patience).
Abbreviation write_prompt := (write_prompt env cJSON_PrintUnformatted).
Abbreviation write_message := (write_message env cJSON_PrintUnformatted patience).
Abbreviation rewrite_messages := (rewrite_messages env cJSON_PrintUnformatted patience).

(** ** Writing *)

Section Writing.
Context (G : path -> Prop) (d0 : disk).
Abbreviation U := (same G d0).

Lemma h_full_write p i retry stops : apart G p -> forall fuel x b,
  hoare U (open_at G d0 p i b) (full_write retry stops fuel i x)
    (fun r d => exists z, open_at G d0 p i (b ++ z) d /\ (r = 0 -> z = x) /\ r <= 0).
Proof.
  intros Ha fuel. induction fuel as [|fuel IH]; intros x b.
  { destruct x; apply h_ret; intros d Hd; exists []; rewrite !app_nil_r; split_and!; try done. }
  destruct x as [|c x]; cbn [Session.full_write].
  { apply h_ret. intros d Hd. exists []. rewrite !app_nil_r. by split_and!. }
  eapply h_bind; [by apply h_write|]. intros w.
  set (x1 := take (Z.to_nat w) (c :: x)). set (x2 := drop (Z.to_nat w) (c :: x)).
  assert (Ex : c :: x = x1 ++ x2) by (symmetry; apply take_drop).
  assert (Hgo : forall y, hoare U (open_at G d0 p i (b ++ x1)) (full_write retry stops fuel i y)
    (fun r d => exists z, open_at G d0 p i (b ++ x1 ++ z) d /\ (r = 0 -> z = y) /\ r <= 0)).
  { intros y. eapply h_post; [apply IH|]. intros r d (z & Hz). exists z. by rewrite <- app_assoc in Hz. }
  apply (h_pre _ (open_at G d0 p i (b ++ x1))); [|by intros d []].
  destruct (Z.ltb_spec w 0) as [Hw|Hw].
  - assert (E1 : x1 = []) by (unfold x1; by replace (Z.to_nat w) with 0%nat by lia).
    assert (E2 : x2 = c :: x) by (unfold x2; by replace (Z.to_nat w) with 0%nat by lia).
    destruct (retry && _); [|apply h_ret; intros d Hd; exists x1; split_and!; [done|lia|lia]].
    eapply h_post; [apply Hgo|]. intros r d (z & Hz & Hr & Hr'). exists (x1 ++ z). split; [done|]. split; [|done].
    intros E. by rewrite (Hr E), E1.
  - destruct (stops && _); [apply h_ret; intros d Hd; exists x1; split_and!; [done|done|done]|].
    eapply h_post; [apply Hgo|]. intros r d (z & Hz & Hr & Hr'). exists (x1 ++ z). split; [done|]. split; [|done].
    intros E. by rewrite (Hr E), Ex.
Qed.

(** The text of a line. *)
Definition line_of (obj : cJSON) : option (list byte) := t ← cJSON_PrintUnformatted obj; Some (c_str t ++ [x0a]).

Lemma h_write_line p i b obj : apart G p ->
  hoare U (open_at G d0 p i b) (write_line i obj)
    (fun r d => exists z, open_at G d0 p i (b ++ z) d /\ (r = 0 -> line_of obj = Some z) /\ r <= 0).
Proof.
  intros Ha. unfold Session.write_line, line_of. destruct (cJSON_PrintUnformatted obj) as [t|]; cbn [mbind option_bind].
  - eapply h_bind; [by apply h_write|]. intros w. apply h_ret. intros d [Ho Hw]. eexists. split; [done|].
    destruct (Z.ltb_spec w 0); [lia|]. case_if; [|done]. split; [|done]. intros _. subst w. unfold zlen.
    by rewrite Nat2Z.id, take_ge by lia.
  - apply h_ret. intros d Hd. exists []. rewrite app_nil_r. by split_and!.
Qed.

(** ** What is left alone *)

Lemma open_same p i b d : open_at G d0 p i b d -> U d.
Proof. by intros [Hd _]. Qed.

Lemma keeps_full_write p i retry stops fuel x b : apart G p ->
  hoare U (open_at G d0 p i b) (full_write retry stops fuel i x) (fun _ => U).
Proof. intros Ha. eapply h_post; [by apply h_full_write|]. intros r d (z & Hd & _). by apply open_same in Hd. Qed.

Lemma keeps_open_trunc p : ~ G p -> sole p -> keeps U (open_trunc env p).
Proof. intros Hp Hs. eapply h_post; [by apply h_open_trunc|]. by intros r d [Hd _]. Qed.

(** A file is opened, truncated, and written. *)
Lemma keeps_opened {A} p (fail : Z -> A) (k : nat -> M A) : ~ G p -> sole p ->
  (forall i, hoare U (open_at G d0 p i []) (k i) (fun _ => U)) ->
  keeps U (open_trunc env p ≫= fun fd => match fd with inl r => mret (fail r) | inr i => k i end).
Proof.
  intros Hp Hs Hk. eapply h_bind; [by apply h_open_trunc|]. intros [r|i]; [by apply h_ret; intros d []|].
  eapply h_pre; [apply Hk|]. intros d [Hd Ho]. split; [done|by apply Ho].
Qed.

Lemma keeps_and {A B} (m : M A) (n : M B) : keeps U m -> keeps U n -> keeps U (m ≫= fun _ => n).
Proof. intros Hm Hn. by apply keeps_bind. Qed.

Lemma keeps_if {A} (b : bool) (m n : M A) : keeps U m -> keeps U n -> keeps U (if b then m else n).
Proof. by destruct b. Qed.

Lemma keeps_blob_write p data : ~ G p -> ~ G (p ++ bs ".tmp") -> keeps U (blob_write p data).
Proof.
  intros Hp Ht. pose proof (sole_tmp p) as Hs. unfold Session.blob_write. apply keeps_bind; [apply keeps_access|].
  intros a. apply keeps_if; [apply keeps_ret|]. cbv zeta. apply (keeps_opened _ id); [done..|]. intros i.
  eapply h_bind; [by apply keeps_full_write, apart_sole|]. intros r.
  apply keeps_bind; [apply keeps_if; [apply keeps_fsync|apply keeps_ret]|]. intros r1.
  apply keeps_bind; [apply keeps_if; [by apply keeps_rename|apply keeps_ret]|]. intros r2.
  apply keeps_if; [apply keeps_and; [by apply keeps_unlink|]|]; apply keeps_ret.
Qed.

Section Dir.
Context (bdir : path) (Hdir : forall p, under bdir p -> ~ G p).

Lemma blob_under sha mt : x2f ∉ sha -> under bdir (blob_path bdir sha mt).
Proof.
  intros Hs. apply under_entry, plain_ext; [done|apply blob_ext_no_slash| |done]. unfold blob_ext. by repeat case_match.
Qed.

Lemma blob_tmp_under sha mt : x2f ∉ sha -> under bdir (blob_path bdir sha mt ++ bs ".tmp").
Proof.
  intros Hs. unfold blob_path. rewrite <- !app_assoc, (app_assoc (bs ".")). apply under_entry.
  rewrite app_assoc. apply plain_ext; [|by apply no_slash|done..].
  rewrite not_elem_of_app. split; [done|apply blob_ext_no_slash].
Qed.

Lemma keeps_store_images l : forall arr, keeps U (store_images bdir l arr).
Proof.
  induction l as [|a l IH]; intros arr; cbn [Session.store_images]; [apply keeps_ret|]. cbv zeta.
  apply keeps_bind; [apply keeps_blob_write; apply Hdir; [apply blob_under|apply blob_tmp_under]; apply hash_no_slash|].
  intros r. apply keeps_if; [apply keeps_ret|apply IH].
Qed.

Lemma keeps_gc_entry refs name : x2f ∉ name -> keeps U (gc_entry env bdir refs name).
Proof.
  intros Hn. unfold gc_entry. destruct (starts_with_dot name) eqn:Ed; [apply keeps_ret|]. apply keeps_if; [apply keeps_ret|].
  apply keeps_and; [|apply keeps_ret]. apply keeps_unlink, Hdir, under_entry. split_and!; [done|intros ->; done..].
Qed.

Lemma keeps_blob_dir_remove : keeps U (blob_dir_remove env bdir).
Proof.
  unfold blob_dir_remove. apply (keeps_bind_returns _ _ _ _ (keeps_readdir _ _ _) (readdir_entries _ _)).
  intros [r|es] Hes; [apply keeps_ret|].
  apply keeps_and; [|apply keeps_and; [by apply keeps_rmdir, Hdir, under_dir|apply keeps_ret]]. apply keeps_each_entry. intros x Hx.
  unfold remove_entry. destruct (beq x (bs ".") || beq x (bs "..")) eqn:Ed; [apply keeps_ret|]. apply keeps_and; [|apply keeps_ret].
  apply keeps_unlink, Hdir, under_entry. split_and!; [by eapply Hes|intros ->; done..].
Qed.
End Dir.

Lemma keeps_store_attachments log m obj : (forall p, under (blob_dir_of log) p -> ~ G p) ->
  keeps U (store_attachments log m obj).
Proof.
  intros Hd. unfold Session.store_attachments. destruct (attachments m); [apply keeps_ret|]. cbv zeta.
  apply keeps_bind; [by apply keeps_mkdir, Hd, under_dir|]. intros r. apply keeps_if; [apply keeps_ret|].
  apply keeps_bind; [by apply keeps_store_images|]. intros [r1 arr]. apply keeps_ret.
Qed.

Lemma keeps_blob_gc log : (forall p, under (blob_dir_of log) p -> ~ G p) -> keeps U (blob_gc env log).
Proof.
  intros Hd. unfold blob_gc. cbv zeta. apply (keeps_bind_returns _ _ _ _ (keeps_readdir _ _ _) (readdir_entries _ _)).
  intros [r|es] Hes; [apply keeps_ret|].
  apply keeps_bind; [apply keeps_bind; [apply keeps_read|intros; apply keeps_ret]|]. intros r1.
  apply keeps_bind; [apply keeps_bind; [apply keeps_read|intros; apply keeps_ret]|]. intros r2.
  apply keeps_and; [|apply keeps_and; [by apply keeps_rmdir, Hd, under_dir|apply keeps_ret]].
  apply keeps_each_entry. intros x Hx. apply keeps_gc_entry; [done|]. by eapply Hes.
Qed.
End Writing.

(** ** A message's line *)

Definition add_record (arr : cJSON) (a : clm_attachment) : cJSON :=
  cJSON_AddItemToArray arr (attachment_record (media_type a) (session_sha256_hex (a_data a)) (zlen (a_data a))).

Definition image_records (l : list clm_attachment) : cJSON := fold_left add_record l cJSON_CreateArray.

(** The record with its images. *)
Definition with_images (m : clm_message) (obj : cJSON) : cJSON :=
  match attachments m with [] => obj | l => cJSON_AddItemToObject obj (bs "attachments") (image_records l) end.

Definition message_text (m : clm_message) (cz : option clm_compressor) : option (list byte) :=
  obj ← msg_record m cz; line_of (with_images m obj).

Lemma store_images_returns bdir l : forall arr, returns (store_images bdir l arr)
  (fun ra => fst ra <= 0 /\ (fst ra = 0 -> snd ra = fold_left add_record l arr)).
Proof.
  induction l as [|a l IH]; intros arr; cbn [Session.store_images fold_left]; [by apply returns_ret|]. cbv zeta.
  eapply returns_bind; [apply returns_any|]. intros r _.
  destruct (Z.ltb_spec r 0); [apply returns_ret; cbn; split; lia|apply IH].
Qed.

Lemma store_attachments_returns log m obj : returns (store_attachments log m obj)
  (fun ro => fst ro <= 0 /\ (fst ro = 0 -> snd ro = with_images m obj)).
Proof.
  unfold Session.store_attachments, with_images. destruct (attachments m) as [|a l]; [by apply returns_ret|]. cbv zeta.
  eapply returns_bind; [apply returns_any|]. intros r _.
  destruct (_ && _) eqn:E; [apply andb_true_iff in E as [E _]; apply returns_ret; cbn; split; lia|].
  eapply returns_bind; [apply store_images_returns|]. intros [r1 arr] [H1 H2]. apply returns_ret.
  cbn in *. split; [done|]. intros E1. by rewrite (H2 E1).
Qed.

Section Message.
Context (G : path -> Prop) (d0 : disk).
Abbreviation U := (same G d0).
Context (log p : path) (i : nat).
Context (Hap : apart G p) (Hdir : forall q, under (blob_dir_of log) q -> ~ (G q \/ q = p)).

Lemma store_keeps_open b m obj : hoare U (open_at G d0 p i b) (store_attachments log m obj) (fun _ => open_at G d0 p i b).
Proof.
  eapply h_weaken; [apply (keeps_beside G d0 p i b False)|done|by split|by intros ? ? []].
  intros d1. by apply keeps_store_attachments.
Qed.

Lemma h_write_message b m cz : hoare U (open_at G d0 p i b) (write_message log i m cz)
  (fun r d => exists z, open_at G d0 p i (b ++ z) d /\ (r = 0 -> message_text m cz = Some z) /\ r <= 0).
Proof.
  unfold Session.write_message, message_text. destruct (msg_record m cz) as [obj|]; cbn [mbind option_bind].
  2: { apply h_ret. intros d Hd. exists []. rewrite app_nil_r. by split_and!. }
  eapply h_bind; [apply h_and; [apply store_keeps_open|apply store_attachments_returns]|]. intros [r o]. cbn [fst snd].
  destruct (Z.ltb_spec r 0).
  - apply h_ret. intros d [Hd _]. exists []. rewrite app_nil_r. split_and!; [done|lia|lia].
  - apply (h_pre _ (fun d => o = with_images m obj /\ open_at G d0 p i b d)); [|intros d (Hd & H1 & H2)].
    + apply h_fact. intros ->. by apply h_write_line.
    + split; [apply H2; lia|done].
Qed.

(** ** The new log *)

Definition prompt_text (text : list byte) : option (list byte) := line_of (prompt_record (prompt_hash text) text).

Fixpoint history_text (cz : option clm_compressor) (h : clm_history) : option (list byte) :=
  match h with
  | [] => Some []
  | m :: h' =>
      t ← (if bool_decide (role m = CLM_ROLE_SYSTEM) then prompt_text (system_text m cz) else message_text m cz);
      r ← history_text cz h'; Some (t ++ r)
  end.

Lemma prompt_hash_nz t : prompt_hash t <> 0.
Proof. unfold prompt_hash. cbv zeta. case_if; lia. Qed.

Lemma h_write_prompt b s text : hash s <> prompt_hash text ->
  hoare U (open_at G d0 p i b) (write_prompt s i text)
    (fun rs d => exists z, open_at G d0 p i (b ++ z) d /\ (fst rs = 0 -> prompt_text text = Some z) /\ fst rs <= 0 /\
      sfd (snd rs) = sfd s /\ spath (snd rs) = spath s).
Proof.
  intros Hh. unfold Session.write_prompt. cbv zeta. destruct (Z.eqb_spec (prompt_hash text) (hash s)); [done|].
  eapply h_bind; [by apply h_write_line|]. intros r. apply h_ret. intros d (z & Hd & Hr & Hr'). exists z.
  cbn [fst snd]. split_and!; try done; by case_if.
Qed.

Lemma h_rewrite_messages cz h : forall b msgs s, spath s = log ->
  hoare U (open_at G d0 p i b) (rewrite_messages log i cz h msgs s)
    (fun rms d => exists z, open_at G d0 p i (b ++ z) d /\ (fst (fst rms) = 0 -> history_text cz h = Some z) /\
      fst (fst rms) <= 0 /\ sfd (snd rms) = sfd s /\ spath (snd rms) = log).
Proof.
  induction h as [|m h IH]; intros b msgs s Hs; cbn [Session.rewrite_messages history_text].
  { apply h_ret. intros d Hd. exists []. rewrite app_nil_r. by split_and!. }
  set (t := if bool_decide _ then prompt_text _ else _).
  assert (Hgo : forall r msgs' s', spath s' = log -> sfd s' = sfd s -> r <= 0 ->
    hoare U (fun d => exists z, open_at G d0 p i (b ++ z) d /\ (r = 0 -> t = Some z))
      (if r <? 0 then mret (r, msgs, s') else rewrite_messages log i cz h msgs' s')
      (fun rms d => exists z, open_at G d0 p i (b ++ z) d /\
        (fst (fst rms) = 0 -> t ≫= (fun t => history_text cz h ≫= fun r => Some (t ++ r)) = Some z) /\
        fst (fst rms) <= 0 /\ sfd (snd rms) = sfd s /\ spath (snd rms) = log)).
  { intros r msgs' s' Hp Hf Hr. apply h_exists. intros z.
    apply (h_pre _ (fun d => (r = 0 -> t = Some z) /\ open_at G d0 p i (b ++ z) d)); [|by intros d []].
    apply h_fact. intros Ht. destruct (Z.ltb_spec r 0).
    - apply h_ret. intros d Hd. exists z. cbn. split_and!; [done|lia|done..].
    - eapply h_post; [by apply (IH (b ++ z) msgs' s')|]. intros rms d (z' & Hz' & Hh & Hr' & Hf' & Hp').
      exists (z ++ z'). rewrite <- app_assoc in Hz'. split_and!; try done; [|congruence].
      intros E. rewrite (Ht ltac:(lia)), (Hh E). done. }
  unfold t in Hgo |- *. case_bool_decide.
  - eapply h_bind; [apply h_write_prompt; cbn; pose proof (prompt_hash_nz (system_text m cz)); congruence|].
    intros [r s']. cbn [fst snd]. apply h_exists. intros z.
    apply (h_pre _ (fun d => (r <= 0 /\ sfd s' = sfd s /\ spath s' = log) /\ exists z, open_at G d0 p i (b ++ z) d /\
      (r = 0 -> prompt_text (system_text m cz) = Some z))).
    + apply h_fact. intros (Hr & Hf & Hp). by apply Hgo.
    + intros d (Hz & Ht & Hr & Hf & Hp). split; [by rewrite Hp|]. by exists z.
  - eapply h_bind; [by apply h_write_message|]. intros r.
    apply (h_pre _ (fun d => r <= 0 /\ exists z, open_at G d0 p i (b ++ z) d /\ (r = 0 -> message_text m cz = Some z))).
    + apply h_fact. intros Hr. by apply Hgo.
    + intros d (z & Hz & Ht & Hr). split; [done|]. by exists z.
Qed.
End Message.

(** ** A rewrite *)

Abbreviation last_model := (fold_left (model_line cJSON_ParseWithLength)).

(** The model a rewrite repeats: this run's switch, or the last one of the
    log, if it could be read. *)
Definition kept_model (s : clm_session) (b0 : list byte) (mp : option (list byte) * option (list byte)) : Prop :=
  match cur_model s, cur_provider s with
  | None, None => mp = (None, None) \/ mp = last_model (lines (c_str b0)) (None, None)
  | m, p => mp = (m, p)
  end.

Definition model_text (mp : option (list byte) * option (list byte)) : option (list byte) :=
  match mp with (None, None) => Some [] | (m, p) => line_of (model_record now m p) end.

(** The log of the history [h], made from the log [b0]. *)
Definition new_log (s : clm_session) (b0 : list byte) (h : clm_history) (cz : option clm_compressor) (b : list byte)
  : Prop :=
  exists meta mp mt ht, first_line b0 = Some meta /\ kept_model s b0 mp /\ model_text mp = Some mt /\
    history_text cz h = Some ht /\ b = meta ++ [x0a] ++ mt ++ ht.

Lemma h_read (G : path -> Prop) d0 (P : disk -> Prop) p : (forall d, P d -> same G d0 d) -> G p ->
  hoare (same G d0) P (clm_read_file env p) (fun r d => P d /\ forall b, r = inr b -> contents d0 p = Some b).
Proof.
  intros HP Hp. apply h_attempt; [done|by split|]. intros d Hd. pose proof (s_bytes _ _ _ (HP d Hd) p Hp) as E.
  destruct (contents d p) as [c|]; cbn; (split; [by apply HP|]); (split; [done|]); intros b [= <-]; done.
Qed.

Section Rewrite.
Context (st : path) (Hst : st <> []) (d0 : disk) (b0 : list byte).
Abbreviation log := (st ++ jsonl).
Abbreviation tmp := (log ++ bs ".tmp").
Abbreviation bak := (log ++ bs ".bak").
Abbreviation old := (same (fun q => q = log) d0).
Context (Hb0 : contents d0 log = Some b0).

Lemma blob_dir_free q : under (blob_dir_of log) q -> ~ (q = log \/ q = tmp).
Proof.
  rewrite blob_dir_log by done. intros [->|(x & -> & _)] [E|E]; rewrite <- ?app_assoc in E; apply app_inv_head in E; done.
Qed.

Lemma blob_dir_not_log q : under (blob_dir_of log) q -> q <> log.
Proof. intros Hq ->. apply (blob_dir_free log Hq). by left. Qed.

Lemma tmp_not_log : tmp <> log.
Proof. by apply log_tmp_ne. Qed.

Lemma bak_not_log : bak <> log.
Proof. by apply log_tmp_ne. Qed.

Lemma bak_not_tmp : bak <> tmp.
Proof. intros E. by apply app_inv_head in E. Qed.

Lemma backs_bak : backs log bak.
Proof. exists st. split; [done|]. by rewrite <- app_assoc. Qed.

Lemma apart_tmp : apart (fun q => q = log) tmp.
Proof. apply apart_sole; [apply sole_tmp|apply tmp_not_log]. Qed.

Lemma h_rewrite_model s i b : spath s = log -> hoare old (open_at (fun q => q = log) d0 tmp i b)
  (rewrite_model env cJSON_PrintUnformatted cJSON_ParseWithLength now s i)
  (fun r d => exists mp z, open_at (fun q => q = log) d0 tmp i (b ++ z) d /\
     (r = 0 -> kept_model s b0 mp /\ model_text mp = Some z) /\ r <= 0).
Proof.
  intros Hs. unfold rewrite_model. eapply h_bind with (R := fun mp d => kept_model s b0 mp /\ open_at _ d0 tmp i b d).
  - unfold kept_model. destruct (cur_model s), (cur_provider s); try (apply h_ret; by split).
    rewrite Hs. unfold last_model_line. eapply h_bind; [apply (h_read (fun q => q = log) d0)|].
    + by intros d [Hd _].
    + done.
    + intros r. apply h_ret. intros d [Hd Hr]. split; [|done]. destruct r as [e|data]; [by left|]. right.
      specialize (Hr _ eq_refl). congruence.
  - intros mp. apply h_fact. intros Hk.
    assert (Hw : hoare old (open_at (fun q => q = log) d0 tmp i b)
      (match mp with (None, None) => mret 0 | (m, p) => write_model_line env cJSON_PrintUnformatted now i m p end)
      (fun r d => exists z, open_at (fun q => q = log) d0 tmp i (b ++ z) d /\ (r = 0 -> model_text mp = Some z) /\ r <= 0)).
    { destruct mp as [[m|] [p|]]; try (apply h_write_line, apart_tmp).
      apply h_ret. intros d Hd. exists []. by rewrite app_nil_r. }
    eapply h_post; [exact Hw|]. intros r d (z & Hz & Hm & Hr). exists mp, z. split_and!; [done|auto|done].
Qed.

Abbreviation at_tmp i b := (open_at (fun q => q = log) d0 tmp i b).

Definition ready (s : clm_session) (h : clm_history) (cz : option clm_compressor) (i : nat) (d : disk) : Prop :=
  exists b, at_tmp i b d /\ new_log s b0 h cz b /\ i ∈ synced d.

(** Failed, or all is written and safe. *)
Definition body_done s h cz i (rms : Z * bool * clm_session) (d : disk) : Prop :=
  old d /\ sfd (snd rms) = sfd s /\ spath (snd rms) = log /\ fst (fst rms) <= 0 /\
  (fst (fst rms) = 0 -> ready s h cz i d).

Lemma h_fsync_tmp s h cz i b : new_log s b0 h cz b ->
  hoare old (at_tmp i b) (fsync env i) (fun r d => old d /\ r <= 0 /\ (r = 0 -> ready s h cz i d)).
Proof.
  intros Hn. apply h_attempt; [by intros d []|intros d e [Hd _]; split_and!; [done|cbn; lia|done]|].
  intros d [Hd Ha]. cbn. set (d' := mk_disk _ _ _ _ _).
  assert (Hd' : old d').
  { destruct Hd as [[Tn Ta Tf] N B S D]. split; [by split|done|done| |done]. intros q j Hq Hj Hs. specialize (S q j Hq Hj Hs). set_solver. }
  split; [done|]. split_and!; [done|lia|]. intros _. exists b. split_and!; [by split|done|]. cbn. set_solver.
Qed.

Lemma h_rewrite_body s meta h cz i : spath s = log -> first_line b0 = Some meta ->
  hoare old (at_tmp i []) (rewrite_body env cJSON_PrintUnformatted cJSON_ParseWithLength now patience s i meta h cz)
    (body_done s h cz i).
Proof.
  intros Hs Hm. unfold rewrite_body.
  assert (Hfail : forall r msgs (P : disk -> Prop), (forall d, P d -> old d) -> r < 0 ->
    hoare old P (mret (r, msgs, s)) (body_done s h cz i)).
  { intros r msgs P HP Hr. apply h_ret. intros d Hd. cbn. split_and!; [by apply HP|done..|cbn; lia|cbn; lia]. }
  eapply h_bind; [apply h_full_write, apart_tmp|]. intros r. apply h_exists. intros z0.
  apply (h_pre _ (fun d => (r <= 0 /\ (r = 0 -> z0 = meta ++ [x0a])) /\ at_tmp i z0 d));
    [|by intros d (Hz & H0 & H1); cbn in Hz].
  apply h_fact. intros [Hr E0]. destruct (Z.ltb_spec r 0); [by apply Hfail; [intros d []|]|].
  assert (r = 0) as -> by lia. rewrite (E0 eq_refl).
  eapply h_bind; [by apply h_rewrite_model|]. intros r1. apply h_exists. intros mp. apply h_exists. intros z1.
  apply (h_pre _ (fun d => (r1 <= 0 /\ (r1 = 0 -> kept_model s b0 mp /\ model_text mp = Some z1)) /\
    at_tmp i ((meta ++ [x0a]) ++ z1) d)); [|by intros d (Hz & H1 & H2)].
  apply h_fact. intros [Hr1 E1]. destruct (Z.ltb_spec r1 0); [by apply Hfail; [intros d []|]|].
  destruct (E1 ltac:(lia)) as [Hk Ht].
  rewrite Hs. eapply h_bind; [apply (h_rewrite_messages _ _ log tmp i apart_tmp blob_dir_free _ _ _ _ _ Hs)|].
  intros [[r2 msgs] s']. cbn [fst snd]. apply h_exists. intros z2.
  apply (h_pre _ (fun d => (r2 <= 0 /\ (r2 = 0 -> history_text cz h = Some z2) /\ sfd s' = sfd s /\ spath s' = log) /\
    at_tmp i (((meta ++ [x0a]) ++ z1) ++ z2) d)); [|by intros d (Hz & H1 & H2 & H3 & H4)].
  apply h_fact. intros (Hr2 & E2 & Hf & Hp). destruct (Z.ltb_spec r2 0).
  { apply h_ret. intros d Hd. cbn. split_and!; [by destruct Hd|done..|cbn; lia]. }
  eapply h_bind.
  { apply h_fsync_tmp with (s := s) (h := h) (cz := cz). exists meta, mp, z1, z2.
    rewrite <- !app_assoc. split_and!; try done. apply E2. lia. }
  intros r3. apply h_ret. intros d (Hd & Hr3 & Hy). by split_and!.
Qed.

(** The log is the new one. *)
Definition renewed (s : clm_session) (h : clm_history) (cz : option clm_compressor) (i : nat) (d : disk) : Prop :=
  exists b, at_file log i b d /\ i ∈ synced d /\ new_log s b0 h cz b.

Definition either s h cz (d : disk) : Prop := old d \/ tidy d /\ exists i, renewed s h cz i d.

Lemma h_old {A} s h cz (P : disk -> Prop) (Q : A -> disk -> Prop) m : hoare old P m Q -> hoare (either s h cz) P m Q.
Proof. intros Hm. eapply h_weaken; [exact Hm|by left|done|done]. Qed.

(** What changes neither the log nor its descriptor. *)
Lemma renewed_keeps {A} s h cz i (m : M A) : (forall d1, keeps (same (fun q => q = log) d1) m) ->
  hoare (either s h cz) (fun d => tidy d /\ renewed s h cz i d) m (fun _ d => tidy d /\ renewed s h cz i d).
Proof.
  intros Hm w [Ht (b & Ha & Hs & Hn)].
  assert (Hd : forall d, same (fun q => q = log) (dk w) d -> tidy d /\ renewed s h cz i d).
  { intros d Hd. split; [apply Hd|]. exists b. split_and!; [by eapply same_at| |done].
    by eapply (s_synced _ _ _ Hd log); [|apply Ha|]. }
  destruct (Hm (dk w) w) as (Hq & l & El & Hl); [by apply same_refl|]. split; [by apply Hd|].
  exists l. split; [done|]. revert Hl. apply List.Forall_impl. intros d Hx. right.
  destruct (Hd d Hx) as [H1 H2]. split; [done|by exists i].
Qed.

(** The rename is where the one becomes the other. *)
Lemma h_rename_log s h cz i : hoare (either s h cz) (ready s h cz i) (rename env tmp log)
  (fun r d => (r < 0 /\ old d) \/ (r = 0 /\ tidy d /\ renewed s h cz i d)).
Proof.
  apply h_attempt.
  - intros d (b & [Hd _] & _). by left.
  - intros d e (b & [Hd _] & _). left. split; [cbn; lia|done].
  - intros d (b & [Hd [Hn Hf]] & Hnew & Hs). rewrite Hn. pose proof (s_tidy _ _ _ Hd) as Ht.
    destruct (decide _) as [E|_].
    { exfalso. apply tmp_not_log. symmetry. by apply (sole_alias d tmp log i); [|apply sole_tmp| |]. }
    cbn. assert (Ht' : tidy (set_names d (<[log := i]> (delete tmp (names d))))) by (apply tidy_rename; [done|apply sole_tmp|done]).
    assert (Hr : renewed s h cz i (set_names d (<[log := i]> (delete tmp (names d))))).
    { exists b. split_and!; [|done|done]. split; [|done]. cbn. by rewrite lookup_insert_eq. }
    split; [right; split; [done|by exists i]|by right].
Qed.

(** What is done between the sync and the rename. *)
Lemma h_backup s h cz i {A} (m : M A) : (forall d1, keeps (same (fun q => q = log \/ q = tmp) d1) m) ->
  hoare old (ready s h cz i) m (fun _ => ready s h cz i).
Proof.
  intros Hm. unfold ready. apply h_exists. intros b. 
  apply (h_pre _ (fun d => new_log s b0 h cz b /\ (at_tmp i b d /\ (True -> i ∈ synced d)))); [|by intros d (H1 & H2 & H3)].
  apply h_fact. intros Hn. eapply h_post; [by apply keeps_beside|].
  intros _ d [H1 H2]. exists b. split_and!; [done|done|by apply H2].
Qed.

Lemma open_trunc_error p : returns (open_trunc env p) (fun r => forall e, r = inl e -> e < 0).
Proof.
  intros w. unfold open_trunc, attempt, call. destruct (env (turn w)); cbn; try (intros e [= <-]; lia);
    destruct (names (dk w) !! p); cbn; intros e [= <-].
Qed.

(** The first line is the old log's. *)
Lemma h_meta : hoare old old (read_meta_line env log)
  (fun r d => old d /\ (forall m, r = Some m -> first_line b0 = Some m)).
Proof.
  unfold read_meta_line. eapply h_bind; [by apply (h_read (fun q => q = log) d0)|]. intros r. apply h_ret. intros d [Hd E].
  split; [done|]. destruct r as [|b]; [done|]. specialize (E _ eq_refl). rewrite Hb0 in E. by injection E as <-.
Qed.

(** The old log gets its backup, and the new one its name. *)
Lemma h_swap s h cz i r (Hr : r <= 0) :
  hoare (either s h cz) (fun d => old d /\ (r = 0 -> ready s h cz i d))
    (if r <? 0 then mret r
     else (unlink env bak) ≫= fun _ => (link env log bak) ≫= fun _ => rename env tmp log)
    (fun r d => (r < 0 /\ old d) \/ (r = 0 /\ tidy d /\ renewed s h cz i d)).
Proof.
  destruct (Z.ltb_spec r 0); [apply h_ret; intros d [Hd _]; by left|].
  apply (h_pre _ (ready s h cz i)); [|intros d [_ Hd]; apply Hd; lia].
  eapply h_bind; [apply h_old, h_backup; intros d1; apply keeps_unlink; intros [E|E]; [by apply bak_not_log|by apply bak_not_tmp]|].
  intros ?. eapply h_bind; [apply h_old, h_backup; intros d1; apply keeps_link;
    [intros [E|E]; [by apply bak_not_log|by apply bak_not_tmp]|apply backs_bak]|].
  intros ?. apply h_rename_log.
Qed.

(** C11. The rewrite of a log after a compaction, whatever call fails and
    wherever the machine stops: the log's name stands for the old log, the
    same file with the same bytes, or for the new one, complete and synced
    before it got the name. The call says which: an error before the rename
    leaves the session on the old log, and after it the session writes to
    the new one. *)
Theorem rewrite_is_atomic s h cz (Hs : spath s = log) :
  hoare (fun d => old d \/ exists i, renewed s h cz i d) old
    (clm_session_rewrite env cJSON_PrintUnformatted cJSON_ParseWithLength now patience s h cz)
    (fun rs d => spath (snd rs) = log /\
      ((fst rs < 0 /\ sfd (snd rs) = sfd s /\ old d) \/ renewed s h cz (sfd (snd rs)) d)).
Proof.
  unfold clm_session_rewrite. rewrite Hs. set (I := fun d => old d \/ exists i, renewed s h cz i d).
  assert (HI : forall d, either s h cz d -> I d) by (intros d [Hd|[_ Hd]]; [by left|by right]).
  assert (Hr : forall r s' (P : disk -> Prop), (forall d, P d -> old d) -> r < 0 -> sfd s' = sfd s -> spath s' = log ->
    hoare I P (mret (r, s')) (fun rs d => spath (snd rs) = log /\
      ((fst rs < 0 /\ sfd (snd rs) = sfd s /\ old d) \/ renewed s h cz (sfd (snd rs)) d))).
  { intros r s' P HP Hn Hf Hp. apply h_ret. intros d Hd. cbn. split; [done|]. left. split_and!; auto. }
  eapply h_bind.
  { eapply h_weaken; [exact h_meta|by left|done|intros r d Hd; exact Hd]. }
  intros [meta|]; [|apply Hr; [by intros d []|done..]].
  apply (h_pre _ (fun d => first_line b0 = Some meta /\ old d)); [|intros d [Hd Hm]; split; [by apply Hm|done]].
  apply h_fact. intros Hm.
  eapply h_bind.
  { apply h_and; [|apply open_trunc_error]. eapply h_weaken;
      [apply (h_open_trunc (fun q => q = log) d0 env tmp tmp_not_log), sole_tmp|by left|done|intros fd d Hd; exact Hd]. }
  intros [r|i].
  { apply (h_pre _ (fun d => r < 0 /\ old d)); [|intros d [[Hd _] Hn]; split; [by apply Hn|done]].
    apply h_fact. intros Hn. apply Hr; done. }
  apply (h_pre _ (at_tmp i [])); [|intros d [[Hd Ha] _]; split; [done|by apply Ha]].
  eapply h_bind; [eapply h_weaken; [by apply (h_rewrite_body s meta h cz i)|by left|done|intros x d Hd; exact Hd]|].
  intros [[r msgs] s']. unfold body_done. cbn [fst snd].
  apply (h_pre _ (fun d => (sfd s' = sfd s /\ spath s' = log /\ r <= 0) /\ old d /\ (r = 0 -> ready s h cz i d)));
    [|intros d (D1 & D2 & D3 & D4 & D5); by split].
  apply h_fact. intros (Hf & Hp & Hr0). rewrite Hp.
  eapply h_bind; [eapply h_weaken; [by apply (h_swap s h cz i)|done|intros d Hd; exact Hd|intros x d Hd; exact Hd]|].
  intros r1. destruct (Z.ltb_spec r1 0).
  - apply (h_pre _ old); [|intros d [[_ Hd]|[? _]]; [done|lia]].
    eapply h_bind; [eapply h_weaken; [apply (keeps_unlink (fun q => q = log) d0 env tmp tmp_not_log)|by left|done|intros x d Hd; exact Hd]|].
    intros ?. apply Hr; [intros d Hd; exact Hd|done..].
  - apply (h_pre _ (fun d => tidy d /\ renewed s h cz i d)); [|intros d [[? _]|[_ Hd]]; [lia|done]].
    eapply h_bind; [eapply h_weaken with (I := either s h cz);
      [apply renewed_keeps; intros d1; apply keeps_blob_gc; intros q Hq; by apply blob_dir_not_log|exact HI|intros d Hd; exact Hd|intros x d Hd; exact Hd]|].
    intros ?. eapply h_bind; [eapply h_weaken with (I := either s h cz);
      [apply renewed_keeps; intros d1; by apply keeps_attempt|exact HI|intros d Hd; exact Hd|intros x d Hd; exact Hd]|].
    intros r2. apply h_ret. intros d [_ Hd]. split; [done|by right].
Qed.
End Rewrite.

(** ** A session's own files *)

Inductive op :=
| OAppend (m : clm_message) (cz : option clm_compressor)
| OModel (m p : option (list byte))
| ORewrite (h : clm_history) (cz : option clm_compressor)
| OSpool (name data : list byte) (pathsz : Z)
| ODiscard.

Definition run_op (s : clm_session) (o : op) : M unit :=
  match o with
  | OAppend m cz => clm_session_append env cJSON_PrintUnformatted patience s m cz ≫= fun _ => mret tt
  | OModel m p => clm_session_log_model env cJSON_PrintUnformatted now s m p ≫= fun _ => mret tt
  | ORewrite h cz =>
      clm_session_rewrite env cJSON_PrintUnformatted cJSON_ParseWithLength now patience s h cz ≫= fun _ => mret tt
  | OSpool name data n => clm_session_spool env patience s name data n ≫= fun _ => mret tt
  | ODiscard => clm_session_discard env s ≫= fun _ => mret tt
  end.

Section Own.
Context (st : path) (Hst : st <> []) (G : path -> Prop) (d0 : disk).
Abbreviation log := (st ++ jsonl).
Abbreviation tmp := (log ++ bs ".tmp").
Abbreviation bak := (log ++ bs ".bak").
Abbreviation U := (same G d0).
Context (HG : forall q, G q -> ~ owned log q).

Lemma own_dir q : under (blob_dir_of log) q -> ~ G q.
Proof. intros Hq Hg. apply (HG q Hg). right; right; right; by left. Qed.

Lemma own_spool q : under (spool_dir_of log) q -> ~ G q.
Proof. intros Hq Hg. apply (HG q Hg). by right; right; right; right. Qed.

Lemma own_log : ~ G log.
Proof. intros Hg. apply (HG _ Hg). by left. Qed.

Lemma own_tmp : ~ G tmp.
Proof. intros Hg. apply (HG _ Hg). by right; left. Qed.

Lemma own_bak : ~ G bak.
Proof. intros Hg. apply (HG _ Hg). by right; right; left. Qed.

Lemma own_apart_log : apart G log.
Proof.
  intros q Hq. split_and!; [intros ->; by apply own_log| |].
  - intros (s & E1 & ->). apply app_inv_tail in E1 as <-. apply own_bak. by rewrite <- app_assoc.
  - intros (s & _ & E). apply (f_equal last) in E. rewrite !last_app in E. done.
Qed.

Lemma own_apart_tmp : apart G tmp.
Proof. apply apart_sole; [apply sole_tmp|apply own_tmp]. Qed.

Lemma own_dir_log q : under (blob_dir_of log) q -> ~ (G q \/ q = log).
Proof. intros Hq [Hg| ->]; [by eapply own_dir|]. by apply (blob_dir_not_log st Hst log Hq). Qed.

Lemma own_dir_tmp q : under (blob_dir_of log) q -> ~ (G q \/ q = tmp).
Proof. intros Hq [Hg| ->]; [by eapply own_dir|]. apply (blob_dir_free st Hst tmp Hq). by right. Qed.

Lemma run_unit {A} (m : M A) P : hoare U P m (fun _ => U) -> hoare U P (m ≫= fun _ => mret tt) (fun _ => U).
Proof. intros Hm. eapply h_bind; [exact Hm|]. intros a. by apply h_ret. Qed.

Lemma own_line p i b obj : apart G p -> hoare U (open_at G d0 p i b) (write_line i obj) (fun _ => U).
Proof. intros Ha. eapply h_post; [by apply h_write_line|]. intros r d (z & [Hd _] & _). done. Qed.

Lemma own_append s i b m cz : spath s = log -> sfd s = i -> hoare U (open_at G d0 log i b)
  (clm_session_append env cJSON_PrintUnformatted patience s m cz) (fun _ => U).
Proof.
  intros Hp <-. unfold clm_session_append. case_bool_decide.
  - unfold Session.write_prompt. cbv zeta. case_if; [apply h_ret; by intros d []|].
    eapply h_bind; [apply own_line, own_apart_log|]. intros r. by apply h_ret.
  - eapply h_bind; [rewrite Hp; apply (h_write_message G d0 log log (sfd s)); [apply own_apart_log|apply own_dir_log]|].
    intros r. apply h_ret. by intros d (z & [Hd _] & _).
Qed.

Lemma own_rewrite s h cz : spath s = log ->
  keeps U (clm_session_rewrite env cJSON_PrintUnformatted cJSON_ParseWithLength now patience s h cz).
Proof.
  intros Hp. unfold clm_session_rewrite. apply keeps_bind.
  { unfold read_meta_line. apply keeps_bind; [apply keeps_read|intros; apply keeps_ret]. }
  intros [meta|]; [|apply keeps_ret]. rewrite Hp. apply (keeps_opened G d0 tmp (fun r => (r, s)) _ own_tmp (sole_tmp _)).
  intros i. eapply h_bind with (R := fun x d => spath (snd x) = log /\ U d).
  { unfold rewrite_body. eapply h_bind; [apply h_full_write, own_apart_tmp|]. intros r. apply h_exists. intros z0.
    apply (h_pre _ (open_at G d0 tmp i ([] ++ z0))); [|by intros d []].
    case_if; [apply h_ret; by intros d []|].
    eapply h_bind with (R := fun _ d => exists z, open_at G d0 tmp i z d).
    { unfold rewrite_model. eapply h_bind with (R := fun _ => open_at G d0 tmp i ([] ++ z0)).
      - destruct (cur_model s), (cur_provider s); try by apply h_ret.
        unfold last_model_line. eapply h_bind with (R := fun _ => open_at G d0 tmp i ([] ++ z0)); [|by intros r1; apply h_ret].
        apply h_attempt; [by intros d []|done|]. intros d Hd. split; [destruct (contents d _); apply Hd|by destruct (contents d _)].
      - intros [[m|] [p|]]; try (eapply h_post; [apply h_write_line, own_apart_tmp|]; intros r1 d (z & Hz & _); by eexists).
        apply h_ret. intros d Hd. by eexists. }
    intros r1. apply h_exists. intros z1. case_if; [apply h_ret; by intros d []|].
    rewrite Hp. eapply h_bind; [by apply (h_rewrite_messages G d0 log tmp i own_apart_tmp own_dir_tmp)|].
    intros [[r2 msgs] s']. cbn [fst snd]. apply h_exists. intros z2.
    apply (h_pre _ (fun d => spath s' = log /\ U d)); [|by intros d ([Hd _] & _ & _ & _ & Eq)]. apply h_fact. intros Hp'.
    case_if; [by apply h_ret|]. eapply h_bind; [apply keeps_fsync|]. intros r3. by apply h_ret. }
  intros [[r msgs] s']. apply h_fact. cbn [snd]. intros Hp'. rewrite Hp'.
  apply keeps_bind.
  { apply keeps_if; [apply keeps_ret|]. apply keeps_and; [apply keeps_unlink, own_bak|].
    apply keeps_and; [apply keeps_link; [apply own_bak|apply backs_bak]|]. apply keeps_rename; [apply own_tmp|apply own_log|apply sole_tmp]. }
  intros r1. apply keeps_if.
  - apply keeps_and; [apply keeps_unlink, own_tmp|apply keeps_ret].
  - apply keeps_and; [apply keeps_blob_gc, own_dir|]. apply keeps_bind; [by apply keeps_attempt|]. intros r2. apply keeps_ret.
Qed.

Lemma own_spool_op s name data n : spath s = log -> keeps U (clm_session_spool env patience s name data n).
Proof.
  intros Hp. unfold clm_session_spool. destruct (safe_name name) eqn:En; [apply keeps_ret|]. rewrite Hp.
  apply keeps_bind; [apply keeps_mkdir, own_spool, under_dir|]. intros r. apply keeps_if; [apply keeps_ret|].
  assert (Hu : ~ G (spool_path log name)) by (apply own_spool, under_entry, plain_ext; [apply safe_name_no_slash|by apply no_slash|done..]).
  assert (Hs : sole (spool_path log name)) by (unfold spool_path; rewrite !app_assoc; apply sole_txt).
  apply (keeps_opened G d0 _ (fun r => (r, [])) _ Hu Hs). intros i.
  eapply h_bind; [by apply keeps_full_write, apart_sole|]. intros r1. by apply h_ret.
Qed.

Lemma own_discard s : spath s = log -> keeps U (clm_session_discard env s).
Proof.
  intros Hp. unfold clm_session_discard. rewrite Hp. apply keeps_bind; [apply keeps_unlink, own_log|]. intros r.
  apply keeps_and; [apply keeps_unlink, own_bak|]. apply keeps_and; [apply keeps_blob_dir_remove, own_dir|].
  apply keeps_and; [apply keeps_blob_dir_remove, own_spool|apply keeps_ret].
Qed.

(** C12. A session touches no file but its own, whatever it is told, and
    whatever the call ids are that the provider chose for spooled output: in
    every call, at every moment, each name but its log, the log's temporary
    file and backup, its two directories and the plain names in them (no
    path, and not the directory's parent) stands for the same file with the
    same bytes. *)
Theorem session_keeps_to_its_files s o (Hp : spath s = log) :
  hoare U (fun d => U d /\ names d !! log = Some (sfd s)) (run_op s o) (fun _ => U).
Proof.
  assert (Ho : forall d, U d /\ names d !! log = Some (sfd s) -> exists b, open_at G d0 log (sfd s) b d).
  { intros d [Hd Hn]. destruct (t_files _ (s_tidy _ _ _ Hd) _ _ Hn) as [b Hb]. by exists b. }
  destruct o; cbn [run_op]; apply run_unit.
  - eapply h_pre; [|exact Ho]. apply h_exists. intros b. by apply own_append.
  - eapply h_pre; [|exact Ho]. apply h_exists. intros b. eapply h_bind; [apply own_line, own_apart_log|].
    intros r. by apply h_ret.
  - eapply h_pre; [by apply own_rewrite|]. by intros d [].
  - eapply h_pre; [by apply own_spool_op|]. by intros d [].
  - eapply h_pre; [by apply own_discard|]. by intros d [].
Qed.
End Own.

(** ** The collection of images *)

(** The answer of a read that is not refused. *)
Lemma refs_read p b w : env (turn w) = Done -> contents (dk w) p = Some b ->
  fst (blob_refs_from env p w) = blob_refs b.
Proof.
  intros He Hc. unfold blob_refs_from, clm_read_file, attempt, call, mbind, M_bind. rewrite He.
  by rewrite Hc.
Qed.

Lemma attempt_turn {A} (fail : Z -> A) f w : turn (snd (attempt env fail f w)) = S (turn w).
Proof. unfold attempt, call. destruct (match env (turn w) with Fails _ => _ | _ => _ end). done. Qed.

End Facts.
