(* ===== verification/SessionLoad.v ===== *)
(** The log as a list of what was said: what a log holds, that the loader
    reads all of it back, and that an append adds to it. *)

From S2P Require Import Prelude Utf8 Image Sha256 CJson History HistoryFacts HistoryJson Disk Session SessionFacts.
From stdpp Require Import gmap.
#[local] Open Scope Z_scope.
#[local] Opaque session_sha256_hex.

(** ** Programs that only read *)

(** On the disk [d] the program answers [a] and changes nothing. *)
Definition yields {A} (d : disk) (m : M A) (a : A) : Prop :=
  forall w, dk w = d -> fst (m w) = a /\ dk (snd (m w)) = d.

Lemma yields_ret {A} d (a : A) : yields d (mret a) a.
Proof. by intros w Hw. Qed.

Lemma yields_bind {A B} d (m : M A) (k : A -> M B) a b : yields d m a -> yields d (k a) b -> yields d (m ≫= k) b.
Proof.
  intros Hm Hk w Hw. unfold mbind, M_bind. destruct (Hm w Hw) as [E1 E2]. destruct (m w) as [a' w']. cbn in *.
  subst a'. by apply Hk.
Qed.

(** No call fails. *)
Definition quiet : nat -> answer := fun _ => Done.

Lemma yields_read d p b : contents d p = Some b -> yields d (clm_read_file quiet p) (inr b).
Proof. intros Hb w Hw. unfold clm_read_file, attempt, call. cbn. by rewrite Hw, Hb. Qed.

Lemma yields_blob d p b : contents d p = Some b -> 0 < zlen b <= SESSION_BLOB_MAX -> yields d (blob_read quiet p) (Some b).
Proof.
  intros Hb Hl w Hw. unfold blob_read, attempt, call. cbn. rewrite Hw, Hb.
  destruct (Z.leb_spec (zlen b) 0); [lia|]. destruct (Z.ltb_spec SESSION_BLOB_MAX (zlen b)); [lia|done].
Qed.

(** ** Lines *)

Lemma chunks_line t r : ~ In x0a t -> chunks ((t ++ [x0a]) ++ r) = (t ++ [x0a]) :: chunks r.
Proof.
  induction t as [|c t IH]; intros Hn; cbn; [done|]. rewrite IH by (intros ?; apply Hn; by right).
  destruct c; try done. exfalso. apply Hn. by left.
Qed.

(** ** What was said *)

Inductive entry :=
| Said (m : clm_message)
| Switched (model provider_name : option (list byte)).

Definition is_prompt (m : clm_message) : bool := bool_decide (role m = CLM_ROLE_SYSTEM).

(** A message as it comes back: its text stored without a compressor. *)
Definition restored (cz : option clm_compressor) (m : clm_message) : clm_message :=
  fold_left (fun m a => clm_message_add_attachment m (media_type a) (a_data a)) (attachments m)
    (message_set_content (drop_attachments m) (default None (plain_content m cz)) None).

Definition said (cz : option clm_compressor) (e : entry) : list clm_message :=
  match e with Said m => if is_prompt m then [] else [restored cz m] | Switched _ _ => [] end.

(** An image that can be named in a log and read back. *)
Definition image_ok (a : clm_attachment) : Prop := no_nul (media_type a) /\ 0 < zlen (a_data a) <= SESSION_BLOB_MAX.

Definition storable (cz : option clm_compressor) (e : entry) : Prop :=
  match e with
  | Said m => is_prompt m = true \/ (persistable cz m /\ Forall image_ok (attachments m))
  | Switched m p => True
  end.

Definition image_path (log : path) (a : clm_attachment) : path :=
  blob_path (blob_dir_of log) (session_sha256_hex (a_data a)) (media_type a).

Definition entry_images (e : entry) : list clm_attachment :=
  match e with Said m => if is_prompt m then [] else attachments m | Switched _ _ => [] end.

(** *** Hashes as text *)

Lemma hash_no_nul sha : sha_valid (Some sha) = true -> no_nul sha.
Proof.
  unfold sha_valid. intros [_ Hf]%andb_true_iff. rewrite forallb_forall in Hf.
  apply List.Forall_forall. intros c Hc ->. specialize (Hf _ Hc). done.
Qed.

Section Load.
Context `{L : CJsonLaws}.
Context (cJSON_PrintUnformatted : cJSON -> option (list byte)).
Context (cJSON_ParseWithLength : list byte -> option cJSON).

(** What a tree is printed as has no newline, and is parsed, with one at its
    end, as the tree. *)
Definition prints_and_parses : Prop := forall j t, cJSON_PrintUnformatted j = Some t ->
  ~ In x0a (c_str t) /\ cJSON_ParseWithLength (c_str t ++ [x0a]) = Some j.

Context (Hpp : prints_and_parses).

Abbreviation line_of := (line_of cJSON_PrintUnformatted).
Abbreviation parse_line := (session_parse_line quiet cJSON_ParseWithLength).
Abbreviation load_lines := (load_lines quiet cJSON_ParseWithLength).

(** A meta record this version reads. *)
Record is_meta (j : cJSON) : Prop := {
  m_object : cJSON_IsObject j = true;
  m_type : get_string (Some j) (bs "type") = Some (bs "meta");
  m_version : exists v, cJSON_GetObjectItemCaseSensitive j (bs "v") = Some v /\
    cJSON_GetNumberValue v = Some SESSION_FMT_VERSION
}.

Lemma meta_record_ok now id m p a : is_meta (meta_record now id m p a).
Proof.
  unfold meta_record, opt_member. constructor.
  - is_built.
  - unfold get_string. cbn [mbind option_bind]. built_get. cbn [mbind option_bind]. by rewrite string_create.
  - eexists. built_get. split; [done|]. apply number_create.
Qed.

(** The text of an entry. *)
Definition entry_text (cz : option clm_compressor) (e : entry) (t : list byte) : Prop :=
  match e with
  | Said m =>
      if is_prompt m then t = [] \/ prompt_text cJSON_PrintUnformatted (system_text m cz) = Some t
      else message_text cJSON_PrintUnformatted m cz = Some t
  | Switched m p => exists now, line_of (model_record now m p) = Some t
  end.

Definition switch (meta : cJSON) (e : entry) : cJSON :=
  match e with
  | Said _ => meta
  | Switched m p => set_member (set_member meta (bs "model") (c_str <$> m)) (bs "provider") (c_str <$> p)
  end.

(** The log of a disk: its meta record, the entries, and their images in
    place. *)
Record stores (log : path) (cz : option clm_compressor) (meta : cJSON) (es : list entry) (d : disk) : Prop := {
  s_meta : is_meta meta;
  s_ok : Forall (storable cz) es;
  s_text : exists ml ts, contents d log = Some (ml ++ concat ts) /\ line_of meta = Some ml /\ Forall2 (entry_text cz) es ts;
  s_images e a : e ∈ es -> a ∈ entry_images e -> contents d (image_path log a) = Some (a_data a)
}.

(** *** One line *)

Lemma line_of_parses obj t : line_of obj = Some t ->
  exists u, t = u ++ [x0a] /\ ~ In x0a u /\ cJSON_ParseWithLength t = Some obj.
Proof.
  unfold SessionFacts.line_of. destruct (cJSON_PrintUnformatted obj) as [u|] eqn:E; [|done]. intros [= <-].
  destruct (Hpp _ _ E). by exists (c_str u).
Qed.

Lemma yields_meta d h line obj bdir : is_meta obj -> line_of obj = Some line ->
  yields d (parse_line h line (Some None) bdir) (0, h, Some (Some obj)).
Proof.
  intros [O T (v & V1 & V2)] E. destruct (line_of_parses _ _ E) as (u & _ & _ & Hp). unfold session_parse_line.
  rewrite Hp, O, T. change (beq (bs "meta") (bs "meta")) with true. cbv iota. rewrite V1. cbn [mbind option_bind].
  rewrite V2. apply yields_ret.
Qed.

Lemma yields_prompt d h om line text bdir : line_of (prompt_record (prompt_hash text) text) = Some line ->
  yields d (parse_line h line om bdir) (0, h, om).
Proof.
  intros E. destruct (line_of_parses _ _ E) as (u & _ & _ & Hp). unfold session_parse_line. rewrite Hp.
  assert (cJSON_IsObject (prompt_record (prompt_hash text) text) = true) as -> by (unfold prompt_record; is_built).
  assert (get_string (Some (prompt_record (prompt_hash text) text)) (bs "type") = Some (bs "prompt")) as ->.
  { unfold get_string, prompt_record. cbn [mbind option_bind]. built_get. cbn [mbind option_bind]. by rewrite string_create. }
  lit. apply yields_ret.
Qed.

Lemma yields_switch d h meta line now m p bdir : line_of (model_record now m p) = Some line ->
  yields d (parse_line h line (Some (Some meta)) bdir) (0, h, Some (Some (switch meta (Switched m p)))).
Proof.
  intros E. destruct (line_of_parses _ _ E) as (u & _ & _ & Hp). unfold session_parse_line. rewrite Hp.
  assert (cJSON_IsObject (model_record now m p) = true) as -> by (unfold model_record; is_built).
  assert (get_string (Some (model_record now m p)) (bs "type") = Some (bs "model")) as ->.
  { unfold get_string, model_record. cbn [mbind option_bind]. built_get. cbn [mbind option_bind]. by rewrite string_create. }
  assert (get_string (Some (model_record now m p)) (bs "model") = c_str <$> m) as ->.
  { unfold get_string, model_record. cbn [mbind option_bind]. built_get. destruct m, p; cbn; by rewrite ?string_create. }
  assert (get_string (Some (model_record now m p)) (bs "provider") = c_str <$> p) as ->.
  { unfold get_string, model_record. cbn [mbind option_bind]. built_get. destruct m, p; cbn; by rewrite ?string_create. }
  lit. apply yields_ret.
Qed.

(** *** A message's line *)

Lemma full_other m cz j k : clm_message_to_json_full m cz = Some j ->
  k ∈ [bs "type"; bs "attachments"] -> cJSON_GetObjectItemCaseSensitive j k = None.
Proof.
  unfold clm_message_to_json_full. destruct (plain_content m cz) as [p|]; [|done]. cbn [mbind option_bind].
  intros [= <-] Hk. rewrite !elem_of_cons, elem_of_nil in Hk.
  destruct Hk as [->|[->|[]]]; destruct (tool_calls m); built_get; done.
Qed.

Lemma full_members_add m p j k v : k ∈ [bs "type"; bs "attachments"] -> full_members m p j ->
  full_members m p (cJSON_AddItemToObject j k v).
Proof.
  intros Hk [F1 F2 F3 F4 F5 F6].
  assert (Hg : forall k', beq k' k = false ->
    cJSON_GetObjectItemCaseSensitive (cJSON_AddItemToObject j k v) k' = cJSON_GetObjectItemCaseSensitive j k').
  { intros k' E. rewrite get_add, E by done. by destruct (cJSON_GetObjectItemCaseSensitive j k'). }
  rewrite !elem_of_cons, elem_of_nil in Hk. unfold get_string in *.
  destruct Hk as [->|[->|[]]]; (constructor; unfold get_string; cbn [mbind option_bind]; rewrite ?isobject_add, ?Hg by reflexivity; done).
Qed.

Lemma records_ok l : cJSON_IsArray (image_records l) = true /\
  cJSON_elements (image_records l)
  = map (fun a => attachment_record (media_type a) (session_sha256_hex (a_data a)) (zlen (a_data a))) l.
Proof.
  destruct (elements_fold (fun a => attachment_record (media_type a) (session_sha256_hex (a_data a)) (zlen (a_data a)))
    l cJSON_CreateArray isarray_create) as [E1 E2]. rewrite elements_create in E2. by split.
Qed.

(** What a reader finds in the record of a message. *)
Record message_members (m : clm_message) (p : option (list byte)) (j : cJSON) : Prop := {
  mm_full : full_members m p j;
  mm_type : get_string (Some j) (bs "type") = Some (bs "msg");
  mm_images : attachment_records j
    = map (fun a => attachment_record (media_type a) (session_sha256_hex (a_data a)) (zlen (a_data a))) (attachments m)
}.

Lemma message_members_ok m cz p : plain_content m cz = Some p ->
  exists obj, msg_record m cz = Some obj /\ message_members m p (with_images m obj).
Proof.
  intros Hp. destruct (full_members_ok m cz p Hp) as (j & Hj & F). unfold msg_record. rewrite Hj. cbn [mbind option_bind].
  eexists. split; [done|]. pose proof (fm_object _ _ _ F) as Ho.
  assert (K1 : bs "type" ∈ [bs "type"; bs "attachments"]) by apply list_elem_of_here.
  assert (K2 : bs "attachments" ∈ [bs "type"; bs "attachments"]) by (apply list_elem_of_further, list_elem_of_here).
  set (obj := cJSON_AddStringToObject j _ _).
  assert (Ho' : cJSON_IsObject obj = true) by by unfold obj; rewrite isobject_add_string.
  assert (Ht : cJSON_GetObjectItemCaseSensitive obj (bs "type") = Some (cJSON_CreateString (bs "msg"))).
  { unfold obj. rewrite get_add_string, (full_other m cz j) by done. by rewrite beq_refl. }
  assert (Ha : cJSON_GetObjectItemCaseSensitive obj (bs "attachments") = None).
  { unfold obj. rewrite get_add_string, (full_other m cz j) by done. by lit. }
  assert (Fo : full_members m p obj) by (by apply full_members_add).
  unfold with_images. destruct (attachments m) as [|a l] eqn:El.
  - constructor; [done| |].
    + unfold get_string. cbn [mbind option_bind]. rewrite Ht. cbn [mbind option_bind]. by rewrite string_create.
    + unfold attachment_records. by rewrite Ha, El.
  - constructor; [by apply full_members_add| |].
    + unfold get_string. cbn [mbind option_bind]. rewrite get_add, Ht by done. cbn [mbind option_bind].
      by rewrite string_create.
    + unfold attachment_records. rewrite get_add, Ha, beq_refl, El by done. apply records_ok.
Qed.

Lemma record_strings mt sha n : no_nul mt -> no_nul sha ->
  get_string (Some (attachment_record mt sha n)) (bs "media_type") = Some mt /\
  get_string (Some (attachment_record mt sha n)) (bs "sha256") = Some sha.
Proof.
  intros Hm Hs. unfold get_string, attachment_record. cbn [mbind option_bind]. built_get. cbn [mbind option_bind].
  rewrite !string_create, !c_str_id by done. done.
Qed.

Lemma yields_images d log obj l : forall imgs max, Forall image_ok l ->
  (forall a, a ∈ l -> contents d (image_path log a) = Some (a_data a)) -> (length imgs + length l <= max)%nat ->
  yields d (load_images quiet obj (Some (blob_dir_of log))
    (map (fun a => attachment_record (media_type a) (session_sha256_hex (a_data a)) (zlen (a_data a))) l) imgs max)
    (obj, imgs ++ l).
Proof.
  induction l as [|a l IH]; intros imgs max Hok Hin Hl; cbn [map load_images]; [rewrite app_nil_r; apply yields_ret|].
  apply List.Forall_cons_iff in Hok as [[Hm Hd] Hok]. cbn [length] in Hl.
  pose proof (sha_valid_hex (a_data a)) as Hv.
  destruct (record_strings (media_type a) _ (zlen (a_data a)) Hm (hash_no_nul _ Hv)) as [-> ->].
  rewrite Hv. cbn [negb orb]. destruct (Nat.leb_spec max (length imgs)); [lia|].
  eapply yields_bind; [apply yields_blob; [apply (Hin a); by left|done]|].
  replace (imgs ++ a :: l) with ((imgs ++ [mk_attachment (media_type a) (a_data a)]) ++ l)
    by (rewrite <- app_assoc; by destruct a).
  apply IH; [done| |rewrite length_app; cbn; lia]. intros b Hb. apply Hin. by right.
Qed.

Lemma add_images_last h m l : add_images (h ++ [m]) l =
  h ++ [fold_left (fun m a => clm_message_add_attachment m (media_type a) (a_data a)) l m].
Proof. induction h as [|x h IH]; [done|]. cbn [app add_images]. rewrite IH. by destruct h. Qed.

Lemma yields_message d log h om line m cz : cz_inverse cz -> persistable cz m -> Forall image_ok (attachments m) ->
  (forall a, a ∈ attachments m -> contents d (image_path log a) = Some (a_data a)) ->
  message_text cJSON_PrintUnformatted m cz = Some line ->
  yields d (parse_line h line om (Some (blob_dir_of log))) (0, h ++ [restored cz m], om).
Proof.
  intros Hcz Hm Hok Hin E. destruct (persistable_plain cz m Hcz Hm) as (p & Hp & Hpok & _).
  destruct (message_members_ok m cz p Hp) as (obj & Ho & [F T I]).
  unfold message_text in E. rewrite Ho in E. cbn [mbind option_bind] in E.
  destruct (line_of_parses _ _ E) as (u & _ & _ & Hpar). unfold session_parse_line. rewrite Hpar.
  rewrite (fm_object _ _ _ F), T. lit. rewrite I.
  eapply yields_bind.
  { unfold load_attachments. rewrite I. apply yields_images; [done|done|]. cbn. by rewrite length_map. }
  cbn beta iota. rewrite app_nil_l. destruct Hm as (_ & Hid & Hname & Hcalls & Hrole).
  rewrite (from_members None h m p) by done. cbv beta iota. change (0 =? 0) with true. cbv iota.
  rewrite add_images_last. unfold restored. rewrite Hp. apply yields_ret.
Qed.

(** *** The whole log *)

Context (log : path) (cz : option clm_compressor) (Hcz : cz_inverse cz).

Lemma yields_entry d h meta e t : storable cz e -> entry_text cz e t -> t <> [] ->
  (forall a, a ∈ entry_images e -> contents d (image_path log a) = Some (a_data a)) ->
  (exists u, t = u ++ [x0a] /\ ~ In x0a u) /\
  yields d (parse_line h t (Some (Some meta)) (Some (blob_dir_of log))) (0, h ++ said cz e, Some (Some (switch meta e))).
Proof.
  intros Hok Ht Hne Hin. destruct e as [m|m p]; cbn in *.
  - destruct (is_prompt m).
    + destruct Ht as [->|Ht]; [done|]. rewrite app_nil_r. split; [|by eapply yields_prompt].
      destruct (line_of_parses _ _ Ht) as (u & ? & ? & _). by exists u.
    + destruct Hok as [|[Hm Hi]]; [done|]. split; [|by apply yields_message].
      unfold message_text in Ht. destruct (msg_record m cz); [|done]. destruct (line_of_parses _ _ Ht) as (u & ? & ? & _). by exists u.
  - destruct Ht as [now Ht]. rewrite app_nil_r. split; [|by eapply yields_switch].
    destruct (line_of_parses _ _ Ht) as (u & ? & ? & _). by exists u.
Qed.

Lemma yields_entries d es : forall ts h meta, Forall (storable cz) es -> Forall2 (entry_text cz) es ts ->
  (forall e a, e ∈ es -> a ∈ entry_images e -> contents d (image_path log a) = Some (a_data a)) ->
  yields d (load_lines h (chunks (concat ts)) (Some (Some meta)) (Some (blob_dir_of log)))
    (0, h ++ concat (map (said cz) es), Some (Some (fold_left switch es meta))).
Proof.
  induction es as [|e es IH]; intros ts h meta Hok Ht Hin; inversion Ht as [|? t ? ts' Hte Hts]; subst; clear Ht;
    cbn [concat map chunks Session.load_lines fold_left]; [rewrite app_nil_r; apply yields_ret|].
  apply List.Forall_cons_iff in Hok as [Hoe Hok]. rewrite app_assoc.
  destruct (decide (t = [])) as [->|Hne].
  - cbn [app]. assert (Hse : said cz e = [] /\ switch meta e = meta).
    { destruct e as [m|m p]; cbn in *.
      - destruct (is_prompt m); [done|]. unfold message_text in Hte. destruct (msg_record m cz); [|done].
        by destruct (line_of_parses _ _ Hte) as ([|] & ? & _).
      - destruct Hte as [now Hte]. by destruct (line_of_parses _ _ Hte) as ([|] & ? & _). }
    destruct Hse as [-> ->]. rewrite app_nil_r. apply IH; [done..|]. intros e' a He. apply Hin. by right.
  - destruct (yields_entry d h meta e t Hoe Hte Hne) as [(u & -> & Hu) Hy].
    { intros a. apply Hin. by left. }
    rewrite chunks_line by done. cbn [Session.load_lines]. eapply yields_bind; [exact Hy|]. cbv beta iota.
    change (0 <? 0) with false. cbv iota. apply IH; [done..|]. intros e' a He. apply Hin. by right.
Qed.

(** The loader reads back all that a log holds. *)
Lemma load_stores meta es d : stores log cz meta es d ->
  yields d (load_log quiet cJSON_ParseWithLength log [] (Some None))
    (0, concat (map (said cz) es), Some (Some (fold_left switch es meta))).
Proof.
  intros [Hm Hok (ml & ts & Hc & Hl & Ht) Hi].
  unfold load_log. eapply yields_bind; [by apply yields_read|]. cbv beta iota.
  destruct (line_of_parses _ _ Hl) as (u & -> & Hu & _). rewrite chunks_line by done. cbn [Session.load_lines].
  eapply yields_bind; [by apply yields_meta|]. cbv beta iota. change (0 <? 0) with false. cbv iota.
  by apply (yields_entries d es ts []).
Qed.
End Load.

(** ** Adding to the log *)

(** Bytes are kept under the names of [K]; those of [W] have none, or the
    ones they should have. *)
Record kept (K W : gmap path (list byte)) (d : disk) : Prop := {
  k_tidy : tidy d;
  k_names p : is_Some (W !! p) -> p ∉ dirs d;
  k_bytes p c : K !! p = Some c -> contents d p = Some c;
  k_want p c : W !! p = Some c -> contents d p = None \/ contents d p = Some c;
  k_sub p c : K !! p = Some c -> W !! p = Some c
}.

Lemma kept_same (G : path -> Prop) K W d d1 : (forall p, is_Some (W !! p) -> G p) -> same G d1 d -> kept K W d1 -> kept K W d.
Proof.
  intros HG [T N B S D] [Kt Kn Kb Kw Ks].
  assert (HK : forall p c, K !! p = Some c -> G p) by (intros p c Hp; apply HG; exists c; by apply Ks).
  split; [done| | | |done].
  - intros p Hp. rewrite D by auto. auto.
  - intros p c Hp. rewrite B by eauto. auto.
  - intros p c Hp. rewrite B by (apply HG; by exists c). auto.
Qed.

(** From a known disk. *)
Lemma h_fix {A} (I P : disk -> Prop) (Q : A -> disk -> Prop) m :
  (forall d, P d -> hoare I (fun d' => d' = d) m Q) -> hoare I P m Q.
Proof. intros Hm w Hw. by apply (Hm (dk w) Hw). Qed.

Definition any : disk -> Prop := fun _ => True.

Section Append.
Context `{J : CJson} (env : nat -> answer).
Context (cJSON_PrintUnformatted : cJSON -> option (list byte)).
Context (cJSON_ParseWithLength : list byte -> option cJSON).
Context (patience : nat).
Context (st : path) (Hst : st <> []).
Abbreviation log := (st ++ jsonl).
Abbreviation blob_write := (blob_write env patience).
Abbreviation store_images := (store_images env patience).

(** Neither the log nor an image that may be there. *)
Definition watched (W : gmap path (list byte)) (q : path) : Prop := q = log \/ is_Some (W !! q).

Definition holds (i : nat) (b : list byte) (K W : gmap path (list byte)) (d : disk) : Prop :=
  kept K W d /\ at_file log i b d.

Lemma holds_same i b K W d1 d : same (watched W) d1 d -> holds i b K W d1 -> holds i b K W d.
Proof.
  intros Hs [Hk Ha].
  split; [apply (kept_same (watched W) K W d d1); [intros q Hq; by right|done|done]|]. eapply same_at; [done|by left|done].
Qed.

Lemma h_holds {A} i b K W (m : M A) : (forall d1, keeps (same (watched W) d1) m) ->
  hoare any (holds i b K W) m (fun _ => holds i b K W).
Proof.
  intros Hm. apply h_fix. intros d Hd.
  eapply h_weaken; [apply (Hm d)|done|intros d' ->; apply same_refl, Hd|]. intros x d' Hs. exact (holds_same i b K W d d' Hs Hd).
Qed.

(** A name for a new file, on which [W] and the log do not depend. *)
Definition free (W : gmap path (list byte)) (p : path) : Prop := ~ watched W p.

Lemma h_rename_image i b K W p data j : W !! p = Some data -> p <> log -> free W (p ++ bs ".tmp") ->
  hoare any (fun d => holds i b K W d /\ at_file (p ++ bs ".tmp") j data d) (rename env (p ++ bs ".tmp") p)
    (fun r d => holds i b K W d /\ r <= 0 /\ (r = 0 -> contents d p = Some data)).
Proof.
  intros Hp Hpl Hf. apply h_attempt; [done|intros d e [Hd _]; split_and!; [done|cbn; lia|done]|].
  intros d [[[Kt Kn Kb Kw Ks] [La Lb]] [Hn Hb]]. split; [done|]. rewrite Hn.
  assert (Hl : log <> p ++ bs ".tmp") by (intros E; apply Hf; left; done).
  destruct (decide (names d !! p = Some j)) as [E|E]; cbn.
  { split_and!; [by split|lia|]. intros _. unfold contents. rewrite E. done. }
  set (d' := set_names d _).
  assert (Hc : forall q, q <> p ++ bs ".tmp" -> contents d' q = if decide (q = p) then Some data else contents d q).
  { intros q Hq. unfold contents, d'. cbn. destruct (decide (q = p)) as [->|Hne].
    - by rewrite lookup_insert_eq.
    - by rewrite lookup_insert_ne, lookup_delete_ne by congruence. }
  assert (Hw : forall q, is_Some (W !! q) -> q <> p ++ bs ".tmp") by (intros q Hq ->; apply Hf; by right).
  split_and!; [|lia|intros _; rewrite Hc by (apply Hw; eauto); by rewrite decide_True].
  split.
  - split; [apply tidy_rename; [done|apply sole_tmp|done]|done| | |done].
    + intros q c Hq. rewrite Hc by (apply Hw; eauto). case_decide; [subst|by apply Kb]. apply Ks in Hq. congruence.
    + intros q c Hq. rewrite Hc by (apply Hw; eauto). case_decide; [subst; right; congruence|by apply Kw].
  - split; [|done]. cbn. by rewrite lookup_insert_ne, lookup_delete_ne by congruence.
Qed.

Lemma h_blob_write i b K W p data : W !! p = Some data -> p <> log -> free W (p ++ bs ".tmp") ->
  hoare any (holds i b K W) (blob_write p data) (fun r d => r <= 0 /\ (r = 0 -> holds i b (<[p := data]> K) W d)).
Proof.
  intros Hp Hpl Hf.
  assert (Hin : forall d, holds i b K W d -> contents d p = Some data -> holds i b (<[p := data]> K) W d).
  { intros d [[Kt Kn Kb Kw Ks] Ha] Hc. split; [|done]. split; [done..| |done|].
    - intros q c. rewrite lookup_insert_Some. intros [[<- <-]|[_ Hq]]; [done|by apply Kb].
    - intros q c. rewrite lookup_insert_Some. intros [[<- <-]|[_ Hq]]; [done|by apply Ks]. }
  unfold Session.blob_write.
  eapply h_bind with (R := fun a d => holds i b K W d /\ (a = 0 -> contents d p = Some data)).
  { apply h_attempt; [done|by intros d e Hd|]. intros d Hd. split; [done|]. case_decide as Ha; [|done]. cbn.
    split; [done|]. intros _. destruct Hd as [[Kt Kn Kb Kw Ks] _].
    destruct Ha as [[j Hj]|Hd]; [|exfalso; by apply (Kn p); [eauto|]].
    destruct (Kw p data Hp) as [Hc|Hc]; [|done]. unfold contents in Hc. rewrite Hj in Hc. cbn in Hc.
    destruct (t_files _ Kt _ _ Hj) as [x Hx]. congruence. }
  intros a. destruct (Z.eqb_spec a 0) as [->|Ha].
  { apply h_ret. intros d [Hd Hc]. split; [done|]. intros _. by apply Hin; [|apply Hc]. }
  cbv zeta. set (tmp := p ++ bs ".tmp") in *.
  apply (h_pre _ (holds i b K W)); [|by intros d []]. apply h_fix. intros d1 Hd1.
  assert (Hw : forall d, same (watched W) d1 d -> holds i b K W d) by (intros d Hs; by eapply holds_same).
  pose proof (sole_tmp p : sole tmp) as Hsole.
  eapply h_bind.
  { eapply h_weaken; [apply h_and; [apply (h_open_trunc (watched W) d1 env tmp Hf Hsole)|apply open_trunc_error]|done| |].
    - intros d ->. by apply same_refl, Hd1.
    - intros r d Hd. exact Hd. }
  intros [r|j].
  { apply h_ret. intros d [_ Hr]. specialize (Hr r eq_refl). split; lia. }
  apply (h_pre _ (open_at (watched W) d1 tmp j [])); [|intros d [[Hd Ho] _]; split; [done|by apply Ho]].
  assert (Hap : apart (watched W) tmp) by by apply apart_sole.
  eapply h_bind; [eapply h_weaken; [by apply h_full_write|done|intros d Hd; exact Hd|intros r d Hd; exact Hd]|].
  intros r.
  eapply h_bind with (R := fun r d => holds i b K W d /\ r <= 0 /\ (r = 0 -> at_file tmp j data d)).
  { apply h_exists. intros z.
    apply (h_pre _ (fun d => (r <= 0 /\ (r = 0 -> z = data)) /\ open_at (watched W) d1 tmp j z d)); [|by intros d (Hz & H1 & H2)].
    apply h_fact. intros [Hr Hz]. destruct (Z.eqb_spec r 0) as [->|Hne].
    - specialize (Hz eq_refl) as ->. apply h_attempt; [done| |].
      + intros d e [Hd _]. split_and!; [by apply Hw|cbn; lia|done].
      + intros d [Hd [Hn Hb]]. split; [done|]. split_and!; [|cbn; lia|done].
        destruct (Hw d Hd) as [[Kt Kn Kb Kw Ks] Hl]. split; [|done]. split; [|done..]. by destruct Kt.
    - apply h_ret. intros d [Hd _]. split_and!; [by apply Hw|lia|lia]. }
  intros r1. eapply h_bind with (R := fun r d => r <= 0 /\ (r = 0 -> holds i b (<[p := data]> K) W d)).
  { destruct (Z.eqb_spec r1 0) as [->|Hne].
    - eapply h_weaken; [by apply (h_rename_image i b K W p data j)|done| |].
      + intros d (Hd & _ & Hat). split; [done|by apply Hat].
      + intros x d (Hd & Hx & Hc). split; [done|]. intros E. by apply Hin; [|apply Hc].
    - apply h_ret. intros d (_ & Hr & _). split; lia. }
  intros r2. destruct (Z.ltb_spec r2 0).
  - eapply h_bind with (R := fun _ _ => True); [by apply h_attempt|].
    intros x. apply h_ret. intros d _. split; lia.
  - by apply h_ret.
Qed.

(** The names a message's images get, with their bytes. *)
Definition wanted (l : list clm_attachment) : gmap path (list byte) := list_to_map (map (fun a => (image_path log a, a_data a)) l).

Lemma image_not_log a : image_path log a <> log.
Proof.
  intros E. apply (blob_dir_not_log st Hst (image_path log a)); [apply blob_under, hash_no_slash|done].
Qed.

Lemma store_images_keeps W i b l : forall K arr, K ⊆ W -> Forall (fun a => W !! image_path log a = Some (a_data a)) l ->
  (forall p, is_Some (W !! p) -> free W (p ++ bs ".tmp")) ->
  hoare any (holds i b K W) (store_images (blob_dir_of log) l arr)
    (fun ra d => fst ra = 0 -> exists K', holds i b K' W d /\ K ⊆ K' /\ forall a, a ∈ l -> K' !! image_path log a = Some (a_data a)).
Proof.
  induction l as [|a l IH]; intros K arr HK HW Hf; cbn [Session.store_images].
  { apply h_ret. intros d Hd _. exists K. split_and!; [done|done|]. intros a Ha. by apply elem_of_nil in Ha. }
  apply List.Forall_cons_iff in HW as [Ha HW]. cbv zeta.
  eapply h_bind; [apply (h_blob_write i b K W (image_path log a) (a_data a)); [done|apply image_not_log|apply Hf; eauto]|].
  intros r. destruct (Z.ltb_spec r 0); [apply h_ret; intros d [? _]; cbn; lia|].
  assert (HK' : <[image_path log a := a_data a]> K ⊆ W).
  { apply map_subseteq_spec. intros p c. rewrite lookup_insert_Some. intros [[<- <-]|[_ Hp]]; [done|by eapply lookup_weaken]. }
  eapply h_weaken; [apply (IH (<[image_path log a := a_data a]> K))|done| |]; [done|done|done|intros d [Hr Hd]; apply Hd; lia|].
  intros [r1 arr1] d Hq E. cbn [fst] in *. destruct (Hq E) as (K' & Hd & Hk & Hin). exists K'. split_and!; [done| |].
  - apply map_subseteq_spec. intros p c Hp. eapply lookup_weaken; [|exact Hk]. destruct (decide (image_path log a = p)) as [<-|Hne].
    + rewrite lookup_insert_eq. pose proof (lookup_weaken _ _ _ _ Hp HK). congruence.
    + by rewrite lookup_insert_ne.
  - intros a' [->|Ha']%elem_of_cons; [|by apply Hin]. eapply lookup_weaken; [apply lookup_insert_eq|done].
Qed.

(** *** The names of images *)

Lemma blob_ext_cases mt : blob_ext mt ∈ [bs "png"; bs "jpg"; bs "gif"; bs "webp"; bs "bin"].
Proof.
  unfold blob_ext. repeat case_if; repeat (apply list_elem_of_here || apply list_elem_of_further).
Qed.

Lemma hash_length data : length (session_sha256_hex data) = 64%nat.
Proof. pose proof (sha_valid_hex data) as E. apply andb_true_iff in E as [E _]. by apply Nat.eqb_eq in E. Qed.

Lemma image_tmp a a' : image_path log a ++ bs ".tmp" <> image_path log a'.
Proof.
  unfold image_path, blob_path. rewrite <- !app_assoc. intros E. do 2 apply app_inv_head in E.
  apply app_inj_1 in E as [_ E]; [|by rewrite !hash_length]. apply app_inv_head in E.
  pose proof (blob_ext_cases (media_type a)) as C1. pose proof (blob_ext_cases (media_type a')) as C2.
  rewrite !elem_of_cons, elem_of_nil in C1, C2.
  destruct C1 as [C1|[C1|[C1|[C1|[C1|[]]]]]], C2 as [C2|[C2|[C2|[C2|[C2|[]]]]]]; rewrite C1, C2 in E; done.
Qed.

Lemma image_under a : under (blob_dir_of log) (image_path log a).
Proof. apply blob_under, hash_no_slash. Qed.

Lemma image_not_dir a : image_path log a <> blob_dir_of log.
Proof. by apply log_tmp_ne. Qed.

Lemma apart_log (G : path -> Prop) : (forall q, G q -> exists a, q = image_path log a) -> apart G log.
Proof.
  intros HG q Hq. destruct (HG q Hq) as [a ->]. pose proof (image_under a) as [Hu|(x & Hu & _)]; [by apply image_not_dir in Hu|].
  split_and!; [apply image_not_log| |].
  - intros (s & E1 & E2). apply app_inv_tail in E1 as <-. rewrite Hu, blob_dir_log, <- app_assoc in E2 by done.
    apply app_inv_head in E2. done.
  - intros (s & _ & E2). apply (f_equal last) in E2. rewrite !last_app in E2. done.
Qed.

(** ** One more record *)

Definition images_map (l : list clm_attachment) : gmap path (list byte) :=
  list_to_map (map (fun a => (image_path log a, a_data a)) l).

Lemma images_map_Some l p c : images_map l !! p = Some c -> exists a, a ∈ l /\ p = image_path log a /\ c = a_data a.
Proof.
  intros E. apply elem_of_list_to_map_2 in E. apply list_elem_of_fmap in E as (a & [= -> ->] & Ha). by exists a.
Qed.

Lemma images_map_in l a : a ∈ l -> exists b, b ∈ l /\ image_path log a = image_path log b /\
  images_map l !! image_path log a = Some (a_data b).
Proof.
  intros Ha. destruct (images_map l !! image_path log a) as [c|] eqn:E.
  - destruct (images_map_Some _ _ _ E) as (b & Hb & Ep & ->). by exists b.
  - exfalso. apply not_elem_of_list_to_map_2 in E. apply E. apply list_elem_of_fmap.
    exists (image_path log a, a_data a). split; [done|]. apply list_elem_of_fmap. by exists a.
Qed.

(** No two of the images have a name in common, unless they are the same. *)
Definition no_clash (l : list clm_attachment) : Prop :=
  forall a b, a ∈ l -> b ∈ l -> image_path log a = image_path log b -> a_data a = a_data b.

Lemma images_map_no_clash l a : no_clash l -> a ∈ l -> images_map l !! image_path log a = Some (a_data a).
Proof.
  intros Hn Ha. destruct (images_map_in l a Ha) as (b & Hb & Ep & E). by rewrite E, (Hn a b).
Qed.

Lemma free_images l p : is_Some (images_map l !! p) -> free (images_map l) (p ++ bs ".tmp").
Proof.
  intros [c Hc]. destruct (images_map_Some _ _ _ Hc) as (a & _ & -> & _). intros [E|[c' Hc']].
  - apply (blob_dir_not_log st Hst (image_path log a ++ bs ".tmp")); [|done]. apply blob_tmp_under, hash_no_slash.
  - destruct (images_map_Some _ _ _ Hc') as (a' & _ & E & _). by apply image_tmp in E.
Qed.

Lemma dir_free l : free (images_map l) (blob_dir_of log).
Proof.
  intros [E|[c Hc]]; [by apply (blob_dir_not_log st Hst _ (under_dir _))|].
  destruct (images_map_Some _ _ _ Hc) as (a & _ & E & _). by apply (image_not_dir a).
Qed.

Context (cz : option clm_compressor) (meta : cJSON) (all : list clm_attachment) (Hall : no_clash all).

Definition all_images (es : list entry) : list clm_attachment := concat (map entry_images es).

(** The log of the session holds the entries; their images have their names,
    and the names of all images are for them. *)
Record log_state (s : clm_session) (es : list entry) (b : list byte) (d : disk) : Prop := {
  l_path : spath s = log;
  l_meta : is_meta meta;
  l_ok : Forall (storable cz) es;
  l_text : exists ml ts, b = ml ++ concat ts /\ line_of cJSON_PrintUnformatted meta = Some ml /\
    Forall2 (entry_text cJSON_PrintUnformatted cz) es ts;
  l_disk : holds (sfd s) b (images_map (all_images es)) (images_map all) d
}.

Lemma log_state_stores s es b d : Forall (fun e => entry_images e ⊆ all) es -> log_state s es b d ->
  stores cJSON_PrintUnformatted log cz meta es d.
Proof.
  intros Hi [Hp Hm Hok (ml & ts & -> & Hl & Ht) [Hk Ha]]. split; [done|done| |].
  - exists ml, ts. split; [by eapply contents_at|done].
  - intros e a He Hin. apply (k_bytes _ _ _ Hk).
    assert (Hin' : a ∈ all_images es) by (apply list_elem_of_In, in_concat; exists (entry_images e); split;
      [by apply in_map, list_elem_of_In|by apply list_elem_of_In]).
    destruct (images_map_in _ _ Hin') as (b & Hb & Ep & E). rewrite E. f_equal. symmetry. apply Hall; [| |done].
    + rewrite List.Forall_forall in Hi. apply list_elem_of_In in He. by apply (Hi e He).
    + apply list_elem_of_In, in_concat in Hb as (l & Hl' & Hb). apply in_map_iff in Hl' as (e' & <- & He').
      rewrite List.Forall_forall in Hi. apply (Hi e' He'). by apply list_elem_of_In.
Qed.

Definition log_line := write_line env cJSON_PrintUnformatted.

(** A line is added to the log. *)
Lemma h_add_line i b K obj : K ⊆ images_map all ->
  hoare any (holds i b K (images_map all)) (log_line i obj)
    (fun r d => r <= 0 /\ (r = 0 -> exists t, line_of cJSON_PrintUnformatted obj = Some t /\ holds i (b ++ t) K (images_map all) d)).
Proof.
  intros HK. apply h_fix. intros d1 [Hk Ha].
  set (G := fun q => is_Some (images_map all !! q)).
  assert (Hap : apart G log).
  { apply apart_log. intros q [c Hc]. destruct (images_map_Some _ _ _ Hc) as (a & _ & -> & _). by exists a. }
  eapply h_weaken; [apply (h_write_line env cJSON_PrintUnformatted G d1 log i b obj Hap)|done| |].
  - intros d ->. split; [apply same_refl, Hk|done].
  - intros r d (z & [Hs Hz] & Hr & Hr'). split; [done|]. intros E. exists z. split; [by apply Hr|].
    split; [|done]. by apply (kept_same G K (images_map all) d d1).
Qed.

Lemma kept_less K K' W d : K ⊆ K' -> kept K' W d -> kept K W d.
Proof.
  intros Hk [Kt Kn Kb Kw Ks]. split; [done..| |done|].
  - intros p c Hp. apply Kb. by eapply lookup_weaken.
  - intros p c Hp. apply Ks. by eapply lookup_weaken.
Qed.

Lemma images_map_sub (l : list clm_attachment) (K : gmap path (list byte)) : (forall a, a ∈ l -> K !! image_path log a = Some (a_data a)) -> images_map l ⊆ K.
Proof. intros Hk. apply map_subseteq_spec. intros p c Hp. destruct (images_map_Some _ _ _ Hp) as (a & Ha & -> & ->). auto. Qed.

Lemma no_clash_sub (l : list clm_attachment) : l ⊆ all -> no_clash l.
Proof. intros Hl a a' Ha Ha'. apply Hall; by apply Hl. Qed.

Lemma images_map_all (l : list clm_attachment) : l ⊆ all -> images_map l ⊆ images_map all.
Proof. intros Hl. apply images_map_sub. intros a Ha. apply images_map_no_clash; [done|by apply Hl]. Qed.

Lemma all_images_snoc es e : all_images (es ++ [e]) = all_images es ++ entry_images e.
Proof. unfold all_images. by rewrite map_app, concat_app; cbn; rewrite app_nil_r. Qed.

(** One more entry, whose text was added and whose images are there. *)
Lemma log_state_snoc s s' es e b t K d : log_state s es b d -> spath s' = log -> sfd s' = sfd s -> storable cz e ->
  entry_text cJSON_PrintUnformatted cz e t -> all_images es ⊆ all ->
  images_map (all_images es) ⊆ K -> (forall a, a ∈ entry_images e -> K !! image_path log a = Some (a_data a)) ->
  forall d', holds (sfd s) (b ++ t) K (images_map all) d' -> log_state s' (es ++ [e]) (b ++ t) d'.
Proof.
  intros [Hp Hm Hok (ml & ts & -> & Hl & Ht) _] Hp' Hf He Het Hes HK HKe d' [Hk Ha]. split; [done|done| | |].
  - apply Forall_app. split; [done|by constructor].
  - exists ml, (ts ++ [t]). rewrite concat_app. cbn [concat]. rewrite app_nil_r, <- app_assoc. split_and!; [done|done|].
    apply Forall2_app; [done|by repeat constructor].
  - rewrite Hf. split; [|done]. apply (kept_less _ K); [|done]. rewrite all_images_snoc. apply images_map_sub.
    intros a [Hin|Hin]%elem_of_app; [|by apply HKe]. eapply lookup_weaken; [|exact HK].
    apply images_map_no_clash; [by apply no_clash_sub|done].
Qed.

Context (now : Z).

(** An entry is recorded by the call for it. *)
Definition record (s : clm_session) (e : entry) : M (Z * clm_session) :=
  match e with
  | Said m => clm_session_append env cJSON_PrintUnformatted patience s m cz
  | Switched m p => clm_session_log_model env cJSON_PrintUnformatted now s m p
  end.

(** What a recorded entry is for the log. *)
Definition recorded (es : list entry) (e : entry) (rs : Z * clm_session) (d : disk) : Prop :=
  fst rs = 0 -> exists b, log_state (snd rs) (es ++ [e]) b d.

Lemma h_line_recorded s es b e obj (f : Z -> Z * clm_session) : all_images es ⊆ all -> storable cz e -> entry_images e = [] ->
  (forall t, line_of cJSON_PrintUnformatted obj = Some t -> entry_text cJSON_PrintUnformatted cz e t) ->
  (forall r, r <= 0 -> fst (f r) = r) -> (sfd (snd (f 0)) = sfd s /\ spath (snd (f 0)) = log) ->
  hoare any (log_state s es b) (r ← log_line (sfd s) obj; mret (f r)) (recorded es e).
Proof.
  intros Hes He Hi Ht Hf [Hf1 Hf2]. apply h_fix. intros d1 Hd1.
  eapply h_bind.
  { eapply h_weaken; [apply (h_add_line (sfd s) b (images_map (all_images es)) obj), images_map_all, Hes|done| |].
    - intros d ->. apply Hd1.
    - intros r d Hd. exact Hd. }
  intros r. apply h_ret. intros d [Hr Hd] E. rewrite Hf in E by done. subst r.
  destruct (Hd eq_refl) as (t & Et & Hh). exists (b ++ t).
  apply (log_state_snoc s _ es e b t (images_map (all_images es)) d1); try done; [by apply Ht|].
  intros a Ha. rewrite Hi in Ha. by apply elem_of_nil in Ha.
Qed.

Lemma h_mkdir_holds i b K : hoare any (holds i b K (images_map all)) (mkdir env (blob_dir_of log)) (fun _ => holds i b K (images_map all)).
Proof. apply h_holds. intros d1. apply keeps_mkdir, dir_free. Qed.

(** The images of a message go to their names. *)
Lemma h_store_attachments i b K m obj : K ⊆ images_map all -> attachments m ⊆ all ->
  hoare any (holds i b K (images_map all)) (store_attachments env patience log m obj)
    (fun ro d => fst ro = 0 -> exists K', holds i b K' (images_map all) d /\ K ⊆ K' /\ K' ⊆ images_map all /\
      forall a, a ∈ attachments m -> K' !! image_path log a = Some (a_data a)).
Proof.
  intros HK Hm. unfold store_attachments. destruct (attachments m) as [|a l] eqn:El.
  { apply h_ret. intros d Hd _. exists K. split_and!; [done..|]. intros a Ha. by apply elem_of_nil in Ha. }
  rewrite <- El in *. clear El a l. cbv zeta. eapply h_bind; [apply h_mkdir_holds|]. intros r.
  destruct (_ && _) eqn:E.
  { apply andb_true_iff in E as [E _]. apply h_ret. intros d _ E0. cbn in E0. lia. }
  eapply h_bind.
  { eapply h_weaken; [apply (store_images_keeps (images_map all) i b (attachments m) K cJSON_CreateArray HK)|done| |].
    - apply List.Forall_forall. intros a Ha%list_elem_of_In. apply images_map_no_clash; [done|by apply Hm].
    - apply free_images.
    - intros d Hd. exact Hd.
    - intros x d Hd. exact Hd. }
  intros [r1 arr]. apply h_ret. intros d Hd E0. destruct (Hd E0) as (K' & Hh & Hk & Hin). exists K'. split_and!; try done.
  apply map_subseteq_spec. intros p c Hp. by apply (k_sub _ _ _ (proj1 Hh)).
Qed.

Lemma h_write_message_recorded s es b m (f : Z -> Z * clm_session) : all_images es ⊆ all -> storable cz (Said m) ->
  is_prompt m = false -> attachments m ⊆ all ->
  (forall r, r <= 0 -> fst (f r) = r) -> (sfd (snd (f 0)) = sfd s /\ spath (snd (f 0)) = log) ->
  hoare any (log_state s es b)
    (r ← write_message env cJSON_PrintUnformatted patience log (sfd s) m cz; mret (f r)) (recorded es (Said m)).
Proof.
  intros Hes He Hs Hm Hf [Hf1 Hf2]. apply h_fix. intros d1 Hd1. unfold write_message.
  destruct (msg_record m cz) as [obj|] eqn:Eo.
  2: { apply h_ret. intros d _ E. cbn in E. rewrite Hf in E; [done|]. unfold ENOMEM. lia. }
  assert (Hsub : images_map (all_images es) ⊆ images_map all) by by apply images_map_all.
  eapply h_bind with (R := fun r d => r <= 0 /\ (r = 0 -> exists t K', message_text cJSON_PrintUnformatted m cz = Some t /\
    holds (sfd s) (b ++ t) K' (images_map all) d /\ images_map (all_images es) ⊆ K' /\
    forall a, a ∈ attachments m -> K' !! image_path log a = Some (a_data a))).
  - eapply h_bind.
    { eapply h_weaken; [apply h_and; [by apply (h_store_attachments (sfd s) b (images_map (all_images es)) m obj)|apply store_attachments_returns]|done| |].
      - intros d ->. apply Hd1.
      - intros x d Hd. exact Hd. }
    intros [r o]. cbn [fst snd]. destruct (Z.ltb_spec r 0); [apply h_ret; intros d _; split; [lia|lia]|].
    apply (h_pre _ (fun d => (r = 0 /\ o = with_images m obj) /\ exists K', (images_map (all_images es) ⊆ K' /\
      K' ⊆ images_map all /\ forall a, a ∈ attachments m -> K' !! image_path log a = Some (a_data a)) /\
      holds (sfd s) b K' (images_map all) d)).
    2: { intros d [Hd [Hr Ho]]. assert (r = 0) as -> by lia. split; [split; [done|by apply Ho]|].
         destruct (Hd eq_refl) as (K' & K1 & K2 & K3 & K4). by exists K'. }
    apply h_fact. intros [-> ->]. apply h_exists. intros K'. apply h_fact. intros (K2 & K3 & K4).
    eapply h_post; [by apply (h_add_line (sfd s) b K')|]. intros r d [Hr Hd]. split; [done|]. intros E.
    destruct (Hd E) as (t & Et & Hh). exists t, K'. split_and!; try done. unfold message_text. by rewrite Eo.
  - intros r. apply h_ret. intros d [Hr Hd] E. rewrite Hf in E by done. subst r.
    destruct (Hd eq_refl) as (t & K' & Et & Hh & K2 & K4). exists (b ++ t).
    eapply (log_state_snoc s _ es (Said m) b t K' d1); try done; cbn; by rewrite Hs.
Qed.

(** A call that succeeds adds its entry to the log. *)
Lemma h_record s es e b : all_images es ⊆ all -> storable cz e -> entry_images e ⊆ all -> spath s = log ->
  hoare any (log_state s es b) (record s e) (recorded es e).
Proof.
  intros Hes He Hi Hp. destruct e as [m|m p]; cbn [record].
  - unfold clm_session_append. change (bool_decide (role m = CLM_ROLE_SYSTEM)) with (is_prompt m).
    cbn in Hi, He. destruct (is_prompt m) eqn:Es.
    + unfold write_prompt. cbv zeta. destruct (Z.eqb_spec (prompt_hash (system_text m cz)) (hash s)).
      * apply h_ret. intros d Hd _. exists (b ++ []). eapply (log_state_snoc s s es (Said m) b []); try done; cbn; rewrite ?Es; auto.
        -- intros a Ha. by apply elem_of_nil in Ha.
        -- rewrite app_nil_r. apply Hd.
      * apply (h_line_recorded s es b (Said m) _ (fun r => (r, if r =? 0 then with_hash s _ else s))); try done; cbn; rewrite ?Es; auto.
    + rewrite Hp. apply (h_write_message_recorded s es b m
        (fun r => if r <? 0 then (r, s) else (0, if is_talk (role m) then with_msgs s true else s))); try done.
      * cbn. rewrite Es. auto.
      * intros r Hr. destruct (Z.ltb_spec r 0); cbn; [done|lia].
      * cbn. by destruct (is_talk (role m)).
  - apply (h_line_recorded s es b (Switched m p) _ (fun r => if r <? 0 then (r, s) else (0, with_model s m p))); try done.
    + intros t Et. by exists now.
    + intros r Hr. destruct (Z.ltb_spec r 0); cbn; [done|lia].
Qed.

(** The calls for some entries, up to the first that fails. *)
Fixpoint record_all (s : clm_session) (es : list entry) : M (Z * clm_session) :=
  match es with
  | [] => mret (0, s)
  | e :: es' => '(r, s) ← record s e; if r =? 0 then record_all s es' else mret (r, s)
  end.

Lemma app_sub {A} (l1 l2 l : list A) : l1 ++ l2 ⊆ l -> l1 ⊆ l /\ l2 ⊆ l.
Proof. intros Hl. split; intros x Hx; apply Hl, elem_of_app; auto. Qed.

Lemma h_record_all es' : forall s es b, all_images (es ++ es') ⊆ all -> Forall (storable cz) es' -> spath s = log ->
  hoare any (log_state s es b) (record_all s es')
    (fun rs d => fst rs = 0 -> exists b, log_state (snd rs) (es ++ es') b d).
Proof.
  induction es' as [|e es' IH]; intros s es b Hi Hok Hp; cbn [record_all].
  { apply h_ret. intros d Hd _. exists b. by rewrite app_nil_r. }
  apply List.Forall_cons_iff in Hok as [He Hok].
  assert (Hall_app : forall l1 l2, all_images (l1 ++ l2) = all_images l1 ++ all_images l2)
    by (intros l1 l2; unfold all_images; by rewrite map_app, concat_app).
  rewrite Hall_app in Hi. change (all_images (e :: es')) with (entry_images e ++ all_images es') in Hi.
  destruct (app_sub _ _ _ Hi) as [Hi1 [Hi2 Hi3]%app_sub].
  eapply h_bind; [by apply h_record|]. intros [r s'].
  destruct (Z.eqb_spec r 0) as [->|Hr]; [|apply h_ret; intros d _ E; done].
  apply (h_pre _ (fun d => exists b', spath s' = log /\ log_state s' (es ++ [e]) b' d)).
  2: { intros d Hd. destruct (Hd eq_refl) as [b' Hb]. exists b'. split; [apply Hb|done]. }
  apply h_exists. intros b'. apply h_fact. intros Hp'.
  replace (es ++ e :: es') with ((es ++ [e]) ++ es') by by rewrite <- app_assoc.
  apply IH; [|done|done].
  by rewrite Hall_app, all_images_snoc, <- app_assoc.
Qed.

(** No file and no directory is the session's yet. *)
Definition unused (d : disk) : Prop := tidy d /\ forall q, owned log q -> names d !! q = None /\ q ∉ dirs d.

Lemma unused_kept d : unused d -> kept ∅ (images_map all) d.
Proof.
  intros [Ht Hu]. assert (Ho : forall p, is_Some (images_map all !! p) -> owned log p).
  { intros p [c Hc]. destruct (images_map_Some _ _ _ Hc) as (a & _ & -> & _). right; right; right; left. apply image_under. }
  split; [done| | | |].
  - intros p Hp. by apply Hu, Ho.
  - intros p c Hp. by rewrite lookup_empty in Hp.
  - intros p c Hp. left. unfold contents. destruct (Hu p) as [E _]; [by apply Ho; exists c|]. by rewrite E.
  - intros p c Hp. by rewrite lookup_empty in Hp.
Qed.

Lemma h_create id m p a dir : log = log_path dir id -> meta = meta_record now id m p a -> is_meta meta ->
  hoare any unused (session_create_at env cJSON_PrintUnformatted now None None (Some dir) id m p a)
    (fun r d => forall s, r = inr s -> exists b, log_state s [] b d).
Proof.
  intros Hlog Hmeta Hism. unfold session_create_at. rewrite <- Hmeta.
  apply h_fix. intros d1 Hd1. pose proof (unused_kept _ Hd1) as Hk.
  set (G := fun q => is_Some (images_map all !! q)).
  assert (Hg : ~ G log).
  { intros [c Hc]. destruct (images_map_Some _ _ _ Hc) as (b & _ & E & _). by apply (image_not_log b). }
  assert (Hho : forall b i d, open_at G d1 log i b d -> holds i b ∅ (images_map all) d).
  { intros b i d [Hs Ha]. split; [|done]. by apply (kept_same G _ _ d d1). }
  eapply h_bind with (R := fun r d => r = inr log /\ d = d1).
  { intros w Hw. cbn. split; [by rewrite Hlog|by exists []]. }
  intros p0. apply h_fact. intros ->.
  eapply h_bind.
  { eapply h_weaken; [apply (h_open_excl G d1 env log Hg)|done|intros d ->; by apply same_refl, Hd1|intros x d Hd; exact Hd]. }
  intros [r|i]; [by apply h_ret|].
  eapply h_bind.
  { eapply h_pre; [apply (h_add_line i [] ∅ meta), map_empty_subseteq|]. intros d [Hd Ho]. apply Hho. split; [done|by apply Ho]. }
  intros r. destruct (Z.ltb_spec r 0).
  { eapply h_bind with (R := fun _ _ => True); [by apply h_attempt|]. intros x. by apply h_ret. }
  apply h_ret. intros d [Hr Hd] s [= <-]. destruct (Hd ltac:(lia)) as (t & Et & Hh). exists t. split.
  - done.
  - done.
  - done.
  - exists t, []. cbn. by rewrite app_nil_r.
  - done.
Qed.
End Append.

(** ** A session from its start *)

Section Session.
Context `{L : CJsonLaws} (env : nat -> answer).
Context (cJSON_PrintUnformatted : cJSON -> option (list byte)).
Context (cJSON_ParseWithLength : list byte -> option cJSON).
Context (patience : nat) (cz : option clm_compressor) (now : Z).

(** A session is created under an id and told some entries; nothing, when a
    call fails. *)
Definition tell (dir id : path) (m p a : option (list byte)) (es : list entry) : M bool :=
  r ← clm_session_create_id env cJSON_PrintUnformatted now None None (Some dir) id m p a;
  match r with
  | inl _ => mret false
  | inr s => '(r, _) ← record_all env cJSON_PrintUnformatted patience cz now s es; mret (r =? 0)
  end.

Definition images_of (es : list entry) : list clm_attachment := concat (map entry_images es).

(** C10. The store remembers what it is told. After a session was created and
    every call succeeded, the load of its log, by a program that can read
    it, gives back every message, in order, with its text, its calls and its
    images, and a meta record that names the last model: whatever the
    messages are, except that texts hold no NUL and images are not empty nor
    over 32 MiB. It needs a JSON printer that makes one line of a tree and a
    parser that is its inverse, a compressor whose [read] is the inverse of
    its [write], no two different images of one SHA-256, and an id that is
    not in use. *)
Theorem session_remembers dir id m p a es w w'
    (Hpp : prints_and_parses cJSON_PrintUnformatted cJSON_ParseWithLength) (Hcz : cz_inverse cz)
    (Hok : Forall (storable cz) es) (Hn : no_clash (dir ++ bs "/" ++ id) (images_of es))
    (Hu : unused (dir ++ bs "/" ++ id) (dk w))
    (Ht : tell dir id m p a es w = (true, w')) :
  fst (clm_session_load quiet cJSON_ParseWithLength None None (Some dir) id [] true (mk_io (dk w') 0 []))
  = (0, concat (map (said cz) es), Some (Some (fold_left switch es (meta_record now id m p a)))).
Proof.
  set (st := dir ++ bs "/" ++ id) in *.
  assert (Hst : st <> []) by (unfold st; by destruct dir).
  assert (Hlog : st ++ jsonl = log_path dir id) by (unfold st, log_path; by rewrite <- !app_assoc).
  set (meta := meta_record now id m p a) in *. assert (Hm : is_meta meta) by apply meta_record_ok.
  assert (Hh : hoare any (unused st) (tell dir id m p a es) (fun b d => b = true -> id_valid id = true /\
    stores cJSON_PrintUnformatted (st ++ jsonl) cz meta es d)).
  { unfold tell, clm_session_create_id. destruct (id_valid id) eqn:Eid; cbn [negb orb]; [|by apply h_ret].
    destruct (SESSION_ID_MAX <=? length id)%nat; [by apply h_ret|].
    eapply h_bind; [by apply (h_create env cJSON_PrintUnformatted st Hst cz meta (images_of es) now)|].
    intros [r|s]; [by apply h_ret|].
    apply (h_pre _ (fun d => exists b, spath s = st ++ jsonl /\ log_state cJSON_PrintUnformatted st cz meta (images_of es) s [] b d)).
    2: { intros d Hd. destruct (Hd s eq_refl) as [b Hb]. exists b. split; [apply Hb|done]. }
    apply h_exists. intros b. apply h_fact. intros Hp.
    eapply h_bind; [by apply (h_record_all env cJSON_PrintUnformatted patience st Hst cz meta (images_of es) Hn now es s [] b)|].
    intros [r s']. apply h_ret. intros d Hd E. apply Z.eqb_eq in E. destruct (Hd E) as [b' Hb]. split; [done|].
    eapply (log_state_stores cJSON_PrintUnformatted st cz meta (images_of es) Hn); [|exact Hb].
    apply List.Forall_forall. intros e He x Hx. apply list_elem_of_In, in_concat. exists (entry_images e).
    split; [by apply in_map|by apply list_elem_of_In]. }
  destruct (Hh w Hu) as [Hq _]. rewrite Ht in Hq. cbn in Hq. destruct (Hq eq_refl) as [Hid Hs].
  unfold clm_session_load, session_path, resolve_dir. rewrite Hid. cbn [negb].
  unfold mbind, M_bind. cbn [mret M_ret]. unfold mret, M_ret. rewrite <- Hlog.
  by apply (load_stores cJSON_PrintUnformatted cJSON_ParseWithLength Hpp (st ++ jsonl) cz Hcz meta es (dk w')).
Qed.
End Session.
