(* ===== verification/SessionRun.v ===== *)
(** The session store at work on a small disk: witnesses of its theorems,
    and two ways in which it loses what it was told. *)

From S2P Require Import Prelude Utf8 Image Sha256 CJson History HistoryFacts HistoryJson Disk Session SessionFacts SessionLoad.
From stdpp Require Import gmap.
#[local] Open Scope Z_scope.

(** ** A printer of three trees *)

Definition demo_image : clm_attachment := mk_attachment (bs "image/png") (bs "PNG").

Definition demo_message : clm_message :=
  clm_message_add_attachment (message_set_content (clm_message_create CLM_ROLE_USER) (Some (bs "hi")) None)
    (media_type demo_image) (a_data demo_image).

Definition demo_meta : json := meta_record 7 (bs "s1") (Some (bs "m")) None None.
Definition demo_record : json := match msg_record demo_message None with Some obj => with_images demo_message obj | None => JNull end.
Definition demo_switch : json := model_record 7 (Some (bs "m2")) None.

Definition demo_hash : list byte := session_sha256_hex (bs "PNG").

Definition demo_table : list (json * list byte) :=
  [(demo_meta, bs "meta"); (demo_record, bs "msg" ++ sha_key ++ demo_hash ++ [x22]); (demo_switch, bs "model")].

Definition demo_print (j : json) : option (list byte) :=
  snd <$> List.find (fun p => bool_decide (fst p = j)) demo_table.
Definition demo_parse (t : list byte) : option json :=
  fst <$> List.find (fun p => beq (snd p ++ [x0a]) t) demo_table.

Lemma demo_prints : prints_and_parses demo_print demo_parse.
Proof.
  assert (Hall : Forall (fun p => existsb (Byte.eqb x0a) (c_str (snd p)) = false /\
    demo_parse (c_str (snd p) ++ [x0a]) = Some (fst p)) demo_table).
  { repeat (constructor; [split; vm_compute; reflexivity|]). constructor. }
  intros j t E. unfold demo_print in E. destruct (List.find _ _) as [p|] eqn:Ef; [|done]. injection E as <-.
  apply find_some in Ef as [Hin Hp]. apply bool_decide_eq_true_1 in Hp as <-.
  rewrite List.Forall_forall in Hall. destruct (Hall p Hin) as [E1 E2]. split; [|done].
  intros Hnl. assert (Ht : existsb (Byte.eqb x0a) (c_str (snd p)) = true); [|congruence].
  apply existsb_exists. by exists x0a.
Qed.

Definition demo_dir : path := bs "d".
Definition demo_st : path := demo_dir ++ bs "/" ++ bs "s1".
Abbreviation demo_log := (demo_st ++ jsonl).

Definition demo_entries : list entry := [Said demo_message; Switched (Some (bs "m2")) None].

Definition demo_tell (env : nat -> answer) : io -> bool * io :=
  @tell json_cjson env demo_print 0 None 7 demo_dir (bs "s1") (Some (bs "m")) None None demo_entries.

Definition empty_disk : disk := mk_disk ∅ ∅ ∅ ∅ 0.
Definition demo_start : io := mk_io empty_disk 0 [].

Lemma empty_unused : unused demo_st empty_disk.
Proof.
  split; [split|].
  - intros p i Hp. cbn in Hp. by rewrite lookup_empty in Hp.
  - intros p q i Hp. cbn in Hp. by rewrite lookup_empty in Hp.
  - intros p i Hp. cbn in Hp. by rewrite lookup_empty in Hp.
  - intros q _. split; [apply lookup_empty|apply not_elem_of_empty].
Qed.

Lemma demo_storable : Forall (storable None) demo_entries.
Proof.
  constructor; [|constructor; [done|constructor]]. right. split.
  - split.
    + right. exists (bs "hi"). split_and!; [repeat constructor; discriminate| |vm_compute; discriminate|vm_compute; reflexivity].
      apply (count_bad_zero _ 2); vm_compute; lia.
    + cbn. split_and!; try done.
  - constructor; [|constructor]. split; [repeat constructor; discriminate|vm_compute; split; [reflexivity|discriminate]].
Qed.

Lemma demo_no_clash : no_clash demo_st (images_of demo_entries).
Proof. intros a b Ha Hb _. apply list_elem_of_singleton in Ha as ->, Hb as ->. done. Qed.

Lemma told (m : io -> bool * io) w : fst (m w) = true -> m w = (true, snd (m w)).
Proof. by destruct (m w); cbn; intros ->. Qed.

Lemma session_remembers_witness :
  unused demo_st (dk demo_start) /\ Forall (storable None) demo_entries /\
  fst (@clm_session_load json_cjson quiet demo_parse None None (Some demo_dir) (bs "s1") [] true
    (mk_io (dk (snd (demo_tell quiet demo_start))) 0 []))
  = (0, concat (map (said None) demo_entries), Some (Some (fold_left switch demo_entries demo_meta))).
Proof.
  split; [exact empty_unused|]. split; [exact demo_storable|].
  assert (Ht : demo_tell quiet demo_start = (true, snd (demo_tell quiet demo_start)))
    by (apply told; vm_compute; reflexivity).
  exact (@session_remembers json_cjson json_laws quiet demo_print demo_parse 0 None 7 demo_dir (bs "s1") (Some (bs "m"))
    None None demo_entries demo_start _ demo_prints I demo_storable demo_no_clash empty_unused Ht).
Defined.

(** ** A rewrite *)

Definition demo_old : list byte := bs "meta" ++ [x0a].
Definition other : path := bs "d/other".

(** A log of no messages, and somebody else's file. *)
Definition demo_disk : disk :=
  mk_disk {[demo_log := 0%nat; other := 1%nat]} ∅ {[0%nat := demo_old; 1%nat := bs "x"]} ∅ 2.
Definition demo_session : clm_session := mk_session 0 (bs "s1") demo_log false 0 None None.

Lemma demo_names p i : names demo_disk !! p = Some i -> (p = demo_log /\ i = 0%nat) \/ (p = other /\ i = 1%nat).
Proof.
  cbn. intros [[<- <-]|[_ [<- <-]%lookup_singleton_Some]]%lookup_insert_Some; [by left|by right].
Qed.

Lemma demo_tidy : tidy demo_disk.
Proof.
  split.
  - intros p i [[-> ->]|[-> ->]]%demo_names; cbn; lia.
  - intros p q i [[-> ->]|[-> ->]]%demo_names [[-> ?]|[-> ?]]%demo_names; try done; by left.
  - intros p i [[-> ->]|[-> ->]]%demo_names; eexists; vm_compute; reflexivity.
Qed.

Lemma demo_contents : contents demo_disk demo_log = Some demo_old.
Proof. vm_compute. reflexivity. Qed.

Definition demo_rewrite : Z * clm_session * io :=
  @clm_session_rewrite json_cjson quiet demo_print demo_parse 7 0 demo_session [demo_message] None (mk_io demo_disk 0 []).

Lemma demo_st_ne : demo_st <> [].
Proof. discriminate. Qed.

Lemma rewrite_is_atomic_witness :
  contents demo_disk demo_log = Some demo_old /\ tidy demo_disk /\ fst (fst demo_rewrite) = 0 /\
  @renewed json_cjson demo_print demo_parse 7 demo_st demo_old demo_session [demo_message] None
    (sfd (snd (fst demo_rewrite))) (dk (snd demo_rewrite)).
Proof.
  assert (E : fst (fst demo_rewrite) = 0) by (vm_compute; reflexivity).
  split; [exact demo_contents|]. split; [exact demo_tidy|]. split; [exact E|].
  destruct (@rewrite_is_atomic json_cjson quiet demo_print demo_parse 7 0 demo_st demo_st_ne demo_disk demo_old demo_contents
    demo_session [demo_message] None eq_refl (mk_io demo_disk 0 []) (same_refl _ _ demo_tidy)) as [[_ [(Hn & _ & _)|Hr]] _];
    [|exact Hr].
  unfold demo_rewrite in E. rewrite E in Hn. discriminate.
Defined.

(** ** The files of others *)

Lemma session_keeps_to_its_files_witness :
  contents demo_disk other = Some (bs "x") /\ names demo_disk !! demo_log = Some (sfd demo_session) /\
  contents (dk (snd (@run_op json_cjson quiet demo_print demo_parse 7 0 demo_session (OSpool (bs "../../other") (bs "y") 99)
    (mk_io demo_disk 0 [])))) other = Some (bs "x").
Proof.
  assert (Hc : contents demo_disk other = Some (bs "x")) by (vm_compute; reflexivity).
  assert (Hn : names demo_disk !! demo_log = Some (sfd demo_session)) by (vm_compute; reflexivity).
  assert (HG : forall q, q = other -> ~ owned demo_log q).
  { intros q -> [E|[E|[E|[[E|(x & E & _)]|[E|(x & E & _)]]]]]; discriminate E. }
  split; [exact Hc|]. split; [exact Hn|]. rewrite <- Hc.
  exact (s_bytes _ _ _ (proj1 (@session_keeps_to_its_files json_cjson quiet demo_print demo_parse 7 0 demo_st demo_st_ne
    (fun q => q = other) demo_disk HG demo_session (OSpool (bs "../../other") (bs "y") 99) eq_refl (mk_io demo_disk 0 [])
    (conj (same_refl _ _ demo_tidy) Hn))) other eq_refl).
Defined.

(** ** Images *)

(** The disk after the demo, with another image that no log names. *)
Definition demo_told : disk := dk (snd (demo_tell quiet demo_start)).
Definition demo_image_path : path := image_path demo_log demo_image.

(** The read of the log for its hashes fails. *)
Definition unreadable : nat -> answer := fun n => if (n =? 3)%nat then Fails 24 else Done.

Definition demo_open : (Z + clm_session) * io :=
  @clm_session_open json_cjson unreadable demo_parse None None (Some demo_dir) (bs "s1") (mk_io demo_told 0 []).

Definition opened (r : Z + clm_session) : bool := match r with inr _ => true | inl _ => false end.

Lemma opened_is r : opened r = true -> exists s, r = inr s.
Proof. destruct r as [|s]; [done|]. by exists s. Qed.

Lemma is_in (x : list byte) l : existsb (beq x) l = true -> x ∈ l.
Proof. intros (y & Hy & E)%existsb_exists. apply beq_eq in E as ->. by apply list_elem_of_In. Qed.

(** When the log cannot be read, for want of memory or of a file
    descriptor, the collection takes it to name no image and removes them
    all. Here a session is opened whose log names an image that is there;
    one read fails, the session opens all the same, its log is as it was,
    and the image is gone. *)
Theorem gc_of_an_unreadable_log_loses_images : exists b,
  contents demo_told demo_log = Some b /\ demo_hash ∈ blob_refs b /\
  contents demo_told demo_image_path = Some (bs "PNG") /\
  (exists s, fst demo_open = inr s) /\ contents (dk (snd demo_open)) demo_log = Some b /\
  contents (dk (snd demo_open)) demo_image_path = None.
Proof.
  exists (default [] (contents demo_told demo_log)). split; [vm_compute; reflexivity|].
  split; [apply is_in; vm_compute; reflexivity|]. split; [vm_compute; reflexivity|].
  split; [apply opened_is; vm_compute; reflexivity|]. split; vm_compute; reflexivity.
Qed.

Lemma in_two_pairs {A B} (x a1 a2 : A) (y b1 b2 : B) : (x, y) ∈ [(a1, b1); (a2, b2)] ->
  (x = a1 /\ y = b1) \/ (x = a2 /\ y = b2).
Proof. intros [[= -> ->]|[[= -> ->]|[]%elem_of_nil]%elem_of_cons]%elem_of_cons; [by left|by right]. Qed.

Lemma demo_told_names p i : names demo_told !! p = Some i ->
  (p = demo_log /\ i = 0%nat) \/ (p = demo_image_path /\ i = 1%nat).
Proof.
  intros Hp. apply elem_of_map_to_list in Hp.
  assert (E : map_to_list (names demo_told) = [(demo_log, 0%nat); (demo_image_path, 1%nat)]) by (vm_compute; reflexivity).
  rewrite E in Hp. by apply in_two_pairs in Hp.
Qed.

Lemma demo_told_tidy : tidy demo_told.
Proof.
  assert (En : next demo_told = 2%nat) by (vm_compute; reflexivity).
  split.
  - intros p i [[-> ->]|[-> ->]]%demo_told_names; rewrite En; lia.
  - intros p q i [[-> ->]|[-> ->]]%demo_told_names [[-> ?]|[-> ?]]%demo_told_names;
      (left; reflexivity) || (exfalso; lia).
  - intros p i [[-> ->]|[-> ->]]%demo_told_names; eexists; vm_compute; reflexivity.
Qed.

Definition demo_told_io : io := mk_io demo_told 0 [].
Definition demo_told_log : list byte := default [] (contents (dk demo_told_io) demo_log).


(** ** A line that was cut short *)

(** The log after a crash in the middle of a line. *)
Definition cut_disk : disk := mk_disk {[demo_log := 0%nat]} ∅ {[0%nat := demo_old ++ bs "{"]} ∅ 1.

Definition cut_append : Z * clm_session * io :=
  @clm_session_append json_cjson quiet demo_print 0 demo_session demo_message None (mk_io cut_disk 0 []).

(** A crash in the middle of a line costs the next message too: it is
    added to the rest of the line, and the loader skips both. The append
    reports success, and so does the load, without the message. *)
Theorem cut_line_loses_the_next :
  fst (fst cut_append) = 0 /\
  fst (@clm_session_load json_cjson quiet demo_parse None None (Some demo_dir) (bs "s1") [] true
    (mk_io (dk (snd cut_append)) 0 [])) = (0, [], Some (Some demo_meta)).
Proof. split; vm_compute; reflexivity. Qed.
