(* ===== verification/Registry.v ===== *)
(** The tool registry of [src/libclm/tools.c]. The nodes ever allocated are
    the elements of a list, in the order they were added, and a pointer to a
    node is its position: a node leaves the agent's TAILQ when it is removed
    or freed, and [freed] says its memory is gone, so that what would be a
    use after free can be stated. *)

From S2P Require Import Prelude.

(** [flags] of a definition, as the code's masks. *)
Definition CLM_TOOL_TIMEOUT_OVERRIDABLE : Z := 1.
Definition CLM_TOOL_OUTPUT_CAP_OVERRIDABLE : Z := 2.
Definition CLM_TOOL_NO_PROMPT : Z := 4.
Definition CLM_TOOL_HIDDEN : Z := 8.
Definition CLM_TOOL_VISION : Z := 16.

Record clm_tool_def := mk_tool_def {
  d_name : list byte;
  d_description : option (list byte);
  d_params_schema : option (list byte);
  d_output_cap : Z;
  d_timeout_ms : Z;
  d_flags : Z;
  d_detach : bool
}.

Definition has_flag (d : clm_tool_def) (mask : Z) : bool := negb (Z.land (d_flags d) mask =? 0).

(** [t_detach] is [t->detach != NULL]; [detach_calls] counts the calls of the
    callback. *)
Record clm_tool := mk_tool {
  t_def : clm_tool_def;
  t_detach : bool;
  remembered : bool;
  remember_allow : bool;
  removed : bool;
  inflight : Z;
  freed : bool;
  detach_calls : nat
}.

Abbreviation registry := (list clm_tool).

(** The node is on the agent's list. *)
Definition linked (t : clm_tool) : bool := negb (removed t) && negb (freed t).

Definition named (name : list byte) (t : clm_tool) : bool := linked t && beq (d_name (t_def t)) name.

(** [find_tool] and [find_tool_mut]: the position of the node. *)
Fixpoint find_tool (reg : registry) (name : list byte) : option nat :=
  match reg with
  | [] => None
  | t :: reg' => if named name t then Some 0%nat else S <$> find_tool reg' name
  end.

Definition find_tool_mut : registry -> list byte -> option nat := find_tool.

Definition tool_count (reg : registry) : nat := length (List.filter linked reg).

Definition clm_tool_add (reg : registry) (def : clm_tool_def) : Z * registry :=
  match find_tool reg (d_name def) with
  | Some _ => (- EEXIST, reg)
  | None => (0, reg ++ [mk_tool def (d_detach def) false false false 0 false 0])
  end.

Definition tool_detach (t : clm_tool) : clm_tool :=
  if t_detach t
  then mk_tool (t_def t) false (remembered t) (remember_allow t) (removed t) (inflight t) (freed t)
         (S (detach_calls t))
  else t.

Definition tool_node_free (t : clm_tool) : clm_tool :=
  let t := tool_detach t in
  mk_tool (t_def t) (t_detach t) (remembered t) (remember_allow t) (removed t) (inflight t) true
    (detach_calls t).

Definition set_removed (t : clm_tool) : clm_tool :=
  mk_tool (t_def t) (t_detach t) (remembered t) (remember_allow t) true (inflight t) (freed t)
    (detach_calls t).

Definition clm_tool_remove (reg : registry) (name : list byte) : Z * registry :=
  match find_tool reg name with
  | None => (- ENOENT, reg)
  | Some k =>
      (0, alter (fun t => let t := tool_detach t in
                          if inflight t =? 0 then tool_node_free t else set_removed t) k reg)
  end.

Definition clm_tools_free_registry (reg : registry) : registry :=
  map (fun t => if linked t then tool_node_free t else t) reg.

(** The first loop of [clm_tools_detach]. *)
Definition detach_all (reg : registry) : registry :=
  map (fun t => if linked t then tool_detach t else t) reg.

(** A call pins the node it resolved, and gives it back when it finishes. *)
Definition add_inflight (d : Z) (t : clm_tool) : clm_tool :=
  mk_tool (t_def t) (t_detach t) (remembered t) (remember_allow t) (removed t) (inflight t + d)
    (freed t) (detach_calls t).

Definition pin (reg : registry) (k : nat) : registry := alter (add_inflight 1) k reg.

Definition unpin (reg : registry) (k : nat) : registry :=
  alter (fun t => let t := add_inflight (-1) t in
                  if removed t && (inflight t =? 0) then tool_node_free t else t) k reg.

(** An [_ALWAYS] answer, remembered by name. *)
Definition remember (reg : registry) (name : list byte) (allow : bool) : registry :=
  match find_tool_mut reg name with
  | None => reg
  | Some k =>
      alter (fun t => mk_tool (t_def t) (t_detach t) true allow (removed t) (inflight t) (freed t)
                        (detach_calls t)) k reg
  end.

(** ** Lookup *)

Lemma find_tool_Some reg name k : find_tool reg name = Some k ->
  (exists t, reg !! k = Some t /\ named name t = true) /\
  forall j t, (j < k)%nat -> reg !! j = Some t -> named name t = false.
Proof.
  revert k. induction reg as [|t reg IH]; intros k; cbn [find_tool]; [done|].
  destruct (named name t) eqn:E.
  - intros [= <-]. split; [by exists t|lia].
  - destruct (find_tool reg name) as [k'|]; [|done]. intros [= <-].
    destruct (IH k' eq_refl) as [H1 H2]. split; [done|].
    intros [|j] t' Hj; [by intros [= <-]|]. intros Ht. apply (H2 j t'); [lia|done].
Qed.

Lemma find_tool_None reg name : find_tool reg name = None <->
  forall t, In t reg -> named name t = false.
Proof.
  induction reg as [|t reg IH]; cbn [find_tool]; [by split|].
  destruct (named name t) eqn:E.
  - split; [done|]. intros H. rewrite (H t) in E by (by left). done.
  - destruct (find_tool reg name) eqn:Ef; cbn.
    + split; [done|]. intros H. assert (Some n = None) as E2; [|discriminate E2].
      apply IH. intros t' Ht. apply H. by right.
    + split; [|done]. intros _ t' [<-|Ht]; [done|]. by apply IH.
Qed.

Definition live_names (reg : registry) : list (list byte) :=
  map (fun t => d_name (t_def t)) (List.filter linked reg).

Lemma find_tool_live reg name : is_Some (find_tool reg name) <-> In name (live_names reg).
Proof.
  unfold live_names. induction reg as [|t reg IH]; cbn [find_tool List.filter map].
  { split; [intros [? ?]; done|done]. }
  unfold named. destruct (linked t) eqn:El; cbn [andb map In].
  - destruct (beq (d_name (t_def t)) name) eqn:Eb.
    + apply beq_eq in Eb. split; [auto|by eexists].
    + apply beq_neq in Eb. rewrite fmap_is_Some, IH. split; [auto|intros [?|?]; done].
  - by rewrite fmap_is_Some, IH.
Qed.

(** ** Sequences of operations *)

(** [pins] are the positions held by calls in flight; a call gives its own
    back. *)
Inductive reg_op :=
| RAdd (def : clm_tool_def)
| RRemove (name : list byte)
| RPin (name : list byte)
| RUnpin (call : nat)
| RRemember (name : list byte) (allow : bool).

Definition reg_step (s : registry * list nat) (op : reg_op) : registry * list nat :=
  let '(reg, pins) := s in
  match op with
  | RAdd def => (snd (clm_tool_add reg def), pins)
  | RRemove name => (snd (clm_tool_remove reg name), pins)
  | RPin name =>
      match find_tool reg name with
      | Some k => (pin reg k, pins ++ [k])
      | None => s
      end
  | RUnpin call =>
      match pins !! call with
      | Some k => (unpin reg k, delete call pins)
      | None => s
      end
  | RRemember name allow => (remember reg name allow, pins)
  end.

(** How many calls in flight hold the node. *)
Definition holds (pins : list nat) (k : nat) : Z :=
  Z.of_nat (length (List.filter (Nat.eqb k) pins)).

(** One node's bookkeeping, [n] calls holding it. *)
Record node_ok (t : clm_tool) (n : Z) : Prop := {
  no_inflight : inflight t = n;
  no_freed : freed t = true -> n = 0 /\ t_detach t = false;
  no_zombie : removed t = true -> freed t = false -> 0 < n;
  no_has : t_detach t = true -> d_detach (t_def t) = true;
  no_once : detach_calls t = (if d_detach (t_def t) && negb (t_detach t) then 1 else 0)%nat
}.

(** The registry, [h k] calls holding node [k]. *)
Record reg_ok (reg : registry) (h : nat -> Z) : Prop := {
  ro_names : List.NoDup (live_names reg);
  ro_nodes k t : reg !! k = Some t -> node_ok t (h k);
  ro_held k : 0 <= h k /\ (0 < h k -> (k < length reg)%nat)
}.

Lemma live_names_app a b : live_names (a ++ b) = live_names a ++ live_names b.
Proof. unfold live_names. by rewrite filter_app, map_app. Qed.

(** Changing one node: its name stays, or it leaves the list. *)
Lemma live_names_alter f reg k :
  (forall t, t_def (f t) = t_def t) -> (forall t, linked (f t) = true -> linked t = true) ->
  exists del, live_names (alter f k reg) = live_names reg \/
    exists a b, live_names reg = a ++ del :: b /\ live_names (alter f k reg) = a ++ b.
Proof.
  intros Hd Hl. revert k. induction reg as [|t reg IH]; intros [|k].
  - exists []. by left.
  - exists []. by left.
  - exists (d_name (t_def t)). cbn. unfold live_names. cbn [List.filter].
    specialize (Hl t). destruct (linked (f t)) eqn:E1.
    + rewrite Hl by done. left. cbn. by rewrite Hd.
    + destruct (linked t); [right|by left]. by exists [], (map (fun t => d_name (t_def t)) (List.filter linked reg)).
  - destruct (IH k) as [del H]. exists del. cbn. unfold live_names in *. cbn [List.filter].
    destruct (linked t); cbn; [|done]. destruct H as [->|(a & b & H1 & H2)]; [by left|right].
    exists (d_name (t_def t) :: a), b. cbn. by rewrite H1, H2.
Qed.

Lemma names_alter f reg k :
  (forall t, t_def (f t) = t_def t) -> (forall t, linked (f t) = true -> linked t = true) ->
  List.NoDup (live_names reg) -> List.NoDup (live_names (alter f k reg)).
Proof.
  intros Hd Hl Hn. destruct (live_names_alter f reg k Hd Hl) as (del & [->|(a & b & H1 & ->)]); [done|].
  rewrite H1 in Hn. by apply NoDup_remove in Hn as [? _].
Qed.

Lemma tool_detach_fields t : t_def (tool_detach t) = t_def t /\ t_detach (tool_detach t) = false /\
  removed (tool_detach t) = removed t /\ inflight (tool_detach t) = inflight t /\
  freed (tool_detach t) = freed t.
Proof. unfold tool_detach. by destruct (t_detach t) eqn:E. Qed.

Lemma detach_node_ok t n : node_ok t n -> node_ok (tool_detach t) n.
Proof.
  intros [H1 H2 H3 H4 H5]. unfold tool_detach. destruct t as [d td rm ra rv fl fr dc]. cbn in *.
  destruct td; [|by constructor]. rewrite H4 in H5 by done. cbn in H5. subst dc.
  constructor; cbn; [done|by intros Hf; destruct (H2 Hf)|done|done|by rewrite H4].
Qed.

Lemma node_free_ok t : node_ok t 0 -> node_ok (tool_node_free t) 0.
Proof.
  intros H. apply detach_node_ok in H. destruct (tool_detach_fields t) as (_ & E & _).
  destruct H as [H1 H2 H3 H4 H5]. unfold tool_node_free. constructor; cbn; done.
Qed.

Lemma holds_app pins k k' : holds (pins ++ [k']) k = holds pins k + (if (k =? k')%nat then 1 else 0).
Proof.
  unfold holds. rewrite filter_app, length_app. cbn. destruct (k =? k')%nat; cbn; lia.
Qed.

Lemma holds_delete pins c k' k : pins !! c = Some k' ->
  holds pins k = holds (delete c pins) k + (if (k =? k')%nat then 1 else 0).
Proof.
  intros Hc. rewrite delete_take_drop. rewrite <- (take_drop c pins) at 1.
  rewrite (drop_S pins k' c Hc). unfold holds. rewrite !filter_app, !length_app. cbn [List.filter].
  destruct (k =? k')%nat; cbn [length]; lia.
Qed.

Lemma holds_nonneg pins k : 0 <= holds pins k.
Proof. unfold holds. lia. Qed.

Lemma holds_zero pins k : ~ In k pins -> holds pins k = 0.
Proof.
  intros H. unfold holds. induction pins as [|x pins IH]; [done|]. cbn [List.filter].
  destruct (Nat.eqb_spec k x) as [->|]; [destruct H; by left|]. apply IH. intros Hi. apply H. by right.
Qed.

(** A change of one node, for the three parts of the invariant. *)
Lemma reg_ok_alter f reg h h' k :
  reg_ok reg h ->
  (forall t, t_def (f t) = t_def t) -> (forall t, linked (f t) = true -> linked t = true) ->
  (forall t, reg !! k = Some t -> node_ok t (h k) -> node_ok (f t) (h' k)) ->
  (forall j, j <> k -> h' j = h j) -> 0 <= h' k -> (k < length reg)%nat ->
  reg_ok (alter f k reg) h'.
Proof.
  intros [R1 R2 R3] Hd Hl Hk Hj H0 Hlt. constructor.
  - by apply names_alter.
  - intros j t. destruct (decide (j = k)) as [->|Hne].
    + rewrite list_lookup_alter_eq. destruct (reg !! k) as [t'|] eqn:E; [|done].
      cbn. intros [= <-]. apply Hk; [done|by apply R2].
    + rewrite list_lookup_alter_ne by done. intros Ht. rewrite Hj by done. by apply R2.
  - intros j. rewrite length_alter. destruct (decide (j = k)) as [->|Hne]; [done|].
    rewrite Hj by done. apply R3.
Qed.

Lemma reg_ok_ext reg h h' : (forall k, h' k = h k) -> reg_ok reg h -> reg_ok reg h'.
Proof.
  intros E [R1 R2 R3]. constructor; [done| |].
  - intros k t Ht. rewrite E. by apply R2.
  - intros k. rewrite E. apply R3.
Qed.

Lemma linked_detach t : linked (tool_detach t) = linked t.
Proof. unfold linked. by destruct (tool_detach_fields t) as (_ & _ & -> & _ & ->). Qed.

Lemma remove_node_def t : t_def (let t := tool_detach t in
   if inflight t =? 0 then tool_node_free t else set_removed t) = t_def t.
Proof.
  destruct (tool_detach_fields t) as (E & _). cbv zeta. case_if; cbn; [|done].
  destruct (tool_detach_fields (tool_detach t)) as (-> & _). done.
Qed.

Lemma remove_node_linked t : linked (let t := tool_detach t in
   if inflight t =? 0 then tool_node_free t else set_removed t) = false.
Proof. cbv zeta. case_if; unfold linked; cbn; [by rewrite andb_false_r|done]. Qed.

Lemma add_ok reg h def : reg_ok reg h -> reg_ok (snd (clm_tool_add reg def)) h.
Proof.
  intros [R1 R2 R3]. unfold clm_tool_add. destruct (find_tool reg (d_name def)) eqn:Ef; [done|].
  cbn [snd]. constructor.
  - rewrite live_names_app. cbn. apply (NoDup_Add (Add_app (d_name def) (live_names reg) [])).
    rewrite app_nil_r. split; [done|]. intros Hin. apply find_tool_live in Hin as [k Hk]. congruence.
  - intros k t. rewrite lookup_app_Some. intros [Ht|[Hk Ht]]; [by apply R2|].
    apply list_lookup_singleton_Some in Ht as [Hk0 <-].
    replace (h k) with 0 by (destruct (R3 k); lia).
    constructor; cbn; try done. destruct (d_detach def); done.
  - intros k. rewrite length_app. destruct (R3 k). split; [done|lia].
Qed.

Lemma find_tool_lt reg name k : find_tool reg name = Some k -> (k < length reg)%nat.
Proof. intros Hf. destruct (find_tool_Some _ _ _ Hf) as [(t & Ht & _) _]. by apply lookup_lt_Some in Ht. Qed.

Lemma remove_ok reg h name : reg_ok reg h -> reg_ok (snd (clm_tool_remove reg name)) h.
Proof.
  intros H. unfold clm_tool_remove. destruct (find_tool reg name) as [k|] eqn:Ef; [|done].
  cbn [snd]. assert (0 <= h k) by (apply H).
  apply (reg_ok_alter _ reg h h k); try done;
    [apply remove_node_def|intros t; by rewrite remove_node_linked| |by eapply find_tool_lt].
  intros t Ht Hok. apply detach_node_ok in Hok. cbv zeta. case_if.
  - assert (h k = 0) as E0 by (destruct Hok; congruence). rewrite E0 in *. by apply node_free_ok.
  - destruct Hok as [N1 N2 N3 N4 N5]. unfold set_removed. constructor; cbn; try done.
    intros _ _. lia.
Qed.

Lemma remember_ok reg h name allow : reg_ok reg h -> reg_ok (remember reg name allow) h.
Proof.
  intros H. unfold remember, find_tool_mut. destruct (find_tool reg name) as [k|] eqn:Ef; [|done].
  assert (0 <= h k) by (apply H). apply (reg_ok_alter _ reg h h k); try done; [|by eapply find_tool_lt].
  intros t Ht [N1 N2 N3 N4 N5]. by constructor.
Qed.

(** A node found by name is live, so a call can take hold of it. *)
Lemma pin_ok reg h h' name k : reg_ok reg h -> find_tool reg name = Some k ->
  (forall j, h' j = h j + (if (j =? k)%nat then 1 else 0)) -> reg_ok (pin reg k) h'.
Proof.
  intros H Ef Hh. destruct (find_tool_Some _ _ _ Ef) as [(t0 & Ht0 & Hn0) _].
  assert (0 <= h k) by (apply H). unfold pin.
  apply (reg_ok_alter _ reg h h' k); try done.
  - intros t Ht [N1 N2 N3 N4 N5]. rewrite Hh, Nat.eqb_refl.
    assert (t = t0) as -> by congruence. unfold named, linked in Hn0. bool_facts.
    constructor; cbn; try done; [lia|congruence|congruence].
  - intros j Hj. rewrite Hh. apply Nat.eqb_neq in Hj. rewrite Hj. lia.
  - rewrite Hh, Nat.eqb_refl. lia.
  - by eapply find_tool_lt.
Qed.

(** A call lets go of its node; the last one to let go of a removed node
    frees it. *)
Lemma unpin_node_ok t n : node_ok t n -> 0 < n ->
  node_ok (let t := add_inflight (-1) t in
           if removed t && (inflight t =? 0) then tool_node_free t else t) (n - 1).
Proof.
  intros [N1 N2 N3 N4 N5] Hn.
  assert (Hf : freed t = false) by (destruct (freed t); [destruct N2; [done|lia]|done]).
  destruct t as [d td rm ra rv fl fr dc]. cbn in *. subst fl fr.
  destruct (rv && (n + -1 =? 0)) eqn:E; bool_facts.
  - assert (n - 1 = 0) as -> by lia. subst rv.
    unfold tool_node_free, tool_detach, add_inflight. cbn.
    destruct td; constructor; cbn; try done. rewrite N4 in * by done. by subst dc.
  - unfold add_inflight. constructor; cbn; try done; try lia.
    intros -> _. cbn in E. bool_facts. lia.
Qed.

Lemma unpin_ok reg h h' k : reg_ok reg h -> 0 < h k ->
  (forall j, h j = h' j + (if (j =? k)%nat then 1 else 0)) -> reg_ok (unpin reg k) h'.
Proof.
  intros H Hk Hh. pose proof (Hh k) as Hhk. rewrite Nat.eqb_refl in Hhk. unfold unpin.
  apply (reg_ok_alter _ reg h h' k); try done.
  - intros t. cbv zeta. case_if; [|done]. cbn. by destruct (tool_detach_fields (add_inflight (-1) t)).
  - intros t. cbv zeta. case_if; [|done]. unfold linked. cbn. by rewrite andb_false_r.
  - intros t Ht Hok. replace (h' k) with (h k - 1) by lia. by apply unpin_node_ok.
  - intros j Hj. rewrite (Hh j). apply Nat.eqb_neq in Hj. rewrite Hj. lia.
  - lia.
  - by apply H.
Qed.

Lemma reg_step_ok s op : reg_ok (fst s) (holds (snd s)) ->
  reg_ok (fst (reg_step s op)) (holds (snd (reg_step s op))).
Proof.
  destruct s as [reg pins]. cbn [fst snd]. intros H. destruct op; cbn [reg_step fst snd].
  - by apply add_ok.
  - by apply remove_ok.
  - destruct (find_tool reg name) as [k|] eqn:Ef; [|done]. cbn [fst snd].
    eapply pin_ok; [done..|]. intros j. apply holds_app.
  - destruct (pins !! call) as [k|] eqn:Ec; [|done]. cbn [fst snd].
    pose proof (fun j => holds_delete pins call k j Ec) as Hd.
    eapply unpin_ok; [done| |done].
    rewrite Hd, Nat.eqb_refl. pose proof (holds_nonneg (delete call pins) k). lia.
  - by apply remember_ok.
Qed.

(** C40. The tool registry is sound under any sequence of registrations,
    removals, calls starting and finishing, and remembered answers, in any
    order: no two tools on the list share a name; a tool a call is using is
    never freed, even when it was removed or replaced meanwhile; a removed
    tool is freed as soon as its last call is done; and its detach callback
    runs exactly once. *)
Theorem registry_sound ops :
  let '(reg, pins) := fold_left reg_step ops ([], []) in
  List.NoDup (live_names reg) /\
  forall k t, reg !! k = Some t ->
    inflight t = holds pins k /\
    (In k pins -> freed t = false) /\
    (removed t = true -> (freed t = true <-> ~ In k pins)) /\
    (freed t = true -> detach_calls t = if d_detach (t_def t) then 1%nat else 0%nat) /\
    (detach_calls t <= 1)%nat.
Proof.
  assert (H : reg_ok (fst ([] : registry, [] : list nat)) (holds (snd ([] : registry, [] : list nat)))).
  { constructor; cbn; [constructor|done|done]. }
  revert H. generalize ([] : registry, [] : list nat).
  induction ops as [|op ops IH]; intros s Hs; [|by apply IH, reg_step_ok].
  destruct s as [reg pins]. cbn in *. destruct Hs as [R1 R2 R3]. split; [done|].
  intros k t Ht. destruct (R2 k t Ht) as [N1 N2 N3 N4 N5].
  assert (Hpos : In k pins <-> 0 < holds pins k).
  { split; [|intros Hp; destruct (in_dec Nat.eq_dec k pins); [done|rewrite holds_zero in Hp by done; lia]].
    intros Hin. unfold holds. apply list_elem_of_In, list_elem_of_lookup in Hin as [c Hc].
    pose proof (holds_delete pins c k k Hc) as Hd. rewrite Nat.eqb_refl in Hd.
    pose proof (holds_nonneg (delete c pins) k). unfold holds in *. lia. }
  split_and!; [done| | | |].
  - intros Hin. destruct (freed t); [|done]. destruct N2; [done|]. apply Hpos in Hin. lia.
  - intros Hr. split; [intros Hf; rewrite Hpos; destruct (N2 Hf); lia|].
    intros Hni. destruct (freed t); [done|]. specialize (N3 Hr eq_refl). by rewrite <- Hpos in N3.
  - intros Hf. destruct (N2 Hf) as [_ E]. rewrite N5, E, andb_true_r. done.
  - rewrite N5. case_if; lia.
Qed.

(** A tool removed while a call of it runs is lost when the agent is
    freed: it is off the list [clm_tools_free_registry] walks, and a call
    finishing after [clm_tools_detach] no longer lets go of it, so its memory
    is never given back. *)
Example removed_tool_leaks :
  let def := mk_tool_def (bs "t") None None 0 0 0 true in
  let reg := pin (snd (clm_tool_add [] def)) 0 in
  let reg := snd (clm_tool_remove reg (bs "t")) in
  map freed (clm_tools_free_registry (detach_all reg)) = [false] /\
  map detach_calls (clm_tools_free_registry (detach_all reg)) = [1%nat].
Proof. by vm_compute. Qed.
