(* ===== verification/Tools.v ===== *)
(** The dispatch of tool calls of [src/libclm/tools.c]: a batch of calls is
    built from the model's answer, each call passes the rate limit, the
    pre_tool hooks and the permission gate, runs, and reports a result that
    is cleaned, cut, shown and recorded.

    Nearly every step calls out of the library: to a tool's [invoke] and
    [cancel], to hooks, to the frontend; and those may call back in, at once
    or later. (A tool's [detach], called when the tool is removed or the agent
    freed, is counted in the registry and taken not to call back.) The C stack is therefore explicit. A C function is a function
    from a world to a world and the frames it leaves to run, where a frame is
    the rest of a function after a call-out, and [FCallback] stands for code
    outside the library. On top of a callback, or when no frame is left (the
    event loop), the outside may make any call of the API. *)

From S2P Require Import Prelude Utf8 TextClean Image RateLimit Tokens CJson History Registry.

Definition CLM_TOOL_OUTPUT_CAP_DEFAULT : Z := 16 * 1024.
Definition CLM_TOOL_OUTPUT_CAP_MAX : Z := 60 * 1024.
Definition CLM_TOOL_TIMEOUT_MAX_MS : Z := 600000.
Definition CLM_IMAGE_MAX_BYTES : Z := 5 * 1024 * 1024.

Inductive clm_tool_outcome := CLM_TOOL_OK | CLM_TOOL_FAILED | CLM_TOOL_TIMEDOUT.

Inductive clm_permission_decision :=
| CLM_PERM_ALLOW_ONCE | CLM_PERM_ALLOW_ALWAYS | CLM_PERM_DENY_ONCE | CLM_PERM_DENY_ALWAYS.

Inductive clm_gate_verdict := CLM_GATE_PASS | CLM_GATE_DENY | CLM_GATE_ASK.

#[export] Instance verdict_eq_dec : EqDecision clm_gate_verdict.
Proof. solve_decision. Defined.
#[export] Instance decision_eq_dec : EqDecision clm_permission_decision.
Proof. solve_decision. Defined.

(** ** The state *)

(** [struct clm_tool_invocation]. [def] is the position of the node in the
    registry, [timer], [rl_timer] and [cancel] say that the pointer is not
    NULL, [gate] is the gate's position among those allocated, and [started]
    records that the tool was handed the call. *)
Record clm_tool_invocation := mk_inv {
  def : option nat;
  id : list byte;
  name : list byte;
  args : list byte;
  output_cap : Z;
  timeout_ms : Z;
  timer : bool;
  timed_out : bool;
  completed : bool;
  cancel : bool;
  awaiting_perm : bool;
  gate : option nat;
  gate_next : nat;
  force_ask : bool;
  ask_reason : option (list byte);
  rl_timer : bool;
  started : bool
}.

Section Setters.
Context (v : clm_tool_invocation).

Definition set_timer (b : bool) :=
  mk_inv (def v) (id v) (name v) (args v) (output_cap v) (timeout_ms v) b (timed_out v)
    (completed v) (cancel v) (awaiting_perm v) (gate v) (gate_next v) (force_ask v)
    (ask_reason v) (rl_timer v) (started v).
Definition set_timed_out :=
  mk_inv (def v) (id v) (name v) (args v) (output_cap v) (timeout_ms v) (timer v) true
    (completed v) (cancel v) (awaiting_perm v) (gate v) (gate_next v) (force_ask v)
    (ask_reason v) (rl_timer v) (started v).
Definition set_completed :=
  mk_inv (def v) (id v) (name v) (args v) (output_cap v) (timeout_ms v) (timer v) (timed_out v)
    true (cancel v) (awaiting_perm v) (gate v) (gate_next v) (force_ask v)
    (ask_reason v) (rl_timer v) (started v).
Definition set_cancel (b : bool) :=
  mk_inv (def v) (id v) (name v) (args v) (output_cap v) (timeout_ms v) (timer v) (timed_out v)
    (completed v) b (awaiting_perm v) (gate v) (gate_next v) (force_ask v)
    (ask_reason v) (rl_timer v) (started v).
Definition set_awaiting (b : bool) :=
  mk_inv (def v) (id v) (name v) (args v) (output_cap v) (timeout_ms v) (timer v) (timed_out v)
    (completed v) (cancel v) b (gate v) (gate_next v) (force_ask v)
    (ask_reason v) (rl_timer v) (started v).
Definition set_gate (g : option nat) (next : nat) :=
  mk_inv (def v) (id v) (name v) (args v) (output_cap v) (timeout_ms v) (timer v) (timed_out v)
    (completed v) (cancel v) (awaiting_perm v) g next (force_ask v)
    (ask_reason v) (rl_timer v) (started v).
Definition set_ask (reason : option (list byte)) :=
  mk_inv (def v) (id v) (name v) (args v) (output_cap v) (timeout_ms v) (timer v) (timed_out v)
    (completed v) (cancel v) (awaiting_perm v) (gate v) (gate_next v) true
    reason (rl_timer v) (started v).
Definition set_args (a : list byte) :=
  mk_inv (def v) (id v) (name v) a (output_cap v) (timeout_ms v) (timer v) (timed_out v)
    (completed v) (cancel v) (awaiting_perm v) (gate v) (gate_next v) (force_ask v)
    (ask_reason v) (rl_timer v) (started v).
Definition set_rl_timer (b : bool) :=
  mk_inv (def v) (id v) (name v) (args v) (output_cap v) (timeout_ms v) (timer v) (timed_out v)
    (completed v) (cancel v) (awaiting_perm v) (gate v) (gate_next v) (force_ask v)
    (ask_reason v) b (started v).
Definition set_started :=
  mk_inv (def v) (id v) (name v) (args v) (output_cap v) (timeout_ms v) (timer v) (timed_out v)
    (completed v) (cancel v) (awaiting_perm v) (gate v) (gate_next v) (force_ask v)
    (ask_reason v) (rl_timer v) true.
End Setters.

(** [struct clm_tool_batch], with [n] the length of [invs]; [batch_freed]
    says that [batch_really_free] ran. [pending] and [done] count calls, so
    they stay far below their [size_t]. *)
Record clm_tool_batch := mk_batch {
  invs : list clm_tool_invocation;
  pending : nat;
  done_ : nat;
  detached : bool;
  batch_freed : bool
}.

(** What the dispatch uses of [struct clm_agent]. [active_batch] says that
    the pointer is the batch, [agent_gone] that the agent is being freed or
    was. *)
Record clm_agent := mk_agent {
  tools : registry;
  tool_rl : option clm_ratelimit;
  history : clm_history;
  vision : Z;
  gate_denials : Z;
  active_batch : bool;
  agent_gone : bool;
  (** whether [clm_agent_chain_reset] was called *)
  chain_lost : bool
}.

(** A gate is waiting for a call, was left by its call, or was freed. *)
Inductive clm_tool_gate := GInv (i : nat) | GNone | GFreed.

(** What happened, for the theorems to speak of. *)
Inductive event :=
| EvPark (i : nat) (ms : Z)
| EvHook (i : nat) (v : clm_gate_verdict)
| EvAnswer (i : nat) (d : clm_permission_decision)
| EvInvoke (i : nat)
| EvResult (i : nat) (o : clm_tool_outcome)
| EvPastEnd (i : nat) (cap : Z)
| EvToolsDone.

(** [bad]: memory was used after it was freed, or never was valid. That
    [cut_output] read the byte behind a call's output, which is there when
    the output is a C string, is the event [EvPastEnd]. *)
Record world := mk_world {
  agent : clm_agent;
  batch : clm_tool_batch;
  gates : list clm_tool_gate;
  log : list event;
  bad : bool
}.

Definition set_agent (w : world) (a : clm_agent) : world :=
  mk_world a (batch w) (gates w) (log w) (bad w).
Definition set_batch (w : world) (b : clm_tool_batch) : world :=
  mk_world (agent w) b (gates w) (log w) (bad w).
Definition set_gates (w : world) (g : list clm_tool_gate) : world :=
  mk_world (agent w) (batch w) g (log w) (bad w).
Definition note (w : world) (e : event) : world :=
  mk_world (agent w) (batch w) (gates w) (e :: log w) (bad w).
Definition crash (w : world) : world :=
  mk_world (agent w) (batch w) (gates w) (log w) true.

Definition set_tools (w : world) (r : registry) : world :=
  let a := agent w in
  set_agent w (mk_agent r (tool_rl a) (history a) (vision a) (gate_denials a) (active_batch a)
                 (agent_gone a) (chain_lost a)).
Definition set_rl (w : world) (r : option clm_ratelimit) : world :=
  let a := agent w in
  set_agent w (mk_agent (tools a) r (history a) (vision a) (gate_denials a) (active_batch a)
                 (agent_gone a) (chain_lost a)).
Definition set_history (w : world) (h : clm_history) : world :=
  let a := agent w in
  set_agent w (mk_agent (tools a) (tool_rl a) h (vision a) (gate_denials a) (active_batch a)
                 (agent_gone a) (chain_lost a)).
Definition add_denial (w : world) : world :=
  let a := agent w in
  set_agent w (mk_agent (tools a) (tool_rl a) (history a) (vision a) (wrap32 (gate_denials a + 1))
                 (active_batch a) (agent_gone a) (chain_lost a)).
Definition set_active (w : world) (b gone : bool) : world :=
  let a := agent w in
  set_agent w (mk_agent (tools a) (tool_rl a) (history a) (vision a) (gate_denials a) b gone
                 (chain_lost a)).
(** [if (b) clm_agent_chain_reset(agent);] *)
Definition chain_reset_if (b : bool) (w : world) : world :=
  let a := agent w in
  set_agent w (mk_agent (tools a) (tool_rl a) (history a) (vision a) (gate_denials a) (active_batch a)
                 (agent_gone a) (b || chain_lost a)).

Definition set_invs (w : world) (l : list clm_tool_invocation) : world :=
  let b := batch w in
  set_batch w (mk_batch l (pending b) (done_ b) (detached b) (batch_freed b)).
Definition set_pending (w : world) (n : nat) : world :=
  let b := batch w in
  set_batch w (mk_batch (invs b) n (done_ b) (detached b) (batch_freed b)).
Definition add_done (w : world) : world :=
  let b := batch w in
  set_batch w (mk_batch (invs b) (pending b) (S (done_ b)) (detached b) (batch_freed b)).
Definition set_detached (w : world) : world :=
  let b := batch w in
  set_batch w (mk_batch (invs b) (pending b) (done_ b) true (batch_freed b)).
Definition set_freed (w : world) : world :=
  let b := batch w in
  set_batch w (mk_batch (invs b) (pending b) (done_ b) (detached b) true).

Definition upd (f : clm_tool_invocation -> clm_tool_invocation) (i : nat) (w : world) : world :=
  set_invs w (alter f i (invs (batch w))).

(** [if (batch->pending > 0) batch->pending--;] *)
Definition dec_pending (w : world) : world := set_pending w (pred (pending (batch w))).

(** ** Frames *)

Inductive callback :=
| CbToolBatch (done n : nat)
| CbMessage
| CbToolBegin (i : nat)
| CbHook (g : nat)
| CbNotice
| CbPermission (i : nat)
| CbInvoke (i : nat)
| CbCancel (i : nat)
| CbToolResult (i : nat) (outcome : clm_tool_outcome) (out : list byte)
| CbToolsDone.

(** The rest of a function after a call-out: of [clm_tools_dispatch] after
    the first callback and in its second loop, of [dispatch_one] and
    [gate_respond], of [inv_finalize] in two places, of [batch_finalize], of
    the loops of [clm_tools_cancel] and [clm_tools_detach]; and [FRelease],
    the end several of them share. *)
Inductive frame :=
| FCallback (cb : callback)
| FBuild (amsg : nat) (calls : list (option (list byte * list byte * list byte)))
| FDispatch (i : nat)
| FDispatchTool (i : nat)
| FGateRun (i : nat)
| FRecord (i : nat) (out : list byte) (outcome : clm_tool_outcome) (att : option clm_attachment)
| FDone
| FRelease
| FBatchFree
| FCancel (i : nat)
| FDetach (i : nat).

(** What one step learns from outside: readings of the clock, whether the
    host gave a timer, and the byte the allocator left after a buffer. *)
Record oracle := mk_oracle { clock : nat -> Z; timer_ok : bool; past : Z }.

(** How the agent was set up: whether the host has timers, how many pre_tool
    hooks were added, whether a permission callback is set, the patterns of
    volatile tools, and the compressor and spool callbacks. A callback that
    only reports is taken to be set, one that does nothing otherwise. *)
Record tool_env := mk_env {
  has_timers : bool;
  n_pre_tool_hooks : nat;
  has_permission : bool;
  volatile_tools : list (list byte);
  compressor : option clm_compressor;
  spool : option (list byte -> list byte -> list byte -> option (list byte));
  undefined_cast : double -> Z
}.

(** ** Reading a call *)

(** [strdup(v != NULL ? cJSON_GetStringValue(v) : "")]: [None] when the item
    is there and is not a string, where [strdup] is handed NULL. *)
Definition strdup_item `{CJson} (o : option cJSON) : option (list byte) :=
  match o with None => Some [] | Some v => cJSON_GetStringValue v end.

Section Dispatch.
Context `{CJson}.
(** [fnmatch(pattern, name, 0) == 0], and the two halves of cJSON's text
    form. *)
Context (fnmatch : list byte -> list byte -> bool).
Context (cJSON_Parse : list byte -> option cJSON).
Context (cJSON_PrintUnformatted : cJSON -> option (list byte)).
Context (env : tool_env).

(** The id, name and arguments of one element of [tool_calls]. *)
Definition read_call (tc : cJSON) : option (list byte * list byte * list byte) :=
  let func := cJSON_GetObjectItemCaseSensitive tc (bs "function") in
  let item k := f ← func; cJSON_GetObjectItemCaseSensitive f k in
  let args_str :=
    match item (bs "arguments") with
    | None => bs "{}"
    | Some a =>
        match cJSON_GetStringValue a with
        | Some s => s
        | None => default (bs "{}") (cJSON_PrintUnformatted a)
        end
    end in
  i ← strdup_item (cJSON_GetObjectItemCaseSensitive tc (bs "id"));
  n ← strdup_item (item (bs "name"));
  Some (i, n, args_str).

(** [(int64_t)v->valuedouble] of a member that is a number. *)
Definition json_int64 (a : cJSON) (key : list byte) : option Z :=
  v ← cJSON_GetObjectItemCaseSensitive a key;
  d ← cJSON_valuedouble v;
  Some (default (undefined_cast env d) (to_int64 d)).

(** The effective cap and timeout of a call. *)
Definition inv_compute_limits (t : option clm_tool_def) (a : list byte) : Z * Z :=
  let cap := match t with
             | Some d => if d_output_cap d =? 0 then CLM_TOOL_OUTPUT_CAP_DEFAULT else d_output_cap d
             | None => CLM_TOOL_OUTPUT_CAP_DEFAULT
             end in
  let to := match t with Some d => d_timeout_ms d | None => 0 end in
  let over flag key dflt :=
    match t, cJSON_Parse a with
    | Some d, Some o =>
        if cJSON_IsObject o && has_flag d flag
        then match json_int64 o key with
             | Some x => if 0 <? x then x else dflt
             | None => dflt
             end
        else dflt
    | _, _ => dflt
    end in
  let cap := over CLM_TOOL_OUTPUT_CAP_OVERRIDABLE (bs "output_cap") cap in
  let to := over CLM_TOOL_TIMEOUT_OVERRIDABLE (bs "timeout_ms") to in
  (if CLM_TOOL_OUTPUT_CAP_MAX <? cap then CLM_TOOL_OUTPUT_CAP_MAX else cap,
   if CLM_TOOL_TIMEOUT_MAX_MS <? to then CLM_TOOL_TIMEOUT_MAX_MS else to).

Definition tool_is_volatile (nm : list byte) : bool :=
  existsb (fun pat => fnmatch pat nm) (volatile_tools env).

(** ** The output of a call *)

(** Tool output with bytes no text has is replaced by a note, put in a
    buffer of 96 bytes. *)
Definition text_or_note (content : option (list byte)) : option (list byte) :=
  let d := default [] content in
  let off := find_binary_offset d in
  if (off <? length d)%nat then
    let s := bs "[tool output contained binary data at byte offset " ++ dec (Z.of_nat off)
             ++ bs " of " ++ dec (zlen d) ++ bs "; not displayed]" in
    Some (if (length s <=? 95)%nat then s else take 95 s ++ [x00])
  else content.

(** What [inv_finalize] makes of a result: the text, cut and cleaned; and
    whether cutting it looked at the byte behind it. [None] is a read or a
    write outside the buffers. *)
Definition tool_output (o : oracle) (v : clm_tool_invocation) (content : option (list byte))
  : option (list byte * bool) :=
  let effective := text_or_note content in
  let sp := (fun f => f (id v) (name v)) <$> spool env in
  let cut byte_after := cut_output byte_after sp (output_cap v) effective in
  let '(clamped, past_end) := match cut None with Some c => (Some c, false) | None => (cut (Some (past o)), true) end in
  c ← clamped;
  '(n, d) ← clm_clean_text (Some c) (length c);
  Some (take n (default [] d), past_end).

(** ** Freeing the batch *)

Definition batch_really_free (w : world) : world :=
  if batch_freed (batch w) then crash w else set_freed w.

(** Up to the call of [clm_agent_tools_done]; the rest is [FBatchFree]. *)
Definition batch_finalize (w : world) : world * list frame :=
  if agent_gone (agent w) then (crash w, [])
  else (note (set_active w false (agent_gone (agent w))) EvToolsDone,
        [FCallback CbToolsDone; FBatchFree]).

Definition batch_free_timers (w : world) : world :=
  if batch_freed (batch w) || agent_gone (agent w) then crash w
  else batch_really_free
         (set_invs w (map (fun v => set_rl_timer (set_timer v false) false) (invs (batch w)))).

(** [if (pending > 0) pending--; if (pending == 0) batch_finalize(batch);] *)
Definition release (w : world) : world * list frame :=
  if batch_freed (batch w) then (crash w, [])
  else
    let w := dec_pending w in
    if (pending (batch w) =? 0)%nat then batch_finalize w else (w, []).

(** A function handed the call: [None] is a call whose memory is gone. *)
Definition on_inv (w : world) (i : nat)
    (k : clm_tool_invocation -> world * list frame) : world * list frame :=
  if batch_freed (batch w) then (crash w, [])
  else match invs (batch w) !! i with
       | Some v => k v
       | None => (crash w, [])
       end.

(** ** Completion *)

(** [inv_finalize] up to its first callback; the rest is [FRecord], [FDone]
    and [FRelease]. *)
Definition inv_finalize (o : oracle) (w : world) (i : nat) (content : option (list byte))
    (outcome : clm_tool_outcome) (att : option clm_attachment) : world * list frame :=
  on_inv w i (fun v =>
    let w := upd set_completed i w in
    if detached (batch w) then
      let w := dec_pending w in
      if (pending (batch w) =? 0)%nat then (batch_really_free w, []) else (w, [])
    else if agent_gone (agent w) then (crash w, [])
    else
      let w := upd (fun v => set_timer v false) i w in
      let w := match def v with
               | Some k => set_tools w (unpin (tools (agent w)) k)
               | None => w
               end in
      match tool_output o v content with
      | None => (crash w, [])
      | Some (out, past_end) =>
          let w := if past_end then note w (EvPastEnd i (output_cap v)) else w in
          (w, [FCallback (CbToolResult i outcome out); FRecord i out outcome att])
      end).

Definition finalize_record (w : world) (i : nat) (out : list byte) (outcome : clm_tool_outcome)
    (att : option clm_attachment) : world * list frame :=
  if agent_gone (agent w) then (crash w, [])
  else on_inv w i (fun v =>
    let r := if tool_is_volatile (name v)
             then clm_history_supersede_tool (history (agent w)) (name v)
                    (snprintf 128 (bs "[superseded by newer " ++ name v ++ bs "]"))
             else (0, history (agent w)) in
    let h := snd r in
    let k := length h in
    let h := clm_history_add_tool_result h (Some (id v)) (Some (name v)) (Some out)
               (compressor env) in
    let h := match att with
             | Some a => alter (fun m => clm_message_add_attachment m (media_type a) (a_data a)) k h
             | None => h
             end in
    (chain_reset_if (0 <? fst r) (note (set_history w h) (EvResult i outcome)), [FCallback CbMessage; FDone])).

Definition finalize_done (w : world) : world * list frame :=
  if batch_freed (batch w) || agent_gone (agent w) then (crash w, [])
  else
    let w := add_done w in
    (w, [FCallback (CbToolBatch (done_ (batch w)) (length (invs (batch w)))); FRelease]).

Definition finalize_timeout (o : oracle) (w : world) (i : nat) : world * list frame :=
  on_inv w i (fun v =>
    inv_finalize o w i
      (Some (snprintf 80 (bs "[tool failed: timed out after " ++ dec (timeout_ms v) ++ bs " ms]")))
      CLM_TOOL_TIMEDOUT None).

Definition clm_tool_complete_buf (o : oracle) (w : world) (i : nat) (buf : option (list byte))
  : world * list frame :=
  on_inv w i (fun v =>
    if completed v then (w, [])
    else if timed_out v then finalize_timeout o w i
    else inv_finalize o w i buf CLM_TOOL_OK None).

Definition clm_tool_complete (o : oracle) (w : world) (i : nat) (content : option (list byte))
  : world * list frame :=
  clm_tool_complete_buf o w i (Some (default [] content)).

Definition clm_tool_fail (o : oracle) (w : world) (i : nat) (msg : option (list byte))
  : world * list frame :=
  on_inv w i (fun v =>
    if completed v then (w, [])
    else if timed_out v then finalize_timeout o w i
    else inv_finalize o w i (Some (fail_wrap msg)) CLM_TOOL_FAILED None).

Definition clm_tool_complete_image (o : oracle) (w : world) (i : nat)
    (text mt data : option (list byte)) : world * list frame :=
  on_inv w i (fun v =>
    if completed v then (w, [])
    else match mt, data with
    | Some mt, Some (b :: d) =>
        let text := default [] text in
        if timed_out v then finalize_timeout o w i
        else if negb (detached (batch w)) && (vision (agent w) <? 0) then
          inv_finalize o w i
            (Some (text ++ [x0a] ++ bs "[image omitted: the model does not take images]"))
            CLM_TOOL_OK None
        else inv_finalize o w i (Some text) CLM_TOOL_OK (Some (mk_attachment mt (b :: d)))
    | _, _ => clm_tool_fail o w i (Some (bs "no image"))
    end).

(** [clm_image_sniff] answers [None] only for a read out of bounds. *)
Definition clm_tool_complete_image_base64 (o : oracle) (w : world) (i : nat)
    (text b64 : option (list byte)) : world * list frame :=
  on_inv w i (fun v =>
    if completed v then (w, [])
    else
      let text := default [] text in
      let omit why :=
        clm_tool_complete o w i
          (Some (text ++ (match text with [] => [] | _ => [x0a] end)
                 ++ bs "[image omitted: " ++ why ++ bs "]")) in
      match b64 with
      | None | Some [] => omit (bs "no data")
      | Some s =>
          if CLM_IMAGE_MAX_BYTES <? zlen s / 4 * 3 then omit (bs "too large")
          else match clm_base64_decode s with
               | None => omit (bs "bad base64")
               | Some img =>
                   match clm_image_sniff (Some img) with
                   | Some (Some (mt, _, _)) =>
                       clm_tool_complete_image o w i (Some text) (Some mt) (Some img)
                   | Some None => omit (bs "not a PNG, JPEG, GIF or WebP image")
                   | None => (crash w, [])
                   end
               end
      end).

Definition on_timeout (o : oracle) (w : world) (i : nat) : world * list frame :=
  on_inv w i (fun v =>
    if completed v then (w, [])
    else
      let w := upd set_timed_out i w in
      if cancel v then (w, [FCallback (CbCancel i)]) else finalize_timeout o w i).

(** ** Dispatch *)

(** The node of a call, if it can be read. *)
Definition live_node (w : world) (v : clm_tool_invocation) : option clm_tool :=
  k ← def v; t ← tools (agent w) !! k; if freed t then None else Some t.

(** [run_invoke] up to the tool's own code; the rest is [FRelease]. *)
Definition run_invoke (o : oracle) (w : world) (i : nat) : world * list frame :=
  on_inv w i (fun v =>
    if agent_gone (agent w) then (crash w, [])
    else match live_node w v with
    | None => (crash w, [])
    | Some t =>
        let w := if (0 <? timeout_ms v) && negb (timer v) && has_timers env
                 then upd (fun v => set_timer v (timer_ok o)) i w else w in
        let w := set_pending w (S (pending (batch w))) in
        (note (upd set_started i w) (EvInvoke i), [FCallback (CbInvoke i); FRelease])
    end).

Definition permission_gate (o : oracle) (w : world) (i : nat) : world * list frame :=
  on_inv w i (fun v =>
    if agent_gone (agent w) then (crash w, [])
    else match live_node w v with
    | None => (crash w, [])
    | Some t =>
        if has_flag (t_def t) CLM_TOOL_NO_PROMPT && negb (force_ask v) then run_invoke o w i
        else if remembered t && (negb (remember_allow t) || negb (force_ask v)) then
          if remember_allow t then run_invoke o w i
          else clm_tool_fail o w i (Some (bs "denied by user (remembered)"))
        else if negb (has_permission env) then
          clm_tool_fail o w i (Some (bs "denied: no permission policy"))
        else (upd (fun v => set_awaiting v true) i w, [FCallback (CbPermission i)])
    end).

Definition gate_run (o : oracle) (w : world) (i : nat) : world * list frame :=
  on_inv w i (fun v =>
    if agent_gone (agent w) then (crash w, [])
    else if (n_pre_tool_hooks env <=? gate_next v)%nat then permission_gate o w i
    else
      let g := length (gates w) in
      let w := set_gates w (gates w ++ [GInv i]) in
      (upd (fun v => set_gate v (Some g) (S (gate_next v))) i w, [FCallback (CbHook g)])).

(** [dispatch_one] up to its callback, and from it. *)
Definition dispatch_one (w : world) (i : nat) : world * list frame :=
  if agent_gone (agent w) then (crash w, [])
  else on_inv w i (fun v => (w, [FCallback (CbToolBegin i); FDispatchTool i])).

Definition dispatch_tool (o : oracle) (w : world) (i : nat) : world * list frame :=
  on_inv w i (fun v =>
    match def v with
    | None => clm_tool_fail o w i (Some (bs "unknown tool"))
    | Some _ => gate_run o w i
    end).

Definition on_rl_timer (o : oracle) (w : world) (i : nat) : world * list frame :=
  on_inv w i (fun v =>
    if agent_gone (agent w) then (crash w, [])
    else
      let w := upd (fun v => set_rl_timer v false) i w in
      let w := set_rl w (clm_ratelimit_consume (tool_rl (agent w)) (clock o 0%nat) 1) in
      dispatch_one w i).

(** One turn of the second loop of [clm_tools_dispatch]. *)
Definition dispatch_loop (o : oracle) (w : world) (i : nat) : world * list frame :=
  if batch_freed (batch w) || agent_gone (agent w) then (crash w, [])
  else if (length (invs (batch w)) <=? i)%nat then release w
  else
    let '(ok, rl) := clm_ratelimit_allow (tool_rl (agent w)) (clock o 0%nat) 1 in
    let w := set_rl w rl in
    if ok || negb (has_timers env) then
      let '(w, fs) := dispatch_one w i in (w, fs ++ [FDispatch (S i)])
    else
      let '(delay_us, rl) := clm_ratelimit_delay (tool_rl (agent w)) (clock o 1%nat) 1 in
      let w := set_rl w rl in
      let delay_ms := if delay_us / 1000 =? 0 then 1 else delay_us / 1000 in
      if timer_ok o then
        (note (upd (fun v => set_rl_timer v true) i w) (EvPark i delay_ms), [FDispatch (S i)])
      else
        let w := set_rl w (clm_ratelimit_consume (tool_rl (agent w)) (clock o 2%nat) 1) in
        let '(w, fs) := dispatch_one w i in (w, fs ++ [FDispatch (S i)]).

(** One turn of the first loop: build an invocation, mirror the call. *)
Definition build_one (amsg : nat) (w : world) (call : list byte * list byte * list byte) : world :=
  let '(i, n, a) := call in
  let w := set_history w
    (alter (fun m => default m (clm_message_add_tool_call m (Some i) (Some n) (Some a))) amsg
       (history (agent w))) in
  let d := find_tool (tools (agent w)) n in
  let w := match d with
           | Some k => set_tools w (pin (tools (agent w)) k)
           | None => w
           end in
  let t := k ← d; t_def <$> tools (agent w) !! k in
  let '(cap, to) := inv_compute_limits t a in
  set_invs w (invs (batch w) ++
    [mk_inv d i n a cap to false false false false false None 0 false None false false]).

Definition build (amsg : nat) (w : world) (calls : list (option (list byte * list byte * list byte)))
  : world :=
  fold_left (fun w c => match c with Some c => build_one amsg w c | None => crash w end) calls w.

(** [clm_tools_dispatch] up to its first callback. *)
Definition clm_tools_dispatch (w : world) (tool_calls : cJSON) : Z * (world * list frame) :=
  let calls := cJSON_elements tool_calls in
  match calls with
  | [] => (- EINVAL, (w, []))
  | _ =>
      let amsg := length (history (agent w)) in
      let w := set_history w (clm_history_add_assistant_tool_calls (history (agent w))) in
      let w := set_batch w (mk_batch [] (S (length calls)) 0 false false) in
      (0, (set_active w true (agent_gone (agent w)),
           [FCallback (CbToolBatch 0 (length calls)); FBuild amsg (map read_call calls)]))
  end.

(** ** Answers *)

Definition deny_msg (reason : option (list byte)) : list byte :=
  snprintf 512 (bs "denied by hook: " ++ default (bs "no reason given") reason).

Definition clm_tool_gate_respond (o : oracle) (w : world) (g : nat) (verdict : clm_gate_verdict)
    (reason new_args : option (list byte)) : world * list frame :=
  match gates w !! g with
  | None | Some GFreed => (crash w, [])
  | Some GNone => (set_gates w (<[g := GFreed]> (gates w)), [])
  | Some (GInv i) =>
      let w := set_gates w (<[g := GFreed]> (gates w)) in
      on_inv w i (fun v =>
        let w := note (upd (fun v => set_gate v None (gate_next v)) i w) (EvHook i verdict) in
        let w := match new_args with
                 | Some a => upd (fun v => set_args v a) i w
                 | None => w
                 end in
        if agent_gone (agent w) then (crash w, [])
        else match verdict with
        | CLM_GATE_DENY => clm_tool_fail o (add_denial w) i (Some (deny_msg reason))
        | CLM_GATE_ASK =>
            let r := match ask_reason v with None => reason | r => r end in
            (upd (fun v => set_ask v r) i w, [FGateRun i])
        | CLM_GATE_PASS =>
            (w, match reason with
                | Some _ => [FCallback CbNotice; FGateRun i]
                | None => [FGateRun i]
                end)
        end)
  end.

Definition is_allow (d : clm_permission_decision) : bool :=
  match d with CLM_PERM_ALLOW_ONCE | CLM_PERM_ALLOW_ALWAYS => true | _ => false end.
Definition is_always (d : clm_permission_decision) : bool :=
  match d with CLM_PERM_ALLOW_ALWAYS | CLM_PERM_DENY_ALWAYS => true | _ => false end.

Definition clm_tool_permission_respond (o : oracle) (w : world) (i : nat)
    (d : clm_permission_decision) : world * list frame :=
  on_inv w i (fun v =>
    if negb (awaiting_perm v) then (w, [])
    else if agent_gone (agent w) then (crash w, [])
    else
      let w := note (upd (fun v => set_awaiting v false) i w) (EvAnswer i d) in
      let w := if is_always d
               then set_tools w (remember (tools (agent w)) (name v) (is_allow d)) else w in
      if is_allow d then run_invoke o w i
      else clm_tool_fail o w i (Some (bs "denied by user"))).

(** ** Cancelling, and freeing the agent *)

Definition cancelled_msg : list byte := bs "[tool failed: cancelled]".

(** The call leaves its gate; the hook's late answer will find it empty. *)
Definition leave_gate (w : world) (i g : nat) : world :=
  upd (fun v => set_gate v None (gate_next v)) i (set_gates w (<[g := GNone]> (gates w))).

Definition then_ (r : world * list frame) (f : frame) : world * list frame :=
  (fst r, snd r ++ [f]).

(** One turn of the loop of [clm_tools_cancel]. *)
Definition cancel_loop (o : oracle) (w : world) (i : nat) : world * list frame :=
  if batch_freed (batch w) || agent_gone (agent w) then (crash w, [])
  else match invs (batch w) !! i with
  | None => release w
  | Some v =>
      if completed v then (w, [FCancel (S i)])
      else if rl_timer v then
        then_ (inv_finalize o (upd (fun v => set_rl_timer v false) i w) i (Some cancelled_msg)
                 CLM_TOOL_FAILED None) (FCancel (S i))
      else if awaiting_perm v then (w, [FCancel (S i)])
      else match gate v with
      | Some g =>
          then_ (inv_finalize o (leave_gate w i g) i (Some cancelled_msg) CLM_TOOL_FAILED None)
            (FCancel (S i))
      | None =>
          (w, if cancel v then [FCallback (CbCancel i); FCancel (S i)] else [FCancel (S i)])
      end
  end.

Definition clm_tools_cancel (w : world) : world * list frame :=
  if negb (active_batch (agent w)) then (w, [])
  else if batch_freed (batch w) then (crash w, [])
  else (set_pending w (S (pending (batch w))), [FCancel 0]).

(** A call that will never run is retired on the spot. *)
Definition retire (i : nat) (w : world) : world := dec_pending (upd set_completed i w).

(** One turn of the loop of [clm_tools_detach], and what follows the loop. *)
Definition detach_loop (w : world) (i : nat) : world * list frame :=
  if batch_freed (batch w) then (crash w, [])
  else match invs (batch w) !! i with
  | None => ((if (pending (batch w) =? 0)%nat then batch_really_free w else w), [])
  | Some v =>
      if completed v then (w, [FDetach (S i)])
      else if rl_timer v then (retire i (upd (fun v => set_rl_timer v false) i w), [FDetach (S i)])
      else match gate v with
      | Some g => (retire i (leave_gate w i g), [FDetach (S i)])
      | None =>
          if awaiting_perm v then
            (retire i (upd (fun v => set_awaiting v false) i w), [FDetach (S i)])
          else
            (upd (fun v => set_timer v false) i w,
             if cancel v then [FCallback (CbCancel i); FDetach (S i)] else [FDetach (S i)])
      end
  end.

Definition clm_tools_detach (w : world) : world * list frame :=
  let w := set_tools w (detach_all (tools (agent w))) in
  if active_batch (agent w) then
    if batch_freed (batch w) then (crash w, [])
    else (set_active (set_detached w) false true, [FDetach 0])
  else (set_active w false true, []).

(** ** The machine *)

Definition is_callback (f : frame) : bool := match f with FCallback _ => true | _ => false end.

(** The rest of a function of the library runs. *)
Definition run_frame (o : oracle) (f : frame) (w : world) : world * list frame :=
  match f with
  | FCallback _ => (w, [])
  | FBuild amsg calls => (build amsg w calls, [FCallback CbMessage; FDispatch 0])
  | FDispatch i => dispatch_loop o w i
  | FDispatchTool i => dispatch_tool o w i
  | FGateRun i => gate_run o w i
  | FRecord i out outcome att => finalize_record w i out outcome att
  | FDone => finalize_done w
  | FRelease => release w
  | FBatchFree => (batch_free_timers w, [])
  | FCancel i => cancel_loop o w i
  | FDetach i => detach_loop w i
  end.

(** What code outside may call. *)
Inductive api :=
| ASetCancel (i : nat) (b : bool)
| AComplete (i : nat) (content : option (list byte))
| ACompleteBuf (i : nat) (buf : option (list byte))
| ACompleteImage (i : nat) (text mt data : option (list byte))
| ACompleteBase64 (i : nat) (text b64 : option (list byte))
| AFail (i : nat) (msg : option (list byte))
| AGateRespond (g : nat) (v : clm_gate_verdict) (reason new_args : option (list byte))
| APermission (i : nat) (d : clm_permission_decision)
| ATimeout (i : nat)
| ARlTimer (i : nat)
| ACancel
| ADetach
| AToolAdd (d : clm_tool_def)
| AToolRemove (nm : list byte).

Definition do_api (o : oracle) (w : world) (a : api) : world * list frame :=
  match a with
  | ASetCancel i b => on_inv w i (fun _ => (upd (fun v => set_cancel v b) i w, []))
  | AComplete i c => clm_tool_complete o w i c
  | ACompleteBuf i c => clm_tool_complete_buf o w i c
  | ACompleteImage i t mt d => clm_tool_complete_image o w i t mt d
  | ACompleteBase64 i t b => clm_tool_complete_image_base64 o w i t b
  | AFail i m => clm_tool_fail o w i m
  | AGateRespond g v r na => clm_tool_gate_respond o w g v r na
  | APermission i d => clm_tool_permission_respond o w i d
  | ATimeout i => on_timeout o w i
  | ARlTimer i => on_rl_timer o w i
  | ACancel => clm_tools_cancel w
  | ADetach => clm_tools_detach w
  | AToolAdd d => (set_tools w (snd (clm_tool_add (tools (agent w)) d)), [])
  | AToolRemove nm => (set_tools w (snd (clm_tool_remove (tools (agent w)) nm)), [])
  end.

(** The call an API call reports, if it reports one. *)
Definition report_of (a : api) : option nat :=
  match a with
  | AComplete i _ | ACompleteBuf i _ | ACompleteImage i _ _ _ | ACompleteBase64 i _ _ | AFail i _ => Some i
  | _ => None
  end.

Definition holds_inv (w : world) (i : nat) (p : clm_tool_invocation -> bool) : bool :=
  match invs (batch w) !! i with Some v => p v | None => false end.

(** [clm_tools_detach] is in its loop, calling the cancel callback on top. *)
Definition detaching (s : list frame) : bool := match s with _ :: FDetach _ :: _ => true | _ => false end.

(** The reports of a call the code does not survive, or not for long: its
    batch has been freed; or the agent is being freed and either the call is
    the last one open, so that the batch is freed under the loop, or its
    timeout is still armed, which then is armed for good. *)
Definition fatal_report (w : world) (s : list frame) (i : nat) : bool :=
  batch_freed (batch w)
  || detaching s && ((pending (batch w) =? 1)%nat && holds_inv w i (fun v => negb (completed v))
                     || holds_inv w i timer).

(** The rules of the API, from the comments of [clm/clm.h]. A tool reports a
    call it was handed, from wherever it runs, its cancel callback included,
    and if the library has timed the call out meanwhile its report comes
    after the call has finished; what is left out is the reports that are
    fatal. A gate is answered once; a permission request is used while its
    batch lives; a timer fires from the event loop, once, unless it was
    cancelled; an agent that is being freed is not used, and it is freed from
    the event loop. *)
Definition allowed (w : world) (s : list frame) (a : api) : bool :=
  let idle := match s with [] => true | _ => false end in
  match a with
  | ASetCancel i _ => holds_inv w i started && negb (batch_freed (batch w))
  | AComplete i _ | ACompleteBuf i _ | ACompleteImage i _ _ _ | ACompleteBase64 i _ _ | AFail i _ =>
      holds_inv w i started && negb (fatal_report w s i)
  | AGateRespond g _ _ _ =>
      match gates w !! g with
      | Some (GInv _) => negb (detaching s)
      | Some GNone => true
      | _ => false
      end
  | APermission i _ =>
      negb (detaching s) && negb (batch_freed (batch w)) && (i <? length (invs (batch w)))%nat
  | ATimeout i => idle && holds_inv w i (fun v => timer v && negb (timed_out v))
  | ARlTimer i => idle && holds_inv w i rl_timer
  | ADetach => idle && negb (agent_gone (agent w))
  | ACancel | AToolAdd _ | AToolRemove _ => negb (agent_gone (agent w))
  end.

(** A step: the library runs on, a callback returns, or the outside makes a
    call. [None] is a step that cannot be taken. *)
Inductive choice := Run (o : oracle) | Return | Call (o : oracle) (a : api).

Definition config : Type := world * list frame.

Definition step (ch : choice) (c : config) : option config :=
  let '(w, s) := c in
  match ch, s with
  | Run o, f :: s' =>
      if is_callback f then None else let '(w, fs) := run_frame o f w in Some (w, fs ++ s')
  | Return, FCallback _ :: s' => Some (w, s')
  | Call o a, ([] | FCallback _ :: _) =>
      if allowed w s a then let '(w, fs) := do_api o w a in Some (w, fs ++ s) else None
  | _, _ => None
  end.

Fixpoint run (chs : list choice) (c : config) : option config :=
  match chs with
  | [] => Some c
  | ch :: chs' => c ← step ch c; run chs' c
  end.

Definition start (w : world) (tool_calls : cJSON) : config := snd (clm_tools_dispatch w tool_calls).

End Dispatch.
