(* ===== verification/ToolsInv.v ===== *)
(** The invariant of the dispatch of tool calls, and how the elementary
    changes keep it: of one call, of the holds on the batch, of the frames on
    the stack. *)

From S2P Require Import Prelude Utf8 TextClean Image RateLimit Tokens CJson History Registry Tools.

(** Reduce the setters of the world under its projections. *)
Ltac wcbn :=
  cbn [set_pending set_batch set_agent set_tools set_rl set_history add_denial set_active chain_reset_if set_invs
       add_done set_detached set_freed set_gates note crash upd dec_pending
       agent batch gates log bad tools tool_rl history vision gate_denials active_batch agent_gone
       invs pending done_ detached batch_freed].

(** ** Counting *)

Fixpoint fsum {A} (g : A -> nat) (l : list A) : nat :=
  match l with [] => 0%nat | x :: l' => (g x + fsum g l')%nat end.

Lemma fsum_app {A} (g : A -> nat) l l' : fsum g (l ++ l') = (fsum g l + fsum g l')%nat.
Proof. induction l as [|x l IH]; cbn; lia. Qed.

Lemma fsum_ext {A} (g g' : A -> nat) l : (forall x, In x l -> g x = g' x) -> fsum g l = fsum g' l.
Proof.
  induction l as [|x l IH]; intros H; cbn; [done|]. rewrite (H x) by (by left).
  rewrite IH; [done|]. intros y Hy. apply H. by right.
Qed.

Lemma fsum_alter {A} (g : A -> nat) f i l v : l !! i = Some v ->
  (fsum g (alter f i l) + g v = fsum g l + g (f v))%nat.
Proof.
  revert i. induction l as [|x l IH]; intros [|i]; try done.
  - intros [= ->]. cbn. lia.
  - intros Hi. specialize (IH i Hi). unfold alter in *. cbn [fsum list_alter]. lia.
Qed.

Lemma fsum_zero {A} (g : A -> nat) l : fsum g l = 0%nat <-> forall x, In x l -> g x = 0%nat.
Proof.
  induction l as [|x l IH]; cbn; [by split|]. split.
  - intros H y [<-|Hy]; [lia|]. apply IH; [lia|done].
  - intros H. rewrite (H x) by auto. apply IH. auto.
Qed.

Lemma fsum_in {A} (g : A -> nat) l x : In x l -> (g x <= fsum g l)%nat.
Proof. induction l as [|y l IH]; cbn; [done|]. intros [->|H]; [lia|]. specialize (IH H). lia. Qed.

(** ** The invariant *)

(** A call that has not finished is in one place: parked on the rate limit,
    a gate or a permission request, with its tool, or carried by the stack. *)
Definition parked (v : clm_tool_invocation) : nat :=
  (b2n (rl_timer v) + b2n (match gate v with Some _ => true | None => false end) + b2n (awaiting_perm v)
   + b2n (started v || completed v))%nat.

Definition carries (i : nat) (f : frame) : nat :=
  match f with
  | FDispatch k => b2n (k <=? i)%nat
  | FDispatchTool k | FGateRun k => b2n (k =? i)%nat
  | _ => 0%nat
  end.

(** What a frame still has to take off [pending]. *)
Definition frame_holds (f : frame) : nat :=
  match f with
  | FBuild _ calls => S (length calls)
  | FDispatch _ | FRecord _ _ _ _ | FDone | FRelease | FCancel _ => 1%nat
  | _ => 0%nat
  end.

(** The frame that will free the batch once [pending] is [p]. *)
Definition closes (p : nat) (f : frame) : nat :=
  match f with FBatchFree => 1%nat | FDetach _ => b2n (p =? 0)%nat | _ => 0%nat end.

Definition is_build (f : frame) : nat := match f with FBuild _ _ => 1%nat | _ => 0%nat end.
Definition is_detach (f : frame) : nat := match f with FDetach _ => 1%nat | _ => 0%nat end.
Definition is_gate_run (i : nat) (f : frame) : nat :=
  match f with FGateRun k => b2n (k =? i)%nat | _ => 0%nat end.
Definition is_record (i : nat) (f : frame) : nat :=
  match f with FRecord k _ _ _ => b2n (k =? i)%nat | _ => 0%nat end.

Definition open_call (v : clm_tool_invocation) : nat := b2n (negb (completed v)).
Definition uses (k : nat) (v : clm_tool_invocation) : nat :=
  b2n (negb (completed v) && bool_decide (def v = Some k)).

(** How many unfinished calls hold node [k]. *)
Definition held (l : list clm_tool_invocation) (k : nat) : Z := Z.of_nat (fsum (uses k) l).

Definition is_done_ev (e : event) : nat := match e with EvToolsDone => 1%nat | _ => 0%nat end.
Definition is_result_ev (i : nat) (e : event) : nat :=
  match e with EvResult k _ => b2n (k =? i)%nat | _ => 0%nat end.

(** A read past the end of an output at a cap that leaves room for none. *)
Definition is_past_ev (e : event) : nat :=
  match e with EvPastEnd _ cap => b2n (bool_decide (cap_ok cap)) | _ => 0%nat end.

Definition in_hand (h : option nat) (i : nat) : nat := b2n (bool_decide (h = Some i)).

(** One call; [h] is the call the running function has in its hands. *)
Record call_ok (s : list frame) (h : option nat) (g : list clm_tool_gate) (i : nat)
    (v : clm_tool_invocation) : Prop := {
  co_token : (fsum (carries i) s + parked v + in_hand h i = 1)%nat;
  co_gate k : gate v = Some k -> g !! k = Some (GInv i);
  co_timer : timer v = true -> started v = true /\ completed v = false;
  co_def : def v = None -> gate v = None /\ awaiting_perm v = false /\ started v = false /\
           fsum (is_gate_run i) s = 0%nat
}.

Definition frame_ok (n : nat) (f : frame) : Prop :=
  match f with
  | FDispatchTool i | FGateRun i | FRecord i _ _ _ => (i < n)%nat
  | _ => True
  end.

Definition quiet (v : clm_tool_invocation) : Prop :=
  timer v = false /\ rl_timer v = false /\ gate v = None /\ awaiting_perm v = false.

(** While the agent is freed only [clm_tools_detach] runs, and after it only
    calls that were started remain. *)
Definition gone_ok (w : world) (s : list frame) : Prop :=
  active_batch (agent w) = false /\ (detached (batch w) = true \/ pending (batch w) = 0%nat) /\
  match s with
  | [] => forall i v, invs (batch w) !! i = Some v -> quiet v
  | [FDetach k] | [FCallback _; FDetach k] =>
      forall i v, (i < k)%nat -> invs (batch w) !! i = Some v -> quiet v
  | _ => False
  end.

Definition live_ok (w : world) (s : list frame) : Prop :=
  detached (batch w) = false /\
  active_batch (agent w) = negb (pending (batch w) =? 0)%nat /\
  reg_ok (tools (agent w)) (held (invs (batch w))) /\
  fsum is_detach s = 0%nat /\
  forall i v, invs (batch w) !! i = Some v ->
    (fsum (is_result_ev i) (log w) + fsum (is_record i) s = b2n (completed v))%nat.

(** The running function has [h] in its hands and [x] holds on the batch. *)
Record Inv (h : option nat) (x : nat) (w : world) (s : list frame) : Prop := {
  i_bad : bad w = false /\ fsum is_past_ev (log w) = 0%nat;
  i_pending : pending (batch w)
              = (fsum open_call (invs (batch w)) + x + fsum frame_holds s)%nat;
  i_closed : (b2n (batch_freed (batch w)) + fsum (closes (pending (batch w))) s
              = b2n (pending (batch w) =? 0))%nat;
  i_calls i v : invs (batch w) !! i = Some v -> call_ok s h (gates w) i v;
  i_gates g i : gates w !! g = Some (GInv i) ->
    exists v, invs (batch w) !! i = Some v /\ gate v = Some g;
  i_frames : Forall (frame_ok (length (invs (batch w)))) s;
  i_build : (fsum is_build s <= 1)%nat /\ forall a calls, In (FBuild a calls) s ->
    invs (batch w) = [] /\ Forall is_Some calls /\ forall i, fsum (carries i) s = 0%nat /\
    fsum (is_gate_run i) s = 0%nat /\
    (fsum (is_result_ev i) (log w) + fsum (is_record i) s = 0)%nat;
  i_done : fsum is_done_ev (log w)
           = b2n (negb (detached (batch w)) && (pending (batch w) =? 0)%nat);
  i_phase : if agent_gone (agent w) then gone_ok w s else live_ok w s
}.

(** What [Inv] reads of the world. *)
Definition same_parts (w w' : world) : Prop :=
  tools (agent w') = tools (agent w) /\ active_batch (agent w') = active_batch (agent w) /\
  agent_gone (agent w') = agent_gone (agent w) /\ batch w' = batch w /\ gates w' = gates w /\
  bad w' = bad w /\
  (forall i, fsum (is_result_ev i) (log w') = fsum (is_result_ev i) (log w)) /\
  fsum is_done_ev (log w') = fsum is_done_ev (log w) /\
  fsum is_past_ev (log w') = fsum is_past_ev (log w).

Lemma inv_same h x w w' s : same_parts w w' -> Inv h x w s -> Inv h x w' s.
Proof.
  intros (E1 & E2 & E3 & E4 & E5 & E6 & E7 & E8 & E9) [H1 H2 H3 H4 H5 H6 H7 H8 H9].
  constructor; rewrite ?E4, ?E5, ?E6, ?E8, ?E9; try done.
  - destruct H7 as [H7 H7']. split; [done|]. intros a c Hin. destruct (H7' a c Hin) as (? & ? & H).
    split_and!; try done. intros i. rewrite E7. apply H.
  - rewrite E3. destruct (agent_gone (agent w)).
    + unfold gone_ok in *. by rewrite E2, E4.
    + unfold live_ok in *. rewrite E1, E2, E4. destruct H9 as (? & ? & ? & ? & H9).
      split_and!; try done. intros i v Hv. rewrite E7. by apply H9.
Qed.

(** An event that is neither a result nor the end of the batch, nor a read
    past an output that should not be. *)
Definition plain_event (e : event) : Prop :=
  match e with EvResult _ _ | EvToolsDone => False | EvPastEnd _ cap => ~ cap_ok cap | _ => True end.

Lemma inv_note h x w s e : plain_event e -> Inv h x w s -> Inv h x (note w e) s.
Proof.
  intros He. apply inv_same. destruct e; try done. unfold same_parts. cbn in *.
  by rewrite bool_decide_eq_false_2.
Qed.

Lemma inv_rl h x w s r : Inv h x w s -> Inv h x (set_rl w r) s.
Proof. by apply inv_same. Qed.

Lemma inv_history h x w s r : Inv h x w s -> Inv h x (set_history w r) s.
Proof. by apply inv_same. Qed.

Lemma inv_denial h x w s : Inv h x w s -> Inv h x (add_denial w) s.
Proof. by apply inv_same. Qed.

(** ** Changing one call *)

Definition plain_frame (f : frame) : Prop :=
  match f with FCallback _ | FDispatchTool _ | FGateRun _ => True | _ => False end.

Lemma plain_sums fs : Forall plain_frame fs ->
  fsum frame_holds fs = 0%nat /\ fsum is_build fs = 0%nat /\ fsum is_detach fs = 0%nat /\
  (forall p, fsum (closes p) fs = 0%nat) /\ (forall i, fsum (is_record i) fs = 0%nat).
Proof.
  induction 1 as [|f fs Hf _ (H1 & H2 & H3 & H4 & H5)]; [done|].
  destruct f; try done; cbn; split_and!; try done; intros j; apply H4 || apply H5.
Qed.

Lemma no_build h x w s i v : Inv h x w s -> invs (batch w) !! i = Some v ->
  forall a c, ~ In (FBuild a c) s.
Proof.
  intros [? ? ? ? ? ? [_ Hb] ? ?] Hi a c Hin. destruct (Hb a c Hin) as [E _]. by rewrite E in Hi.
Qed.

Lemma build_app (fs s : list frame) a c : Forall plain_frame fs -> In (FBuild a c) (fs ++ s) ->
  In (FBuild a c) s.
Proof.
  intros Hf [Hin|?]%in_app_iff; [|done]. rewrite List.Forall_forall in Hf. by apply Hf in Hin.
Qed.

Lemma lookup_upd f i w j v : invs (batch (upd f i w)) !! j = Some v ->
  exists u, invs (batch w) !! j = Some u /\ v = (if (j =? i)%nat then f u else u).
Proof.
  cbn. destruct (Nat.eqb_spec j i) as [->|Hj].
  - rewrite list_lookup_alter_eq. destruct (invs (batch w) !! i) as [u|]; [|done].
    intros [= <-]. by exists u.
  - rewrite list_lookup_alter_ne by done. eauto.
Qed.

Lemma held_alter f i l v k : l !! i = Some v -> completed (f v) = completed v ->
  def (f v) = def v -> held (alter f i l) k = held l k.
Proof.
  intros Hi Hc Hd. unfold held. pose proof (fsum_alter (uses k) f i l v Hi) as E.
  unfold uses in *. rewrite Hc, Hd in E. lia.
Qed.

Lemma inv_upd f i v g' h h' x w s fs :
  Inv h x w s -> agent_gone (agent w) = false -> invs (batch w) !! i = Some v ->
  completed (f v) = completed v -> def (f v) = def v ->
  Forall plain_frame fs -> Forall (frame_ok (length (invs (batch w)))) fs ->
  (forall j, j <> i -> fsum (carries j) fs = 0%nat /\ fsum (is_gate_run j) fs = 0%nat /\
                       in_hand h' j = in_hand h j) ->
  (forall j k, j <> i -> g' !! k = Some (GInv j) <-> gates w !! k = Some (GInv j)) ->
  (forall k, g' !! k = Some (GInv i) -> gate (f v) = Some k) ->
  call_ok (fs ++ s) h' g' i (f v) ->
  Inv h' x (upd f i (set_gates w g')) (fs ++ s).
Proof.
  intros H Hgone Hi Hc Hd Hp Hfr Hj Hg Hgi Hok. pose proof (no_build _ _ _ _ _ _ H Hi) as Hnb.
  destruct (plain_sums fs Hp) as (S1 & S2 & S3 & S4 & S5).
  destruct H as [H1 H2 H3 H4 H5 H6 H7 H8 H9].
  constructor; cbn; rewrite ?fsum_app, ?length_alter, ?S1, ?S2, ?S4; try done.
  - rewrite H2. pose proof (fsum_alter open_call f i (invs (batch w)) v Hi) as E.
    unfold open_call in *. rewrite Hc in E. lia.
  - intros j u Hu. destruct (lookup_upd f i w j u Hu) as (u' & Hu' & ->).
    destruct (Nat.eqb_spec j i) as [->|Hne]; [by assert (u' = v) as -> by congruence|].
    destruct (H4 j u' Hu') as [T1 T2 T3 T4]. destruct (Hj j Hne) as (J1 & J2 & J3).
    constructor; rewrite ?fsum_app, ?J1, ?J2, ?J3; [done| |done|done].
    intros k Hk. by apply Hg, T2.
  - intros k j Hk. destruct (decide (j = i)) as [->|Hne].
    + exists (f v). rewrite list_lookup_alter_eq, Hi. auto.
    + rewrite list_lookup_alter_ne by done. by apply H5, Hg.
  - by apply Forall_app.
  - destruct H7 as [H7 _]. split; [done|]. intros a c Hin. by destruct (Hnb a c (build_app _ _ _ _ Hp Hin)).
  - rewrite Hgone in *. destruct H9 as (L1 & L2 & L3 & L4 & L5). unfold live_ok. cbn.
    rewrite fsum_app, S3. split_and!; try done.
    + eapply reg_ok_ext; [|exact L3]. intros k. cbn. by apply (held_alter f i _ v).
    + intros j u Hu. rewrite fsum_app, S5. destruct (lookup_upd f i w j u Hu) as (u' & Hu' & ->).
      destruct (Nat.eqb_spec j i) as [->|Hne]; [|by apply L5].
      assert (u' = v) as -> by congruence. rewrite Hc. by apply L5.
Qed.

(** The same without a change of the gates. *)
Lemma inv_upd' f i v h h' x w s fs :
  Inv h x w s -> agent_gone (agent w) = false -> invs (batch w) !! i = Some v ->
  completed (f v) = completed v -> def (f v) = def v -> gate (f v) = gate v ->
  Forall plain_frame fs -> Forall (frame_ok (length (invs (batch w)))) fs ->
  (forall j, j <> i -> fsum (carries j) fs = 0%nat /\ fsum (is_gate_run j) fs = 0%nat /\
                       in_hand h' j = in_hand h j) ->
  call_ok (fs ++ s) h' (gates w) i (f v) ->
  Inv h' x (upd f i w) (fs ++ s).
Proof.
  intros H Hgone Hi Hc Hd Hg Hp Hfr Hj Hok.
  assert (E : set_gates w (gates w) = w) by (by destruct w). rewrite <- E.
  eapply inv_upd; try done. intros k Hk. rewrite Hg.
  destruct (i_gates _ _ _ _ H k i Hk) as (u & Hu & Hgu). congruence.
Qed.

(** A change that no part of the invariant sees. *)
Lemma inv_mute f i v h x w s :
  (completed (f v) = completed v /\ def (f v) = def v /\ gate (f v) = gate v /\
   rl_timer (f v) = rl_timer v /\ awaiting_perm (f v) = awaiting_perm v /\
   started (f v) = started v /\ timer (f v) = timer v) ->
  invs (batch w) !! i = Some v -> agent_gone (agent w) = false ->
  Inv h x w s -> Inv h x (upd f i w) s.
Proof.
  intros (F1 & F2 & F3 & F4 & F5 & F6 & F7) Hi Hgone H.
  apply (inv_upd' f i v h h x w s []); try done.
  destruct (i_calls _ _ _ _ H i v Hi) as [T1 T2 T3 T4].
  constructor; rewrite ?F1, ?F2, ?F3, ?F5, ?F6, ?F7; try done.
  unfold parked in *. by rewrite F1, F3, F4, F5, F6.
Qed.

(** ** Holds *)

(** Trading frames for a call or a hold in hand, and back: what the
    invariant counts on the stack may move between the two. *)
Lemma inv_swap fs fs' h h' x x' w s :
  Inv h x w (fs ++ s) -> agent_gone (agent w) = false ->
  (forall i, (i < length (invs (batch w)))%nat ->
    (fsum (carries i) fs + in_hand h i = fsum (carries i) fs' + in_hand h' i /\
     fsum (is_gate_run i) fs' <= fsum (is_gate_run i) fs)%nat) ->
  (forall i, fsum (is_record i) fs = fsum (is_record i) fs')%nat ->
  (fsum frame_holds fs + x = fsum frame_holds fs' + x')%nat ->
  (forall p, fsum (closes p) fs = fsum (closes p) fs')%nat ->
  (fsum is_detach fs = fsum is_detach fs')%nat ->
  Forall (fun f => is_build f = 0%nat) fs' ->
  ((forall a c, ~ In (FBuild a c) s) \/
   forall i, (fsum (carries i) fs' <= fsum (carries i) fs /\
              fsum (is_gate_run i) fs' <= fsum (is_gate_run i) fs)%nat) ->
  Forall (frame_ok (length (invs (batch w)))) fs' ->
  Inv h' x' w (fs' ++ s).
Proof.
  intros [H1 H2 H3 H4 H5 H6 H7 H8 H9] Hgone Hc Hr Hh Hcl Hd Hb Hb' Hf. rewrite Hgone in *.
  assert (Hb0 : fsum is_build fs' = 0%nat)
    by (apply fsum_zero; by rewrite List.Forall_forall in Hb).
  rewrite fsum_app in *.
  constructor; rewrite ?fsum_app, ?Hgone; try done.
  - lia.
  - by rewrite <- Hcl.
  - intros i v Hv. destruct (H4 i v Hv) as [T1 T2 T3 T4].
    destruct (Hc i) as [C1 C2]; [by eapply lookup_lt_Some|].
    constructor; rewrite ?fsum_app in *; try done; [lia|].
    intros Hdv. destruct (T4 Hdv) as (? & ? & ? & ?). split_and!; try done. lia.
  - apply Forall_app in H6 as [_ H6]. by apply Forall_app.
  - rewrite Hb0. destruct H7 as [H7 H7']. split; [lia|]. intros a c [Hin|Hin]%in_app_iff.
    + rewrite List.Forall_forall in Hb. by apply Hb in Hin.
    + destruct Hb' as [Hb'|Hb']; [by destruct (Hb' a c)|].
      destruct (H7' a c) as (E1 & E2 & E3); [apply in_app_iff; by right|]. split_and!; try done.
      intros i. rewrite !fsum_app. destruct (E3 i) as (F1 & F2 & F3). rewrite !fsum_app in *.
      specialize (Hr i). destruct (Hb' i). lia.
  - destruct H9 as (L1 & L2 & L3 & L4 & L5). unfold live_ok. rewrite !fsum_app in *.
    split_and!; try done; [lia|]. intros i v Hv. specialize (L5 i v Hv). rewrite !fsum_app in *.
    specialize (Hr i). lia.
Qed.

Definition hold_frame (f : frame) : Prop :=
  match f with FRelease | FDone | FCancel _ => True | _ => False end.

(** What can be on top once the agent is gone. *)
Lemma not_gone h x w f s : Inv h x w (f :: s) ->
  match f with FDetach _ | FCallback _ => False | _ => True end -> agent_gone (agent w) = false.
Proof.
  intros [_ _ _ _ _ _ _ _ H9] Hf. destruct (agent_gone (agent w)); [|done].
  destruct H9 as (_ & _ & H9). by destruct f.
Qed.

(** A frame gives its hold to the running function. *)
Lemma pop_hold f h x w s : hold_frame f -> Inv h x w (f :: s) ->
  Inv h (S x) w s /\ agent_gone (agent w) = false /\ batch_freed (batch w) = false.
Proof.
  intros Hf H. assert (Hgone : agent_gone (agent w) = false) by (eapply not_gone; [done|by destruct f]).
  split_and!; [|done|].
  - apply (inv_swap [f] [] h h x (S x) w s H Hgone); try done; try by destruct f.
    right. intros i. by destruct f.
  - destruct H as [_ H2 H3 _ _ _ _ _ _]. destruct (batch_freed (batch w)); [|done].
    assert (frame_holds f = 1%nat) as E by (by destruct f). cbn in *. rewrite E in H2.
    destruct (pending (batch w) =? 0)%nat eqn:E0; bool_facts; cbn in H3; lia.
Qed.

(** And takes one. *)
Lemma push_hold f h x w s : hold_frame f -> Inv h (S x) w s -> agent_gone (agent w) = false ->
  Inv h x w (f :: s).
Proof.
  intros Hf H Hgone.
  apply (inv_swap [] [f] h h (S x) x w s H Hgone); try done; try by destruct f.
  - constructor; [by destruct f|constructor].
  - right. intros i. by destruct f.
  - constructor; [by destruct f|constructor].
Qed.

(** A batch with something outstanding can be held once more. *)
Lemma inv_hold h x w s : Inv h x w s -> agent_gone (agent w) = false ->
  pending (batch w) <> 0%nat -> Inv h (S x) (set_pending w (S (pending (batch w)))) s.
Proof.
  intros [H1 H2 H3 H4 H5 H6 H7 H8 H9] Hgone Hp. rewrite Hgone in *.
  apply Nat.eqb_neq in Hp. destruct H9 as (L1 & L2 & L3 & L4 & L5). rewrite Hp in *. cbn in H3.
  assert (Ec : forall q, fsum (closes q) s = fsum (closes (pending (batch w))) s).
  { intros q. apply fsum_ext. intros f Hf. destruct f; try done.
    pose proof (fsum_in is_detach s _ Hf). cbn in *. lia. }
  constructor; wcbn;
    rewrite ?Hgone; try done.
  - lia.
  - rewrite Ec. cbn. lia.
Qed.

(** [pending--], and the end of the batch when nothing is left. *)
Lemma release_ok w s : Inv None 1 w s -> agent_gone (agent w) = false ->
  Inv None 0 (fst (release w)) (snd (release w) ++ s).
Proof.
  intros H Hgone. destruct H as [H1 H2 H3 H4 H5 H6 H7 H8 H9]. rewrite Hgone in *.
  destruct H9 as (L1 & L2 & L3 & L4 & L5).
  assert (Ec : forall q, fsum (closes q) s = fsum (closes (pending (batch w))) s).
  { intros q. apply fsum_ext. intros f Hf. destruct f; try done.
    pose proof (fsum_in is_detach s _ Hf). cbn in *. lia. }
  destruct (pending (batch w)) as [|p] eqn:Ep; [lia|]. cbn in H3.
  assert (Hf0 : batch_freed (batch w) = false) by (destruct (batch_freed (batch w)); [cbn in H3; lia|done]).
  assert (Hc0 : fsum (closes (S p)) s = 0%nat) by lia.
  unfold release. rewrite Hf0. unfold dec_pending. rewrite Ep. cbn [pred].
  wcbn.
  destruct (p =? 0)%nat eqn:E0; bool_facts.
  - subst p. unfold batch_finalize.
    wcbn.
    rewrite Hgone. cbn [fst snd app].
    constructor; cbn; rewrite ?Hgone, ?Hf0, ?L1, ?Ec, ?Hc0; try done; try lia.
    + intros i v Hv. destruct (H4 i v Hv) as [T1 T2 T3 T4]. by constructor.
    + by repeat constructor.
    + destruct H7 as [H7 H7']. split; [done|]. intros a c [?|[?|Hin]]; try done. by eapply H7'.
    + rewrite H8, L1. done.
  - cbn [fst snd app]. assert (Hp : (p =? 0)%nat = false) by (by apply Nat.eqb_neq).
    constructor; wcbn;
      rewrite ?Hgone, ?Hf0, ?L1, ?Ec, ?Hc0, ?Hp; try done; try lia.
    { by rewrite H8, L1. }
    unfold live_ok. wcbn. by rewrite Hp, L1.
Qed.
