(* ===== verification/ToolsFacts.v ===== *)
(** The dispatch of tool calls is memory safe and keeps its count: whatever
    tools, hooks and frontend do within the rules of the API, no call, tool
    node, gate or batch is used after it was freed, the batch is freed once,
    when its last call is done, and the agent is told so once. Every function
    of the library is shown to keep the invariant of [ToolsInv]. *)

From S2P Require Import Prelude Utf8 TextClean Image RateLimit Tokens CJson History Registry Tools.
From S2P Require Import ToolsInv.

(** ** Finishing a call *)

Lemma closes_live s p q : fsum is_detach s = 0%nat -> fsum (closes p) s = fsum (closes q) s.
Proof.
  intros Hd. apply fsum_ext. intros f Hf. destruct f; try done.
  pose proof (fsum_in is_detach s _ Hf). cbn in *. lia.
Qed.

(** With a call open the batch is alive. *)
Lemma open_alive h x w s i v : Inv h x w s -> invs (batch w) !! i = Some v ->
  completed v = false -> pending (batch w) <> 0%nat /\ batch_freed (batch w) = false.
Proof.
  intros [H1 H2 H3 _ _ _ _ _ _] Hi Hc.
  pose proof (fsum_in open_call (invs (batch w)) v) as E. unfold open_call in E at 1.
  rewrite Hc in E. cbn in E.
  assert (1 <= fsum open_call (invs (batch w)))%nat
    by (apply E, list_elem_of_In; by eapply list_elem_of_lookup_2).
  destruct (pending (batch w)); [lia|]. split; [done|]. cbn in H3.
  destruct (batch_freed (batch w)); [cbn in H3; lia|done].
Qed.

Lemma held_complete f i l v k : l !! i = Some v -> completed v = false -> completed (f v) = true ->
  held l k = held (alter f i l) k + (if bool_decide (def v = Some k) then 1 else 0).
Proof.
  intros Hi Hc Hf. unfold held. pose proof (fsum_alter (uses k) f i l v Hi) as E.
  unfold uses in *. rewrite Hc, Hf in E. cbn in E. destruct (bool_decide _); cbn in E; lia.
Qed.

Lemma unpin_held f i l v reg : l !! i = Some v -> completed v = false -> completed (f v) = true ->
  reg_ok reg (held l) ->
  reg_ok (match def v with Some k => unpin reg k | None => reg end) (held (alter f i l)).
Proof.
  intros Hi Hc Hf H. pose proof (fun k => held_complete f i l v k Hi Hc Hf) as Hh.
  destruct (def v) as [k|].
  - eapply unpin_ok; [exact H| |].
    + rewrite Hh. rewrite bool_decide_eq_true_2 by done. unfold held. lia.
    + intros j. rewrite Hh. destruct (Nat.eqb_spec j k) as [->|Hne].
      * by rewrite bool_decide_eq_true_2.
      * by rewrite bool_decide_eq_false_2 by congruence.
  - eapply reg_ok_ext; [|exact H]. intros k. rewrite (Hh k).
    rewrite bool_decide_eq_false_2 by done. lia.
Qed.

Definition finished (v : clm_tool_invocation) : clm_tool_invocation := set_timer (set_completed v) false.

(** The call in hand, or one its tool works on. *)
Definition ready (h : option nat) (i : nat) (v : clm_tool_invocation) : Prop :=
  completed v = false /\ (h = Some i \/ h = None /\ started v = true).

Lemma ready_alone s h g i v : call_ok s h g i v -> ready h i v ->
  rl_timer v = false /\ gate v = None /\ awaiting_perm v = false /\
  fsum (carries i) s = 0%nat /\ parked (finished v) = 1%nat.
Proof.
  intros [T1 _ _ _] [Hc Hr]. unfold parked, in_hand in *. cbn.
  assert (started v = true -> b2n (started v || completed v) = 1%nat) by (by intros ->).
  destruct Hr as [->|[-> Hs]].
  - rewrite bool_decide_eq_true_2 in T1 by done. cbn in T1.
    destruct (rl_timer v), (awaiting_perm v), (gate v); cbn in *; try lia.
    rewrite orb_true_r. split_and!; done || lia.
  - rewrite Hs in *. cbn in T1.
    destruct (rl_timer v), (awaiting_perm v), (gate v); cbn in *; try lia.
    split_and!; done || lia.
Qed.

Section Facts.
Context `{CJson} (fnmatch : list byte -> list byte -> bool) (parse : list byte -> option cJSON).
Context (print : cJSON -> option (list byte)) (env : tool_env).

Abbreviation inv_finalize := (inv_finalize env).

(** The output is always there, and the read past it only at the caps with
    no room for a byte. *)
Lemma tool_output_some o v c : exists out past_end,
  tool_output env o v c = Some (out, past_end) /\ (past_end = true -> ~ cap_ok (output_cap v)).
Proof.
  unfold tool_output. set (sp := _ <$> _). set (e := text_or_note c).
  assert (Hcl : forall x, exists out, ('(n, d) ← clm_clean_text (Some x) (length x); Some (take n (default [] d)))
                                     = Some (out : list byte)).
  { intros x. destruct (clean_text_total x) as (n & d' & ->). cbn. by eexists. }
  assert (H0 : cap_ok (output_cap v) -> is_Some (cut_output None sp (output_cap v) e))
    by apply cut_output_in_bounds.
  destruct (cut_output None sp (output_cap v) e) as [x|].
  - destruct (Hcl x) as [out E]. exists out, false. split; [|done]. cbn [mbind option_bind] in *.
    destruct (clm_clean_text _ _) as [[n d]|]; [|done]. cbn in *. by injection E as ->.
  - destruct (cut_output_total (past o) sp (output_cap v) e) as [x ->].
    destruct (Hcl x) as [out E]. exists out, true. split.
    + cbn [mbind option_bind] in *. destruct (clm_clean_text _ _) as [[n d]|]; [|done]. cbn in *. by injection E as ->.
    + intros _ Hc. by destruct (H0 Hc).
Qed.

Lemma inv_past h x w s i v b : (b = true -> ~ cap_ok (output_cap v)) -> Inv h x w s ->
  Inv h x (if b then note w (EvPastEnd i (output_cap v)) else w) s.
Proof. intros Hb HI. destruct b; [|done]. apply inv_note; [|done]. by apply Hb. Qed.

Lemma finalize_ok o w i v c oc att h x s :
  Inv h x w s -> agent_gone (agent w) = false -> invs (batch w) !! i = Some v -> ready h i v ->
  Inv None x (fst (inv_finalize o w i c oc att)) (snd (inv_finalize o w i c oc att) ++ s).
Proof.
  intros HI Hgone Hi Hr. pose proof (no_build _ _ _ _ _ _ HI Hi) as Hnb.
  pose proof (i_calls _ _ _ _ HI i v Hi) as Hok.
  destruct (ready_alone _ _ _ _ _ Hok Hr) as (A1 & A2 & A3 & A4 & A5).
  destruct (open_alive _ _ _ _ _ _ HI Hi (proj1 Hr)) as [Hp Hf].
  destruct Hr as [Hc Hr]. destruct HI as [H1 H2 H3 H4 H5 H6 H7 H8 H9]. rewrite Hgone in *.
  destruct H9 as (L1 & L2 & L3 & L4 & L5).
  unfold Tools.inv_finalize, on_inv. rewrite Hf, Hi. wcbn. rewrite L1, Hgone. cbn [fst snd app].
  assert (Hin : (i < length (invs (batch w)))%nat) by (by apply lookup_lt_Some in Hi).
  destruct (tool_output_some o v c) as (out & past_end & -> & Hpast).
  set (w' := match def v with Some k => _ | None => _ end). cbn [fst snd app].
  apply (inv_past None x w' _ i v past_end Hpast). clear Hpast.
  assert (Hb : batch w' = mk_batch (alter finished i (invs (batch w))) (pending (batch w))
                            (done_ (batch w)) (detached (batch w)) (batch_freed (batch w))).
  { subst w'. by destruct (def v); wcbn; rewrite list_alter_alter_eq. }
  assert (Hag : active_batch (agent w') = active_batch (agent w) /\
    agent_gone (agent w') = agent_gone (agent w) /\ gates w' = gates w /\ bad w' = bad w /\
    log w' = log w /\
    tools (agent w') = match def v with
                       | Some k => unpin (tools (agent w)) k | None => tools (agent w) end).
  { subst w'. by destruct (def v). }
  destruct Hag as (G1 & G2 & G3 & G4 & G5 & G6). clearbody w'.
  pose proof (fsum_alter open_call finished i _ v Hi) as Eo. unfold open_call in Eo at 2 4.
  rewrite Hc in Eo. cbn in Eo.
  assert (Hlk : forall j u, alter finished i (invs (batch w)) !! j = Some u ->
    exists u', invs (batch w) !! j = Some u' /\ u = if (j =? i)%nat then finished u' else u').
  { intros j u Hu. destruct (Nat.eqb_spec j i) as [->|Hne].
    - rewrite list_lookup_alter_eq, Hi in Hu. injection Hu as <-. eauto.
    - rewrite list_lookup_alter_ne in Hu by done. eauto. }
  constructor; rewrite ?Hb, ?G1, ?G2, ?G3, ?G4, ?G5; wcbn; rewrite ?length_alter; cbn [fsum]; try done.
  - cbn. lia.
  - intros j u Hu. destruct (Hlk j u Hu) as (u' & Hu' & ->). specialize (H4 j u' Hu').
    destruct (Nat.eqb_spec j i) as [->|Hne].
    + assert (u' = v) as -> by congruence. destruct Hok as [T1 T2 T3 T4].
      constructor; cbn [fsum carries is_gate_run]; [|by cbn; rewrite A2|done|].
      * rewrite A4, A5. done.
      * intros Hd. apply T4 in Hd. by cbn.
    + destruct H4 as [T1 T2 T3 T4]. constructor; cbn [fsum carries is_gate_run]; try done.
      assert (in_hand None j = in_hand h j) as ->; [|done]. unfold in_hand.
      destruct Hr as [->|[-> _]]; [|done]. by rewrite !bool_decide_eq_false_2 by congruence.
  - intros g j Hg. destruct (H5 g j Hg) as (u & Hu & Hgu). destruct (decide (j = i)) as [->|Hne].
    + congruence.
    + exists u. by rewrite list_lookup_alter_ne.
  - repeat constructor; [done|]. by eapply Forall_impl.
  - destruct H7 as [H7 _]. split; [done|]. intros a cs [?|[?|Hin']]; [done..|]. by destruct (Hnb a cs).
  - rewrite Hgone. unfold live_ok. rewrite Hb, G1, G5, G6. wcbn. split_and!; try done.
    + by apply unpin_held.
    + intros j u Hu. destruct (Hlk j u Hu) as (u' & Hu' & ->). specialize (L5 j u' Hu').
      cbn [fsum is_record]. rewrite (Nat.eqb_sym i j). destruct (Nat.eqb_spec j i) as [->|Hne]; [|done].
      assert (u' = v) as -> by congruence. rewrite Hc in L5. cbn in *. lia.
Qed.

(** After the agent is gone a call only leaves the batch, and the last one
    frees it. *)
Definition gone_stack (w : world) (v : clm_tool_invocation) (s : list frame) : Prop :=
  s = [] \/ timer v = false /\ pending (batch w) <> 1%nat /\ exists cb k, s = [FCallback cb; FDetach k].

Lemma finalize_gone o w i v c oc att h s :
  Inv h 0 w s -> agent_gone (agent w) = true -> invs (batch w) !! i = Some v -> ready h i v ->
  gone_stack w v s ->
  Inv None 0 (fst (inv_finalize o w i c oc att)) (snd (inv_finalize o w i c oc att) ++ s).
Proof.
  intros HI Hgone Hi Hr Hst. pose proof (i_calls _ _ _ _ HI i v Hi) as Hok.
  destruct (ready_alone _ _ _ _ _ Hok Hr) as (A1 & A2 & A3 & A4 & A5).
  destruct (open_alive _ _ _ _ _ _ HI Hi (proj1 Hr)) as [Hp Hf].
  destruct Hr as [Hc Hr]. destruct HI as [H1 H2 H3 H4 H5 H6 H7 H8 H9]. rewrite Hgone in *.
  destruct H9 as (L1 & [L2|L2] & L3); [|done].
  assert (Ht : timer v = false) by (destruct Hst as [->|(? & _)]; [by apply (L3 i v)|done]).
  unfold Tools.inv_finalize, on_inv. rewrite Hf, Hi. unfold dec_pending. wcbn. rewrite L2.
  pose proof (fsum_alter open_call set_completed i _ v Hi) as Eo. unfold open_call in Eo at 2 4.
  rewrite Hc in Eo. cbn in Eo.
  assert (Hlk : forall j u, alter set_completed i (invs (batch w)) !! j = Some u ->
    exists u', invs (batch w) !! j = Some u' /\ u = if (j =? i)%nat then set_completed u' else u').
  { intros j u Hu. by apply (lookup_upd set_completed i w j u). }
  assert (Hcalls : forall j u, alter set_completed i (invs (batch w)) !! j = Some u ->
    call_ok s None (gates w) j u).
  { intros j u Hu. destruct (Hlk j u Hu) as (u' & Hu' & ->). specialize (H4 j u' Hu').
    destruct (Nat.eqb_spec j i) as [->|Hne].
    + assert (u' = v) as -> by congruence. destruct Hok as [T1 T2 T3 T4].
      constructor; [|done|cbn; by rewrite Ht|done]. rewrite A4.
      change (parked (finished v) + 0 = 1)%nat. lia.
    + destruct H4 as [T1 T2 T3 T4]. constructor; try done.
      assert (in_hand None j = in_hand h j) as ->; [|done]. unfold in_hand.
      destruct Hr as [->|[-> _]]; [|done]. by rewrite !bool_decide_eq_false_2 by congruence. }
  assert (Hgates : forall g j, gates w !! g = Some (GInv j) -> exists u,
    alter set_completed i (invs (batch w)) !! j = Some u /\ gate u = Some g).
  { intros g j Hg. destruct (H5 g j Hg) as (u & Hu & Hgu). destruct (decide (j = i)) as [->|Hne].
    + congruence.
    + exists u. by rewrite list_lookup_alter_ne. }
  assert (Hq : forall j u u', invs (batch w) !! j = Some u' -> quiet u' ->
    alter set_completed i (invs (batch w)) !! j = Some u -> quiet u).
  { intros j u u' Hu' Q Hu. destruct (Hlk j u Hu) as (u2 & Hu2 & ->).
    assert (u2 = u') as -> by congruence. by destruct (j =? i)%nat. }
  destruct Hst as [->|(_ & Hp1 & cb & k & ->)].
  - assert (Hq' : forall j u, alter set_completed i (invs (batch w)) !! j = Some u -> quiet u).
    { intros j u Hu. destruct (Hlk j u Hu) as (u' & Hu' & _). by eapply Hq, Hu; [|eapply L3]. }
    cbn in H2. destruct (pred (pending (batch w)) =? 0)%nat eqn:E0; cbn [fst snd app].
    + unfold batch_really_free. wcbn. rewrite Hf. wcbn. bool_facts.
      constructor; wcbn; rewrite ?Hgone, ?L2, ?E0, ?length_alter; cbn [fsum]; try done; try lia;
        [split; [lia|done]|by rewrite H8, L2|unfold gone_ok; wcbn; auto].
    + constructor; wcbn; rewrite ?Hgone, ?L2, ?Hf, ?E0, ?length_alter; cbn [fsum]; try done; try lia;
        [split; [lia|done]|by rewrite H8, L2|unfold gone_ok; wcbn; auto].
  - assert (Hq' : forall j u, (j < k)%nat -> alter set_completed i (invs (batch w)) !! j = Some u -> quiet u).
    { intros j u Hj Hu. destruct (Hlk j u Hu) as (u' & Hu' & _). by eapply Hq, Hu; [|by eapply L3]. }
    cbn in H2. destruct (pred (pending (batch w)) =? 0)%nat eqn:E0; [bool_facts; lia|]. cbn [fst snd app].
    constructor; wcbn; rewrite ?Hgone, ?L2, ?Hf, ?E0, ?length_alter; try done.
    + cbn. lia.
    + cbn. by rewrite E0.
    + destruct H7 as [H7 H7']. split; [done|]. intros a cs [?|[?|[]]]; done.
    + by rewrite H8, L2.
    + unfold gone_ok. wcbn. auto.
Qed.

(** The agent lives, or the event loop runs what it left behind, or it is
    being freed and the report is not a fatal one. *)
Definition alive (w : world) (v : clm_tool_invocation) (x : nat) (s : list frame) : Prop :=
  agent_gone (agent w) = false \/ (gone_stack w v s /\ x = 0%nat).

Lemma finalize_any o w i v c oc att h x s :
  Inv h x w s -> alive w v x s -> invs (batch w) !! i = Some v -> ready h i v ->
  Inv None x (fst (inv_finalize o w i c oc att)) (snd (inv_finalize o w i c oc att) ++ s).
Proof.
  intros HI Ha Hi Hr. destruct (agent_gone (agent w)) eqn:E.
  - destruct Ha as [Ha|[Ha ->]]; [congruence|]. by eapply finalize_gone.
  - by eapply finalize_ok.
Qed.

(** A step of the library that leaves the invariant with no call in hand and
    [x] holds. *)
Definition steps (x : nat) (s : list frame) (r : world * list frame) : Prop :=
  Inv None x (fst r) (snd r ++ s).

Lemma on_inv_ok w i v k (P : world * list frame -> Prop) : batch_freed (batch w) = false ->
  invs (batch w) !! i = Some v -> P (k v) -> P (on_inv w i k).
Proof. intros Hf Hi. unfold on_inv. by rewrite Hf, Hi. Qed.

Lemma steps_timeout o w i v h x s :
  Inv h x w s -> alive w v x s -> invs (batch w) !! i = Some v -> ready h i v ->
  steps x s (finalize_timeout env o w i).
Proof.
  intros HI Hg Hi Hr. destruct (open_alive _ _ _ _ _ _ HI Hi (proj1 Hr)) as [_ Hf].
  unfold finalize_timeout. eapply on_inv_ok; [done..|]. by eapply finalize_any.
Qed.

Lemma steps_fail o w i v m h x s :
  Inv h x w s -> alive w v x s -> invs (batch w) !! i = Some v -> ready h i v ->
  steps x s (clm_tool_fail env o w i m).
Proof.
  intros HI Hg Hi Hr. destruct (open_alive _ _ _ _ _ _ HI Hi (proj1 Hr)) as [_ Hf].
  unfold clm_tool_fail. eapply on_inv_ok; [done..|]. rewrite (proj1 Hr).
  case_if; [by eapply steps_timeout|by eapply finalize_any].
Qed.

Lemma steps_complete_buf o w i v c h x s :
  Inv h x w s -> alive w v x s -> invs (batch w) !! i = Some v -> ready h i v ->
  steps x s (clm_tool_complete_buf env o w i c).
Proof.
  intros HI Hg Hi Hr. destruct (open_alive _ _ _ _ _ _ HI Hi (proj1 Hr)) as [_ Hf].
  unfold clm_tool_complete_buf. eapply on_inv_ok; [done..|]. rewrite (proj1 Hr).
  case_if; [by eapply steps_timeout|by eapply finalize_any].
Qed.

Lemma steps_image o w i v t mt d h x s :
  Inv h x w s -> alive w v x s -> invs (batch w) !! i = Some v -> ready h i v ->
  steps x s (clm_tool_complete_image env o w i t mt d).
Proof.
  intros HI Hg Hi Hr. destruct (open_alive _ _ _ _ _ _ HI Hi (proj1 Hr)) as [_ Hf].
  unfold clm_tool_complete_image. eapply on_inv_ok; [done..|]. rewrite (proj1 Hr).
  destruct mt; [|by eapply steps_fail]. destruct d as [[|b d]|]; [by eapply steps_fail| |by eapply steps_fail].
  case_if; [by eapply steps_timeout|]. case_if; by eapply finalize_any.
Qed.

Lemma steps_base64 o w i v t b h x s :
  Inv h x w s -> alive w v x s -> invs (batch w) !! i = Some v -> ready h i v ->
  steps x s (clm_tool_complete_image_base64 env o w i t b).
Proof.
  intros HI Hg Hi Hr. destruct (open_alive _ _ _ _ _ _ HI Hi (proj1 Hr)) as [_ Hf].
  unfold clm_tool_complete_image_base64. eapply on_inv_ok; [done..|]. rewrite (proj1 Hr).
  assert (Hc : forall c, steps x s (clm_tool_complete env o w i c)).
  { intros c. unfold clm_tool_complete. by eapply steps_complete_buf. }
  destruct b as [[|b l]|]; [apply Hc| |apply Hc]. case_if; [apply Hc|].
  destruct (clm_base64_decode (b :: l)) as [img|]; [|apply Hc].
  pose proof (sniff_answers (Some img)) as Hs.
  destruct (clm_image_sniff (Some img)) as [[[[mt ?] ?]|]|]; [by eapply steps_image|apply Hc|done].
Qed.

(** ** Running a call *)

(** The node of an open call has not been freed. *)
Lemma live_node_ok h x w s i v : Inv h x w s -> agent_gone (agent w) = false ->
  invs (batch w) !! i = Some v -> completed v = false -> def v <> None ->
  exists t k, live_node w v = Some t /\ def v = Some k /\ tools (agent w) !! k = Some t.
Proof.
  intros HI Hg Hi Hc Hd. destruct HI as [_ _ _ _ _ _ _ _ H9]. rewrite Hg in H9.
  destruct H9 as (_ & _ & [R1 R2 R3] & _). destruct (def v) as [k|] eqn:Ek; [|done].
  assert (Hpos : 0 < held (invs (batch w)) k).
  { unfold held. pose proof (fsum_in (uses k) (invs (batch w)) v) as E. unfold uses in E at 1.
    rewrite Hc, Ek in E. rewrite bool_decide_eq_true_2 in E by done. cbn in E.
    enough (1 <= fsum (uses k) (invs (batch w)))%nat by lia.
    apply E, list_elem_of_In. by eapply list_elem_of_lookup_2. }
  destruct (R3 k) as [_ Hk]. destruct (lookup_lt_is_Some_2 _ _ (Hk Hpos)) as [t Ht].
  exists t, k. split_and!; [|done|done]. unfold live_node. rewrite Ek. cbn. rewrite Ht. cbn.
  destruct (freed t) eqn:Ef; [|done]. destruct (R2 k t Ht) as [_ N2 _ _ _].
  destruct (N2 Ef). lia.
Qed.

Lemma hand_facts w s i v x : Inv (Some i) x w s -> invs (batch w) !! i = Some v ->
  rl_timer v = false /\ gate v = None /\ awaiting_perm v = false /\ started v = false /\
  completed v = false /\ timer v = false /\ fsum (carries i) s = 0%nat.
Proof.
  intros HI Hi. destruct (i_calls _ _ _ _ HI i v Hi) as [T1 _ T3 _].
  unfold parked, in_hand in T1. rewrite bool_decide_eq_true_2 in T1 by done.
  destruct (rl_timer v), (gate v), (awaiting_perm v), (started v), (completed v); cbn in T1; try lia.
  split_and!; try done; [|lia]. destruct (timer v); [|done]. by destruct T3.
Qed.

Lemma hand_ready w s i v x : Inv (Some i) x w s -> invs (batch w) !! i = Some v -> ready (Some i) i v.
Proof. intros HI Hi. split; [by eapply hand_facts|by left]. Qed.

Lemma in_hand_other i j : j <> i -> in_hand None j = in_hand (Some i) j.
Proof. intros. unfold in_hand. by rewrite !bool_decide_eq_false_2 by congruence. Qed.

Lemma steps_run_invoke o w i v x s :
  Inv (Some i) x w s -> agent_gone (agent w) = false -> invs (batch w) !! i = Some v ->
  def v <> None -> steps x s (run_invoke env o w i).
Proof.
  intros HI Hg Hi Hd. destruct (hand_facts _ _ _ _ _ HI Hi) as (A1 & A2 & A3 & A4 & A5 & A6 & A7).
  destruct (open_alive _ _ _ _ _ _ HI Hi A5) as [Hp Hf].
  destruct (live_node_ok _ _ _ _ _ _ HI Hg Hi A5 Hd) as (t & k & Hn & _ & _).
  unfold run_invoke. eapply on_inv_ok; [done..|]. rewrite Hg, Hn.
  set (b := (0 <? timeout_ms v) && negb (timer v) && has_timers env). unfold steps. cbn [fst snd app].
  set (w' := if b then _ else w).
  assert (E : exists f, (f = set_started \/ f = fun v => set_started (set_timer v (timer_ok o))) /\
    note (upd set_started i (set_pending w' (S (pending (batch w'))))) (EvInvoke i)
    = note (upd f i (set_pending w (S (pending (batch w))))) (EvInvoke i)).
  { subst w'. destruct b; [|exists set_started; split; [by left|done]].
    exists (fun v => set_started (set_timer v (timer_ok o))). split; [by right|].
    unfold upd. wcbn. by rewrite list_alter_alter_eq. }
  destruct E as (f & Hfs & ->). apply inv_note; [done|].
  pose proof (push_hold FRelease _ _ _ _ I (inv_hold _ _ _ _ HI Hg Hp) Hg) as HI'.
  assert (F : forall v, completed (f v) = completed v /\ def (f v) = def v /\ gate (f v) = gate v /\
    rl_timer (f v) = rl_timer v /\ awaiting_perm (f v) = awaiting_perm v /\ started (f v) = true)
    by (intros u; by destruct Hfs as [-> | ->]).
  destruct (F v) as (F1 & F2 & F3 & F4 & F5 & F6).
  apply (inv_upd' f i v (Some i) None x _ (FRelease :: s) [FCallback (CbInvoke i)]); try done.
  - by repeat constructor.
  - by repeat constructor.
  - intros j Hj. split_and!; try done. by apply in_hand_other.
  - constructor; cbn [app fsum carries is_gate_run].
    + unfold parked. rewrite F1, F3, F4, F5, F6, A1, A2, A3, A7. done.
    + rewrite F3, A2. done.
    + rewrite F1, F6. done.
    + rewrite F2. done.
Qed.

Lemma steps_permission o w i v x s :
  Inv (Some i) x w s -> agent_gone (agent w) = false -> invs (batch w) !! i = Some v ->
  def v <> None -> steps x s (permission_gate env o w i).
Proof.
  intros HI Hg Hi Hd. destruct (hand_facts _ _ _ _ _ HI Hi) as (A1 & A2 & A3 & A4 & A5 & A6 & A7).
  destruct (open_alive _ _ _ _ _ _ HI Hi A5) as [Hp Hf].
  destruct (live_node_ok _ _ _ _ _ _ HI Hg Hi A5 Hd) as (t & k & Hn & _ & _).
  pose proof (hand_ready _ _ _ _ _ HI Hi) as Hr.
  unfold permission_gate. eapply on_inv_ok; [done..|]. rewrite Hg, Hn.
  case_if; [by eapply steps_run_invoke|].
  case_if; [case_if; [by eapply steps_run_invoke|by eapply steps_fail; [done|by left|..]]|].
  case_if; [by eapply steps_fail; [done|by left|..]|]. unfold steps. cbn [fst snd].
  eapply (inv_upd' _ i v (Some i) None x w s [FCallback (CbPermission i)]); try done.
  - by repeat constructor.
  - by repeat constructor.
  - intros j Hj. split_and!; try done. by apply in_hand_other.
  - constructor; cbn; try done.
    + unfold parked. cbn. by rewrite A1, A2, A4, A5, A7.
    + by rewrite A2.
    + by rewrite A6.
Qed.

Lemma gate_fresh (gs : list clm_tool_gate) (x : clm_tool_gate) (y : clm_tool_gate) k :
  (gs ++ [x]) !! k = Some y <-> gs !! k = Some y \/ (k = length gs /\ x = y).
Proof.
  rewrite lookup_app_Some, list_lookup_singleton_Some. split.
  - intros [?|(H1 & H2 & ->)]; [by left|right]. split; [lia|done].
  - intros [?|[-> ->]]; [by left|right]. split; [lia|]. split; [lia|done].
Qed.

Lemma steps_gate_run o w i v x s :
  Inv (Some i) x w s -> agent_gone (agent w) = false -> invs (batch w) !! i = Some v ->
  def v <> None -> steps x s (gate_run env o w i).
Proof.
  intros HI Hg Hi Hd. destruct (hand_facts _ _ _ _ _ HI Hi) as (A1 & A2 & A3 & A4 & A5 & A6 & A7).
  destruct (open_alive _ _ _ _ _ _ HI Hi A5) as [Hp Hf].
  unfold gate_run. eapply on_inv_ok; [done..|]. rewrite Hg.
  case_if; [by eapply steps_permission|]. unfold steps. cbn [fst snd].
  assert (Hnew : forall k, gates w !! k = Some (GInv i) -> False).
  { intros k Hk. destruct (i_gates _ _ _ _ HI k i Hk) as (u & Hu & Hgu). congruence. }
  eapply (inv_upd _ i v _ (Some i) None x w s [FCallback (CbHook _)]); try done.
  - by repeat constructor.
  - by repeat constructor.
  - intros j Hj. split_and!; try done. by apply in_hand_other.
  - intros j k Hj. rewrite gate_fresh. split; [|by left]. intros [?|[_ E']]; [done|]. congruence.
  - intros k. rewrite gate_fresh. intros [Hk|[-> _]]; [by destruct (Hnew k)|done].
  - constructor; cbn; try done.
    + unfold parked. cbn. by rewrite A1, A3, A4, A5, A7.
    + intros k [= <-]. rewrite gate_fresh. by right.
    + by rewrite A6.
Qed.

Lemma steps_dispatch_tool o w i v x s :
  Inv (Some i) x w s -> agent_gone (agent w) = false -> invs (batch w) !! i = Some v ->
  steps x s (dispatch_tool env o w i).
Proof.
  intros HI Hg Hi. destruct (hand_facts _ _ _ _ _ HI Hi) as (A1 & A2 & A3 & A4 & A5 & A6 & A7).
  destruct (open_alive _ _ _ _ _ _ HI Hi A5) as [Hp Hf].
  unfold dispatch_tool. eapply on_inv_ok; [done..|]. destruct (def v) eqn:Ed.
  - eapply steps_gate_run; [done..|congruence].
  - eapply steps_fail; [done|by left|done|]. by eapply hand_ready.
Qed.

(** ** Frames that carry a call *)

Lemma frame_lt w (f : frame) s h x : Inv h x w (f :: s) ->
  match f with
  | FDispatchTool i | FGateRun i | FRecord i _ _ _ =>
      exists v, invs (batch w) !! i = Some v
  | _ => True
  end.
Proof.
  intros [_ _ _ _ _ H6 _ _ _]. inversion H6 as [|? ? Hf _]; subst.
  destruct f; try done; by apply lookup_lt_is_Some_2.
Qed.

Lemma hand_carry i j : (b2n (i =? j)%nat + in_hand None j = 0 + in_hand (Some i) j)%nat.
Proof.
  unfold in_hand. destruct (Nat.eqb_spec i j) as [->|Hne].
  - by rewrite (bool_decide_eq_true_2 (Some j = Some j)).
  - by rewrite !bool_decide_eq_false_2 by congruence.
Qed.

Lemma pop_dispatch_tool i x w s : Inv None x w (FDispatchTool i :: s) ->
  Inv (Some i) x w s /\ agent_gone (agent w) = false /\ exists v, invs (batch w) !! i = Some v.
Proof.
  intros H1. pose proof (not_gone _ _ _ _ _ H1 I) as Hg. split_and!; [|done|exact (frame_lt _ _ _ _ _ H1)].
  apply (inv_swap [FDispatchTool i] [] None (Some i) x x w s H1 Hg); try done.
  - intros j _. cbn. pose proof (hand_carry i j). lia.
  - right. intros j. cbn. lia.
Qed.

Lemma pop_gate_run i x w s : Inv None x w (FGateRun i :: s) ->
  Inv (Some i) x w s /\ agent_gone (agent w) = false /\
  exists v, invs (batch w) !! i = Some v /\ def v <> None.
Proof.
  intros H1. pose proof (not_gone _ _ _ _ _ H1 I) as Hg. split_and!; [|done|].
  - apply (inv_swap [FGateRun i] [] None (Some i) x x w s H1 Hg); try done.
    + intros j _. cbn. pose proof (hand_carry i j). lia.
    + right. intros j. cbn. lia.
  - destruct (frame_lt _ _ _ _ _ H1) as [v Hv]. exists v. split; [done|]. intros Hd.
    destruct (i_calls _ _ _ _ H1 i v Hv) as [_ _ _ T4]. destruct (T4 Hd) as (_ & _ & _ & E).
    cbn in E. rewrite Nat.eqb_refl in E. cbn in E. lia.
Qed.

Lemma push_callback cb h x w s : Inv h x w s -> agent_gone (agent w) = false ->
  Inv h x w (FCallback cb :: s).
Proof.
  intros HI Hg. apply (inv_swap [] [FCallback cb] h h x x w s HI Hg); try done.
  - by repeat constructor.
  - right. intros i. cbn. lia.
  - by repeat constructor.
Qed.

Lemma push_gate_run i v x w s : Inv (Some i) x w s -> agent_gone (agent w) = false ->
  invs (batch w) !! i = Some v -> def v <> None -> Inv None x w (FGateRun i :: s).
Proof.
  intros HI Hg Hi Hd. destruct HI as [H1 H2 H3 H4 H5 H6 H7 H8 H9].
  pose proof (no_build (Some i) x w s i v ltac:(by constructor) Hi) as Hnb.
  constructor; cbn [fsum]; try done.
  - intros j u Hj. destruct (H4 j u Hj) as [T1 T2 T3 T4]. constructor; cbn [fsum carries is_gate_run]; try done.
    + pose proof (hand_carry i j). lia.
    + intros Hdu. destruct (T4 Hdu) as (? & ? & ? & ?). split_and!; try done.
      destruct (Nat.eqb_spec i j) as [->|]; [congruence|done].
  - constructor; [by eapply lookup_lt_Some|done].
  - destruct H7 as [H7 _]. split; [done|]. intros a c [?|Hin]; [done|]. by destruct (Hnb a c).
  - rewrite Hg in *. exact H9.
Qed.

Lemma steps_dispatch_one w i v x s :
  Inv (Some i) x w s -> agent_gone (agent w) = false -> invs (batch w) !! i = Some v ->
  steps x s (dispatch_one w i).
Proof.
  intros HI Hg Hi. destruct (hand_facts _ _ _ _ _ HI Hi) as (A1 & A2 & A3 & A4 & A5 & A6 & A7).
  destruct (open_alive _ _ _ _ _ _ HI Hi A5) as [Hp Hf].
  unfold dispatch_one. rewrite Hg. eapply on_inv_ok; [done..|]. unfold steps. cbn [fst snd app].
  apply push_callback; [|done].
  apply (inv_swap [] [FDispatchTool i] (Some i) None x x w s HI Hg); try done.
  - intros j _. cbn. pose proof (hand_carry i j). lia.
  - by repeat constructor.
  - left. by eapply no_build.
  - constructor; [by eapply lookup_lt_Some|constructor].
Qed.

(** Appending the rest of a loop. *)
Lemma steps_then x f s r : steps x (f :: s) r -> steps x s (then_ r f).
Proof. unfold steps, then_. cbn [fst snd]. by rewrite <- app_assoc. Qed.

Lemma steps_dispatch o w i s : Inv None 0 w (FDispatch i :: s) ->
  steps 0 s (dispatch_loop env o w i).
Proof.
  intros HI. pose proof (not_gone _ _ _ _ _ HI I) as Hg.
  assert (Hf : batch_freed (batch w) = false).
  { destruct HI as [_ H2 H3 _ _ _ _ _ _]. cbn in *. destruct (batch_freed (batch w)); [|done].
    destruct (pending (batch w) =? 0)%nat eqn:E0; bool_facts; cbn in H3; lia. }
  unfold dispatch_loop. rewrite Hf, Hg. cbn [orb]. case_if.
  - apply release_ok; [|done].
    apply (inv_swap [FDispatch i] [] None None 0 1 w s HI Hg); try done.
    + intros j Hj. cbn. destruct (Nat.leb_spec i j); [lia|done].
    + right. intros j. cbn. lia.
  - assert (HI' : Inv (Some i) 0 w (FDispatch (S i) :: s)).
    { apply (inv_swap [FDispatch i] [FDispatch (S i)] None (Some i) 0 0 w s HI Hg); try done.
      - intros j Hj. cbn [fsum carries]. pose proof (hand_carry i j).
        destruct (Nat.eqb_spec i j), (Nat.leb_spec i j), (Nat.leb_spec (S i) j); cbn in *; lia.
      - by repeat constructor.
      - right. intros j. cbn [fsum carries is_gate_run].
        destruct (Nat.leb_spec i j), (Nat.leb_spec (S i) j); cbn; lia.
      - by repeat constructor. }
    destruct (lookup_lt_is_Some_2 (invs (batch w)) i) as [v Hi]; [lia|].
    destruct (clm_ratelimit_allow _ _ _) as [ok rl].
    assert (Hone : forall r, steps 0 (FDispatch (S i) :: s) (dispatch_one (set_rl w r) i)).
    { intros r. eapply steps_dispatch_one; [by apply inv_rl|done..]. }
    case_if.
    { specialize (Hone rl). apply steps_then in Hone. by destruct (dispatch_one (set_rl w rl) i). }
    destruct (clm_ratelimit_delay _ _ _) as [us rl2]. case_if.
    + unfold steps. cbn [fst snd app]. apply inv_note; [done|].
      destruct (hand_facts _ _ _ _ _ HI' Hi) as (A1 & A2 & A3 & A4 & A5 & A6 & A7).
      apply (inv_upd' _ i v (Some i) None 0 (set_rl (set_rl w rl) rl2) _ []); try done.
      * by apply inv_rl, inv_rl.
      * intros j Hj. split_and!; try done. by apply in_hand_other.
      * destruct (i_calls _ _ _ _ HI' i v Hi) as [T1 T2 T3 T4]. constructor; try done.
        unfold parked. cbn [app rl_timer gate awaiting_perm started completed set_rl_timer].
        by rewrite A2, A3, A4, A5, A7.
    + change (set_rl (set_rl (set_rl w rl) rl2)) with (set_rl w).
      set (r := clm_ratelimit_consume _ _ _). specialize (Hone r). apply steps_then in Hone.
      by destruct (dispatch_one (set_rl w r) i).
Qed.

(** ** Leaving a parking place *)

Lemma unpark f i v x w s :
  Inv None x w s -> agent_gone (agent w) = false -> invs (batch w) !! i = Some v ->
  parked v = 1%nat -> parked (f v) = 0%nat ->
  completed (f v) = completed v /\ def (f v) = def v /\ gate (f v) = gate v /\
  timer (f v) = timer v /\ started (f v) = started v ->
  (awaiting_perm (f v) = true -> awaiting_perm v = true) ->
  Inv (Some i) x (upd f i w) s.
Proof.
  intros HI Hg Hi Hp Hp' (F1 & F2 & F3 & F4 & F5) F6.
  apply (inv_upd' f i v None (Some i) x w s []); try done.
  - intros j Hj. split_and!; try done. symmetry. by apply in_hand_other.
  - destruct (i_calls _ _ _ _ HI i v Hi) as [T1 T2 T3 T4].
    constructor; cbn [app]; rewrite ?F1, ?F2, ?F3, ?F4, ?F5; try done.
    + unfold in_hand in *. rewrite bool_decide_eq_true_2 by done.
      rewrite bool_decide_eq_false_2 in T1 by done. cbn in *. lia.
    + intros Hd. destruct (T4 Hd) as (? & ? & ? & ?). split_and!; try done.
      destruct (awaiting_perm (f v)); [|done]. by rewrite F6 in *.
Qed.

(** What a parking place says of the call. *)
Lemma parked_facts h x w s i v : Inv h x w s -> invs (batch w) !! i = Some v ->
  rl_timer v = true \/ awaiting_perm v = true \/ gate v <> None ->
  parked v = 1%nat /\ started v = false /\ completed v = false.
Proof.
  intros HI Hi Hp. destruct (i_calls _ _ _ _ HI i v Hi) as [T1 _ _ _]. unfold parked in *.
  destruct (rl_timer v), (awaiting_perm v), (gate v), (started v), (completed v);
    cbn in *; try lia; try done; destruct Hp as [?|[?|?]]; try done; lia.
Qed.

Lemma unpark_rl i v x w s : Inv None x w s -> agent_gone (agent w) = false ->
  invs (batch w) !! i = Some v -> rl_timer v = true ->
  Inv (Some i) x (upd (fun v => set_rl_timer v false) i w) s.
Proof.
  intros HI Hg Hi Hr. destruct (parked_facts _ _ _ _ _ _ HI Hi) as [P1 [P2 P3]]; [by left|].
  apply (unpark _ i v); try done. unfold parked in *. cbn. rewrite Hr, P2, P3 in *. cbn in *. lia.
Qed.

Lemma unpark_perm i v x w s : Inv None x w s -> agent_gone (agent w) = false ->
  invs (batch w) !! i = Some v -> awaiting_perm v = true ->
  Inv (Some i) x (upd (fun v => set_awaiting v false) i w) s.
Proof.
  intros HI Hg Hi Hr. destruct (parked_facts _ _ _ _ _ _ HI Hi) as [P1 [P2 P3]]; [by right; left|].
  apply (unpark _ i v); try done. unfold parked in *. cbn. rewrite Hr, P2, P3 in *. cbn in *. lia.
Qed.

Lemma gate_insert (gs : list clm_tool_gate) g k y i : (forall j, y <> GInv j) ->
  <[g := y]> gs !! k = Some (GInv i) <-> k <> g /\ gs !! k = Some (GInv i).
Proof.
  intros Hy. rewrite list_lookup_insert_Some. split.
  - intros [(_ & E & _)|[? ?]]; [by destruct (Hy i)|]. split; [lia|done].
  - intros [? ?]. right. split; [lia|done].
Qed.

Lemma unpark_gate y i g v x w s : Inv None x w s -> agent_gone (agent w) = false ->
  invs (batch w) !! i = Some v -> gate v = Some g -> (forall j, y <> GInv j) ->
  Inv (Some i) x
    (upd (fun v => set_gate v None (gate_next v)) i (set_gates w (<[g := y]> (gates w)))) s.
Proof.
  intros HI Hg Hi Hr Hy. destruct (parked_facts _ _ _ _ _ _ HI Hi) as [P1 [P2 P3]]; [by right; right; rewrite Hr|].
  apply (inv_upd _ i v _ None (Some i) x w s []); try done.
  - intros j Hj. split_and!; try done. symmetry. by apply in_hand_other.
  - intros j k Hj. rewrite gate_insert by done. split; [by intros [_ ?]|]. intros Hk. split; [|done].
    intros ->. destruct (i_gates _ _ _ _ HI g j Hk) as (u & Hu & Hgu).
    destruct (i_calls _ _ _ _ HI i v Hi) as [_ T2 _ _]. specialize (T2 g Hr). congruence.
  - intros k. rewrite gate_insert by done. intros [Hk1 Hk2].
    destruct (i_gates _ _ _ _ HI k i Hk2) as (u & Hu & Hgu). congruence.
  - destruct (i_calls _ _ _ _ HI i v Hi) as [T1 T2 T3 T4].
    constructor; cbn [app]; try done.
    + unfold in_hand in *. rewrite bool_decide_eq_true_2 by done.
      rewrite bool_decide_eq_false_2 in T1 by done. unfold parked in *. cbn in *. rewrite Hr in *.
      cbn in *. lia.
    + intros Hd. destruct (T4 Hd) as (? & ? & ? & ?). by split_and!.
Qed.

Lemma gate_def h x w s i v : Inv h x w s -> invs (batch w) !! i = Some v ->
  awaiting_perm v = true \/ gate v <> None -> def v <> None.
Proof.
  intros HI Hi Hp Hd. destruct (i_calls _ _ _ _ HI i v Hi) as [_ _ _ T4].
  destruct (T4 Hd) as (T5 & T6 & _). destruct Hp; congruence.
Qed.

Lemma upd_lookup f i w v : invs (batch w) !! i = Some v -> invs (batch (upd f i w)) !! i = Some (f v).
Proof. intros Hi. cbn. by rewrite list_lookup_alter_eq, Hi. Qed.

(** ** Calls from outside *)

Lemma steps_rl_timer o w i v x s : Inv None x w s -> agent_gone (agent w) = false ->
  invs (batch w) !! i = Some v -> rl_timer v = true -> steps x s (on_rl_timer o w i).
Proof.
  intros HI Hg Hi Hr. destruct (parked_facts _ _ _ _ _ _ HI Hi) as [P1 [P2 P3]]; [by left|].
  destruct (open_alive _ _ _ _ _ _ HI Hi P3) as [_ Hf].
  unfold on_rl_timer. eapply on_inv_ok; [done..|]. rewrite Hg.
  eapply (steps_dispatch_one _ i (set_rl_timer v false)).
  - by apply inv_rl, (unpark_rl i v).
  - done.
  - by apply (upd_lookup (fun v => set_rl_timer v false)).
Qed.

Lemma inv_tools h x w s r : Inv h x w s -> agent_gone (agent w) = false ->
  reg_ok r (held (invs (batch w))) -> Inv h x (set_tools w r) s.
Proof.
  intros [H1 H2 H3 H4 H5 H6 H7 H8 H9] Hg Hr. constructor; wcbn; try done.
  rewrite Hg in *. destruct H9 as (L1 & L2 & L3 & L4 & L5). by unfold live_ok.
Qed.

Lemma live_reg h x w s : Inv h x w s -> agent_gone (agent w) = false ->
  reg_ok (tools (agent w)) (held (invs (batch w))).
Proof. intros [_ _ _ _ _ _ _ _ H9] Hg. rewrite Hg in H9. by destruct H9 as (_ & _ & ? & _). Qed.

Lemma steps_permission_respond o w i v d x s : Inv None x w s -> agent_gone (agent w) = false ->
  invs (batch w) !! i = Some v -> batch_freed (batch w) = false ->
  steps x s (clm_tool_permission_respond env o w i d).
Proof.
  intros HI Hg Hi Hf. unfold clm_tool_permission_respond. eapply on_inv_ok; [done..|].
  destruct (awaiting_perm v) eqn:Ea; cbn [negb]; [|done]. rewrite Hg.
  assert (Hd : def v <> None) by (eapply gate_def; [done..|by left]).
  pose proof (unpark_perm i v x w s HI Hg Hi Ea) as HI'.
  pose proof (upd_lookup (fun v => set_awaiting v false) i w v Hi) as Hi'.
  set (w1 := upd _ i w) in *. assert (Hg1 : agent_gone (agent w1) = false) by done. clearbody w1.
  apply (inv_note _ _ _ _ (EvAnswer i d) I) in HI'.
  assert (HI2 : Inv (Some i) x (if is_always d
    then set_tools (note w1 (EvAnswer i d))
           (remember (tools (agent (note w1 (EvAnswer i d)))) (name v) (is_allow d))
    else note w1 (EvAnswer i d)) s).
  { case_if; [|done]. apply inv_tools; [done..|]. apply remember_ok. by eapply live_reg. }
  set (w2 := if is_always d then _ else _) in *.
  assert (E2 : invs (batch w2) = invs (batch w1) /\ agent_gone (agent w2) = false)
    by (subst w2; by destruct (is_always d)).
  destruct E2 as [E2 E3]. rewrite <- E2 in Hi'. clearbody w2.
  case_if; [by eapply steps_run_invoke|]. eapply steps_fail; [done|by left|done|]. by eapply hand_ready.
Qed.

Lemma inv_gate_free h x w s g y z : Inv h x w s -> gates w !! g = Some y ->
  (forall j, y <> GInv j) -> (forall j, z <> GInv j) ->
  Inv h x (set_gates w (<[g := z]> (gates w))) s.
Proof.
  intros [H1 H2 H3 H4 H5 H6 H7 H8 H9] Hy Hn Hz. constructor; wcbn; try done.
  - intros i v Hv. destruct (H4 i v Hv) as [T1 T2 T3 T4]. constructor; try done.
    intros k Hk. apply gate_insert; [done|]. specialize (T2 k Hk). split; [|done].
    intros ->. rewrite Hy in T2. injection T2 as E. by destruct (Hn i).
  - intros k j. rewrite gate_insert by done. intros [_ Hk]. by apply H5.
Qed.

Lemma steps_gate_respond o w g vd r na x s : Inv None x w s ->
  gates w !! g = Some GNone \/ (exists i, gates w !! g = Some (GInv i)) /\ agent_gone (agent w) = false ->
  steps x s (clm_tool_gate_respond env o w g vd r na).
Proof.
  intros HI Hgt. unfold clm_tool_gate_respond.
  destruct Hgt as [Hgn|[[i Hgi] Hg]].
  { rewrite Hgn. by apply (inv_gate_free _ _ _ _ _ GNone). }
  rewrite Hgi. destruct (i_gates _ _ _ _ HI g i Hgi) as (v & Hi & Hgv).
  assert (Hd : def v <> None) by (eapply gate_def; [done..|right; by rewrite Hgv]).
  destruct (parked_facts _ _ _ _ _ _ HI Hi) as [P1 [P2 P3]]; [by right; right; rewrite Hgv|].
  destruct (open_alive _ _ _ _ _ _ HI Hi P3) as [_ Hf].
  eapply on_inv_ok; [done..|].
  pose proof (unpark_gate GFreed i g v x w s HI Hg Hi Hgv ltac:(done)) as HI'.
  pose proof (upd_lookup (fun v => set_gate v None (gate_next v)) i
    (set_gates w (<[g:=GFreed]> (gates w))) v Hi) as Hi'.
  set (w1 := upd _ i _) in *. assert (Hg1 : agent_gone (agent w1) = false) by done. clearbody w1.
  apply (inv_note _ _ _ _ (EvHook i vd) I) in HI'.
  assert (HI2 : exists w2 v2, w2 = match na with
      | Some a => upd (fun v => set_args v a) i (note w1 (EvHook i vd))
      | None => note w1 (EvHook i vd) end /\
    Inv (Some i) x w2 s /\ agent_gone (agent w2) = false /\ invs (batch w2) !! i = Some v2 /\
    def v2 <> None).
  { destruct na as [a|].
    - eexists _, (set_args (set_gate v None (gate_next v)) a). split; [reflexivity|].
      split; [by eapply inv_mute|]. split; [done|]. split; [|done].
      by apply (upd_lookup (fun v => set_args v a) i (note w1 (EvHook i vd))).
    - eexists _, (set_gate v None (gate_next v)). split; [reflexivity|]. by split_and!. }
  destruct HI2 as (w2 & v2 & <- & HI2 & Hg2 & Hi2 & Hd2). rewrite Hg2.
  destruct vd.
  - unfold steps. cbn [fst snd]. assert (Inv None x w2 (FGateRun i :: s)) by (by eapply push_gate_run).
    destruct r; [by apply push_callback|done].
  - eapply steps_fail; [by apply inv_denial|by left|done|]. by eapply hand_ready.
  - unfold steps. cbn [fst snd app].
    set (q := match ask_reason v with None => r | r0 => r0 end).
    eapply (push_gate_run i (set_ask v2 q)); [by eapply inv_mute|done| |done].
    by apply (upd_lookup (fun v => set_ask v q)).
Qed.

Lemma steps_on_timeout o w i v x s : Inv None x w s -> agent_gone (agent w) = false ->
  invs (batch w) !! i = Some v -> timer v = true -> steps x s (on_timeout env o w i).
Proof.
  intros HI Hg Hi Ht. destruct (i_calls _ _ _ _ HI i v Hi) as [_ _ T3 _]. destruct (T3 Ht) as [Hs Hc].
  destruct (open_alive _ _ _ _ _ _ HI Hi Hc) as [_ Hf].
  unfold on_timeout. eapply on_inv_ok; [done..|]. rewrite Hc.
  assert (HI' : Inv None x (upd set_timed_out i w) s) by (by eapply inv_mute).
  pose proof (upd_lookup set_timed_out i w v Hi) as Hi'. case_if.
  - by apply push_callback.
  - eapply steps_timeout; [done|by left|done|]. split; [done|by right].
Qed.

(** ** The rest of [inv_finalize] *)

Lemma steps_record w i out oc att s : Inv None 0 w (FRecord i out oc att :: s) ->
  steps 0 s (finalize_record fnmatch env w i out oc att).
Proof.
  intros HI. pose proof (not_gone _ _ _ _ _ HI I) as Hg.
  destruct (frame_lt _ _ _ _ _ HI) as [v Hi].
  pose proof (no_build _ _ _ _ _ _ HI Hi) as Hnb.
  destruct HI as [H1 H2 H3 H4 H5 H6 H7 H8 H9]. rewrite Hg in *.
  destruct H9 as (L1 & L2 & L3 & L4 & L5). cbn [fsum frame_holds closes is_build is_detach] in *.
  assert (Hf : batch_freed (batch w) = false).
  { destruct (batch_freed (batch w)); [|done].
    destruct (pending (batch w) =? 0)%nat eqn:E0; bool_facts; cbn in H3; lia. }
  unfold finalize_record. rewrite Hg. eapply on_inv_ok; [done..|].
  unfold steps. cbn [fst snd app]. apply push_callback; [|done]. apply push_hold; [done| |done].
  set (hh := match att with Some _ => _ | None => _ end).
  constructor; wcbn; rewrite ?Hg; try done.
  - lia.
  - intros j u Hj. destruct (H4 j u Hj) as [T1 T2 T3 T4]. by constructor.
  - by inversion H6.
  - destruct H7 as [H7 _]. split; [done|]. intros a c Hin. destruct (Hnb a c). by right.
  - unfold live_ok. wcbn. split_and!; try done. intros j u Hj. specialize (L5 j u Hj).
    cbn [fsum is_record is_result_ev] in *. lia.
Qed.

Lemma inv_add_done h x w s : Inv h x w s -> Inv h x (add_done w) s.
Proof.
  intros [H1 H2 H3 H4 H5 H6 H7 H8 H9]. constructor; wcbn; try done.
Qed.

Lemma steps_done w s : Inv None 0 w (FDone :: s) -> steps 0 s (finalize_done w).
Proof.
  intros HI. destruct (pop_hold FDone None 0 w s I HI) as (HI' & Hg & Hf).
  unfold finalize_done. rewrite Hf, Hg. unfold steps. cbn [orb fst snd app].
  apply push_callback; [|done]. apply push_hold; [done| |done]. by apply inv_add_done.
Qed.

Lemma steps_batch_free w s : Inv None 0 w (FBatchFree :: s) -> steps 0 s (batch_free_timers w, []).
Proof.
  intros HI. pose proof (not_gone _ _ _ _ _ HI I) as Hg.
  destruct HI as [H1 H2 H3 H4 H5 H6 H7 H8 H9]. rewrite Hg in *.
  destruct H9 as (L1 & L2 & L3 & L4 & L5). cbn [fsum frame_holds closes is_build is_detach] in *.
  assert (Hp : pending (batch w) = 0%nat /\ batch_freed (batch w) = false).
  { destruct (pending (batch w) =? 0)%nat eqn:E0; bool_facts; cbn in H3; [|lia].
    split; [done|]. destruct (batch_freed (batch w)); [cbn in H3; lia|done]. }
  destruct Hp as [Hp Hf]. rewrite Hp, Hf in *. cbn in H3.
  unfold batch_free_timers, batch_really_free. rewrite Hf, Hg. wcbn. rewrite Hf.
  unfold steps. cbn [orb fst snd app]. wcbn.
  set (off := fun v => set_rl_timer (set_timer v false) false).
  assert (Hall : forall i v, invs (batch w) !! i = Some v -> completed v = true).
  { intros i v Hi. pose proof (fsum_in open_call (invs (batch w)) v) as E. unfold open_call in E at 1.
    destruct (completed v); [done|]. cbn in E.
    assert (1 <= fsum open_call (invs (batch w)))%nat; [|lia].
    apply E, list_elem_of_In. by eapply list_elem_of_lookup_2. }
  assert (Hsum : forall (g : clm_tool_invocation -> nat), (forall v, g (off v) = g v) ->
    fsum g (map off (invs (batch w))) = fsum g (invs (batch w))).
  { intros g Hgf. clear - Hgf. induction (invs (batch w)) as [|v l IH]; cbn; [done|]. by rewrite Hgf, IH. }
  constructor; wcbn; rewrite ?Hg, ?Hp, ?length_map; try done.
  - rewrite (Hsum open_call) by done. lia.
  - intros i u Hu. apply list_lookup_fmap_Some in Hu as (v & -> & Hi). specialize (H4 i v Hi).
    pose proof (Hall i v Hi) as Hc. destruct H4 as [T1 T2 T3 T4]. constructor; cbn; try done.
    cbn [fsum carries] in T1. unfold parked in *. cbn. rewrite Hc in *.
    destruct (rl_timer v); [|done]. rewrite orb_true_r in T1. cbn in T1. lia.
  - intros g i Hgi. destruct (H5 g i Hgi) as (v & Hi & Hgv). exists (off v). split; [|done].
    apply list_lookup_fmap_Some. eauto.
  - by inversion H6.
  - destruct H7 as [H7 H7']. split; [done|]. intros a c Hin. destruct (H7' a c (or_intror Hin)) as (E & ? & ?).
    by rewrite E.
  - unfold live_ok. wcbn. rewrite L2, Hp. split_and!; try done.
    + eapply reg_ok_ext; [|exact L3]. intros k. unfold held. by rewrite Hsum.
    + intros i u Hu. apply list_lookup_fmap_Some in Hu as (v & -> & Hi). exact (L5 i v Hi).
Qed.

(** ** Cancelling *)

Lemma steps_cancel_loop o w i s : Inv None 0 w (FCancel i :: s) -> steps 0 s (cancel_loop env o w i).
Proof.
  intros HI. destruct (pop_hold (FCancel i) None 0 w s I HI) as (HI1 & Hg & Hf).
  unfold cancel_loop. rewrite Hf, Hg. cbn [orb].
  destruct (invs (batch w) !! i) as [v|] eqn:Hi; [|by apply release_ok].
  assert (HI2 : Inv None 0 w (FCancel (S i) :: s)) by (by apply push_hold).
  destruct (completed v) eqn:Hc; [done|].
  destruct (rl_timer v) eqn:Er.
  { apply steps_then. pose proof (unpark_rl i v _ _ _ HI2 Hg Hi Er) as HI3.
    pose proof (upd_lookup (fun v => set_rl_timer v false) i w v Hi) as Hi3.
    eapply finalize_ok; [done..|]. by eapply hand_ready. }
  destruct (awaiting_perm v); [done|]. destruct (gate v) as [g|] eqn:Egt.
  { apply steps_then. pose proof (unpark_gate GNone i g v _ _ _ HI2 Hg Hi Egt ltac:(done)) as HI3.
    pose proof (upd_lookup (fun v => set_gate v None (gate_next v)) i
      (set_gates w (<[g:=GNone]> (gates w))) v Hi) as Hi3.
    eapply finalize_ok; [done..|]. by eapply hand_ready. }
  case_if; [|done]. by apply push_callback.
Qed.

Lemma steps_cancel w s x : Inv None x w s -> agent_gone (agent w) = false ->
  steps x s (clm_tools_cancel w).
Proof.
  intros HI Hg. unfold clm_tools_cancel. destruct (active_batch (agent w)) eqn:Ea; cbn [negb]; [|done].
  pose proof HI as [_ _ H3 _ _ _ _ _ H9]. rewrite Hg in H9. destruct H9 as (_ & L2 & _).
  rewrite Ea in L2. destruct (pending (batch w) =? 0)%nat eqn:E0; [done|]. cbn in H3.
  assert (Hf : batch_freed (batch w) = false) by (destruct (batch_freed (batch w)); [cbn in H3; lia|done]).
  rewrite Hf. bool_facts. apply push_hold; [done| |done]. by apply inv_hold.
Qed.

(** ** Freeing the agent *)

Lemma detach_ok w : Inv None 0 w [] -> agent_gone (agent w) = false ->
  steps 0 [] (clm_tools_detach w).
Proof.
  intros HI Hg. pose proof HI as [H1 H2 H3 H4 H5 H6 H7 H8 H9]. rewrite Hg in H9.
  destruct H9 as (L1 & L2 & L3 & L4 & L5). unfold clm_tools_detach. wcbn.
  destruct (active_batch (agent w)) eqn:Ea.
  - destruct (pending (batch w) =? 0)%nat eqn:E0; [done|]. cbn in H3.
    assert (Hf : batch_freed (batch w) = false) by (destruct (batch_freed (batch w)); [cbn in H3; lia|done]).
    rewrite Hf. unfold steps. cbn [fst snd app].
    constructor; wcbn; rewrite ?Hf, ?E0; try done.
    + cbn. by rewrite E0.
    + intros i v Hi. destruct (H4 i v Hi) as [T1 T2 T3 T4]. by constructor.
    + by repeat constructor.
    + split; [cbn; lia|]. intros a c [?|[]]; done.
    + by rewrite H8, L1.
    + unfold gone_ok. wcbn. split_and!; [done|by left|]. intros i v Hi. lia.
  - destruct (pending (batch w) =? 0)%nat eqn:E0; [|done]. bool_facts. rewrite E0 in *.
    unfold steps. cbn [fst snd app]. constructor; wcbn; rewrite ?E0; try done.
    unfold gone_ok. wcbn. split_and!; [done|by right|]. intros i v Hi.
    destruct (H4 i v Hi) as [T1 T2 T3 T4].
    assert (Hc : completed v = true).
    { pose proof (fsum_in open_call (invs (batch w)) v) as E. unfold open_call in E at 1.
      destruct (completed v); [done|]. cbn in E.
      assert (1 <= fsum open_call (invs (batch w)))%nat; [|lia].
      apply E, list_elem_of_In. by eapply list_elem_of_lookup_2. }
    unfold quiet, parked in *. rewrite Hc, orb_true_r in T1.
    destruct (timer v), (rl_timer v), (gate v), (awaiting_perm v); cbn in T1; try lia; try done.
    destruct T3; [done|congruence].
Qed.

(** The call at hand is made quiet; [r] says whether it is retired. *)
Lemma detach_one f r i v w (g' : list clm_tool_gate) :
  Inv None 0 w [FDetach i] -> agent_gone (agent w) = true -> invs (batch w) !! i = Some v ->
  completed v = false -> (pending (batch w) <> 0)%nat ->
  def (f v) = def v -> completed (f v) = r -> quiet (f v) -> started (f v) = started v ->
  (r = false -> started v = true) -> (r = true -> parked v = 1%nat) ->
  (forall j k, j <> i -> g' !! k = Some (GInv j) <-> gates w !! k = Some (GInv j)) ->
  (forall k, g' !! k <> Some (GInv i)) ->
  let w' := upd f i (set_gates w g') in
  Inv None 0 (if r then dec_pending w' else w') [FDetach (S i)].
Proof.
  intros HI Hg Hi Hc Hp Fd Fc (Q1 & Q2 & Q3 & Q4) Fs Hr0 Hr1 Hg1 Hg2 w'.
  destruct (open_alive _ _ _ _ _ _ HI Hi Hc) as [_ Hf].
  destruct HI as [H1 H2 H3 H4 H5 H6 H7 H8 H9]. rewrite Hg in *.
  destruct H9 as (L1 & [L2|L2] & L3); [|done].
  pose proof (fsum_alter open_call f i _ v Hi) as Eo. unfold open_call in Eo at 2 4.
  rewrite Hc, Fc in Eo. cbn in Eo, H2.
  assert (Hlk : forall j u, alter f i (invs (batch w)) !! j = Some u ->
    exists u', invs (batch w) !! j = Some u' /\ u = if (j =? i)%nat then f u' else u').
  { intros j u Hu. by apply (lookup_upd f i w j u). }
  assert (Hcalls : forall j u, alter f i (invs (batch w)) !! j = Some u ->
    call_ok [FDetach (S i)] None g' j u).
  { intros j u Hu. destruct (Hlk j u Hu) as (u' & Hu' & ->). specialize (H4 j u' Hu').
    destruct H4 as [T1 T2 T3 T4]. destruct (Nat.eqb_spec j i) as [->|Hne].
    - assert (u' = v) as -> by congruence.
      constructor; rewrite ?Q1, ?Q3, ?Q4, ?Fs, ?Fd; try done.
      + unfold parked in *. rewrite Q2, Q3, Q4, Fs, Fc. cbn in *. rewrite Hc in T1.
        destruct r; [rewrite orb_true_r; done|]. by rewrite Hr0 in *.
      + intros Hd. destruct (T4 Hd) as (? & ? & ? & ?). by split_and!.
    - constructor; try done. intros k Hk. by apply Hg1, T2. }
  assert (Hgates : forall g j, g' !! g = Some (GInv j) -> exists u,
    alter f i (invs (batch w)) !! j = Some u /\ gate u = Some g).
  { intros g j Hgj. destruct (decide (j = i)) as [->|Hne]; [by destruct (Hg2 g)|].
    apply Hg1 in Hgj; [|done]. rewrite list_lookup_alter_ne by done. by apply H5. }
  assert (Hq : forall j u, (j < S i)%nat -> alter f i (invs (batch w)) !! j = Some u -> quiet u).
  { intros j u Hj Hu. destruct (Hlk j u Hu) as (u' & Hu' & ->).
    destruct (Nat.eqb_spec j i) as [->|Hne]; [assert (u' = v) as -> by congruence; done|].
    apply (L3 j); [lia|done]. }
  assert (Hdone : fsum is_done_ev (log w) = 0%nat) by (by rewrite H8, L2).
  subst w'. destruct r; cbn [negb b2n] in Eo.
  - unfold dec_pending. constructor; wcbn; rewrite ?Hg, ?Hf, ?L2; cbn [fsum]; try done.
    + cbn. lia.
    + by repeat constructor.
    + split; [cbn; lia|]. intros a c [?|[]]; done.
    + unfold gone_ok. wcbn. auto.
  - constructor; wcbn; rewrite ?Hg, ?Hf, ?L2; cbn [fsum]; try done.
    + cbn. lia.
    + by repeat constructor.
    + split; [cbn; lia|]. intros a c [?|[]]; done.
    + unfold gone_ok. wcbn. auto.
Qed.

Lemma detach_alone h x w i s : Inv h x w (FDetach i :: s) -> agent_gone (agent w) = true /\ s = [].
Proof.
  intros [_ _ _ _ _ _ _ _ H9]. destruct (agent_gone (agent w)).
  - split; [done|]. destruct H9 as (_ & _ & H9). by destruct s.
  - destruct H9 as (_ & _ & _ & L4 & _). cbn in L4. lia.
Qed.

Lemma completed_quiet h w s i v : Inv None 0 w s -> invs (batch w) !! i = Some v ->
  call_ok s h (gates w) i v -> completed v = true -> quiet v.
Proof.
  intros _ _ [T1 T2 T3 T4] Hc. unfold quiet, parked in *. rewrite Hc, orb_true_r in T1.
  destruct (timer v), (rl_timer v), (gate v), (awaiting_perm v); cbn in T1; try lia; try done.
  destruct T3; [done|congruence].
Qed.

(** The loop moves on past a finished call. *)
Lemma detach_skip i v w : Inv None 0 w [FDetach i] -> agent_gone (agent w) = true ->
  invs (batch w) !! i = Some v -> quiet v -> pending (batch w) <> 0%nat \/ completed v = true ->
  Inv None 0 w [FDetach (S i)].
Proof.
  intros HI Hg Hi Hq Hp. destruct HI as [H1 H2 H3 H4 H5 H6 H7 H8 H9]. rewrite Hg in *.
  destruct H9 as (L1 & L2 & L3). constructor; rewrite ?Hg; try done.
  - intros j u Hj. destruct (H4 j u Hj) as [T1 T2 T3 T4]. by constructor.
  - by repeat constructor.
  - split; [cbn; lia|]. intros a c [?|[]]; done.
  - unfold gone_ok. split_and!; try done. intros j u Hj Hu.
    destruct (decide (j = i)) as [->|Hne]; [congruence|]. apply (L3 j); [lia|done].
Qed.

Lemma detach_callback cb i w : Inv None 0 w [FDetach i] -> agent_gone (agent w) = true ->
  Inv None 0 w [FCallback cb; FDetach i].
Proof.
  intros HI Hg. destruct HI as [H1 H2 H3 H4 H5 H6 H7 H8 H9]. rewrite Hg in *.
  destruct H9 as (L1 & L2 & L3). constructor; rewrite ?Hg; try done.
  - intros j u Hj. destruct (H4 j u Hj) as [T1 T2 T3 T4]. by constructor.
  - by repeat constructor.
  - split; [cbn; lia|]. intros a c [?|[?|[]]]; done.
Qed.

Lemma steps_detach_end w i : Inv None 0 w [FDetach i] -> agent_gone (agent w) = true ->
  invs (batch w) !! i = None -> batch_freed (batch w) = false ->
  Inv None 0 (if (pending (batch w) =? 0)%nat then batch_really_free w else w) [].
Proof.
  intros [H1 H2 H3 H4 H5 H6 H7 H8 H9] Hg Hi Hf. rewrite Hg in *. destruct H9 as (L1 & L2 & L3).
  assert (Hq : forall j u, invs (batch w) !! j = Some u -> quiet u).
  { intros j u Hu. apply (L3 j); [|done]. apply lookup_lt_Some in Hu. apply lookup_ge_None in Hi. lia. }
  unfold batch_really_free. rewrite Hf. destruct (pending (batch w) =? 0)%nat eqn:E0.
  - constructor; wcbn; rewrite ?Hg, ?E0; try done.
    + intros j u Hj. destruct (H4 j u Hj) as [T1 T2 T3 T4]. by constructor.
    + split; [cbn; lia|]. intros a c [].
  - constructor; wcbn; rewrite ?Hg, ?E0, ?Hf; try done.
    + intros j u Hj. destruct (H4 j u Hj) as [T1 T2 T3 T4]. by constructor.
    + split; [cbn; lia|]. intros a c [].
Qed.

Lemma detach_alive h x w i s : Inv h x w (FDetach i :: s) -> batch_freed (batch w) = false.
Proof.
  intros [_ _ H3 _ _ _ _ _ _]. cbn in H3. destruct (batch_freed (batch w)); [|done].
  destruct (pending (batch w) =? 0)%nat; cbn in H3; lia.
Qed.

Lemma steps_detach_loop w i s : Inv None 0 w (FDetach i :: s) -> steps 0 s (detach_loop w i).
Proof.
  intros HI. destruct (detach_alone _ _ _ _ _ HI) as [Hg ->]. pose proof (detach_alive _ _ _ _ _ HI) as Hf.
  unfold detach_loop. rewrite Hf. unfold steps.
  destruct (invs (batch w) !! i) as [v|] eqn:Hi; [|by apply (steps_detach_end w i)].
  pose proof (i_calls _ _ _ _ HI i v Hi) as Hok.
  destruct (completed v) eqn:Hc.
  { apply (detach_skip i v); try done; [|by right]. by eapply completed_quiet. }
  destruct (open_alive _ _ _ _ _ _ HI Hi Hc) as [Hp _].
  assert (Hno : forall k, gates w !! k = Some (GInv i) -> gate v = Some k).
  { intros k Hk. destruct (i_gates _ _ _ _ HI k i Hk) as (u & Hu & Hgu). congruence. }
  assert (Ht : rl_timer v = true \/ awaiting_perm v = true \/ gate v <> None ->
    parked v = 1%nat /\ started v = false /\ timer v = false).
  { intros Hpk. destruct (parked_facts _ _ _ _ _ _ HI Hi Hpk) as (P1 & P2 & _). split_and!; try done.
    destruct Hok as [_ _ T3 _]. destruct (timer v); [|done]. destruct T3; congruence. }
  assert (Eg : set_gates w (gates w) = w) by (by destruct w).
  destruct (rl_timer v) eqn:Er.
  { destruct Ht as (P1 & P2 & P3); [by left|]. cbn [fst snd app]. unfold retire.
    pose proof (detach_one (fun v => set_completed (set_rl_timer v false)) true i v w (gates w) HI Hg Hi Hc Hp) as D.
    cbv zeta in D. rewrite Eg in D. unfold upd in *. wcbn. rewrite list_alter_alter_eq. apply D; try done.
    - unfold quiet. cbn. unfold parked in P1. rewrite Er, P2, Hc in P1. cbn in P1.
      destruct (gate v), (awaiting_perm v); cbn in P1; try lia. done.
    - intros k Hk. apply Hno in Hk. unfold parked in P1. rewrite Er, Hk in P1. cbn in P1. lia. }
  destruct (gate v) as [g|] eqn:Egt.
  { destruct Ht as (P1 & P2 & P3); [by right; right|]. cbn [fst snd app]. unfold retire, leave_gate.
    pose proof (detach_one (fun v => set_completed (set_gate v None (gate_next v))) true i v w
      (<[g := GNone]> (gates w)) HI Hg Hi Hc Hp) as D.
    cbv zeta in D. unfold upd in *. wcbn. rewrite list_alter_alter_eq. apply D; try done.
    - unfold quiet. cbn. unfold parked in P1. rewrite Egt in P1. cbn in P1.
      destruct (awaiting_perm v); cbn in P1; [lia|done].
    - intros j k Hj. rewrite gate_insert by done. split; [by intros [_ ?]|]. intros Hk. split; [|done].
      intros ->. destruct Hok as [_ T2 _ _]. specialize (T2 g Egt). congruence.
    - intros k. rewrite gate_insert by done. intros [Hk1 Hk2]. apply Hno in Hk2. congruence. }
  destruct (awaiting_perm v) eqn:Ea.
  { destruct Ht as (P1 & P2 & P3); [by right; left|]. cbn [fst snd app]. unfold retire.
    pose proof (detach_one (fun v => set_completed (set_awaiting v false)) true i v w (gates w) HI Hg Hi Hc Hp) as D.
    cbv zeta in D. rewrite Eg in D. unfold upd in *. wcbn. rewrite list_alter_alter_eq. apply D; try done.
    intros k Hk. apply Hno in Hk. done. }
  assert (HI' : Inv None 0 (upd (fun v => set_timer v false) i w) [FDetach (S i)]).
  { pose proof (detach_one (fun v => set_timer v false) false i v w (gates w) HI Hg Hi Hc Hp) as D.
    cbv zeta in D. rewrite Eg in D. apply D; try done.
    - intros _. destruct Hok as [T1 _ _ _]. unfold parked in T1. rewrite Er, Egt, Ea, Hc in T1. cbn in T1.
      unfold in_hand in T1. rewrite bool_decide_eq_false_2 in T1 by done.
      destruct (started v); [done|cbn in T1; lia].
    - intros k Hk. apply Hno in Hk. done. }
  cbn [fst snd]. case_if; [|done]. by apply detach_callback.
Qed.

(** ** Building the batch *)

Definition fresh (v : clm_tool_invocation) : Prop :=
  quiet v /\ started v = false /\ completed v = false.

(** The parts of the world the building loop leaves alone. *)
Definition same_rest (w w' : world) : Prop :=
  agent_gone (agent w') = agent_gone (agent w) /\ active_batch (agent w') = active_batch (agent w) /\
  pending (batch w') = pending (batch w) /\ detached (batch w') = detached (batch w) /\
  batch_freed (batch w') = batch_freed (batch w) /\ gates w' = gates w /\ log w' = log w /\
  bad w' = bad w.

Lemma build_one_ok amsg w c : agent_gone (agent w) = false ->
  Forall fresh (invs (batch w)) -> reg_ok (tools (agent w)) (held (invs (batch w))) ->
  let w' := build_one parse env amsg w c in
  same_rest w w' /\ Forall fresh (invs (batch w')) /\
  length (invs (batch w')) = S (length (invs (batch w))) /\
  reg_ok (tools (agent w')) (held (invs (batch w'))).
Proof.
  intros Hg Hf Hr. destruct c as [[i n] a]. cbv zeta. unfold build_one.
  set (h1 := alter _ amsg _). destruct (find_tool _ n) as [k|] eqn:Ef;
    destruct (inv_compute_limits _ _ _) as [cap to]; wcbn; rewrite length_app, Nat.add_1_r;
    split_and!; try done; try (apply Forall_app; split; [done|]; by repeat constructor).
  - eapply pin_ok; [exact Hr|exact Ef|]. intros j. unfold held.
    rewrite fsum_app. unfold uses at 2. cbn.
    destruct (Nat.eqb_spec j k) as [->|Hne].
    + rewrite bool_decide_eq_true_2 by done. cbn. lia.
    + rewrite bool_decide_eq_false_2 by congruence. cbn. lia.
  - eapply reg_ok_ext; [|exact Hr]. intros j. unfold held. rewrite fsum_app. cbn.
    unfold uses at 2. cbn [def completed negb]. rewrite bool_decide_eq_false_2 by done. cbn. lia.
Qed.

Lemma build_ok amsg calls w : Forall is_Some calls -> agent_gone (agent w) = false ->
  Forall fresh (invs (batch w)) -> reg_ok (tools (agent w)) (held (invs (batch w))) ->
  let w' := build parse env amsg w calls in
  same_rest w w' /\ Forall fresh (invs (batch w')) /\
  length (invs (batch w')) = (length (invs (batch w)) + length calls)%nat /\
  reg_ok (tools (agent w')) (held (invs (batch w'))).
Proof.
  intros Hc. revert w. induction Hc as [|c calls Hs Hc IH]; intros w Hg Hf Hr.
  { cbn. rewrite Nat.add_0_r. by split_and!. }
  destruct Hs as [c' ->]. destruct (build_one_ok amsg w c' Hg Hf Hr) as (R & F & L & Rg).
  cbn [build fold_left length]. destruct (IH (build_one parse env amsg w c')) as (R' & F' & L' & Rg'); try done.
  { destruct R as (-> & _). done. }
  split_and!; [|done| |done].
  - unfold same_rest in *. destruct R as (-> & -> & -> & -> & -> & -> & -> & ->) in R'. exact R'.
  - unfold build in L'. rewrite L', L. lia.
Qed.

Lemma fresh_open l : Forall fresh l -> fsum open_call l = length l.
Proof.
  induction 1 as [|v l Hv _ IH]; cbn; [done|]. rewrite IH. unfold open_call.
  by destruct Hv as (_ & _ & ->).
Qed.

Lemma steps_build amsg calls w s : Inv None 0 w (FBuild amsg calls :: s) ->
  steps 0 s (build parse env amsg w calls, [FCallback CbMessage; FDispatch 0]).
Proof.
  intros HI. pose proof (not_gone _ _ _ _ _ HI I) as Hg.
  destruct HI as [H1 H2 H3 H4 H5 H6 H7 H8 H9]. rewrite Hg in *.
  destruct H9 as (L1 & L2 & L3 & L4 & L5). destruct H7 as [B1 B2].
  destruct (B2 amsg calls (or_introl eq_refl)) as (E & Hs & Hz). cbn [fsum is_build] in B1.
  assert (B0 : fsum is_build s = 0%nat) by lia.
  destruct (build_ok amsg calls w Hs Hg) as (R & F & L & Rg); [by rewrite E|done|].
  destruct R as (R1 & R2 & R3 & R4 & R5 & R6 & R7 & R8).
  rewrite E in L, H2, H6. unfold steps. cbn [fst snd app].
  set (w' := build parse env amsg w calls) in *. clearbody w'.
  cbn [fsum frame_holds closes is_detach length] in *.
  apply push_callback; [|by rewrite R1].
  assert (Hin : forall i v, invs (batch w') !! i = Some v -> fresh v).
  { intros i v Hi. eapply Forall_lookup_1; [exact F|exact Hi]. }
  assert (Hgt : forall g i, gates w !! g <> Some (GInv i)).
  { intros g i Hgi. destruct (H5 g i Hgi) as (u & Hu & _). by rewrite E in Hu. }
  constructor; rewrite ?R1, ?R2, ?R3, ?R4, ?R5, ?R6, ?R7, ?R8, ?Hg; cbn [fsum frame_holds]; try done.
  - rewrite fresh_open by done. lia.
  - intros i v Hi. destruct (Hin i v Hi) as ((Q1 & Q2 & Q3 & Q4) & Q5 & Q6).
    destruct (Hz i) as (Z1 & Z2 & Z3).
    constructor; rewrite ?Q1, ?Q3, ?Q4, ?Q5; try done.
    + unfold parked, in_hand. rewrite Q2, Q3, Q4, Q5, Q6, bool_decide_eq_false_2 by done.
      cbn [fsum carries] in *. cbn. lia.
  - intros g i Hgi. by destruct (Hgt g i).
  - constructor; [done|]. apply Forall_inv_tail in H6. eapply Forall_impl; [|exact H6].
    intros [] Hf; cbn in *; try done; lia.
  - split; [cbn; lia|]. intros a c [?|Hin']; [done|].
    pose proof (fsum_in is_build s _ Hin'). cbn in *. lia.
  - unfold live_ok. rewrite R2, R3, R4, R7. split_and!; try done.
    intros i v Hi. destruct (Hin i v Hi) as (_ & _ & ->). destruct (Hz i) as (_ & _ & Z3).
    cbn in *. lia.
Qed.

(** ** The machine *)

Abbreviation run_frame := (run_frame fnmatch parse env).
Abbreviation step := (step fnmatch parse env).
Abbreviation run := (run fnmatch parse env).

Lemma run_frame_ok o f w s : is_callback f = false -> Inv None 0 w (f :: s) ->
  steps 0 s (run_frame o f w).
Proof.
  intros Hf HI. destruct f; [done|..]; cbn [Tools.run_frame].
  - by apply steps_build.
  - by apply steps_dispatch.
  - destruct (pop_dispatch_tool _ _ _ _ HI) as (HI' & Hg & v & Hi). by eapply steps_dispatch_tool.
  - destruct (pop_gate_run _ _ _ _ HI) as (HI' & Hg & v & Hi & Hd). by eapply steps_gate_run.
  - by apply steps_record.
  - by apply steps_done.
  - destruct (pop_hold FRelease None 0 w s I HI) as (HI' & Hg & _). by apply release_ok.
  - by apply steps_batch_free.
  - by apply steps_cancel_loop.
  - by apply steps_detach_loop.
Qed.

(** Where the outside can be once the agent is gone: at the event loop, or in
    a cancel callback of [clm_tools_detach]. *)
Definition outside_gone (s : list frame) : Prop := s = [] \/ exists cb k, s = [FCallback cb; FDetach k].

Lemma gone_outside w s : Inv None 0 w s -> agent_gone (agent w) = true ->
  match s with [] | FCallback _ :: _ => True | _ => False end -> outside_gone s.
Proof.
  intros [_ _ _ _ _ _ _ _ H9] Hg Hs. rewrite Hg in H9. destruct H9 as (_ & _ & H9).
  destruct s as [|[] s]; try done; [by left|]. right. destruct s as [|[] [|]]; try done. eauto.
Qed.

Lemma lookup_mute f i w : (forall v, completed (f v) = completed v /\ def (f v) = def v /\
    gate (f v) = gate v /\ rl_timer (f v) = rl_timer v /\ awaiting_perm (f v) = awaiting_perm v /\
    started (f v) = started v /\ timer (f v) = timer v) ->
  forall v s, invs (batch w) !! i = Some v -> agent_gone (agent w) = true -> outside_gone s ->
  Inv None 0 w s -> Inv None 0 (upd f i w) s.
Proof.
  intros F v s Hi Hgone Hs [H1 H2 H3 H4 H5 H6 H7 H8 H9]. rewrite Hgone in *.
  destruct (F v) as (F1 & F2 & F3 & F4 & F5 & F6 & F7).
  pose proof (fsum_alter open_call f i _ v Hi) as Eo. unfold open_call in Eo at 2 4. rewrite F1 in Eo.
  constructor; wcbn; rewrite ?Hgone; try done.
  - lia.
  - intros j u Hu. destruct (lookup_upd f i w j u Hu) as (u' & Hu' & ->). specialize (H4 j u' Hu').
    destruct (Nat.eqb_spec j i) as [->|]; [|done]. destruct (F u') as (E1 & E2 & E3 & E4 & E5 & E6 & E7).
    destruct H4 as [T1 T2 T3 T4]. constructor; rewrite ?E1, ?E2, ?E3, ?E5, ?E6, ?E7; try done.
    unfold parked in *. by rewrite E1, E3, E4, E5, E6.
  - intros g j Hg. destruct (H5 g j Hg) as (u & Hu & Hgu). destruct (decide (j = i)) as [->|Hne].
    + exists (f u). rewrite list_lookup_alter_eq, Hu. split; [done|]. by destruct (F u) as (_ & _ & -> & _).
    + exists u. by rewrite list_lookup_alter_ne.
  - by rewrite length_alter.
  - destruct H7 as [H7 _]. split; [done|]. intros a c Hin. exfalso.
    destruct Hs as [->|(cb & k & ->)]; [done|]. by destruct Hin as [?|[?|[]]].
  - destruct H9 as (L1 & L2 & L3). unfold gone_ok. wcbn. split_and!; try done.
    assert (Hq : forall j u, invs (batch (upd f i w)) !! j = Some u ->
      exists u', invs (batch w) !! j = Some u' /\ (quiet u' -> quiet u)).
    { intros j u Hu. destruct (lookup_upd f i w j u Hu) as (u' & Hu' & ->). exists u'. split; [done|].
      destruct (j =? i)%nat; [|done]. destruct (F u') as (E1 & E2 & E3 & E4 & E5 & E6 & E7).
      unfold quiet. by rewrite E3, E4, E5, E7. }
    destruct Hs as [->|(cb & k & ->)]; intros j u; [intros Hu|intros Hj Hu];
      destruct (Hq j u Hu) as (u' & Hu' & Q); apply Q; by eapply L3.
Qed.

(** There the calls that are not being retired by the loop are quiet. *)
Lemma gone_quiet w i v : Inv None 0 w [] -> agent_gone (agent w) = true ->
  invs (batch w) !! i = Some v -> quiet v.
Proof.
  intros [_ _ _ _ _ _ _ _ H9] Hg Hi. rewrite Hg in H9. destruct H9 as (_ & _ & H9). by eapply H9.
Qed.

Lemma on_call_ok w i (p : clm_tool_invocation -> bool) (P : Prop) :
  holds_inv w i p = true -> (forall v, invs (batch w) !! i = Some v -> p v = true -> P) -> P.
Proof.
  unfold holds_inv. destruct (invs (batch w) !! i) as [v|]; [|done]. intros Hp H1. by apply (H1 v).
Qed.

Lemma set_cancel_ok w i v b s : Inv None 0 w s -> agent_gone (agent w) = false \/ outside_gone s ->
  invs (batch w) !! i = Some v -> Inv None 0 (upd (fun v => set_cancel v b) i w) s.
Proof.
  intros HI Ha Hi. destruct (agent_gone (agent w)) eqn:E; [|by eapply inv_mute].
  destruct Ha as [Ha|Hs]; [congruence|]. by eapply lookup_mute.
Qed.

(** A report the rules let through: of a call that runs, or of one that has
    finished while its batch is there. *)
Lemma report_cases w s i : Inv None 0 w s ->
  match s with [] | FCallback _ :: _ => True | _ => False end ->
  holds_inv w i started && negb (fatal_report w s i) = true ->
  exists v, invs (batch w) !! i = Some v /\ batch_freed (batch w) = false /\
    (completed v = true \/ ready None i v /\ alive w v 0 s).
Proof.
  intros HI Hs [Hh Hf]%andb_true_iff. apply (on_call_ok w i _ _ Hh). intros v Hi Hst. exists v. split; [done|].
  apply negb_true_iff in Hf. unfold fatal_report, holds_inv in Hf. rewrite Hi in Hf.
  apply orb_false_iff in Hf as [Hf Hd]. split; [done|].
  destruct (completed v) eqn:Hc; [by left|right]. split; [by split; [|right]|].
  unfold alive. destruct (agent_gone (agent w)) eqn:Hg; [right; split; [|done]|by left].
  destruct (gone_outside w s HI Hg Hs) as [->|(cb & k & ->)]; [by left|right]. cbn in Hd.
  apply orb_false_iff in Hd as [Hd1 Hd2]. rewrite andb_true_r in Hd1. bool_facts. split_and!; eauto.
Qed.

Lemma report_done o w i v : invs (batch w) !! i = Some v -> batch_freed (batch w) = false -> completed v = true ->
  (forall c, clm_tool_complete env o w i c = (w, [])) /\ (forall c, clm_tool_complete_buf env o w i c = (w, [])) /\
  (forall t mt d, clm_tool_complete_image env o w i t mt d = (w, [])) /\
  (forall t b, clm_tool_complete_image_base64 env o w i t b = (w, [])) /\
  (forall m, clm_tool_fail env o w i m = (w, [])).
Proof.
  intros Hi Hf Hc. unfold clm_tool_complete, clm_tool_complete_buf, clm_tool_complete_image,
    clm_tool_complete_image_base64, clm_tool_fail, on_inv. rewrite Hf, Hi, Hc. by split_and!.
Qed.

Lemma do_api_ok o w s a : Inv None 0 w s -> allowed w s a = true ->
  match s with [] | FCallback _ :: _ => True | _ => False end ->
  steps 0 s (do_api env o w a).
Proof.
  intros HI Ha Hs. pose proof (fun Hg => gone_outside w s HI Hg Hs) as Hgone.
  destruct a; cbn [do_api allowed] in *;
    try (destruct (report_cases w s i HI Hs Ha) as (v0 & Hi & Hf & [Hc|[Hr Hal]]);
         [destruct (report_done o w i v0 Hi Hf Hc) as (R1 & R2 & R3 & R4 & R5); rewrite ?R1, ?R2, ?R3, ?R4, ?R5; exact HI|]).
  - bool_facts. apply (on_call_ok w i _ _ ltac:(eassumption)). intros v0 Hi _.
    eapply on_inv_ok; [done..|]. eapply set_cancel_ok; [done| |done].
    destruct (agent_gone (agent w)); auto.
  - unfold clm_tool_complete. by eapply steps_complete_buf.
  - by eapply steps_complete_buf.
  - by eapply steps_image.
  - by eapply steps_base64.
  - by eapply steps_fail.
  - destruct (gates w !! g) as [[i| |]|] eqn:Eg; try done.
    + apply steps_gate_respond; [done|]. right. split; [by exists i|].
      destruct (agent_gone (agent w)) eqn:E; [|done].
      destruct (i_gates _ _ _ _ HI g i Eg) as (v0 & Hi & Hgv).
      destruct (Hgone eq_refl) as [->|(cb & k & ->)]; [|done].
      destruct (gone_quiet w i v0 HI E Hi) as (_ & _ & Q & _). congruence.
    + apply steps_gate_respond; [done|]. by left.
  - bool_facts. destruct (lookup_lt_is_Some_2 (invs (batch w)) i) as [v0 Hi]; [done|].
    destruct (agent_gone (agent w)) eqn:E; [|by eapply steps_permission_respond].
    destruct (Hgone eq_refl) as [->|(cb & k & ->)]; [|done].
    unfold clm_tool_permission_respond. eapply on_inv_ok; [done..|].
    destruct (gone_quiet w i v0 HI E Hi) as (_ & _ & _ & ->). done.
  - bool_facts. destruct s; [|done]. apply (on_call_ok w i _ _ ltac:(eassumption)). intros v0 Hi Hp. bool_facts.
    destruct (agent_gone (agent w)) eqn:E; [|by eapply steps_on_timeout].
    destruct (gone_quiet w i v0 HI E Hi) as (Q & _). congruence.
  - bool_facts. destruct s; [|done]. apply (on_call_ok w i _ _ ltac:(eassumption)). intros v0 Hi Hp.
    destruct (agent_gone (agent w)) eqn:E; [|by eapply steps_rl_timer].
    destruct (gone_quiet w i v0 HI E Hi) as (_ & Q & _). congruence.
  - bool_facts. by apply steps_cancel.
  - bool_facts. destruct s; [|done]. by apply detach_ok.
  - bool_facts. apply inv_tools; [done..|]. apply add_ok. by eapply live_reg.
  - bool_facts. apply inv_tools; [done..|]. apply remove_ok. by eapply live_reg.
Qed.

Lemma step_ok ch c c' : Inv None 0 (fst c) (snd c) -> step ch c = Some c' ->
  Inv None 0 (fst c') (snd c').
Proof.
  destruct c as [w s]. cbn [fst snd]. intros HI E. destruct ch as [o| |o a]; cbn [Tools.step] in E.
  - destruct s as [|f s]; [done|]. destruct (is_callback f) eqn:Ef; [done|].
    pose proof (run_frame_ok o f w s Ef HI) as R. destruct (Tools.run_frame _ _ _ _ _ _) as [w' fs].
    by injection E as <-.
  - destruct s as [|[] s]; try done. injection E as <-. cbn [fst snd].
    destruct (agent_gone (agent w)) eqn:Hg.
    + destruct HI as [H1 H2 H3 H4 H5 H6 H7 H8 H9]. rewrite Hg in *. destruct H9 as (L1 & L2 & L3).
      destruct s as [|[] [|]]; try done. constructor; rewrite ?Hg; try done.
      * intros j u Hj. destruct (H4 j u Hj) as [T1 T2 T3 T4]. by constructor.
      * by inversion H6.
      * split; [cbn; lia|]. intros a c [?|[]]; done.
    + apply (inv_swap [FCallback cb] [] None None 0 0 w s HI Hg); try done. right. intros i. done.
  - assert (Hs : match s with [] | FCallback _ :: _ => True | _ => False end /\
      (if allowed w s a then let '(w', fs) := do_api env o w a in Some (w', fs ++ s) else None) = Some c')
      by (by destruct s as [|[]]).
    destruct Hs as [Hs E']. destruct (allowed w s a) eqn:Ea; [|done].
    pose proof (do_api_ok o w s a HI Ea Hs) as R. destruct (do_api env o w a) as [w' fs].
    by injection E' as <-.
Qed.

Lemma run_ok chs : forall c c', Inv None 0 (fst c) (snd c) -> run chs c = Some c' ->
  Inv None 0 (fst c') (snd c').
Proof.
  induction chs as [|ch chs IH]; intros c c' HI; cbn [Tools.run]; [by intros [= <-]|].
  destruct (Tools.step _ _ _ ch c) as [c1|] eqn:E; [|done]. cbn. apply IH. by eapply step_ok.
Qed.

(** An agent that can start a batch. *)
Record can_start (w : world) : Prop := {
  cs_bad : bad w = false;
  cs_gone : agent_gone (agent w) = false;
  cs_gates g i : gates w !! g <> Some (GInv i);
  cs_reg : reg_ok (tools (agent w)) (fun _ => 0);
  cs_log : log w = []
}.

(** The model's calls name a tool and carry an id. *)
Definition calls_ok (tool_calls : cJSON) : Prop :=
  cJSON_elements tool_calls <> [] /\ Forall (fun tc => is_Some (read_call print tc)) (cJSON_elements tool_calls).

Lemma start_ok w tc : can_start w -> calls_ok tc ->
  Inv None 0 (fst (start print w tc)) (snd (start print w tc)).
Proof.
  intros [C1 C2 C3 C4 C5] [Hne Hall]. unfold start, clm_tools_dispatch.
  destruct (cJSON_elements tc) as [|c0 cs] eqn:Ec; [done|]. rewrite <- Ec in *. clear Ec c0 cs.
  set (n := length (cJSON_elements tc)). cbn [fst snd].
  constructor; wcbn; rewrite ?C1, ?C2, ?C5; try done.
  - cbn. rewrite length_map. unfold n. lia.
  - intros g i Hg. by destruct (C3 g i).
  - by repeat constructor.
  - split; [cbn; lia|]. intros a cs [?|[E|[]]]; [done|]. injection E as <- <-. split_and!; try done.
    apply Forall_map. done.
Qed.

End Facts.
