(* ===== verification/ToolsPolicy.v ===== *)
(** What a batch of tool calls does, call by call: the events of each call
    are those of a small automaton, so that a call runs at most once, and
    only after every pre_tool hook passed it and the permission policy
    allowed it; and the history gains one result for each call. *)

From S2P Require Import Prelude Utf8 TextClean Image RateLimit Tokens CJson History HistoryFacts.
From S2P Require Import Registry Tools ToolsInv ToolsFacts.

(** ** The life of a call *)

(** [PHooks k asked]: [k] hooks have answered, and some of them asked for a
    person. *)
Inductive phase := PHooks (k : nat) (asked : bool) | PDenied | PAllowed | PRunning | PFinished.

(** The next event of a call. [n] hooks are set; [free] says that the call
    may run without a person being asked. *)
Definition next_phase (n : nat) (free : bool) (p : phase) (e : event) : option phase :=
  match p, e with
  | PHooks k a, EvPark _ _ => Some p
  | PHooks k a, EvHook _ CLM_GATE_PASS => if (k <? n)%nat then Some (PHooks (S k) a) else None
  | PHooks k a, EvHook _ CLM_GATE_ASK => if (k <? n)%nat then Some (PHooks (S k) true) else None
  | PHooks k a, EvHook _ CLM_GATE_DENY => if (k <? n)%nat then Some PDenied else None
  | PHooks k a, EvAnswer _ d =>
      if (k =? n)%nat then Some (if is_allow d then PAllowed else PDenied) else None
  | PHooks k a, EvInvoke _ => if (k =? n)%nat && negb a && free then Some PRunning else None
  | PAllowed, EvInvoke _ => Some PRunning
  | PRunning, EvResult _ _ => Some PFinished
  | (PHooks _ _ | PDenied), EvResult _ CLM_TOOL_FAILED => Some PFinished
  | _, _ => None
  end.

Definition event_of (i : nat) (e : event) : bool :=
  match e with
  | EvPark k _ | EvHook k _ | EvAnswer k _ | EvInvoke k | EvResult k _ => (k =? i)%nat
  | EvPastEnd _ _ | EvToolsDone => false
  end.

Section Life.
(** The number of hooks; of each call the tool's name and whether the tool is
    marked [CLM_TOOL_NO_PROMPT]; and the tools the user had allowed for good
    before the batch. *)
Context (n : nat) (nm : nat -> list byte) (np : nat -> bool) (pre : list byte -> bool).

(** The user has allowed the tool for good. *)
Definition standing (l : list event) (t : list byte) : bool :=
  pre t || existsb (fun e => match e with
                             | EvAnswer j CLM_PERM_ALLOW_ALWAYS => beq (nm j) t
                             | _ => false
                             end) l.

(** Where call [i] is after the events [l], the newest first. [None]: its
    events are not those of a call. *)
Fixpoint life (l : list event) (i : nat) : option phase :=
  match l with
  | [] => Some (PHooks 0 false)
  | e :: l' =>
      p ← life l' i;
      if event_of i e then next_phase n (np i || standing l' (nm i)) p e else Some p
  end.
End Life.

(** ** The history of a batch *)

(** What identifies a message, whatever its content. *)
Definition hkey (m : clm_message)
  : clm_role * option (list byte) * option (list byte) * list clm_tool_call :=
  (role m, tool_call_id m, tool_name m, tool_calls m).

Definition call_key (c : list byte * list byte * list byte) : clm_tool_call :=
  let '(i, n, a) := c in mk_tool_call (Some i) (Some n) (Some a).

(** The results, oldest first. *)
Fixpoint results (l : list event) : list nat :=
  match l with
  | [] => []
  | EvResult i _ :: l' => results l' ++ [i]
  | _ :: l' => results l'
  end.

Definition result_key (cs : list (list byte * list byte * list byte)) (i : nat)
  : clm_role * option (list byte) * option (list byte) * list clm_tool_call :=
  match cs !! i with
  | Some (id, nm, _) => (CLM_ROLE_TOOL, Some id, Some nm, [])
  | None => (CLM_ROLE_TOOL, None, None, [])
  end.

Definition batch_keys (h0 : clm_history) (cs : list (list byte * list byte * list byte))
    (l : list event) :=
  map hkey h0 ++ [(CLM_ROLE_ASSISTANT, None, None, map call_key cs)]
  ++ map (result_key cs) (results l).

Lemma hkey_content m c cz : hkey (message_set_content_len m c cz) = hkey m.
Proof. unfold hkey. by destruct (set_content_len_fields m c cz) as (-> & -> & -> & -> & _). Qed.

Lemma hkey_supersede h nm stub :
  map hkey (snd (clm_history_supersede_tool h nm stub)) = map hkey h.
Proof.
  unfold clm_history_supersede_tool. set (k := default _ _). rewrite supersede_map. cbn [snd].
  rewrite map_app, map_map. rewrite <- (take_drop k h) at 3. rewrite map_app. f_equal.
  apply map_ext. intros m. case_if; [|done].
  destruct (stubbed_fields stub m) as (E1 & E2 & E3 & E4 & _). unfold hkey. by rewrite E1, E2, E3, E4.
Qed.

(** ** The invariant *)

Definition remembers (t : clm_tool) : bool := remembered t && remember_allow t.

Definition gate_count (v : clm_tool_invocation) : nat :=
  match gate v with Some _ => 1%nat | None => 0%nat end.

(** Where a call that has not finished is, by its fields. *)
Definition call_at (n : nat) (v : clm_tool_invocation) (p : phase) : Prop :=
  if started v then p = PRunning
  else timed_out v = false /\ exists k, p = PHooks k (force_ask v) /\
       gate_next v = (k + gate_count v)%nat /\ (gate_next v <= n)%nat /\
       (awaiting_perm v = true -> k = n).

(** The results that may be reported of a call. *)
Definition may_report (oc : clm_tool_outcome) (p : phase) : Prop :=
  p = PRunning \/ oc = CLM_TOOL_FAILED /\ (p = PDenied \/ exists k a, p = PHooks k a).

Section Policy.
Context (n : nat) (cs : list (list byte * list byte * list byte)) (h0 : clm_history).
Context (np : nat -> bool) (pre : list byte -> bool).

Definition call_name (i : nat) : list byte :=
  match cs !! i with Some (_, nm, _) => nm | None => [] end.

Abbreviation life := (life n call_name np pre).
Abbreviation standing := (standing call_name pre).

(** [ov] is a call in hand that has got an answer its fields do not show
    yet. *)
Definition call_state (ov : option phase) (s : list frame) (i : nat) (v : clm_tool_invocation)
    (p : phase) : Prop :=
  if completed v then forall out oc att, In (FRecord i out oc att) s -> may_report oc p
  else match ov with
       | Some q => p = q /\ started v = false /\ timed_out v = false
       | None => call_at n v p
       end.

Record Pol (ov : nat -> option phase) (w : world) (s : list frame) : Prop := {
  p_static i v : invs (batch w) !! i = Some v -> exists a, cs !! i = Some (id v, name v, a);
  p_len : length (invs (batch w)) = length cs;
  p_def i v k : invs (batch w) !! i = Some v -> def v = Some k ->
    exists t, tools (agent w) !! k = Some t /\ d_name (t_def t) = name v /\
              has_flag (t_def t) CLM_TOOL_NO_PROMPT = np i;
  p_rem k t : tools (agent w) !! k = Some t -> remembers t = true ->
    standing (log w) (d_name (t_def t)) = true;
  p_calls i v : invs (batch w) !! i = Some v ->
    exists p, life (log w) i = Some p /\ call_state (ov i) s i v p;
  p_hist : map hkey (history (agent w)) = batch_keys h0 cs (log w);
  p_range : Forall (fun i => (i < length cs)%nat) (results (log w))
}.

Definition no_ov : nat -> option phase := fun _ => None.
Definition hand_ov (i : nat) (q : phase) : nat -> option phase :=
  fun j => if (j =? i)%nat then Some q else None.

(** Nodes keep what they are; nothing is newly allowed for good. *)
Definition reg_le (r r' : registry) : Prop :=
  forall k t, r !! k = Some t -> exists t', r' !! k = Some t' /\ t_def t' = t_def t.
Definition rem_le (r r' : registry) : Prop :=
  forall k t', r' !! k = Some t' -> remembers t' = true ->
    exists t, r !! k = Some t /\ t_def t = t_def t' /\ remembers t = true.

Lemma alter_le f (r : registry) k :
  (forall t, t_def (f t) = t_def t /\ remembers (f t) = remembers t) ->
  reg_le r (alter f k r) /\ rem_le r (alter f k r).
Proof.
  intros Hf. split; intros j t Ht.
  - destruct (decide (j = k)) as [->|Hne].
    + exists (f t). rewrite list_lookup_alter_eq, Ht. split; [done|]. apply Hf.
    + exists t. by rewrite list_lookup_alter_ne.
  - destruct (decide (j = k)) as [->|Hne].
    + rewrite list_lookup_alter_eq in Ht. destruct (r !! k) as [u|]; [|done]. injection Ht as <-.
      destruct (Hf u) as [-> ->]. eauto.
    + rewrite list_lookup_alter_ne in Ht by done. eauto.
Qed.

Lemma detach_fields t : t_def (tool_detach t) = t_def t /\ remembers (tool_detach t) = remembers t.
Proof. unfold tool_detach. by destruct (t_detach t). Qed.

Lemma unpin_le r k : reg_le r (unpin r k) /\ rem_le r (unpin r k).
Proof.
  apply alter_le. intros t. cbv zeta. case_if; [|done]. unfold tool_node_free.
  destruct (detach_fields (add_inflight (-1) t)) as [E1 E2]. cbv zeta. unfold remembers in *. cbn in *. done.
Qed.

Lemma pin_le r k : reg_le r (pin r k) /\ rem_le r (pin r k).
Proof. by apply alter_le. Qed.

Lemma remove_le r nm : reg_le r (snd (clm_tool_remove r nm)) /\ rem_le r (snd (clm_tool_remove r nm)).
Proof.
  unfold clm_tool_remove. destruct (find_tool r nm); cbn [snd].
  - apply alter_le. intros t. cbv zeta. destruct (detach_fields t) as [E1 E2].
    destruct (detach_fields (tool_detach t)) as [E3 E4]. unfold remembers in *.
    case_if; cbn; [|done]. by rewrite E3, E4.
  - split; intros k t; eauto.
Qed.

Lemma detach_all_le r : reg_le r (detach_all r) /\ rem_le r (detach_all r).
Proof.
  unfold detach_all. split; intros k t Ht.
  - exists (if linked t then tool_detach t else t). rewrite list_lookup_fmap, Ht. split; [done|].
    case_if; [apply detach_fields|done].
  - apply list_lookup_fmap_Some in Ht as (u & -> & Hu). exists u.
    destruct (linked u); [|done]. destruct (detach_fields u) as [-> E]. rewrite <- E. done.
Qed.

Lemma add_le r d : reg_le r (snd (clm_tool_add r d)) /\ rem_le r (snd (clm_tool_add r d)).
Proof.
  unfold clm_tool_add. destruct (find_tool r (d_name d)); cbn [snd]; [split; intros k t; eauto|].
  split; intros k t Ht.
  - exists t. rewrite lookup_app_l; [done|]. by apply lookup_lt_Some in Ht.
  - apply lookup_app_Some in Ht as [Ht|[_ Ht]]; [eauto|].
    apply list_lookup_singleton_Some in Ht as [_ <-]. done.
Qed.

(** ** Changes that keep the invariant *)

Definition no_record (f : frame) : Prop := match f with FRecord _ _ _ _ => False | _ => True end.

Lemma in_record fs s i out oc att : Forall no_record fs ->
  In (FRecord i out oc att) (fs ++ s) -> In (FRecord i out oc att) s.
Proof.
  intros Hf [Hin|?]%in_app_iff; [|done]. rewrite List.Forall_forall in Hf. by apply Hf in Hin.
Qed.

(** The stack may lose and gain frames that carry no result. *)
Lemma pol_frames ov w s s' : Pol ov w s ->
  (forall i out oc att, In (FRecord i out oc att) s' -> In (FRecord i out oc att) s) -> Pol ov w s'.
Proof.
  intros [H1 H2 H3 H4 H5 H6 H7] Hs. constructor; try done. intros i v Hi.
  destruct (H5 i v Hi) as (p & Hp & Hst). exists p. split; [done|]. unfold call_state in *.
  destruct (completed v); [|done]. intros out oc att Hin. by eapply Hst, Hs.
Qed.

Lemma pol_push ov w fs s : Forall no_record fs -> Pol ov w s -> Pol ov w (fs ++ s).
Proof. intros Hf HP. eapply pol_frames; [done|]. intros *. by apply in_record. Qed.

Lemma pol_pop ov w f s : Pol ov w (f :: s) -> Pol ov w s.
Proof. intros HP. eapply pol_frames; [done|]. intros. by right. Qed.

(** The parts of the world the invariant reads. *)
Lemma pol_same ov w w' s : invs (batch w') = invs (batch w) -> tools (agent w') = tools (agent w) ->
  history (agent w') = history (agent w) -> log w' = log w -> Pol ov w s -> Pol ov w' s.
Proof.
  intros E1 E2 E3 E4 [H1 H2 H3 H4 H5 H6 H7]. constructor; rewrite ?E1, ?E2, ?E3, ?E4; done.
Qed.

Lemma pol_tools ov w r s : reg_le (tools (agent w)) r -> rem_le (tools (agent w)) r ->
  Pol ov w s -> Pol ov (set_tools w r) s.
Proof.
  intros L1 L2 [H1 H2 H3 H4 H5 H6 H7]. constructor; wcbn; try done.
  - intros i v k Hi Hk. destruct (H3 i v k Hi Hk) as (t & Ht & E1 & E2).
    destruct (L1 k t Ht) as (t' & Ht' & E). exists t'. by rewrite E.
  - intros k t' Ht' Hr. destruct (L2 k t' Ht' Hr) as (t & Ht & <- & Hr'). by eapply H4.
Qed.

(** One call changes. *)
Lemma pol_upd f i v ov ov' w s fs :
  Pol ov w s -> invs (batch w) !! i = Some v ->
  id (f v) = id v -> name (f v) = name v -> def (f v) = def v ->
  (forall j, j <> i -> ov' j = ov j) ->
  (forall j out oc att, j <> i -> In (FRecord j out oc att) fs -> False) ->
  (forall p, life (log w) i = Some p -> call_state (ov i) s i v p ->
             call_state (ov' i) (fs ++ s) i (f v) p) ->
  Pol ov' (upd f i w) (fs ++ s).
Proof.
  intros [H1 H2 H3 H4 H5 H6 H7] Hi F1 F2 F3 Ho Hfs Hst.
  assert (Hlk : forall j u, invs (batch (upd f i w)) !! j = Some u ->
    exists u', invs (batch w) !! j = Some u' /\ u = if (j =? i)%nat then f u' else u')
    by (intros j u; apply lookup_upd).
  constructor; try done.
  - intros j u Hu. destruct (Hlk j u Hu) as (u' & Hu' & ->). destruct (Nat.eqb_spec j i) as [->|]; [|by apply H1].
    assert (u' = v) as -> by congruence. rewrite F1, F2. by apply H1.
  - wcbn. by rewrite length_alter.
  - intros j u k Hu. destruct (Hlk j u Hu) as (u' & Hu' & ->). destruct (Nat.eqb_spec j i) as [->|]; [|by apply H3].
    assert (u' = v) as -> by congruence. rewrite F2, F3. by apply H3.
  - intros j u Hu. destruct (Hlk j u Hu) as (u' & Hu' & ->). destruct (H5 j u' Hu') as (p & Hp & Hs).
    exists p. split; [done|]. destruct (Nat.eqb_spec j i) as [->|Hne].
    + assert (u' = v) as -> by congruence. by apply Hst.
    + rewrite Ho by done. unfold call_state in *. destruct (completed u'); [|done].
      intros out oc att [Hin|Hin]%in_app_iff; [by destruct (Hfs j out oc att)|by eapply Hs].
Qed.

Lemma standing_cons e l t : standing l t = true -> standing (e :: l) t = true.
Proof.
  unfold ToolsPolicy.standing. intros [->|H1]%orb_true_iff; [done|].
  cbn. rewrite H1. by rewrite !orb_true_r.
Qed.

Definition result_of (e : event) : list nat := match e with EvResult i _ => [i] | _ => [] end.

(** An event of call [i], with a change of the history when it is a result. *)
Lemma pol_event e i v ov ov' h w s :
  Pol ov w s -> invs (batch w) !! i = Some v -> (forall j, event_of j e = (i =? j)%nat) ->
  (forall j, j <> i -> ov' j = ov j) ->
  map hkey h = map hkey (history (agent w)) ++ map (result_key cs) (result_of e) ->
  (forall p, life (log w) i = Some p -> call_state (ov i) s i v p ->
    exists p', next_phase n (np i || standing (log w) (call_name i)) p e = Some p' /\
               call_state (ov' i) s i v p') ->
  Pol ov' (note (set_history w h) e) s.
Proof.
  intros [H1 H2 H3 H4 H5 H6 H7] Hi He Ho Hh Hst. constructor; wcbn; try done.
  - intros k t Hk Hr. apply standing_cons. by eapply H4.
  - intros j u Hu. destruct (H5 j u Hu) as (p & Hp & Hs). cbn [ToolsPolicy.life]. rewrite Hp, He. cbn.
    destruct (Nat.eqb_spec i j) as [<-|Hne].
    + assert (u = v) as -> by congruence. destruct (Hst p Hp Hs) as (p' & -> & Hs'). eauto.
    + exists p. rewrite Ho by done. done.
  - rewrite Hh, H6. unfold batch_keys. rewrite <- !app_assoc. do 2 f_equal.
    destruct e; cbn [results result_of map]; rewrite ?app_nil_r; try done. by rewrite map_app.
  - specialize (He i). rewrite Nat.eqb_refl in He. apply lookup_lt_Some in Hi.
    destruct e; cbn [results event_of] in *; try done. bool_facts. subst. apply Forall_app.
    split; [done|]. constructor; [lia|constructor].
Qed.

Lemma pol_plain_event e i v ov ov' w s :
  Pol ov w s -> invs (batch w) !! i = Some v -> (forall j, event_of j e = (i =? j)%nat) ->
  result_of e = [] -> (forall j, j <> i -> ov' j = ov j) ->
  (forall p, life (log w) i = Some p -> call_state (ov i) s i v p ->
    exists p', next_phase n (np i || standing (log w) (call_name i)) p e = Some p' /\
               call_state (ov' i) s i v p') ->
  Pol ov' (note w e) s.
Proof.
  intros HP Hi He Hr Ho Hst.
  assert (E : note w e = note (set_history w (history (agent w))) e) by (by destruct w as [[] ? ? ? ?]).
  rewrite E. eapply pol_event; try done. by rewrite Hr, app_nil_r.
Qed.

(** An event that is none of a call's life. *)
Lemma pol_foreign e ov w s : (forall i, event_of i e = false) -> Pol ov w s -> Pol ov (note w e) s.
Proof.
  intros He [H1 H2 H3 H4 H5 H6 H7].
  assert (Hr : results (e :: log w) = results (log w)).
  { destruct e; try done. specialize (He i). cbn in He. by rewrite Nat.eqb_refl in He. }
  constructor; wcbn; try done.
  - intros k t Hk Ht. apply standing_cons. by eapply H4.
  - intros i v Hi. destruct (H5 i v Hi) as (p & Hp & Hs). exists p. split; [|done].
    cbn [ToolsPolicy.life]. by rewrite Hp, He.
  - rewrite H6. unfold batch_keys. by rewrite Hr.
  - by rewrite Hr.
Qed.

Context (env : tool_env) (Henv : n_pre_tool_hooks env = n).

Lemma pol_release ov w s : Pol ov w s -> Pol ov (fst (release w)) (snd (release w) ++ s).
Proof.
  intros HP. unfold release. case_if; [by apply (pol_same ov w)|]. case_if.
  - unfold batch_finalize. case_if; [by apply (pol_same ov w)|]. cbn [fst snd].
    apply pol_push; [by repeat constructor|]. apply pol_foreign; [done|]. by apply (pol_same ov w).
  - by apply (pol_same ov w).
Qed.

(** Nothing is recorded of a call that has not finished. *)
Lemma no_record_yet h x w s i v : Inv h x w s -> invs (batch w) !! i = Some v -> completed v = false ->
  forall out oc att, ~ In (FRecord i out oc att) s.
Proof.
  intros [_ _ _ _ _ _ _ _ H9] Hi Hc out oc att Hin. destruct (agent_gone (agent w)).
  - destruct H9 as (_ & _ & H9). destruct s as [|[] [|[] [|]]]; try done;
      repeat destruct Hin as [Hin|Hin]; done.
  - destruct H9 as (_ & _ & _ & _ & L5). specialize (L5 i v Hi). rewrite Hc in L5.
    pose proof (fsum_in (is_record i) s _ Hin) as E. cbn in *. rewrite Nat.eqb_refl in E. cbn in E. lia.
Qed.

Lemma pol_finalize o h x ov w i v c oc att p s :
  Inv h x w s -> Pol ov w s -> invs (batch w) !! i = Some v -> ready h i v ->
  (forall j, j <> i -> ov j = None) -> life (log w) i = Some p -> may_report oc p ->
  Pol no_ov (fst (inv_finalize env o w i c oc att)) (snd (inv_finalize env o w i c oc att) ++ s).
Proof.
  intros HI HP Hi Hr Ho Hp Hm. destruct (open_alive _ _ _ _ _ _ HI Hi (proj1 Hr)) as [_ Hf].
  pose proof (no_record_yet _ _ _ _ _ _ HI Hi (proj1 Hr)) as Hnr.
  unfold inv_finalize, on_inv. rewrite Hf, Hi.
  assert (Hst : forall fs f, completed (f v) = true ->
    (forall out oc' att', In (FRecord i out oc' att') fs -> oc' = oc) ->
    forall q, life (log w) i = Some q -> call_state (ov i) s i v q ->
    call_state (no_ov i) (fs ++ s) i (f v) q).
  { intros fs f Hc Hfs q Hq _. unfold call_state. rewrite Hc. intros out oc' att' [Hin|Hin]%in_app_iff.
    - rewrite (Hfs _ _ _ Hin). congruence.
    - by destruct (Hnr out oc' att'). }
  assert (HPc : Pol no_ov (upd set_completed i w) ([] ++ s))
    by (apply (pol_upd set_completed i v ov no_ov w s []); try done;
        [intros j Hj; by rewrite Ho|by apply (Hst [] set_completed)]).
  wcbn. case_if.
  - unfold batch_really_free. repeat case_if; by apply (pol_same no_ov (upd set_completed i w)).
  - case_if; [by apply (pol_same no_ov (upd set_completed i w))|].
    destruct (tool_output_some env o v c) as (res & past_end & -> & _).
    cbn [fst snd]. set (fs := [FCallback _; _]).
    assert (HP' : Pol no_ov (upd finished i w) (fs ++ s)).
    { apply (pol_upd finished i v ov no_ov w s fs); try done.
      - intros j Hj. by rewrite Ho.
      - intros j out oc' att' Hj [?|[[=]|[]]]; [done|congruence].
      - apply (Hst fs finished); [done|]. intros out oc' att' [?|[[=]|[]]]; [done|congruence]. }
    assert (Ef : upd (fun v => set_timer v false) i (upd set_completed i w) = upd finished i w)
      by (unfold upd; wcbn; by rewrite list_alter_alter_eq).
    assert (Hn : forall w', Pol no_ov w' (fs ++ s) ->
      Pol no_ov (if past_end then note w' (EvPastEnd i (output_cap v)) else w') (fs ++ s))
      by (intros w' Hw'; destruct past_end; [by apply pol_foreign|done]).
    rewrite Ef. apply Hn. destruct (def v) as [k|]; [|done].
    destruct (unpin_le (tools (agent (upd finished i w))) k) as [U1 U2]. by apply pol_tools.
Qed.

(** ** Completion *)

Definition psteps (s : list frame) (r : world * list frame) : Prop := Pol no_ov (fst r) (snd r ++ s).

Definition can_fail (w : world) (i : nat) (v : clm_tool_invocation) : Prop :=
  exists p, life (log w) i = Some p /\ may_report CLM_TOOL_FAILED p /\
            (timed_out v = true -> p = PRunning).

Lemma can_fail_any ov w s i v : Pol ov w s -> invs (batch w) !! i = Some v -> completed v = false ->
  ov i = None \/ ov i = Some PDenied -> can_fail w i v.
Proof.
  intros HP Hi Hc Ho. destruct (p_calls _ _ _ HP i v Hi) as (p & Hp & Hs). exists p. split; [done|].
  unfold call_state, call_at, may_report in *. rewrite Hc in Hs. destruct Ho as [Ho|Ho]; rewrite Ho in Hs.
  - destruct (started v); [by subst; auto|]. destruct Hs as (Ht & k & -> & _). split; [|congruence].
    right. split; [done|]. right. eauto.
  - destruct Hs as (-> & _ & Ht). split; [|congruence]. right. auto.
Qed.

Lemma running_phase w s i v : Pol no_ov w s -> invs (batch w) !! i = Some v -> ready None i v ->
  life (log w) i = Some PRunning.
Proof.
  intros HP Hi [Hc [?|[_ Hs]]]; [done|]. destruct (p_calls _ _ _ HP i v Hi) as (p & Hp & Hst).
  unfold call_state, call_at, no_ov in Hst. rewrite Hc, Hs in Hst. congruence.
Qed.

Section Completion.
Context (o : oracle) (h : option nat) (x : nat) (ov : nat -> option phase) (w : world) (s : list frame).
Context (i : nat) (v : clm_tool_invocation).
Context (HI : Inv h x w s) (HP : Pol ov w s) (Hi : invs (batch w) !! i = Some v).
Context (Hr : ready h i v) (Ho : forall j, j <> i -> ov j = None).

Lemma psteps_timeout p : life (log w) i = Some p -> p = PRunning ->
  psteps s (finalize_timeout env o w i).
Proof.
  intros Hp ->. destruct (open_alive _ _ _ _ _ _ HI Hi (proj1 Hr)) as [_ Hf].
  unfold finalize_timeout. eapply on_inv_ok; [done..|]. eapply pol_finalize; [done..|by left].
Qed.

Lemma psteps_fail m : can_fail w i v -> psteps s (clm_tool_fail env o w i m).
Proof.
  intros (p & Hp & Hm & Ht). destruct (open_alive _ _ _ _ _ _ HI Hi (proj1 Hr)) as [_ Hf].
  unfold clm_tool_fail. eapply on_inv_ok; [done..|]. rewrite (proj1 Hr). case_if.
  - eapply psteps_timeout; [done|by apply Ht].
  - by eapply pol_finalize.
Qed.

Context (Hp : life (log w) i = Some PRunning).

Lemma psteps_complete_buf c : psteps s (clm_tool_complete_buf env o w i c).
Proof.
  destruct (open_alive _ _ _ _ _ _ HI Hi (proj1 Hr)) as [_ Hf].
  unfold clm_tool_complete_buf. eapply on_inv_ok; [done..|]. rewrite (proj1 Hr). case_if.
  - by eapply psteps_timeout.
  - eapply pol_finalize; [done..|by left].
Qed.

Lemma running_fail m : psteps s (clm_tool_fail env o w i m).
Proof. apply psteps_fail. exists PRunning. split; [done|]. split; [by left|done]. Qed.

Lemma psteps_image t mt d : psteps s (clm_tool_complete_image env o w i t mt d).
Proof.
  destruct (open_alive _ _ _ _ _ _ HI Hi (proj1 Hr)) as [_ Hf].
  unfold clm_tool_complete_image. eapply on_inv_ok; [done..|]. rewrite (proj1 Hr).
  destruct mt; [|apply running_fail]. destruct d as [[|b d]|]; [apply running_fail| |apply running_fail].
  case_if; [by eapply psteps_timeout|]. case_if; (eapply pol_finalize; [done..|by left]).
Qed.

Lemma psteps_base64 t b : psteps s (clm_tool_complete_image_base64 env o w i t b).
Proof.
  destruct (open_alive _ _ _ _ _ _ HI Hi (proj1 Hr)) as [_ Hf].
  unfold clm_tool_complete_image_base64. eapply on_inv_ok; [done..|]. rewrite (proj1 Hr).
  destruct b as [[|b l]|]; [apply psteps_complete_buf| |apply psteps_complete_buf].
  case_if; [apply psteps_complete_buf|].
  destruct (clm_base64_decode (b :: l)) as [img|]; [|apply psteps_complete_buf].
  pose proof (sniff_answers (Some img)) as Hs.
  destruct (clm_image_sniff (Some img)) as [[[[mt ?] ?]|]|]; [apply psteps_image|apply psteps_complete_buf|done].
Qed.
End Completion.

(** ** Running a call *)

(** A call in hand that has passed every hook. *)
Definition hand_state (ov : nat -> option phase) (w : world) (s : list frame) (i : nat)
    (v : clm_tool_invocation) (p : phase) : Prop :=
  life (log w) i = Some p /\ call_state (ov i) s i v p.

Lemma psteps_run_invoke o x ov w s i v :
  Inv (Some i) x w s -> agent_gone (agent w) = false -> Pol ov w s ->
  invs (batch w) !! i = Some v -> def v <> None -> (forall j, j <> i -> ov j = None) ->
  (forall p, life (log w) i = Some p ->
     next_phase n (np i || standing (log w) (call_name i)) p (EvInvoke i) = Some PRunning) ->
  psteps s (run_invoke env o w i).
Proof.
  intros HI Hg HP Hi Hd Ho Hn. destruct (hand_facts _ _ _ _ _ HI Hi) as (A1 & A2 & A3 & A4 & A5 & A6 & A7).
  destruct (open_alive _ _ _ _ _ _ HI Hi A5) as [Hpd Hf].
  destruct (live_node_ok _ _ _ _ _ _ HI Hg Hi A5 Hd) as (t & k & Hnd & _ & _).
  unfold run_invoke. eapply on_inv_ok; [done..|]. rewrite Hg, Hnd.
  set (b := (0 <? timeout_ms v) && negb (timer v) && has_timers env).
  set (w1 := if b then _ else w). unfold psteps. cbn [fst snd].
  apply pol_push; [by repeat constructor|].
  assert (Hw1 : exists f, upd set_started i (set_pending w1 (S (pending (batch w1))))
      = set_pending (upd f i w) (S (pending (batch w))) /\
    (id (f v) = id v /\ name (f v) = name v /\ def (f v) = def v /\ started (f v) = true /\
     completed (f v) = completed v)).
  { subst w1. destruct b; [|by exists set_started].
    exists (fun v => set_started (set_timer v (timer_ok o))). split; [|done].
    unfold upd. wcbn. by rewrite list_alter_alter_eq. }
  destruct Hw1 as (f & -> & F1 & F2 & F3 & F4 & F5).
  (* first the event, the fields then show it *)
  assert (HP1 : Pol (hand_ov i PRunning) (note w (EvInvoke i)) s).
  { eapply (pol_plain_event _ i v); try done.
    - intros j Hj. unfold hand_ov. apply Nat.eqb_neq in Hj. by rewrite Hj, Ho by (by apply Nat.eqb_neq).
    - intros p Hp Hst. exists PRunning. split; [by apply Hn|]. unfold call_state, hand_ov in *.
      rewrite A5, Nat.eqb_refl in *. split_and!; try done.
      destruct (ov i); [by destruct Hst as (_ & _ & ?)|]. unfold call_at in Hst. rewrite A4 in Hst.
      by destruct Hst. }
  apply (pol_same no_ov (upd f i (note w (EvInvoke i)))); try done.
  apply (pol_upd f i v (hand_ov i PRunning) no_ov _ s []); try done.
  - intros j Hj. unfold hand_ov. apply Nat.eqb_neq in Hj. by rewrite Hj.
  - intros p Hp Hst. unfold call_state, hand_ov, no_ov, call_at in *. rewrite F4, F5, A5, Nat.eqb_refl in *.
    by destruct Hst.
Qed.

Lemma psteps_permission o x w s i v k :
  Inv (Some i) x w s -> agent_gone (agent w) = false -> Pol no_ov w s ->
  invs (batch w) !! i = Some v -> def v <> None -> (n <= gate_next v)%nat ->
  def v = Some k -> psteps s (permission_gate env o w i).
Proof.
  intros HI Hg HP Hi Hd Hn Hk. destruct (hand_facts _ _ _ _ _ HI Hi) as (A1 & A2 & A3 & A4 & A5 & A6 & A7).
  destruct (open_alive _ _ _ _ _ _ HI Hi A5) as [Hpd Hf].
  destruct (live_node_ok _ _ _ _ _ _ HI Hg Hi A5 Hd) as (t & k' & Hnd & Hk' & Ht).
  assert (k' = k) as -> by congruence.
  destruct (p_calls _ _ _ HP i v Hi) as (p & Hp & Hst). unfold call_state, no_ov, call_at in Hst.
  rewrite A5, A4 in Hst. destruct Hst as (Hto & k0 & -> & Hgn & Hgl & _).
  unfold gate_count in Hgn. rewrite A2 in Hgn. assert (k0 = n) as -> by lia.
  destruct (p_def _ _ _ HP i v k Hi Hk) as (t' & Ht' & Hnm & Hnp).
  assert (t' = t) as -> by congruence.
  assert (Hname : call_name i = name v).
  { destruct (p_static _ _ _ HP i v Hi) as (a & Ha). unfold call_name. by rewrite Ha. }
  assert (Hrun : np i || standing (log w) (call_name i) = true -> force_ask v = false ->
    psteps s (run_invoke env o w i)).
  { intros Hfree Hfa. eapply psteps_run_invoke; [done..|]. intros p Hp'. rewrite Hp in Hp'.
    injection Hp' as <-. cbn [next_phase]. by rewrite Nat.eqb_refl, Hfa, Hfree. }
  assert (Hfail : forall m, psteps s (clm_tool_fail env o w i m)).
  { intros m. eapply psteps_fail; [done..|by eapply hand_ready|done|].
    eapply can_fail_any; [done..|by left]. }
  unfold permission_gate. eapply on_inv_ok; [done..|]. rewrite Hg, Hnd.
  case_if; [bool_facts; apply Hrun; [by rewrite <- Hnp, H|done]|].
  case_if.
  - bool_facts. destruct (remember_allow t) eqn:Ea; [|apply Hfail]. cbn in *.
    destruct (force_ask v) eqn:Efa; [done|]. apply Hrun; [|done].
    rewrite Hname, <- Hnm. rewrite (p_rem _ _ _ HP k t Ht); [apply orb_true_r|].
    unfold remembers. by rewrite Ea, andb_true_r.
  - case_if; [apply Hfail|]. unfold psteps. cbn [fst snd].
    eapply (pol_upd _ i v no_ov no_ov w s [FCallback _]); try done.
    + intros j out oc att _ [?|[]]. done.
    + intros p Hp' _. rewrite Hp in Hp'. injection Hp' as <-. unfold call_state, no_ov, call_at.
      cbn. rewrite A5, A4. split; [done|]. exists n. unfold gate_count. cbn. rewrite A2.
      split_and!; try done; lia.
Qed.

Lemma psteps_gate_run o x w s i v k :
  Inv (Some i) x w s -> agent_gone (agent w) = false -> Pol no_ov w s ->
  invs (batch w) !! i = Some v -> def v = Some k -> psteps s (gate_run env o w i).
Proof.
  intros HI Hg HP Hi Hk. destruct (hand_facts _ _ _ _ _ HI Hi) as (A1 & A2 & A3 & A4 & A5 & A6 & A7).
  destruct (open_alive _ _ _ _ _ _ HI Hi A5) as [Hpd Hf].
  unfold gate_run. eapply on_inv_ok; [done..|]. rewrite Hg, Henv.
  case_if; [eapply psteps_permission; [done..|congruence|done|done]|]. unfold psteps. cbn [fst snd].
  apply (pol_upd _ i v no_ov no_ov (set_gates w (gates w ++ [GInv i])) s [FCallback _]); try done.
  - by apply (pol_same no_ov w).
  - intros j out oc att _ [?|[]]. done.
  - intros p Hp Hst. unfold call_state, no_ov, call_at in *. cbn. rewrite A5, A4 in *.
    destruct Hst as (Ht & k0 & -> & Hgn & Hgl & Haw). split; [done|]. exists k0.
    unfold gate_count in *. rewrite A2 in Hgn. cbn. split_and!; try done; lia.
Qed.

Lemma psteps_dispatch_tool o x w s i v :
  Inv (Some i) x w s -> agent_gone (agent w) = false -> Pol no_ov w s ->
  invs (batch w) !! i = Some v -> psteps s (dispatch_tool env o w i).
Proof.
  intros HI Hg HP Hi. destruct (hand_facts _ _ _ _ _ HI Hi) as (A1 & A2 & A3 & A4 & A5 & A6 & A7).
  destruct (open_alive _ _ _ _ _ _ HI Hi A5) as [Hpd Hf].
  unfold dispatch_tool. eapply on_inv_ok; [done..|]. destruct (def v) eqn:Ed.
  - by eapply psteps_gate_run.
  - eapply psteps_fail; [done..|by eapply hand_ready|done|]. eapply can_fail_any; [done..|by left].
Qed.

(** ** Frames *)

Lemma psteps_dispatch_one w s i : Pol no_ov w s -> psteps s (dispatch_one w i).
Proof.
  intros HP. unfold dispatch_one, on_inv. repeat case_if; try (by apply (pol_same no_ov w)).
  destruct (invs (batch w) !! i); [|by apply (pol_same no_ov w)].
  apply pol_push; [by repeat constructor|done].
Qed.

Lemma psteps_then s f r : no_record f -> psteps s r -> psteps s (then_ r f).
Proof.
  unfold psteps, then_. cbn [fst snd]. intros Hf HP. eapply pol_frames; [exact HP|].
  intros i out oc att. rewrite <- app_assoc. intros [Hin|[E|Hin]]%in_app_iff.
  - apply in_app_iff. by left.
  - by subst f.
  - apply in_app_iff. by right.
Qed.

(** A change of one call that its place in life does not show. *)
Lemma pol_mute f i v w s : Pol no_ov w s -> invs (batch w) !! i = Some v ->
  id (f v) = id v -> name (f v) = name v -> def (f v) = def v ->
  (forall p, life (log w) i = Some p -> call_state None s i v p -> call_state None s i (f v) p) ->
  Pol no_ov (upd f i w) s.
Proof. intros HP Hi F1 F2 F3 Hs. by apply (pol_upd f i v no_ov no_ov w s []). Qed.

(** Retiring a call without a result. *)
Lemma pol_complete f h x i v w s : Inv h x w s -> Pol no_ov w s -> invs (batch w) !! i = Some v ->
  completed v = false -> completed (f v) = true ->
  id (f v) = id v -> name (f v) = name v -> def (f v) = def v -> Pol no_ov (upd f i w) s.
Proof.
  intros HI HP Hi Hc Hc' F1 F2 F3. pose proof (no_record_yet _ _ _ _ _ _ HI Hi Hc) as Hnr.
  apply (pol_mute f i v); try done. intros p Hp _. unfold call_state. rewrite Hc'.
  intros out oc att Hin. by destruct (Hnr out oc att).
Qed.

Lemma psteps_dispatch o w i s : Inv None 0 w (FDispatch i :: s) -> Pol no_ov w (FDispatch i :: s) ->
  psteps s (dispatch_loop env o w i).
Proof.
  intros HI HP. apply pol_pop in HP.
  assert (HC : Pol no_ov (crash w) s) by (by apply (pol_same no_ov w)).
  unfold dispatch_loop. case_if; [done|]. case_if; [by apply pol_release|].
  destruct (lookup_lt_is_Some_2 (invs (batch w)) i) as [v Hi]; [lia|].
  destruct (clm_ratelimit_allow _ _ _) as [ok rl].
  assert (Hone : forall r, psteps s (then_ (dispatch_one (set_rl w r) i) (FDispatch (S i)))).
  { intros r. apply psteps_then; [done|]. apply psteps_dispatch_one. by apply (pol_same no_ov w). }
  case_if.
  { specialize (Hone rl). by destruct (dispatch_one (set_rl w rl) i). }
  destruct (clm_ratelimit_delay _ _ _) as [us rl2]. case_if.
  - unfold psteps. cbn [fst snd]. apply pol_push; [by repeat constructor|].
    destruct (i_calls _ _ _ _ HI i v Hi) as [T1 _ _ _]. cbn [fsum carries] in T1.
    rewrite Nat.leb_refl in T1. cbn [b2n] in T1. unfold parked in T1.
    assert (Hs : started v = false /\ completed v = false)
      by (destruct (started v), (completed v); cbn in T1; split; try done; lia).
    destruct Hs as [Hs Hc].
    assert (HP' : Pol no_ov (upd (fun v => set_rl_timer v true) i (set_rl (set_rl w rl) rl2)) s).
    { apply (pol_mute _ i v); try done. by apply (pol_same no_ov w). }
    eapply (pol_plain_event _ i (set_rl_timer v true)); try done.
    + by apply (upd_lookup (fun v => set_rl_timer v true)).
    + intros p Hp Hst. unfold call_state, no_ov, call_at in *. cbn in *. rewrite Hs, Hc in *.
      destruct Hst as (Ht & k & -> & Hk). eexists. split; [reflexivity|]. split; [done|]. by exists k.
  - change (set_rl (set_rl (set_rl w rl) rl2)) with (set_rl w).
    set (r := clm_ratelimit_consume _ _ _). specialize (Hone r).
    by destruct (dispatch_one (set_rl w r) i).
Qed.

Lemma psteps_rl_timer o w i v s : Inv None 0 w s -> Pol no_ov w s -> invs (batch w) !! i = Some v ->
  psteps s (on_rl_timer o w i).
Proof.
  intros HI HP Hi. assert (HC : Pol no_ov (crash w) s) by (by apply (pol_same no_ov w)).
  unfold on_rl_timer, on_inv. rewrite Hi. repeat case_if; try done.
  apply psteps_dispatch_one.
  apply (pol_same no_ov (upd (fun v => set_rl_timer v false) i w)); try done.
  by apply (pol_mute _ i v).
Qed.

Context (fnmatch : list byte -> list byte -> bool).

Lemma map_hkey_attach h k mt d : map hkey (alter (fun m => clm_message_add_attachment m mt d) k h)
  = map hkey h.
Proof.
  revert k. induction h as [|m h IH]; intros [|k]; try done.
  unfold alter in *. cbn [list_alter map]. by rewrite IH.
Qed.

Lemma psteps_record w i out oc att s : Inv None 0 w (FRecord i out oc att :: s) ->
  Pol no_ov w (FRecord i out oc att :: s) -> psteps s (finalize_record fnmatch env w i out oc att).
Proof.
  intros HI HP. pose proof (not_gone _ _ _ _ _ HI I) as Hg.
  destruct (frame_lt _ _ _ _ _ HI) as [v Hi].
  assert (HC : Pol no_ov (crash w) s) by (apply (pol_same no_ov w); try done; by apply pol_pop in HP).
  unfold finalize_record, on_inv. rewrite Hg, Hi. case_if; [done|]. unfold psteps. cbn [fst snd].
  apply pol_push; [by repeat constructor|].
  assert (Hlive := i_phase _ _ _ _ HI). rewrite Hg in Hlive. destruct Hlive as (_ & _ & _ & _ & L5).
  specialize (L5 i v Hi). cbn [fsum is_record] in L5. rewrite Nat.eqb_refl in L5. cbn [b2n] in L5.
  assert (Hc : completed v = true) by (destruct (completed v); [done|cbn in L5; lia]).
  rewrite Hc in L5. cbn in L5.
  assert (Hn : forall out' oc' att', ~ In (FRecord i out' oc' att') s).
  { intros out' oc' att' Hin. pose proof (fsum_in (is_record i) s _ Hin) as E'. cbn in E'.
    rewrite Nat.eqb_refl in E'. cbn in E'. lia. }
  destruct (p_calls _ _ _ HP i v Hi) as (p & Hp & Hst). unfold call_state in Hst. rewrite Hc in Hst.
  pose proof (Hst out oc att (or_introl eq_refl)) as Hm.
  destruct (p_static _ _ _ HP i v Hi) as (a & Ha).
  match goal with |- context [chain_reset_if _ ?w0] => apply (pol_same no_ov w0); [done..|] end.
  eapply (pol_event (EvResult i oc) i v no_ov no_ov); try done.
  - by apply pol_pop in HP.
  - cbn [result_of map]. unfold result_key. rewrite Ha.
    set (h1 := snd (if tool_is_volatile _ _ _ then _ else _)).
    assert (E1 : map hkey h1 = map hkey (history (agent w))).
    { subst h1. case_if; [apply hkey_supersede|done]. }
    unfold clm_history_add_tool_result. rewrite <- E1.
    destruct att as [at1|]; rewrite ?map_hkey_attach, map_app; cbn [map]; by rewrite hkey_content.
  - intros q Hq _. rewrite Hp in Hq. injection Hq as <-. exists PFinished. split.
    + destruct Hm as [->|[-> [->|(k & b & ->)]]]; [by destruct oc|done..].
    + unfold call_state. rewrite Hc. intros out' oc' att' Hin. by destruct (Hn out' oc' att').
Qed.

Lemma psteps_done w s : Pol no_ov w s -> psteps s (finalize_done w).
Proof.
  intros HP. unfold finalize_done. case_if; [by apply (pol_same no_ov w)|].
  apply pol_push; [by repeat constructor|]. by apply (pol_same no_ov w).
Qed.

Lemma pol_batch_free w s : Pol no_ov w s -> Pol no_ov (batch_free_timers w) s.
Proof.
  intros HP. unfold batch_free_timers, batch_really_free.
  set (off := fun v => set_rl_timer (set_timer v false) false).
  assert (HP' : Pol no_ov (set_invs w (map off (invs (batch w)))) s).
  { destruct HP as [H1 H2 H3 H4 H5 H6 H7]. constructor; wcbn; try done.
    - intros i u Hu. apply list_lookup_fmap_Some in Hu as (v & -> & Hi). exact (H1 i v Hi).
    - by rewrite length_map.
    - intros i u k Hu. apply list_lookup_fmap_Some in Hu as (v & -> & Hi). exact (H3 i v k Hi).
    - intros i u Hu. apply list_lookup_fmap_Some in Hu as (v & -> & Hi). exact (H5 i v Hi). }
  case_if; [by apply (pol_same no_ov w)|]. case_if; by apply (pol_same no_ov (set_invs w (map off (invs (batch w))))).
Qed.

(** ** Cancelling and freeing *)

(** A parked call is taken in hand at its place in life. *)
Lemma take_in_hand f i v w s p : Pol no_ov w s -> invs (batch w) !! i = Some v ->
  life (log w) i = Some p -> started v = false -> completed v = false ->
  id (f v) = id v -> name (f v) = name v -> def (f v) = def v -> started (f v) = false ->
  completed (f v) = false -> timed_out (f v) = timed_out v ->
  Pol (hand_ov i p) (upd f i w) s.
Proof.
  intros HP Hi Hp Hs Hc F1 F2 F3 F4 F5 F6.
  apply (pol_upd f i v no_ov (hand_ov i p) w s []); try done.
  - intros j Hj. unfold hand_ov. apply Nat.eqb_neq in Hj. by rewrite Hj.
  - intros q Hq Hst. rewrite Hp in Hq. injection Hq as <-.
    unfold call_state, hand_ov, no_ov, call_at in *. rewrite F4, F5, F6, Nat.eqb_refl.
    rewrite Hc, Hs in Hst. by destruct Hst.
Qed.

Lemma hand_other i q j : j <> i -> hand_ov i q j = None.
Proof. intros Hj. unfold hand_ov. apply Nat.eqb_neq in Hj. by rewrite Hj. Qed.

(** An answer moves a call in hand on. *)
Lemma answer_event e i v ov p q w s : Pol ov w s -> invs (batch w) !! i = Some v ->
  (forall j, event_of j e = (i =? j)%nat) -> result_of e = [] -> (forall j, j <> i -> ov j = None) ->
  life (log w) i = Some p -> started v = false -> completed v = false -> timed_out v = false ->
  next_phase n (np i || standing (log w) (call_name i)) p e = Some q ->
  Pol (hand_ov i q) (note w e) s.
Proof.
  intros HP Hi He Hr Ho Hp Hs Hc Ht Hn. eapply (pol_plain_event e i v ov); try done.
  - intros j Hj. by rewrite hand_other, Ho.
  - intros p' Hp' _. rewrite Hp in Hp'. injection Hp' as <-. exists q. split; [done|].
    unfold call_state, hand_ov. by rewrite Hc, Nat.eqb_refl.
Qed.

(** Where a parked call is. *)
Lemma parked_phase h x w s i v : Inv h x w s -> Pol no_ov w s -> invs (batch w) !! i = Some v ->
  rl_timer v = true \/ awaiting_perm v = true \/ gate v <> None ->
  started v = false /\ completed v = false /\ timed_out v = false /\
  exists k, life (log w) i = Some (PHooks k (force_ask v)) /\
    gate_next v = (k + gate_count v)%nat /\ (gate_next v <= n)%nat /\ (awaiting_perm v = true -> k = n).
Proof.
  intros HI HP Hi Hpk. destruct (parked_facts _ _ _ _ _ _ HI Hi Hpk) as (_ & Hs & Hc).
  destruct (p_calls _ _ _ HP i v Hi) as (p & Hp & Hst). unfold call_state, no_ov, call_at in Hst.
  rewrite Hs, Hc in Hst. destruct Hst as (Ht & k & -> & H1 & H2 & H3). split_and!; try done. by exists k.
Qed.

Lemma pol_back f i v q w s : Pol (hand_ov i q) w s -> invs (batch w) !! i = Some v ->
  id (f v) = id v -> name (f v) = name v -> def (f v) = def v -> completed v = false ->
  (life (log w) i = Some q -> started v = false -> timed_out v = false ->
   call_state None s i (f v) q) ->
  Pol no_ov (upd f i w) s.
Proof.
  intros HP Hi F1 F2 F3 Hc Hst. apply (pol_upd f i v (hand_ov i q) no_ov w s []); try done.
  - intros j Hj. by rewrite hand_other.
  - intros p Hp Hs. unfold call_state at 1 in Hs. unfold hand_ov in Hs.
    rewrite Hc, Nat.eqb_refl in Hs. destruct Hs as (-> & Hs1 & Hs2). by apply Hst.
Qed.

Lemma pol_remember ov nm allow w s : Pol ov w s ->
  (allow = true -> standing (log w) nm = true) ->
  Pol ov (set_tools w (remember (tools (agent w)) nm allow)) s.
Proof.
  intros HP Hst. unfold remember, find_tool_mut. destruct (find_tool _ nm) as [k|] eqn:Ef.
  2:{ by apply (pol_same ov w). }
  destruct (find_tool_Some _ _ _ Ef) as [(t0 & Ht0 & Hn0) _].
  unfold named in Hn0. apply andb_true_iff in Hn0 as [_ Hn0]. apply beq_eq in Hn0.
  set (f := fun t => mk_tool _ _ _ _ _ _ _ _).
  destruct HP as [H1 H2 H3 H4 H5 H6 H7]. constructor; wcbn; try done.
  - intros i v k' Hi Hk. destruct (H3 i v k' Hi Hk) as (t & Ht & E1 & E2).
    destruct (decide (k' = k)) as [->|Hne].
    + exists (f t). rewrite list_lookup_alter_eq, Ht. done.
    + exists t. by rewrite list_lookup_alter_ne.
  - intros k' t Ht Hr. destruct (decide (k' = k)) as [->|Hne].
    + rewrite list_lookup_alter_eq, Ht0 in Ht. injection Ht as <-. cbn in Hr |- *. rewrite Hn0. by apply Hst.
    + rewrite list_lookup_alter_ne in Ht by done. by eapply H4.
Qed.

Lemma standing_answer i l : standing (EvAnswer i CLM_PERM_ALLOW_ALWAYS :: l) (call_name i) = true.
Proof. unfold ToolsPolicy.standing. cbn [existsb]. by rewrite beq_refl, orb_true_r. Qed.

Lemma psteps_permission_respond o w i v d s : Inv None 0 w s -> agent_gone (agent w) = false ->
  Pol no_ov w s -> invs (batch w) !! i = Some v -> batch_freed (batch w) = false ->
  psteps s (clm_tool_permission_respond env o w i d).
Proof.
  intros HI Hg HP Hi Hf. unfold clm_tool_permission_respond. eapply on_inv_ok; [done..|].
  destruct (awaiting_perm v) eqn:Ea; cbn [negb]; [|done]. rewrite Hg.
  assert (Hd : def v <> None) by (eapply gate_def; [done..|by left]).
  destruct (parked_phase _ _ _ _ _ _ HI HP Hi) as (Hs & Hc & Ht & k & Hp & _ & _ & Hk); [by right; left|].
  specialize (Hk Ea). subst k.
  pose proof (unpark_perm i v 0 w s HI Hg Hi Ea) as HI'.
  pose proof (upd_lookup (fun v => set_awaiting v false) i w v Hi) as Hi'.
  pose proof (take_in_hand (fun v => set_awaiting v false) i v w s _ HP Hi Hp Hs Hc
    eq_refl eq_refl eq_refl Hs Hc eq_refl) as HP'.
  assert (Hname : call_name i = name v).
  { destruct (p_static _ _ _ HP i v Hi) as (a & Ha). unfold call_name. by rewrite Ha. }
  change (log w) with (log (upd (fun v => set_awaiting v false) i w)) in Hp.
  set (w1 := upd _ i w) in *. assert (Hg1 : agent_gone (agent w1) = false) by done. clearbody w1.
  set (q := if is_allow d then PAllowed else PDenied).
  assert (HP1 : Pol (hand_ov i q) (note w1 (EvAnswer i d)) s).
  { eapply (answer_event (EvAnswer i d) i _ (hand_ov i _)); [exact HP'|exact Hi'|done|done| |done..|].
    - intros j Hj. by apply hand_other.
    - cbn [next_phase]. by rewrite Nat.eqb_refl. }
  apply (inv_note _ _ _ _ (EvAnswer i d) I) in HI'.
  set (w2 := if is_always d then _ else _).
  assert (HI2 : Inv (Some i) 0 w2 s).
  { subst w2. case_if; [|done]. apply inv_tools; [done..|]. apply remember_ok. by eapply live_reg. }
  assert (HP2 : Pol (hand_ov i q) w2 s).
  { subst w2. destruct (is_always d) eqn:Ed; [|done]. apply pol_remember; [done|].
    intros Hal. destruct d; try done. rewrite <- Hname. apply standing_answer. }
  assert (E2 : invs (batch w2) = invs (batch w1) /\ agent_gone (agent w2) = false /\
    log w2 = EvAnswer i d :: log w1) by (subst w2; by destruct (is_always d)).
  destruct E2 as (E2 & E3 & E4). rewrite <- E2 in Hi'. clearbody w2.
  destruct (p_calls _ _ _ HP2 i _ Hi') as (p & Hp2 & Hst2). unfold call_state, hand_ov in Hst2.
  rewrite Nat.eqb_refl in Hst2. cbn in Hst2. rewrite Hc in Hst2. destruct Hst2 as (-> & _).
  subst q. destruct (is_allow d).
  - eapply (psteps_run_invoke o 0 (hand_ov i PAllowed)); [done..| |].
    + intros j Hj. by apply hand_other.
    + intros p Hp3. rewrite Hp2 in Hp3. by injection Hp3 as <-.
  - eapply (psteps_fail o (Some i) 0 (hand_ov i PDenied)); [done..| | |].
    + by eapply hand_ready.
    + intros j Hj. by apply hand_other.
    + eapply can_fail_any; [done..|]. right. unfold hand_ov. by rewrite Nat.eqb_refl.
Qed.

Lemma psteps_gate_respond o w g i vd r na s : Inv None 0 w s -> Pol no_ov w s ->
  gates w !! g = Some (GInv i) -> agent_gone (agent w) = false ->
  psteps s (clm_tool_gate_respond env o w g vd r na).
Proof.
  intros HI HP Hgi Hg. unfold clm_tool_gate_respond. rewrite Hgi.
  destruct (i_gates _ _ _ _ HI g i Hgi) as (v & Hi & Hgv).
  destruct (parked_phase _ _ _ _ _ _ HI HP Hi) as (Hs & Hc & Ht & k & Hp & Hgn & Hgl & _);
    [by right; right; rewrite Hgv|].
  unfold gate_count in Hgn. rewrite Hgv in Hgn. assert (Hk : (k < n)%nat) by lia.
  destruct (open_alive _ _ _ _ _ _ HI Hi Hc) as [_ Hf].
  eapply on_inv_ok; [done..|].
  pose proof (unpark_gate GFreed i g v 0 w s HI Hg Hi Hgv ltac:(done)) as HI'.
  set (w0 := set_gates w (<[g:=GFreed]> (gates w))) in *.
  assert (HP0 : Pol no_ov w0 s) by (by apply (pol_same no_ov w)).
  pose proof (upd_lookup (fun v => set_gate v None (gate_next v)) i w0 v Hi) as Hi'.
  pose proof (take_in_hand (fun v => set_gate v None (gate_next v)) i v w0 s _ HP0 Hi Hp Hs Hc
    eq_refl eq_refl eq_refl Hs Hc eq_refl) as HP'.
  change (log w) with (log (upd (fun v => set_gate v None (gate_next v)) i w0)) in Hp.
  set (w1 := upd _ i w0) in *. assert (Hg1 : agent_gone (agent w1) = false) by done. clearbody w1.
  set (q := match vd with
            | CLM_GATE_PASS => PHooks (S k) (force_ask v)
            | CLM_GATE_DENY => PDenied
            | CLM_GATE_ASK => PHooks (S k) true
            end).
  assert (HP1 : Pol (hand_ov i q) (note w1 (EvHook i vd)) s).
  { eapply (answer_event (EvHook i vd) i _ (hand_ov i _)); [exact HP'|exact Hi'|done|done| |done..|].
    - intros j Hj. by apply hand_other.
    - apply Nat.ltb_lt in Hk. destruct vd; cbn [next_phase]; by rewrite Hk. }
  apply (inv_note _ _ _ _ (EvHook i vd) I) in HI'.
  set (v1 := set_gate v None (gate_next v)) in *.
  assert (HI2 : exists w2 v2, w2 = match na with
      | Some a => upd (fun v => set_args v a) i (note w1 (EvHook i vd))
      | None => note w1 (EvHook i vd) end /\
    Inv (Some i) 0 w2 s /\ agent_gone (agent w2) = false /\ invs (batch w2) !! i = Some v2 /\
    log w2 = EvHook i vd :: log w1 /\ Pol (hand_ov i q) w2 s /\
    (v2 = v1 \/ exists a, v2 = set_args v1 a)).
  { destruct na as [a|].
    - eexists _, (set_args v1 a). split; [reflexivity|].
      split; [by eapply inv_mute|]. split; [done|].
      split; [by apply (upd_lookup (fun v => set_args v a) i (note w1 (EvHook i vd)))|].
      split; [done|]. split; [|right; by exists a].
      by apply (pol_upd (fun v => set_args v a) i v1 (hand_ov i q) (hand_ov i q) _ s []).
    - eexists _, v1. split; [reflexivity|]. split_and!; try done. by left. }
  destruct HI2 as (w2 & v2 & <- & HI2 & Hg2 & Hi2 & Hl2 & HP2 & Hv2). rewrite Hg2.
  assert (F : started v2 = false /\ completed v2 = false /\ timed_out v2 = false /\ gate v2 = None /\
    gate_next v2 = gate_next v /\ force_ask v2 = force_ask v /\ awaiting_perm v2 = awaiting_perm v)
    by (by destruct Hv2 as [->|[a ->]]).
  destruct F as (F1 & F2 & F3 & F4 & F5 & F6 & F7).
  assert (F8 : awaiting_perm v = false)
    by (destruct (hand_facts _ _ _ _ _ HI2 Hi2) as (_ & _ & A3 & _); congruence).
  assert (Hst : forall f, started (f v2) = false -> completed (f v2) = false ->
      timed_out (f v2) = false -> gate (f v2) = None -> gate_next (f v2) = gate_next v ->
      awaiting_perm (f v2) = false -> q = PHooks (S k) (force_ask (f v2)) ->
      call_state None s i (f v2) q).
  { intros f E1 E2 E3 E4 E5 E6 E7. unfold call_state, call_at. rewrite E1, E2. split; [done|].
    exists (S k). unfold gate_count. rewrite E4, E5, E6. split_and!; done || lia. }
  destruct vd; unfold psteps; cbn [fst snd].
  - apply pol_push; [by destruct r; repeat constructor|].
    assert (E : upd (fun u => u) i w2 = w2).
    { unfold upd. rewrite list_alter_id by done. by destruct w2 as [? [] ? ? ?]. }
    rewrite <- E. eapply (pol_back (fun u => u) i v2); try done. intros _ _ _.
    apply (Hst (fun u => u)); try done; [by rewrite F7|]. by rewrite F6.
  - eapply (psteps_fail o (Some i) 0 (hand_ov i PDenied) (add_denial w2)); [by apply inv_denial| |done| | |].
    + by apply (pol_same (hand_ov i q) w2).
    + by eapply hand_ready; [apply inv_denial|].
    + intros j Hj. by apply hand_other.
    + eapply (can_fail_any (hand_ov i PDenied)); [by apply (pol_same (hand_ov i q) w2)|done|done|].
      right. unfold hand_ov. by rewrite Nat.eqb_refl.
  - apply pol_push; [by repeat constructor|]. set (rr := match ask_reason v with None => r | r0 => r0 end).
    eapply (pol_back (fun u => set_ask u rr) i v2); try done. intros _ _ _.
    apply (Hst (fun u => set_ask u rr)); try done. cbn. by rewrite F7.
Qed.

Lemma psteps_on_timeout o w i v s : Inv None 0 w s -> agent_gone (agent w) = false -> Pol no_ov w s ->
  invs (batch w) !! i = Some v -> timer v = true -> psteps s (on_timeout env o w i).
Proof.
  intros HI Hg HP Hi Ht. destruct (i_calls _ _ _ _ HI i v Hi) as [_ _ T3 _]. destruct (T3 Ht) as [Hs Hc].
  destruct (open_alive _ _ _ _ _ _ HI Hi Hc) as [_ Hf].
  unfold on_timeout. eapply on_inv_ok; [done..|]. rewrite Hc.
  assert (HI' : Inv None 0 (upd set_timed_out i w) s) by (by eapply inv_mute).
  pose proof (upd_lookup set_timed_out i w v Hi) as Hi'.
  assert (HP' : Pol no_ov (upd set_timed_out i w) s).
  { eapply (pol_mute set_timed_out i v); try done. intros p Hp. unfold call_state, call_at. cbn. by rewrite Hc, Hs. }
  case_if; [unfold psteps; cbn [fst snd]; apply pol_push; [by repeat constructor|done]|].
  eapply (psteps_timeout o None 0 no_ov); [done|done|done| |done| |reflexivity].
  - split; [done|by right].
  - eapply running_phase; [done|done|]. split; [done|by right].
Qed.

Lemma psteps_cancel_loop o w i s : Inv None 0 w (FCancel i :: s) -> Pol no_ov w (FCancel i :: s) ->
  psteps s (cancel_loop env o w i).
Proof.
  intros HI HP. destruct (pop_hold (FCancel i) None 0 w s I HI) as (HI1 & Hg & Hf). apply pol_pop in HP.
  unfold cancel_loop. rewrite Hf, Hg. cbn [orb].
  destruct (invs (batch w) !! i) as [v|] eqn:Hi; [|by apply pol_release].
  assert (HPn : forall fs, Forall no_record fs -> psteps s (w, fs)) by (intros; by apply pol_push).
  destruct (completed v) eqn:Hc; [apply HPn; by repeat constructor|].
  assert (Hfin : forall f g', rl_timer v = true \/ gate v <> None ->
    (forall v, id (f v) = id v /\ name (f v) = name v /\ def (f v) = def v /\ started (f v) = started v /\
               completed (f v) = completed v /\ timed_out (f v) = timed_out v) ->
    Inv (Some i) 1 (upd f i (set_gates w g')) s ->
    psteps s (then_ (inv_finalize env o (upd f i (set_gates w g')) i (Some cancelled_msg) CLM_TOOL_FAILED None)
                (FCancel (S i)))).
  { intros f g' Hpk F HI3. apply psteps_then; [done|].
    destruct (parked_phase _ _ _ _ _ _ HI1 HP Hi) as (Hs & _ & Ht & k & Hp & _); [tauto|].
    destruct (F v) as (F1 & F2 & F3 & F4 & F5 & F6).
    assert (HP3 : Pol (hand_ov i (PHooks k (force_ask v))) (upd f i (set_gates w g')) s).
    { apply (take_in_hand f i v); try done; [by apply (pol_same no_ov w)|congruence..]. }
    pose proof (upd_lookup f i (set_gates w g') v Hi) as Hi3.
    eapply (pol_finalize o (Some i) 1); [done|done|exact Hi3| | |exact Hp|].
    - by eapply hand_ready.
    - intros j Hj. by apply hand_other.
    - right. split; [done|]. right. eauto. }
  assert (Eg : set_gates w (gates w) = w) by (by destruct w).
  destruct (rl_timer v) eqn:Er.
  { rewrite <- Eg at 1. apply Hfin; [by left|done|]. rewrite Eg. by apply (unpark_rl i v). }
  destruct (awaiting_perm v) eqn:Ea; [apply HPn; by repeat constructor|]. destruct (gate v) as [g|] eqn:Egt.
  { apply Hfin; [by right|done|]. by apply (unpark_gate GNone i g v). }
  apply HPn. case_if; by repeat constructor.
Qed.

Lemma psteps_cancel w s : Pol no_ov w s -> psteps s (clm_tools_cancel w).
Proof.
  intros HP. unfold clm_tools_cancel. case_if; [done|]. case_if; [by apply (pol_same no_ov w)|].
  apply pol_push; [by repeat constructor|]. by apply (pol_same no_ov w).
Qed.

Lemma psteps_detach w s : Pol no_ov w s -> psteps s (clm_tools_detach w).
Proof.
  intros HP. unfold clm_tools_detach. destruct (detach_all_le (tools (agent w))) as [D1 D2].
  pose proof (pol_tools no_ov w (detach_all (tools (agent w))) s D1 D2 HP) as HP'.
  set (w1 := set_tools w _) in *. case_if; [case_if; [by apply (pol_same no_ov w1)|]|].
  - apply pol_push; [by repeat constructor|]. by apply (pol_same no_ov w1).
  - by apply (pol_same no_ov w1).
Qed.

Lemma psteps_detach_loop w i s : Inv None 0 w (FDetach i :: s) -> Pol no_ov w (FDetach i :: s) ->
  psteps s (detach_loop w i).
Proof.
  intros HI HP. destruct (detach_alone _ _ _ _ _ HI) as [_ ->]. pose proof (detach_alive _ _ _ _ _ HI) as Hf.
  apply pol_pop in HP. unfold detach_loop. rewrite Hf.
  destruct (invs (batch w) !! i) as [v|] eqn:Hi.
  2:{ unfold psteps, batch_really_free. cbn [fst snd app]. repeat case_if; by apply (pol_same no_ov w). }
  assert (HPn : forall fs, Forall no_record fs -> psteps [] (w, fs)) by (intros; by apply pol_push).
  destruct (completed v) eqn:Hc; [apply HPn; by repeat constructor|].
  assert (Hret : forall f g', (forall v, id (f v) = id v /\ name (f v) = name v /\ def (f v) = def v) ->
    psteps [] (retire i (upd f i (set_gates w g')), [FDetach (S i)])).
  { intros f g' F. apply pol_push; [by repeat constructor|]. cbn [fst].
    destruct (F v) as (F1 & F2 & F3).
    assert (HP1 : Pol no_ov (upd (fun v => set_completed (f v)) i (set_gates w g')) []).
    { eapply (pol_mute _ i v); try done; [by apply (pol_same no_ov w)|].
      intros p _ _ out oc att []. }
    apply (pol_same no_ov (upd (fun v => set_completed (f v)) i (set_gates w g'))); try done.
    unfold retire, upd, dec_pending. wcbn. by rewrite list_alter_alter_eq. }
  assert (Eg : set_gates w (gates w) = w) by (by destruct w).
  destruct (rl_timer v).
  { rewrite <- Eg at 1. by apply Hret. }
  destruct (gate v) as [g|]; [by apply Hret|]. destruct (awaiting_perm v).
  { rewrite <- Eg at 1. by apply Hret. }
  unfold psteps. cbn [fst snd]. apply pol_push; [case_if; by repeat constructor|].
  by apply (pol_mute _ i v).
Qed.
End Policy.
