(* ===== verification/ToolsSpec.v ===== *)
(** What a batch of tool calls does from its start, whatever the tools, the
    hooks, the user and the timers do in between: the theorems about
    [clm_tools_dispatch] and all that follows it. *)

From S2P Require Import Prelude Utf8 TextClean Image RateLimit Tokens CJson History HistoryFacts.
From S2P Require Import Registry Tools ToolsInv ToolsFacts ToolsPolicy.

(** The user had allowed the tool for good. *)
Definition allowed_before (r : registry) (nm : list byte) : bool :=
  existsb (fun t => remembers t && beq (d_name (t_def t)) nm) r.

Lemma allowed_before_node (r : registry) k t : r !! k = Some t -> remembers t = true ->
  allowed_before r (d_name (t_def t)) = true.
Proof.
  intros Hk Hr. apply existsb_exists. exists t. split.
  - apply list_elem_of_In. by eapply list_elem_of_lookup_2.
  - by rewrite Hr, beq_refl.
Qed.

Section Spec.
Context `{CJson} (fnmatch : list byte -> list byte -> bool) (parse : list byte -> option cJSON).
Context (print : cJSON -> option (list byte)) (env : tool_env).
(** The calls of the batch, the history before it, and what the user had
    allowed for good. *)
Context (cs : list (list byte * list byte * list byte)) (h0 : clm_history).
Context (pre : list byte -> bool).

Abbreviation run_frame := (run_frame fnmatch parse env).
Abbreviation step := (step fnmatch parse env).
Abbreviation run := (run fnmatch parse env).
Abbreviation Pol := (Pol (n_pre_tool_hooks env) cs h0).

(** ** Before and while the calls are built *)

Definition rem_ok (r : registry) : Prop :=
  forall k t, r !! k = Some t -> remembers t = true -> pre (d_name (t_def t)) = true.

Lemma rem_ok_le r r' : rem_le r r' -> rem_ok r -> rem_ok r'.
Proof. intros Hle Hr k t' Hk Ht. destruct (Hle k t' Hk Ht) as (t & Hk' & <- & Ht'). by eapply Hr. Qed.

(** The calls [done_cs] are built. *)
Record built (done_cs : list (list byte * list byte * list byte)) (w : world) : Prop := {
  b_len : length (invs (batch w)) = length done_cs;
  b_static i v : invs (batch w) !! i = Some v -> exists a, done_cs !! i = Some (id v, name v, a);
  b_fresh i v : invs (batch w) !! i = Some v ->
    started v = false /\ completed v = false /\ timed_out v = false /\ force_ask v = false /\
    gate v = None /\ gate_next v = 0%nat /\ awaiting_perm v = false;
  b_def i v k : invs (batch w) !! i = Some v -> def v = Some k ->
    exists t, tools (agent w) !! k = Some t /\ d_name (t_def t) = name v;
  b_rem : rem_ok (tools (agent w));
  b_log : log w = [];
  b_hist : exists m, history (agent w) = h0 ++ [m] /\
    hkey m = (CLM_ROLE_ASSISTANT, None, None, map call_key done_cs)
}.

Lemma built_one ds w c : built ds w -> built (ds ++ [c]) (build_one parse env (length h0) w c).
Proof.
  intros [B1 B2 B3 B4 B5 B6 (m & Hh & Hm)]. destruct c as [[ci cn] ca]. unfold build_one.
  set (h1 := alter _ (length h0) (history (agent w))).
  assert (Hh1 : exists m', h1 = h0 ++ [m'] /\
    hkey m' = (CLM_ROLE_ASSISTANT, None, None, map call_key (ds ++ [(ci, cn, ca)]))).
  { unfold hkey in Hm. injection Hm as M1 M2 M3 M4. eexists. split.
    - unfold h1. rewrite Hh, alter_app_r_alt by done. rewrite Nat.sub_diag. reflexivity.
    - unfold clm_message_add_tool_call, hkey. rewrite M1. cbn.
      by rewrite M2, M3, M4, map_app. }
  set (d := find_tool _ cn).
  assert (Hd : forall k, d = Some k -> exists t, tools (agent w) !! k = Some t /\ d_name (t_def t) = cn).
  { intros k Hk. destruct (find_tool_Some _ _ _ Hk) as [(t & Ht & Hn) _]. exists t. split; [done|].
    unfold named in Hn. apply andb_true_iff in Hn as [_ Hn]. by apply beq_eq in Hn. }
  set (w1 := match d with Some _ => _ | None => _ end).
  assert (Hw1 : reg_le (tools (agent w)) (tools (agent w1)) /\ rem_le (tools (agent w)) (tools (agent w1)) /\
    invs (batch w1) = invs (batch w) /\ log w1 = log w /\ history (agent w1) = h1).
  { subst w1. destruct d as [k|]; cbn.
    - destruct (pin_le (tools (agent w)) k). by split_and!.
    - split_and!; try done; intros j t; eauto. }
  destruct Hw1 as (L1 & L2 & E1 & E2 & E3). clearbody w1.
  destruct (inv_compute_limits _ _ _) as [cap to]. cbv zeta. rewrite E1.
  assert (Hlk : forall i v, (invs (batch w) ++ [mk_inv d ci cn ca cap to false false false false false
      None 0 false None false false]) !! i = Some v ->
    invs (batch w) !! i = Some v \/ i = length ds /\ v = mk_inv d ci cn ca cap to false false false false
      false None 0 false None false false).
  { intros i v [Hi|[Hi Hv]]%lookup_app_Some; [by left|]. right.
    apply list_lookup_singleton_Some in Hv as [Hv <-]. split; [lia|done]. }
  constructor; wcbn.
  - rewrite !length_app, B1. done.
  - intros i v Hi. destruct (Hlk i v Hi) as [Hi'|[-> ->]].
    + destruct (B2 i v Hi') as (a & Ha). exists a. by apply lookup_app_l_Some.
    + exists ca. by rewrite lookup_app_r, Nat.sub_diag by done.
  - intros i v Hi. destruct (Hlk i v Hi) as [Hi'|[-> ->]]; [by eapply B3|done].
  - intros i v k Hi Hk. destruct (Hlk i v Hi) as [Hi'|[-> ->]].
    + destruct (B4 i v k Hi' Hk) as (t & Ht & Hn). destruct (L1 k t Ht) as (t' & Ht' & E).
      exists t'. by rewrite E.
    + destruct (Hd k Hk) as (t & Ht & Hn). destruct (L1 k t Ht) as (t' & Ht' & E). exists t'. by rewrite E.
  - by eapply rem_ok_le.
  - by rewrite E2.
  - by rewrite E3.
Qed.

Lemma built_all cs' : forall ds w, built ds w ->
  built (ds ++ cs') (build parse env (length h0) w (map Some cs')).
Proof.
  induction cs' as [|c cs' IH]; intros ds w Hw; cbn; [by rewrite app_nil_r|].
  replace (ds ++ c :: cs') with ((ds ++ [c]) ++ cs') by (by rewrite <- app_assoc). apply IH. by apply built_one.
Qed.

(** What the batch's calls may do without a prompt. *)
Definition no_prompt (w : world) (i : nat) : bool :=
  match v ← invs (batch w) !! i; k ← def v; tools (agent w) !! k with
  | Some t => has_flag (t_def t) CLM_TOOL_NO_PROMPT
  | None => false
  end.

Lemma built_pol w s : built cs w -> Forall no_record s -> Pol (no_prompt w) pre no_ov w s.
Proof.
  intros [B1 B2 B3 B4 B5 B6 (m & Hh & Hm)] Hs. constructor; rewrite ?B6; try done.
  - intros i v k Hi Hk. destruct (B4 i v k Hi Hk) as (t & Ht & Hn). exists t. split_and!; try done.
    unfold no_prompt. rewrite Hi. cbn. rewrite Hk. cbn. by rewrite Ht.
  - intros k t Hk Ht. unfold standing. cbn. rewrite orb_false_r. by eapply B5.
  - intros i v Hi. destruct (B3 i v Hi) as (F1 & F2 & F3 & F4 & F5 & F6 & F7).
    exists (PHooks 0 false). split; [done|]. unfold call_state, no_ov, call_at. rewrite F1, F2, F4.
    split; [done|]. exists 0%nat. unfold gate_count. rewrite F5, F6, F7. split_and!; try done. lia.
  - rewrite Hh, map_app. cbn. by rewrite Hm.
Qed.

(** ** Steps *)

Definition building (w : world) (s : list frame) : Prop :=
  built [] w /\ In (FBuild (length h0) (map Some cs)) s.

Definition Policy (w : world) (s : list frame) : Prop :=
  building w s \/ exists np, Pol np pre no_ov w s.

Definition policy_steps (s : list frame) (r : world * list frame) : Prop :=
  Policy (fst r) (snd r ++ s).

Lemma built_nil w w' : batch w' = batch w \/ invs (batch w') = invs (batch w) ->
  rem_le (tools (agent w)) (tools (agent w')) ->
  history (agent w') = history (agent w) -> log w' = log w -> built [] w -> built [] w'.
Proof.
  intros E0 Hle E2 E3 [B1 B2 B3 B4 B5 B6 B7].
  assert (E : invs (batch w') = invs (batch w)) by (destruct E0 as [->| ->]; done).
  assert (En : invs (batch w) = []) by (by destruct (invs (batch w))).
  constructor; rewrite ?E, ?E2, ?E3; try done; try by (rewrite En).
  by eapply rem_ok_le.
Qed.

Lemma rem_le_refl r : rem_le r r.
Proof. intros k t; eauto. Qed.

Lemma building_same w w' fs s : building w s -> batch w' = batch w \/ invs (batch w') = invs (batch w) ->
  rem_le (tools (agent w)) (tools (agent w')) ->
  history (agent w') = history (agent w) -> log w' = log w -> policy_steps s (w', fs).
Proof.
  intros [HB Hin] E1 E2 E3 E4. left. split; [by eapply built_nil|]. apply in_app_iff. by right.
Qed.

Context (Hcs : cs <> []).

(** While the calls are not built none can be touched. *)
Lemma building_facts w s : Inv None 0 w s -> building w s ->
  invs (batch w) = [] /\ agent_gone (agent w) = false /\ Forall no_record s /\
  (1 < pending (batch w))%nat /\ (forall i, fsum (carries i) s = 0%nat) /\
  (forall i, fsum (is_gate_run i) s = 0%nat).
Proof.
  intros HI [HB Hin].
  destruct (i_build _ _ _ _ HI) as [_ Hb]. destruct (Hb _ _ Hin) as (E & _ & Hz).
  assert (Hg : agent_gone (agent w) = false).
  { destruct (agent_gone (agent w)) eqn:Hg; [|done]. pose proof (i_phase _ _ _ _ HI) as H9.
    rewrite Hg in H9. destruct H9 as (_ & _ & H9).
    destruct s as [|f [|f' [|]]]; try done; destruct f; try done;
      repeat destruct Hin as [Hin|Hin]; try done; destruct f'; try done. }
  split_and!; try done; [| |intros i; by destruct (Hz i) as (? & ? & ?)..].
  - apply List.Forall_forall. intros f Hf. destruct f; try done. exfalso.
    destruct (Hz i) as (_ & _ & Hz'). pose proof (fsum_in (is_record i) s _ Hf) as Hr.
    cbn in Hr. rewrite Nat.eqb_refl in Hr. cbn in Hr. lia.
  - rewrite (i_pending _ _ _ _ HI). pose proof (fsum_in frame_holds s _ Hin) as Hr. cbn in Hr.
    rewrite length_map in Hr. destruct cs; [done|]. cbn in Hr. lia.
Qed.

Lemma building_release w s : (1 < pending (batch w))%nat -> building w s ->
  policy_steps s (release w).
Proof.
  intros Hp HB. unfold release. case_if; [eapply building_same; [done|by left|apply rem_le_refl|done..]|].
  case_if; [bool_facts; unfold dec_pending in *; cbn in *; lia|].
  eapply building_same; [done|by right|apply rem_le_refl|done..].
Qed.

Lemma building_pop w f s : building w (f :: s) -> f <> FBuild (length h0) (map Some cs) -> building w s.
Proof. intros [HB [?|Hin]] Hf; [done|by split]. Qed.

Lemma building_frame o f w s : is_callback f = false -> Inv None 0 w (f :: s) ->
  building w (f :: s) -> policy_steps s (run_frame o f w).
Proof.
  intros Hf HI HB. destruct (building_facts _ _ HI HB) as (E & Hg & Hr & Hp & Hc & Hgr).
  assert (Hcar : forall i, fsum (carries i) [f] = 0%nat) by (intros i; specialize (Hc i); cbn in *; lia).
  destruct f; try done; cbn [Tools.run_frame].
  - destruct HB as [HB Hin]. destruct (i_build _ _ _ _ HI) as [H1 _].
    destruct Hin as [[= -> ->]|Hin]; [|pose proof (fsum_in is_build s _ Hin); cbn in *; lia].
    right. exists (no_prompt (build parse env (length h0) w (map Some cs))). cbn [fst snd].
    apply built_pol; [by apply (built_all cs [])|]. apply Forall_inv_tail in Hr. by repeat constructor.
  - specialize (Hcar i). cbn in Hcar. rewrite Nat.leb_refl in Hcar. done.
  - specialize (Hcar i). cbn in Hcar. rewrite Nat.eqb_refl in Hcar. done.
  - specialize (Hcar i). cbn in Hcar. rewrite Nat.eqb_refl in Hcar. done.
  - by apply Forall_inv in Hr.
  - apply building_pop in HB; [|done]. unfold finalize_done.
    case_if; (eapply building_same; [done|by right|apply rem_le_refl|done..]).
  - apply building_pop in HB; [|done]. by apply building_release.
  - pose proof (i_closed _ _ _ _ HI) as Hcl. cbn in Hcl.
    destruct (pending (batch w)); [lia|]. cbn in Hcl. lia.
  - apply building_pop in HB; [|done]. unfold cancel_loop. rewrite E. cbn.
    case_if; [eapply building_same; [done|by left|apply rem_le_refl|done..]|].
    by apply building_release.
  - pose proof (i_phase _ _ _ _ HI) as HL. rewrite Hg in HL. destruct HL as (_ & _ & _ & HL & _). done.
Qed.

Lemma building_api o w s a : Inv None 0 w s -> building w s -> allowed w s a = true ->
  policy_steps s (do_api env o w a).
Proof.
  intros HI HB Ha. destruct (building_facts _ _ HI HB) as (E & Hg & Hr & Hp & Hc & Hgr).
  assert (Hno : forall i p, holds_inv w i p = false) by (intros i p; unfold holds_inv; by rewrite E).
  assert (Hs : s <> []) by (by destruct HB as [_ Hin]; intros ->).
  destruct a; cbn [do_api allowed] in *; rewrite ?Hno in Ha; try done.
  - unfold clm_tool_gate_respond. destruct (gates w !! g) as [[i| |]|] eqn:Eg; try done.
    + destruct (i_gates _ _ _ _ HI g i Eg) as (u & Hu & _). by rewrite E in Hu.
    + eapply building_same; [done|by left|apply rem_le_refl|done..].
  - rewrite E in Ha. bool_facts. cbn in *. lia.
  - by rewrite andb_false_r in Ha.
  - by rewrite andb_false_r in Ha.
  - unfold clm_tools_cancel.
    repeat case_if; (eapply building_same; [done|by right|apply rem_le_refl|done..]).
  - by destruct s.
  - eapply building_same; [done|by left|apply add_le|done..].
  - eapply building_same; [done|by left|apply remove_le|done..].
Qed.

Section Running.
Context (np : nat -> bool).
Abbreviation Pol' := (Pol np pre no_ov).
Abbreviation psteps' := (psteps (n_pre_tool_hooks env) cs h0 np pre).

Lemma pol_frame o f w s : is_callback f = false -> Inv None 0 w (f :: s) -> Pol' w (f :: s) ->
  psteps' s (run_frame o f w).
Proof.
  intros Hf HI HP. pose proof (pol_pop _ _ _ _ _ _ _ _ _ HP) as HP'.
  destruct f; [done|..]; cbn [Tools.run_frame].
  - destruct (i_build _ _ _ _ HI) as [_ Hb]. destruct (Hb _ _ (or_introl eq_refl)) as (E & _).
    pose proof (p_len _ _ _ _ _ _ _ _ HP) as Hl. rewrite E in Hl. by destruct cs.
  - by apply psteps_dispatch.
  - destruct (pop_dispatch_tool _ _ _ _ HI) as (HI' & Hg & v & Hi). by eapply psteps_dispatch_tool.
  - destruct (pop_gate_run _ _ _ _ HI) as (HI' & Hg & v & Hi & Hd).
    destruct (def v) as [k|] eqn:Ek; [|done]. by eapply psteps_gate_run.
  - by apply psteps_record.
  - by apply psteps_done.
  - by apply pol_release.
  - by apply pol_batch_free.
  - by apply psteps_cancel_loop.
  - by apply psteps_detach_loop.
Qed.

Lemma pol_api o w s a : Inv None 0 w s -> Pol' w s -> allowed w s a = true ->
  match s with [] | FCallback _ :: _ => True | _ => False end -> psteps' s (do_api env o w a).
Proof.
  intros HI HP Ha Hs. pose proof (fun Hg => gone_outside w s HI Hg Hs) as Hgone.
  destruct a; cbn [do_api allowed] in *;
    try (destruct (report_cases w s i HI Hs Ha) as (v0 & Hi & Hf & [Hc|[Hr Hal]]);
         [destruct (report_done env o w i v0 Hi Hf Hc) as (R1 & R2 & R3 & R4 & R5); rewrite ?R1, ?R2, ?R3, ?R4, ?R5; exact HP
         |pose proof (running_phase _ _ _ _ _ _ _ _ _ HP Hi Hr) as Hl]).
  - bool_facts. apply (on_call_ok w i _ _ ltac:(eassumption)). intros v0 Hi _.
    eapply on_inv_ok; [done..|]. by eapply (pol_mute _ _ _ _ _ (fun v => set_cancel v b) i v0).
  - unfold clm_tool_complete. by eapply psteps_complete_buf.
  - by eapply psteps_complete_buf.
  - by eapply psteps_image.
  - by eapply psteps_base64.
  - by eapply running_fail.
  - destruct (gates w !! g) as [[i| |]|] eqn:Eg; try done.
    + apply (psteps_gate_respond _ _ _ _ _ _ eq_refl o w g i); try done.
      destruct (agent_gone (agent w)) eqn:E; [|done].
      destruct (i_gates _ _ _ _ HI g i Eg) as (v0 & Hi & Hgv).
      destruct (Hgone eq_refl) as [->|(cb & k & ->)]; [|done].
      destruct (gone_quiet w i v0 HI E Hi) as (_ & _ & Q & _). congruence.
    + unfold clm_tool_gate_respond. rewrite Eg. by apply (pol_same _ _ _ _ _ no_ov w).
  - bool_facts. destruct (lookup_lt_is_Some_2 (invs (batch w)) i) as [v0 Hi]; [done|].
    destruct (agent_gone (agent w)) eqn:E; [|by eapply psteps_permission_respond].
    destruct (Hgone eq_refl) as [->|(cb & k & ->)]; [|done].
    unfold clm_tool_permission_respond. eapply on_inv_ok; [done..|].
    destruct (gone_quiet w i v0 HI E Hi) as (_ & _ & _ & ->). done.
  - bool_facts. destruct s; [|done]. apply (on_call_ok w i _ _ ltac:(eassumption)). intros v0 Hi Hp. bool_facts.
    destruct (agent_gone (agent w)) eqn:E; [|by eapply psteps_on_timeout].
    destruct (gone_quiet w i v0 HI E Hi) as (Q & _). congruence.
  - bool_facts. destruct s; [|done]. apply (on_call_ok w i _ _ ltac:(eassumption)). intros v0 Hi Hp.
    by eapply psteps_rl_timer.
  - by apply psteps_cancel.
  - by apply psteps_detach.
  - by apply pol_tools; [apply add_le..|].
  - by apply pol_tools; [apply remove_le..|].
Qed.
End Running.

Lemma policy_step ch c c' : Inv None 0 (fst c) (snd c) -> Policy (fst c) (snd c) ->
  step ch c = Some c' -> Policy (fst c') (snd c').
Proof.
  destruct c as [w s]. cbn [fst snd]. intros HI HP E. destruct ch as [o| |o a]; cbn [Tools.step] in E.
  - destruct s as [|f s]; [done|]. destruct (is_callback f) eqn:Ef; [done|].
    assert (R : policy_steps s (run_frame o f w)).
    { destruct HP as [HB|[np HP]]; [by apply building_frame|]. right. exists np. by apply pol_frame. }
    destruct (Tools.run_frame _ _ _ _ _ _) as [w' fs]. by injection E as <-.
  - destruct s as [|[] s]; try done. injection E as <-. cbn [fst snd].
    destruct HP as [HB|[np HP]]; [left; by apply building_pop in HB|right]. exists np. by apply pol_pop in HP.
  - assert (Hs : match s with [] | FCallback _ :: _ => True | _ => False end /\
      (if allowed w s a then let '(w', fs) := do_api env o w a in Some (w', fs ++ s) else None) = Some c')
      by (by destruct s as [|[]]).
    destruct Hs as [Hs E']. destruct (allowed w s a) eqn:Ea; [|done].
    assert (R : policy_steps s (do_api env o w a)).
    { destruct HP as [HB|[np HP]]; [by apply building_api|]. right. exists np. by apply pol_api. }
    destruct (do_api env o w a) as [w' fs]. by injection E' as <-.
Qed.

Lemma policy_run chs : forall c c', Inv None 0 (fst c) (snd c) -> Policy (fst c) (snd c) ->
  run chs c = Some c' -> Inv None 0 (fst c') (snd c') /\ Policy (fst c') (snd c').
Proof.
  induction chs as [|ch chs IH]; intros c c' HI HP; cbn [Tools.run]; [by intros [= <-]|].
  destruct (Tools.step _ _ _ ch c) as [c1|] eqn:E; [|done]. cbn.
  apply IH; [by eapply step_ok|by eapply policy_step].
Qed.

(** ** From the start *)

(** What the model asked for; [None] when an id or a name is not a string. *)
Definition batch_calls (tool_calls : cJSON) : option (list (list byte * list byte * list byte)) :=
  mapM (read_call print) (cJSON_elements tool_calls).

Lemma mapM_map {A B} (f : A -> option B) l k : mapM f l = Some k -> map f l = map Some k.
Proof.
  intros E. apply mapM_Some in E. induction E as [|x y l k Hx _ IH]; [done|]. cbn. by rewrite Hx, IH.
Qed.

Lemma mapM_is_Some {A B} (f : A -> option B) l k : mapM f l = Some k -> Forall (fun x => is_Some (f x)) l.
Proof.
  intros E. apply mapM_Some in E. induction E as [|x y l k Hx _ IH]; constructor; [by exists y|done].
Qed.

Lemma start_policy w tc : can_start w -> batch_calls tc = Some cs ->
  h0 = history (agent w) -> pre = allowed_before (tools (agent w)) ->
  Inv None 0 (fst (start print w tc)) (snd (start print w tc)) /\
  Policy (fst (start print w tc)) (snd (start print w tc)).
Proof.
  intros Hw Hc E1 E2. pose proof (mapM_map _ _ _ Hc) as Hm.
  assert (Hne : cJSON_elements tc <> []).
  { intros E. rewrite E in Hm. by destruct cs. }
  split.
  - apply start_ok; [done|]. split; [done|]. by eapply mapM_is_Some.
  - left. unfold start, clm_tools_dispatch. destruct (cJSON_elements tc) as [|x l] eqn:E; [done|].
    rewrite <- E in *. clear E. cbn [fst snd]. destruct Hw as [C1 C2 C3 C4 C5]. split.
    + constructor; wcbn; try done.
      * intros k t Hk Ht. rewrite E2. by eapply allowed_before_node.
      * rewrite E1. unfold clm_history_add_assistant_tool_calls. by eexists.
    + right. left. by rewrite Hm, E1.
Qed.

End Spec.
