(* ===== verification/ToolsTheorems.v ===== *)
(** The theorems about the dispatch of tool calls: no use of freed memory,
    no lost call, the policy every call passes, the history a batch leaves,
    and that it runs to an end; with runs that show the API rules the code
    relies on. *)

From S2P Require Import Prelude Utf8 TextClean Image RateLimit Tokens CJson History HistoryFacts.
From S2P Require Import Registry Tools ToolsInv ToolsFacts ToolsPolicy ToolsSpec.

(** ** What the automaton says of the events before one *)

Definition is_hook_of (i : nat) (e : event) : nat :=
  match e with EvHook j _ => b2n (j =? i)%nat | _ => 0%nat end.

Section LifeFacts.
Context (n : nat) (nm : nat -> list byte) (np : nat -> bool) (pre : list byte -> bool).
Abbreviation life := (life n nm np pre).
Abbreviation standing := (standing nm pre).

Lemma life_prefix l2 l1 i p : life (l2 ++ l1) i = Some p -> exists q, life l1 i = Some q.
Proof.
  revert p. induction l2 as [|e l2 IH]; intros p; cbn; [eauto|].
  destruct (ToolsPolicy.life _ _ _ _ (l2 ++ l1) i) as [q|] eqn:E; [|done]. intros _. by eapply IH.
Qed.

Lemma standing_allow l t : standing l t = true ->
  pre t = true \/ exists j, In (EvAnswer j CLM_PERM_ALLOW_ALWAYS) l /\ nm j = t.
Proof.
  unfold ToolsPolicy.standing. intros [?|H]%orb_true_iff; [by left|]. right.
  apply existsb_exists in H as (e & Hin & He). destruct e; try done. destruct d; try done.
  apply beq_eq in He. eauto.
Qed.

(** What call [i] has been through. *)
Definition passed (l : list event) (i : nat) : Prop :=
  ~ In (EvHook i CLM_GATE_DENY) l /\ ~ In (EvInvoke i) l /\ forall o, ~ In (EvResult i o) l.

Lemma not_mine i e l : event_of i e = false ->
  (forall x, event_of i x = true -> In x (e :: l) <-> In x l) /\ is_hook_of i e = 0%nat.
Proof.
  intros He. split.
  - intros x Hx. split; [intros [->|?]; [congruence|done]|by right].
  - destruct e; cbn in *; try done. by rewrite He.
Qed.

Lemma life_facts l i p : life l i = Some p ->
  match p with
  | PHooks k a => passed l i /\ fsum (is_hook_of i) l = k /\ (k <= n)%nat /\
                  (a = false -> ~ In (EvHook i CLM_GATE_ASK) l)
  | PAllowed => passed l i /\ fsum (is_hook_of i) l = n /\
                exists d, In (EvAnswer i d) l /\ is_allow d = true
  | PDenied => ~ In (EvInvoke i) l /\ forall o, ~ In (EvResult i o) l
  | PRunning => In (EvInvoke i) l /\ forall o, ~ In (EvResult i o) l
  | PFinished => True
  end.
Proof.
  revert p. induction l as [|e l IH]; intros p; cbn [ToolsPolicy.life].
  { intros [= <-]. unfold passed. cbn. split_and!; tauto || lia. }
  destruct (ToolsPolicy.life _ _ _ _ l i) as [q|] eqn:E; [|done]. cbn [mbind option_bind].
  specialize (IH q eq_refl). unfold passed in *.
  destruct (event_of i e) eqn:He.
  - intros Hn. destruct q, e; try done; apply Nat.eqb_eq in He; subst i0; cbn [next_phase] in Hn;
      (try destruct v); (try destruct o); (try destruct (is_allow d) eqn:Ed); repeat case_if_in Hn; try done;
      injection Hn as <-; bool_facts; cbn [In fsum is_hook_of]; rewrite ?Nat.eqb_refl; cbn [b2n]; try done;
      intuition (try congruence; try lia; eauto).
  - intros [= <-]. destruct (not_mine i e l He) as [Hev Hz].
    assert (H1 : forall o, In (EvResult i o) (e :: l) <-> In (EvResult i o) l)
      by (intros o; apply Hev, Nat.eqb_refl).
    assert (H2 : forall v, In (EvHook i v) (e :: l) <-> In (EvHook i v) l)
      by (intros v; apply Hev, Nat.eqb_refl).
    assert (H3 : In (EvInvoke i) (e :: l) <-> In (EvInvoke i) l) by (apply Hev, Nat.eqb_refl).
    cbn [fsum]. rewrite Hz. cbn [Nat.add].
    destruct q; rewrite ?H2, ?H3; try setoid_rewrite H1; try done.
    destruct IH as (I1 & I2 & d & I3 & I4). split; [done|]. split; [done|]. exists d.
    split; [by right|done].
Qed.
End LifeFacts.

(** ** What a history's keys decide *)

Lemma key_fields m m' : hkey m = hkey m' ->
  is_tool m = is_tool m' /\ call_ids m = call_ids m' /\ tool_call_id m = tool_call_id m' /\
  forall id, answers id m = answers id m'.
Proof.
  unfold hkey. intros [= E1 E2 E3 E4].
  unfold is_tool, call_ids, has_calls, answers. by rewrite E1, E2, E4.
Qed.

Lemma result_present_keys h h' id : map hkey h = map hkey h' ->
  tool_result_present h id = tool_result_present h' id.
Proof.
  revert h'. induction h as [|m h IH]; intros [|m' h']; try done. cbn [map]. intros E.
  injection E as Em Eh. destruct (key_fields m m') as (E1 & _ & _ & E2); [unfold hkey; congruence|].
  destruct id as [i|]; [|done]. cbn. by rewrite E1, E2, (IH h').
Qed.

Lemma answered_keys h h' : map hkey h = map hkey h' -> answered h -> answered h'.
Proof.
  revert h'. induction h as [|m h IH]; intros [|m' h']; try done. cbn [map]. intros E.
  injection E as Em Eh. destruct (key_fields m m') as (_ & E1 & _ & _); [unfold hkey; congruence|].
  cbn. rewrite <- E1. intros [Hm Hh]. split; [|by apply IH].
  intros id Hid. rewrite <- (result_present_keys h) by done. by apply Hm.
Qed.

Lemma orphan_free_keys h h' ids : map hkey h = map hkey h' -> orphan_free ids h -> orphan_free ids h'.
Proof.
  revert h' ids. induction h as [|m h IH]; intros [|m' h'] ids; try done. cbn [map]. intros E.
  injection E as Em Eh. destruct (key_fields m m') as (E1 & E2 & E3 & _); [unfold hkey; congruence|].
  cbn. rewrite <- E1, <- E2, <- E3. destruct (is_tool m); [intros [? ?]; split; [done|]|]; by apply IH.
Qed.

(** ** What holds of a batch, at every point *)

(** A state of the machine that a batch of the calls [cs], started on [w0],
    can come to. *)
Record reached `{CJson} fnmatch parse print env (w0 : world) (tc : cJSON)
    (cs : list (list byte * list byte * list byte)) (w : world) (s : list frame) : Prop := {
  r_start : can_start w0;
  r_calls : batch_calls print tc = Some cs;
  r_some : cs <> [];
  r_run : exists chs, run fnmatch parse env chs (start print w0 tc) = Some (w, s)
}.

Section Theorems.
Context `{CJson} (fnmatch : list byte -> list byte -> bool) (parse : list byte -> option cJSON).
Context (print : cJSON -> option (list byte)) (env : tool_env).
Context (w0 : world) (tc : cJSON) (cs : list (list byte * list byte * list byte)).

Abbreviation reached := (reached fnmatch parse print env w0 tc cs).
Abbreviation hooks := (n_pre_tool_hooks env).
Abbreviation life := (life hooks (call_name cs)).

Lemma reached_inv w s : reached w s ->
  Inv None 0 w s /\ Policy env cs (history (agent w0)) (allowed_before (tools (agent w0))) w s.
Proof.
  intros [R1 R2 R3 [chs R4]].
  destruct (start_policy print env cs _ _ R3 w0 tc R1 R2 eq_refl eq_refl) as [I0 P0].
  exact (policy_run fnmatch parse env cs _ _ R3 chs _ (w, s) I0 P0 R4).
Qed.

(** While the calls are being built nothing has happened. *)
Lemma reached_pol w s : reached w s ->
  (log w = [] /\ invs (batch w) = [] /\ s <> []) \/
  exists np, Pol hooks cs (history (agent w0)) np (allowed_before (tools (agent w0))) no_ov w s.
Proof.
  intros [HI [[HB Hin]|?]]%reached_inv; [left|by right]. split_and!.
  - apply (b_log _ _ _ _ HB).
  - apply length_zero_iff_nil. apply (b_len _ _ _ _ HB).
  - by intros ->.
Qed.

(** C29. Dispatching a batch never uses freed memory: whatever the tools, the
    hooks, the user, the frontend and the timers do, in any order and from
    inside any callback, as long as each keeps to the rules of the API and no
    report is one of those [fatal_report] lists, which the rules let a tool
    make and the code does not survive ([fatal_reports_are_fatal]). It does
    not read past the output of a call either, unless the call's cap is below
    32 bytes or in the twelve from 516. And what is counted is right:
    [pending] is the number of unfinished calls plus the holds of the
    functions on the stack, each registry node is held once by each unfinished
    call of it, and the batch is freed at most once, after its last call. *)
Theorem dispatch_safe w s (Hr : reached w s) :
  bad w = false /\
  (forall i cap, In (EvPastEnd i cap) (log w) -> ~ cap_ok cap) /\
  pending (batch w) = (fsum open_call (invs (batch w)) + fsum frame_holds s)%nat /\
  (batch_freed (batch w) = true -> Forall (fun v => completed v = true) (invs (batch w))) /\
  (agent_gone (agent w) = false ->
   forall k t, tools (agent w) !! k = Some t ->
     inflight t = held (invs (batch w)) k).
Proof.
  destruct (reached_inv w s Hr) as [HI _]. split_and!.
  - apply HI.
  - intros i cap Hin Hc. pose proof (fsum_in is_past_ev _ _ Hin) as E.
    rewrite (proj2 (i_bad _ _ _ _ HI)) in E. cbn in E. rewrite bool_decide_eq_true_2 in E by done. cbn in E. lia.
  - rewrite (i_pending _ _ _ _ HI). lia.
  - intros Hf. apply Forall_forall. intros v [i Hi]%list_elem_of_In%list_elem_of_lookup.
    destruct (completed v) eqn:Hc; [done|]. destruct (open_alive _ _ _ _ _ _ HI Hi Hc) as [_ Hf']. congruence.
  - intros Hg k t Hk. apply (no_inflight _ _ (ro_nodes _ _ (live_reg _ _ _ _ HI Hg) k t Hk)).
Qed.

(** What is left of a report once the agent is going: the call is retired. *)
Definition retired (w : world) (i : nat) : world :=
  let w := dec_pending (upd set_completed i w) in
  if (pending (batch w) =? 0)%nat then batch_really_free w else w.

Lemma detached_report o w i v a : report_of a = Some i -> invs (batch w) !! i = Some v ->
  batch_freed (batch w) = false -> completed v = false -> detached (batch w) = true ->
  do_api env o w a = (retired w i, []).
Proof.
  intros Ha Hi Hf Hc Hd.
  assert (Hfin : forall c oc att, inv_finalize env o w i c oc att = (retired w i, [])).
  { intros c oc att. unfold inv_finalize, on_inv, retired. rewrite Hf, Hi. wcbn. rewrite Hd. by case_if. }
  assert (Hto : finalize_timeout env o w i = (retired w i, [])).
  { unfold finalize_timeout, on_inv. by rewrite Hf, Hi. }
  assert (Hfail : forall m, clm_tool_fail env o w i m = (retired w i, [])).
  { intros m. unfold clm_tool_fail, on_inv. rewrite Hf, Hi, Hc. by case_if. }
  assert (Hbuf : forall c, clm_tool_complete_buf env o w i c = (retired w i, [])).
  { intros c. unfold clm_tool_complete_buf, on_inv. rewrite Hf, Hi, Hc. by case_if. }
  assert (Himg : forall t mt d, clm_tool_complete_image env o w i t mt d = (retired w i, [])).
  { intros t mt d. unfold clm_tool_complete_image, on_inv. rewrite Hf, Hi, Hc.
    destruct mt; [|done]. destruct d as [[|b d]|]; [done| |done]. case_if; [done|]. by case_if. }
  destruct a; try done; injection Ha as ->; cbn [do_api]; unfold clm_tool_complete; try done.
  unfold clm_tool_complete_image_base64, clm_tool_complete, on_inv. rewrite Hf, Hi, Hc.
  destruct b64 as [[|b l]|]; [done| |done]. case_if; [done|].
  destruct (clm_base64_decode (b :: l)) as [img|]; [|done].
  pose proof (sniff_answers (Some img)) as Hs.
  by destruct (clm_image_sniff (Some img)) as [[[[mt ?] ?]|]|].
Qed.

(** C30. The reports left out of the rules are fatal, whatever state of
    whatever batch they come in and whatever they say. A report of a call
    whose batch has been freed, as the tool of a call without a cancel
    callback makes after the library timed the call out, reads freed memory
    at once. A report from a cancel callback of [clm_tools_detach], of the
    last call that is open, has the batch freed under the loop, which reads
    it as soon as the callback returns. And such a report of another call
    whose timeout is armed leaves the timer armed, on a call that is over. *)
Theorem fatal_reports_are_fatal o w s a i (Hr : reached w s) (Ha : report_of a = Some i)
    (Hs : match s with [] | FCallback _ :: _ => True | _ => False end) :
  (batch_freed (batch w) = true -> bad (fst (do_api env o w a)) = true) /\
  (detaching s = true -> holds_inv w i (fun v => started v && negb (completed v)) = true ->
   exists cb k, s = [FCallback cb; FDetach k] /\
     snd (do_api env o w a) = [] /\
     (pending (batch w) = 1%nat ->
      let w' := fst (do_api env o w a) in batch_freed (batch w') = true /\ bad (fst (detach_loop w' k)) = true) /\
     (holds_inv w i timer = true -> holds_inv (fst (do_api env o w a)) i (fun v => completed v && timer v) = true)).
Proof.
  destruct (reached_inv w s Hr) as [HI _]. split.
  - intros Hf. destruct a; try done; cbn [do_api];
      unfold clm_tool_complete, clm_tool_complete_buf, clm_tool_complete_image, clm_tool_complete_image_base64,
        clm_tool_fail, on_inv; by rewrite Hf.
  - intros Hd Hh. apply (on_call_ok w i _ _ Hh). intros v Hi Hv. bool_facts.
    destruct (open_alive _ _ _ _ _ _ HI Hi ltac:(eassumption)) as [Hp Hf].
    assert (Hg : agent_gone (agent w) = true).
    { destruct (agent_gone (agent w)) eqn:Hg; [done|]. pose proof (i_phase _ _ _ _ HI) as L. rewrite Hg in L.
      destruct L as (_ & _ & _ & L & _). destruct s as [|f [|[] s]]; try done. by destruct f; cbn in L. }
    destruct (gone_outside w s HI Hg Hs) as [->|(cb & k & ->)]; [done|]. exists cb, k. split; [done|].
    pose proof (i_phase _ _ _ _ HI) as L. rewrite Hg in L. destruct L as (_ & [Hdet|?] & _); [|done].
    rewrite (detached_report o w i v a Ha Hi Hf ltac:(done) Hdet). split_and!; [done| |].
    + intros Hp1. unfold retired, dec_pending. cbn [fst]. wcbn. rewrite Hp1. cbn [pred Nat.eqb].
      unfold batch_really_free. wcbn. rewrite Hf. split; [done|]. unfold detach_loop. by wcbn.
    + unfold holds_inv, retired, batch_really_free, dec_pending. rewrite Hi. intros Ht. cbn [fst].
      wcbn. rewrite Hf. destruct (pred _ =? 0)%nat; wcbn; rewrite list_lookup_alter_eq, Hi; cbn; by rewrite Ht.
Qed.

(** C32. No call is lost and no batch is left over. Whenever the event loop
    runs, every call of the batch that has not finished waits for exactly one
    thing, the rate limit's timer, a hook's answer, the user's, or its tool;
    the batch is freed, and the agent told, exactly when all have finished;
    and it was told once. *)
Theorem dispatch_at_rest w (Hr : reached w []) (Hg : agent_gone (agent w) = false) :
  length (invs (batch w)) = length cs /\
  (forall i v, invs (batch w) !! i = Some v -> completed v = false ->
    (b2n (rl_timer v) + b2n (bool_decide (gate v <> None)) + b2n (awaiting_perm v)
     + b2n (started v) = 1)%nat /\
    forall g, gate v = Some g -> gates w !! g = Some (GInv i)) /\
  batch_freed (batch w) = forallb completed (invs (batch w)) /\
  active_batch (agent w) = negb (batch_freed (batch w)) /\
  fsum is_done_ev (log w) = b2n (batch_freed (batch w)).
Proof.
  destruct (reached_inv w [] Hr) as [HI _]. pose proof (i_phase _ _ _ _ HI) as HL. rewrite Hg in HL.
  destruct HL as (L1 & L2 & _ & _ & _).
  assert (Ef : batch_freed (batch w) = (pending (batch w) =? 0)%nat).
  { pose proof (i_closed _ _ _ _ HI) as E. cbn in E. destruct (batch_freed _), (_ =? 0)%nat; done. }
  split_and!.
  - destruct (reached_pol w [] Hr) as [(_ & _ & ?)|[np HP]]; [done|]. apply (p_len _ _ _ _ _ _ _ _ HP).
  - intros i v Hi Hc. destruct (i_calls _ _ _ _ HI i v Hi) as [T1 T2 _ _]. split; [|exact T2].
    unfold parked, in_hand in T1. rewrite Hc, bool_decide_eq_false_2, orb_false_r in T1 by done.
    destruct (gate v); [rewrite bool_decide_eq_true_2 by done|rewrite bool_decide_eq_false_2 by tauto];
      cbn in *; lia.
  - rewrite Ef, (i_pending _ _ _ _ HI). cbn. rewrite !Nat.add_0_r. generalize (invs (batch w)). clear.
    intros l. induction l as [|v l IH]; [done|]. cbn. unfold open_call at 1. by destruct (completed v).
  - rewrite L2. by rewrite Ef.
  - rewrite (i_done _ _ _ _ HI), L1, Ef. done.
Qed.

(** C33. What the dispatch does of each call is what the automaton [life]
    allows, and where the call's fields say it is is where the automaton is:
    the batch refines one automaton for each of its calls. *)
Theorem dispatch_refines_life w s (Hr : reached w s) :
  exists np,
    (forall i v k t, invs (batch w) !! i = Some v -> def v = Some k -> tools (agent w) !! k = Some t ->
       d_name (t_def t) = call_name cs i /\ has_flag (t_def t) CLM_TOOL_NO_PROMPT = np i) /\
    forall i v, invs (batch w) !! i = Some v ->
      exists p, life np (allowed_before (tools (agent w0))) (log w) i = Some p /\
                (completed v = false -> call_at hooks v p).
Proof.
  destruct (reached_pol w s Hr) as [(_ & E & _)|[np HP]].
  { exists (fun _ => false). rewrite E. by split; intros. }
  exists np. split.
  - intros i v k t Hi Hk Ht. destruct (p_def _ _ _ _ _ _ _ _ HP i v k Hi Hk) as (t' & Ht' & E1 & E2).
    assert (t' = t) as -> by congruence. split; [|done]. rewrite E1. unfold call_name.
    by destruct (p_static _ _ _ _ _ _ _ _ HP i v Hi) as (a & ->).
  - intros i v Hi. destruct (p_calls _ _ _ _ _ _ _ _ HP i v Hi) as (p & Hp & Hst). exists p.
    split; [done|]. intros Hc. unfold call_state in Hst. by rewrite Hc in Hst.
Qed.

(** Every event of a call is one of the automaton's. *)
Lemma event_phase w s l2 e l1 i : reached w s -> log w = l2 ++ e :: l1 -> event_of i e = true ->
  (i < length (invs (batch w)))%nat ->
  exists np p q, life np (allowed_before (tools (agent w0))) l1 i = Some p /\
    next_phase hooks (np i || standing (call_name cs) (allowed_before (tools (agent w0))) l1 (call_name cs i)) p e
      = Some q /\
    (forall v k t, invs (batch w) !! i = Some v -> def v = Some k -> tools (agent w) !! k = Some t ->
       has_flag (t_def t) CLM_TOOL_NO_PROMPT = np i).
Proof.
  intros Hr Hl He Hi. destruct (reached_pol w s Hr) as [(E & _)|[np HP]].
  { rewrite Hl in E. by destruct l2. }
  destruct (lookup_lt_is_Some_2 _ _ Hi) as [v Hv].
  destruct (p_calls _ _ _ _ _ _ _ _ HP i v Hv) as (p' & Hp' & _). rewrite Hl in Hp'.
  destruct (life_prefix _ _ _ _ _ _ _ _ Hp') as [q Hq]. cbn in Hq. rewrite He in Hq.
  destruct (ToolsPolicy.life _ _ _ _ l1 i) as [p|] eqn:Ep; [|done]. exists np, p, q.
  split_and!; [done..|]. intros u k t Hu Hk Ht.
  destruct (p_def _ _ _ _ _ _ _ _ HP i u k Hu Hk) as (t' & Ht' & _ & E2). congruence.
Qed.

(** C31. No tool runs unasked. When a call is handed to its tool it was not
    before, no hook denied it and every pre_tool hook has answered; and either
    the user allowed this call, or no hook asked for the user and the tool
    needs no prompt, or had been allowed for good before the batch or within
    it. *)
Theorem invoke_needs_permission w s l2 l1 i (Hr : reached w s)
    (Hl : log w = l2 ++ EvInvoke i :: l1) (Hi : (i < length (invs (batch w)))%nat) :
  passed l1 i /\ fsum (is_hook_of i) l1 = hooks /\
  ((exists d, In (EvAnswer i d) l1 /\ is_allow d = true) \/
   ~ In (EvHook i CLM_GATE_ASK) l1 /\
   ((forall v k t, invs (batch w) !! i = Some v -> def v = Some k -> tools (agent w) !! k = Some t ->
       has_flag (t_def t) CLM_TOOL_NO_PROMPT = true) \/
    allowed_before (tools (agent w0)) (call_name cs i) = true \/
    exists j, In (EvAnswer j CLM_PERM_ALLOW_ALWAYS) l1 /\ call_name cs j = call_name cs i)).
Proof.
  destruct (event_phase w s l2 (EvInvoke i) l1 i Hr Hl (Nat.eqb_refl i) Hi) as (np & p & q & Hp & Hq & Hnp).
  pose proof (life_facts _ _ _ _ _ _ _ Hp) as Hf. destruct p; try done; cbn [next_phase] in Hq.
  - case_if_in Hq; [|done]. bool_facts. destruct asked; [done|].
    destruct Hf as (F1 & F2 & _ & F3). split_and!; [done|congruence|]. right. split; [by apply F3|].
    match goal with Hx : _ || _ = true |- _ => apply orb_true_iff in Hx as [Hn|Hst] end; [left; intros v k' t Hv Hk Ht; by rewrite (Hnp v k' t Hv Hk Ht)|].
    right. by apply standing_allow.
  - destruct Hf as (H1 & H2 & H3). split_and!; [done..|]. by left.
Qed.

(** A call gets at most one result, and one that is not a failure only
    after its tool had it. *)
Theorem result_after_invoke w s l2 l1 i o (Hr : reached w s)
    (Hl : log w = l2 ++ EvResult i o :: l1) (Hi : (i < length (invs (batch w)))%nat) :
  (forall o', ~ In (EvResult i o') l1) /\ (o <> CLM_TOOL_FAILED -> In (EvInvoke i) l1).
Proof.
  destruct (event_phase w s l2 (EvResult i o) l1 i Hr Hl (Nat.eqb_refl i) Hi) as (np & p & q & Hp & Hq & Hnp).
  pose proof (life_facts _ _ _ _ _ _ _ Hp) as Hf. unfold passed in Hf.
  destruct p; try done; cbn [next_phase] in Hq; destruct o; try done; (split; [intros o'; apply Hf|]);
    intros Hne; done || apply Hf.
Qed.

Lemma count_results l i : count_occ Nat.eq_dec (results l) i = fsum (is_result_ev i) l.
Proof.
  induction l as [|e l IH]; [done|]. destruct e; cbn [results fsum is_result_ev]; try done.
  rewrite count_occ_app, IH. cbn. destruct (Nat.eq_dec i0 i) as [->|Hne].
  - rewrite Nat.eqb_refl. cbn. lia.
  - apply Nat.eqb_neq in Hne. rewrite Hne. cbn. lia.
Qed.

Lemma done_results w s : reached w s -> In EvToolsDone (log w) -> agent_gone (agent w) = false ->
  exists rs, Permutation rs (seq 0 (length cs)) /\
    map hkey (history (agent w)) = map hkey (history (agent w0))
      ++ [(CLM_ROLE_ASSISTANT, None, None, map call_key cs)] ++ map (result_key cs) rs.
Proof.
  intros Hr Hd Hg. destruct (reached_inv w s Hr) as [HI _].
  destruct (reached_pol w s Hr) as [(E & _)|[np HP]]; [by rewrite E in Hd|].
  pose proof (fsum_in is_done_ev _ _ Hd) as Hd'. rewrite (i_done _ _ _ _ HI) in Hd'. cbn in Hd'.
  destruct (pending (batch w) =? 0)%nat eqn:Ep; [|rewrite andb_false_r in Hd'; cbn in Hd'; lia].
  apply Nat.eqb_eq in Ep. rewrite (i_pending _ _ _ _ HI) in Ep.
  pose proof (i_phase _ _ _ _ HI) as HL. rewrite Hg in HL. destruct HL as (_ & _ & _ & _ & L5).
  exists (results (log w)). split; [|apply (p_hist _ _ _ _ _ _ _ _ HP)].
  pose proof (p_len _ _ _ _ _ _ _ _ HP) as Hlen.
  assert (Hone : forall i, (i < length cs)%nat -> count_occ Nat.eq_dec (results (log w)) i = 1%nat).
  { intros i Hi. rewrite count_results. rewrite <- Hlen in Hi.
    destruct (lookup_lt_is_Some_2 _ _ Hi) as [v Hv]. specialize (L5 i v Hv).
    assert (Hrec : fsum (is_record i) s = 0%nat).
    { apply fsum_zero. intros f Hf. pose proof (fsum_in frame_holds s f Hf) as Hh.
      destruct f; cbn in *; done || lia. }
    assert (Hv' : In v (invs (batch w))) by (apply list_elem_of_In; by eapply list_elem_of_lookup_2).
    pose proof (fsum_in open_call _ v Hv') as Ho. unfold open_call at 1 in Ho.
    destruct (completed v); cbn in *; lia. }
  pose proof (p_range _ _ _ _ _ _ _ _ HP) as Hrg. rewrite List.Forall_forall in Hrg.
  apply NoDup_Permutation.
  - apply NoDup_ListNoDup, (NoDup_count_occ Nat.eq_dec). intros i.
    destruct (in_dec Nat.eq_dec i (results (log w))) as [Hin|Hn]; [rewrite Hone by (by apply Hrg); lia|].
    apply (count_occ_not_In Nat.eq_dec) in Hn. lia.
  - apply NoDup_ListNoDup, seq_NoDup.
  - intros i. rewrite !list_elem_of_In, in_seq. split.
    + intros Hin. apply Hrg in Hin. lia.
    + intros Hin. apply (count_occ_In Nat.eq_dec). rewrite Hone by lia. lia.
Qed.

(** What a batch leaves in the history, once the agent is told that it
    is done: what was there, one assistant message with every call of the
    batch in the model's order, and one result for each call, under its id
    and its tool's name, in the order they finished. Contents of older
    messages may have been replaced (a superseded volatile result), their
    roles, ids and calls not. *)
Theorem batch_history w s (Hr : reached w s) (Hd : In EvToolsDone (log w))
    (Hg : agent_gone (agent w) = false) :
  exists rs, Permutation rs (seq 0 (length cs)) /\
    map hkey (history (agent w)) = map hkey (history (agent w0))
      ++ [(CLM_ROLE_ASSISTANT, None, None, map call_key cs)] ++ map (result_key cs) rs.
Proof. by eapply done_results. Qed.

(** The new part of the history. *)
Lemma exchange_ok m rs h : hkey m = (CLM_ROLE_ASSISTANT, None, None, map call_key cs) ->
  map hkey h = map (result_key cs) rs -> Permutation rs (seq 0 (length cs)) -> cs <> [] ->
  answered (m :: h) /\ orphan_free [] (m :: h) /\ is_tool m = false.
Proof.
  unfold hkey at 1. intros Em Eh Hp Hcs. injection Em as M1 M2 M3 M4.
  assert (Hids : call_ids m = map (fun c => Some (fst (fst c))) cs).
  { unfold call_ids, has_calls. rewrite M1, M4. destruct cs as [|c0 cs']; [done|].
    cbn [map]. rewrite map_map. f_equal; [by destruct c0 as [[] ?]|].
    apply map_ext. by intros [[] ?]. }
  assert (Hres : forall x, In x h -> exists i id nm a, In i rs /\ cs !! i = Some (id, nm, a) /\
    is_tool x = true /\ tool_call_id x = Some id).
  { intros x Hx. apply (in_map hkey) in Hx. rewrite Eh in Hx. apply in_map_iff in Hx as (i & Hk & Hi).
    pose proof (Permutation_in _ Hp Hi) as Hi'. apply in_seq in Hi'.
    destruct (lookup_lt_is_Some_2 cs i) as [[[id nm] a] Hc]; [lia|].
    unfold result_key in Hk. rewrite Hc in Hk. unfold hkey in Hk. injection Hk as K1 K2 K3 K4.
    exists i, id, nm, a. split_and!; try done. unfold is_tool. by rewrite <- K1. }
  assert (Hall : all_tools h).
  { apply List.Forall_forall. intros x Hx. by destruct (Hres x Hx) as (? & ? & ? & ? & _ & _ & ? & _). }
  assert (Hm : is_tool m = false) by (unfold is_tool; by rewrite M1).
  split_and!; [| |done].
  - split; [|by apply all_tools_answered]. rewrite Hids. intros id Hid.
    apply in_map_iff in Hid as ([[ci cn] ca] & <- & Hin). cbn [fst].
    apply list_elem_of_In, list_elem_of_lookup in Hin as [i Hc].
    assert (Hi : In i rs).
    { apply (Permutation_in _ (Permutation_sym Hp)). apply in_seq. apply lookup_lt_Some in Hc. lia. }
    rewrite <- (app_nil_r h), present_run by done. apply existsb_exists.
    apply (in_map (result_key cs)) in Hi. rewrite <- Eh in Hi. apply in_map_iff in Hi as (x & Hk & Hx).
    exists x. split; [done|]. unfold result_key in Hk. rewrite Hc in Hk. unfold hkey in Hk.
    injection Hk as K1 K2 K3 K4. unfold answers_id, answers. rewrite K1, K2. apply beq_refl.
  - cbn. rewrite Hm, Hids. clear Eh. induction h as [|x h IH]; [done|].
    destruct (Hres x) as (i & id & nm & a & _ & Hc & Ht & Hid); [by left|]. cbn. rewrite Ht.
    split; [|apply IH; [intros y Hy; apply Hres; by right|by apply Forall_inv_tail in Hall]].
    rewrite Hid. apply in_map_iff. exists (id, nm, a). split; [done|].
    apply list_elem_of_In. by eapply list_elem_of_lookup_2.
Qed.

Lemma done_exchange w s : reached w s -> In EvToolsDone (log w) -> agent_gone (agent w) = false ->
  answered (history (agent w0)) -> orphan_free [] (history (agent w0)) ->
  answered (history (agent w)) /\ orphan_free [] (history (agent w)).
Proof.
  intros Hr Hd Hg Ha Ho. destruct (done_results w s Hr Hd Hg) as (rs & Hp & E).
  apply map_eq_app in E as (h & x & -> & E1 & E2). apply map_eq_cons in E2 as (m & t & -> & E2 & E3).
  destruct (exchange_ok m rs t E2 E3 Hp (r_some _ _ _ _ _ _ _ _ _ Hr)) as (X1 & X2 & X3). split.
  - apply answered_app; [done|]. split; [by eapply answered_keys|done].
  - apply orphan_free_app; [done|]. split; [by eapply orphan_free_keys|done].
Qed.

(** A finished batch leaves a history every provider takes: each call
    has its result in the run of tool messages after it and each result its
    call, if the history before had that, so there is nothing for the repair
    to do. *)
Theorem batch_answers_every_call w s (Hr : reached w s) (Hd : In EvToolsDone (log w))
    (Hg : agent_gone (agent w) = false)
    (Ha : answered (history (agent w0))) (Ho : orphan_free [] (history (agent w0))) :
  answered (history (agent w)) /\ orphan_free [] (history (agent w)) /\
  clm_history_repair_dangling_tool_calls (history (agent w)) = (0, history (agent w)).
Proof.
  destruct (done_exchange w s Hr Hd Hg Ha Ho) as [A1 A2]. split_and!; [done|done|].
  unfold clm_history_repair_dangling_tool_calls. by rewrite repair_from_id.
Qed.
End Theorems.
