(* ===== verification/ToolsRun.v ===== *)
(** The dispatch of tool calls runs to an end between calls from outside, and
    the limits a call runs under; then concrete batches: the witnesses of the
    theorems, and the runs that show what the API's rules are needed for. *)

From S2P Require Import Prelude Utf8 TextClean Image RateLimit Tokens CJson History HistoryFacts.
From S2P Require Import Registry Tools ToolsInv ToolsFacts ToolsPolicy ToolsSpec ToolsTheorems.

(** ** Termination *)

(** How much a frame can still do by itself, in a batch of [n] calls. *)
Definition weight (n : nat) (f : frame) : nat :=
  match f with
  | FCallback _ | FBatchFree => 1
  | FRelease => 3
  | FDone => 5
  | FRecord _ _ _ _ => 7
  | FDispatchTool _ | FGateRun _ => 9
  | FDispatch i | FCancel i | FDetach i => 4 + 12 * (n - i)
  | FBuild _ _ => 7 + 12 * n
  end.

Abbreviation load n := (fsum (weight n)).

(** The library runs, or a callback returns: the outside makes no call. *)
Definition own (ch : choice) : Prop := match ch with Call _ _ => False | _ => True end.

Section Run.
Context `{CJson} (fnmatch : list byte -> list byte -> bool) (parse : list byte -> option cJSON).
Context (print : cJSON -> option (list byte)) (env : tool_env).
Context (n : nat).

Definition light (k : nat) (r : world * list frame) : Prop := (load n (snd r) <= k)%nat.

Lemma light_crash k w : light k (crash w, []).
Proof. unfold light. cbn. lia. Qed.

Lemma light_on_inv k w i f : (forall v, light k (f v)) -> light k (on_inv w i f).
Proof.
  intros Hf. unfold on_inv. case_if; [apply light_crash|]. destruct (invs (batch w) !! i); [done|].
  apply light_crash.
Qed.

Ltac weigh := unfold light, then_; cbn [fst snd fsum weight app]; rewrite ?fsum_app; cbn [fsum weight]; lia.

Lemma light_release w : light 2 (release w).
Proof. unfold release, batch_finalize. repeat case_if; weigh. Qed.

Lemma light_finalize o w i c oc att : light 8 (inv_finalize env o w i c oc att).
Proof.
  apply light_on_inv. intros v. cbv zeta. case_if; [case_if; weigh|]. case_if; [weigh|].
  destruct (tool_output _ _ _ _) as [[out b]|]; [destruct b|]; destruct (def v); weigh.
Qed.

Lemma light_timeout o w i : light 8 (finalize_timeout env o w i).
Proof. apply light_on_inv. intros v. apply light_finalize. Qed.

Lemma light_fail o w i m : light 8 (clm_tool_fail env o w i m).
Proof. apply light_on_inv. intros v. repeat case_if; [weigh|apply light_timeout|apply light_finalize]. Qed.

Lemma light_invoke o w i : light 8 (run_invoke env o w i).
Proof.
  apply light_on_inv. intros v. case_if; [weigh|]. destruct (live_node w v); weigh.
Qed.

Lemma light_permission o w i : light 8 (permission_gate env o w i).
Proof.
  apply light_on_inv. intros v. case_if; [weigh|]. destruct (live_node w v) as [t|]; [|weigh].
  repeat case_if; first [apply light_invoke | apply light_fail | weigh].
Qed.

Lemma light_gate o w i : light 8 (gate_run env o w i).
Proof.
  apply light_on_inv. intros v. case_if; [weigh|]. case_if; [apply light_permission|weigh].
Qed.

Lemma light_tool o w i : light 8 (dispatch_tool env o w i).
Proof. apply light_on_inv. intros v. destruct (def v); [apply light_gate|apply light_fail]. Qed.

Lemma light_one w i : light 10 (dispatch_one w i).
Proof. unfold dispatch_one. case_if; [weigh|]. apply light_on_inv. intros v. weigh. Qed.

Lemma light_then k r f : light k r -> light (k + weight n f) (then_ r f).
Proof. unfold light, then_. cbn [fst snd]. rewrite fsum_app. cbn. lia. Qed.

Lemma light_le k k' r : (k <= k')%nat -> light k r -> light k' r.
Proof. unfold light. lia. Qed.

Lemma light_dispatch o w i : (length (invs (batch w)) <= n)%nat ->
  light (3 + 12 * (n - i)) (dispatch_loop env o w i).
Proof.
  intros Hn. unfold dispatch_loop. case_if; [weigh|]. case_if; [eapply light_le; [|apply light_release]; lia|].
  destruct (clm_ratelimit_allow _ _ _) as [ok rl].
  assert (Hone : forall w', light (3 + 12 * (n - i))
      (let '(w, fs) := dispatch_one w' i in (w, fs ++ [FDispatch (S i)]))).
  { intros w'. pose proof (light_then _ _ (FDispatch (S i)) (light_one w' i)) as L.
    destruct (dispatch_one w' i). eapply light_le; [|exact L]. cbn. lia. }
  case_if; [apply Hone|]. destruct (clm_ratelimit_delay _ _ _). case_if; [weigh|]. apply Hone.
Qed.

Lemma light_cancel o w i : (length (invs (batch w)) <= n)%nat ->
  light (3 + 12 * (n - i)) (cancel_loop env o w i).
Proof.
  intros Hn. unfold cancel_loop. case_if; [weigh|].
  destruct (invs (batch w) !! i) as [v|] eqn:Hi; [|eapply light_le; [|apply light_release]; lia].
  apply lookup_lt_Some in Hi.
  assert (Hf : forall w', light (3 + 12 * (n - i)) (then_ (inv_finalize env o w' i (Some cancelled_msg)
      CLM_TOOL_FAILED None) (FCancel (S i)))).
  { intros w'. eapply light_le; [|apply light_then, light_finalize]. cbn. lia. }
  destruct (gate v); repeat case_if; first [apply Hf | weigh].
Qed.

Lemma light_detach w i : (length (invs (batch w)) <= n)%nat -> light (3 + 12 * (n - i)) (detach_loop w i).
Proof.
  intros Hn. unfold detach_loop. case_if; [weigh|].
  destruct (invs (batch w) !! i) as [v|] eqn:Hi; [|weigh]. apply lookup_lt_Some in Hi.
  destruct (gate v); repeat case_if; weigh.
Qed.

Lemma run_frame_light o f w : is_callback f = false -> (length (invs (batch w)) <= n)%nat ->
  (load n (snd (run_frame fnmatch parse env o f w)) < weight n f)%nat.
Proof.
  intros Hf Hn.
  assert (Hk : forall k r, light k r -> (k < weight n f)%nat -> (load n (snd r) < weight n f)%nat)
    by (unfold light; lia).
  destruct f; try done; cbn [run_frame].
  - cbn. lia.
  - eapply Hk; [by apply light_dispatch|cbn; lia].
  - eapply Hk; [apply light_tool|cbn; lia].
  - eapply Hk; [apply light_gate|cbn; lia].
  - apply (Hk 6%nat); [|cbn; lia]. unfold finalize_record. case_if; [weigh|].
    apply light_on_inv. intros v. weigh.
  - unfold finalize_done. case_if; cbn; lia.
  - eapply Hk; [apply light_release|cbn; lia].
  - cbn. lia.
  - eapply Hk; [by apply light_cancel|cbn; lia].
  - eapply Hk; [by apply light_detach|cbn; lia].
Qed.
End Run.

Section Termination.
Context `{CJson} (fnmatch : list byte -> list byte -> bool) (parse : list byte -> option cJSON).
Context (print : cJSON -> option (list byte)) (env : tool_env).
Context (w0 : world) (tc : cJSON) (cs : list (list byte * list byte * list byte)).

Abbreviation reached := (reached fnmatch parse print env w0 tc cs).
Abbreviation step := (step fnmatch parse env).
Abbreviation run := (run fnmatch parse env).

Lemma run_app a b c : run (a ++ b) c = (c' ← run a c; run b c').
Proof.
  revert c. induction a as [|ch a IH]; intros c; cbn; [done|].
  destruct (Tools.step _ _ _ ch c) as [c'|]; [|done]. cbn. apply IH.
Qed.

Lemma reached_step w s ch w' s' : reached w s -> step ch (w, s) = Some (w', s') -> reached w' s'.
Proof.
  intros [R1 R2 R3 [chs R4]] E. constructor; try done. exists (chs ++ [ch]).
  rewrite run_app, R4. cbn [mbind option_bind Tools.run]. by rewrite E.
Qed.

Lemma reached_length w s : reached w s -> (length (invs (batch w)) <= length cs)%nat.
Proof.
  intros Hr. destruct (reached_pol _ _ _ _ _ _ _ _ _ Hr) as [(_ & -> & _)|[np HP]]; [cbn; lia|].
  by rewrite (p_len _ _ _ _ _ _ _ _ HP).
Qed.

Lemma own_step w s ch w' s' : reached w s -> own ch -> step ch (w, s) = Some (w', s') ->
  (load (length cs) s' < load (length cs) s)%nat.
Proof.
  intros Hr Ho E. destruct ch as [o| |o a]; [| |done]; cbn in E.
  - destruct s as [|f s]; [done|]. destruct (is_callback f) eqn:Ef; [done|].
    pose proof (run_frame_light fnmatch parse env _ o f w Ef (reached_length _ _ Hr)) as L.
    destruct (run_frame _ _ _ o f w) as [w1 fs]. injection E as <- <-.
    rewrite fsum_app. cbn in *. lia.
  - destruct s as [|[] s]; try done. injection E as <- <-. cbn. lia.
Qed.

Lemma own_progress w s (o : oracle) : s <> [] -> exists ch c', own ch /\ step ch (w, s) = Some c'.
Proof.
  destruct s as [|f s]; [done|]. intros _. destruct (is_callback f) eqn:Ef.
  - destruct f; try done. by exists Return, (w, s).
  - exists (Run o). cbn [Tools.step]. rewrite Ef.
    destruct (run_frame _ _ _ o f w) as [w1 fs]. by exists (w1, fs ++ s).
Qed.

Lemma own_bound chs : forall w s w' s', reached w s -> Forall own chs ->
  run chs (w, s) = Some (w', s') ->
  (length chs + load (length cs) s' <= load (length cs) s)%nat.
Proof.
  induction chs as [|ch chs IH]; intros w s w' s' Hr Ho; cbn [Tools.run]; [intros [= <- <-]; cbn; lia|].
  destruct (Tools.step _ _ _ ch (w, s)) as [[w1 s1]|] eqn:E; [|done]. cbn [mbind option_bind]. intros Hrun.
  apply Forall_cons_1 in Ho as [Ho Hos].
  pose proof (own_step _ _ _ _ _ Hr Ho E) as L.
  pose proof (IH w1 s1 w' s' (reached_step _ _ _ _ _ Hr E) Hos Hrun) as L'. cbn [length]. lia.
Qed.

Lemma own_end k : forall w s (o : oracle), reached w s -> (load (length cs) s <= k)%nat ->
  exists chs w', Forall own chs /\ run chs (w, s) = Some (w', []).
Proof.
  induction k as [|k IH]; intros w s o Hr Hk; (destruct s as [|f s]; [by exists [], w|]);
    (destruct (own_progress w (f :: s) o) as (ch & [w1 s1] & Ho & E); [done|]);
    pose proof (own_step _ _ _ _ _ Hr Ho E) as L; [lia|].
  destruct (IH w1 s1 o (reached_step _ _ _ _ _ Hr E)) as (chs & w' & Hos & Hrun); [lia|].
  exists (ch :: chs), w'. split; [by constructor|]. cbn [Tools.run]. rewrite E. exact Hrun.
Qed.

(** C39. Between calls from outside the dispatch comes to rest. From any
    point of a batch, when the callbacks only return, the machine stops, with
    the stack empty, within a number of steps that is linear in the calls of
    the batch for each loop on the stack. *)
Theorem dispatch_terminates w s (Hr : reached w s) :
  (forall chs w' s', Forall own chs -> run chs (w, s) = Some (w', s') ->
     (length chs + load (length cs) s' <= load (length cs) s)%nat) /\
  (forall o : oracle, exists chs w', Forall own chs /\ run chs (w, s) = Some (w', [])).
Proof.
  split; [intros chs w' s'; by apply own_bound|]. intros o. by eapply own_end.
Qed.
End Termination.

(** ** Limits *)

(** A limit, with what the model asks for in its place where the tool's
    [flag] lets it. *)
Lemma limit_cases `{CJson} (parse : list byte -> option cJSON) env (d : clm_tool_def) a flag key dflt : exists x,
  match parse a with
  | Some o => if cJSON_IsObject o && has_flag d flag
              then match json_int64 env o key with Some y => if 0 <? y then y else dflt | None => dflt end
              else dflt
  | None => dflt
  end = x /\ (x = dflt \/ 0 < x) /\ (has_flag d flag = false -> x = dflt) /\
  forall o v m e, parse a = Some o -> cJSON_IsObject o = true -> has_flag d flag = true ->
    cJSON_GetObjectItemCaseSensitive o key = Some v -> cJSON_valuedouble v = Some (Finite m e) ->
    1 <= truncate m e < 2 ^ 63 -> x = truncate m e.
Proof.
  eexists. split; [reflexivity|]. split_and!.
  - destruct (parse a) as [o|]; [|auto]. case_if; [|auto]. destruct (json_int64 env o key) as [y|]; [|auto].
    case_if; auto.
  - intros E. destruct (parse a) as [o|]; [|done]. by rewrite E, andb_false_r.
  - intros o v m e -> Ho Hf Hk Hv Ht. unfold json_int64. rewrite Ho, Hf, Hk. cbn [andb mbind option_bind].
    rewrite Hv. cbn [mbind option_bind to_int64].
    rewrite (proj2 (Z.leb_le (- 2 ^ 63) _)), (proj2 (Z.ltb_lt _ (2 ^ 63))) by lia. cbn.
    by rewrite (proj2 (Z.ltb_lt 0 _)) by lia.
Qed.

(** The limits a call runs under. The output cap is at most 60 KiB,
    whatever the tool and the model say, and positive when the tool's own is;
    the timeout is at most ten minutes. The model can move a limit only when
    the tool's flags let it, and only to a positive number; a cap it asks for
    that an [int64_t] can hold is rounded toward zero. *)
Theorem limits_bounds `{CJson} (parse : list byte -> option cJSON) env (d : clm_tool_def) a cap to
    (E : inv_compute_limits parse env (Some d) a = (cap, to)) :
  cap <= CLM_TOOL_OUTPUT_CAP_MAX /\ to <= CLM_TOOL_TIMEOUT_MAX_MS /\
  (0 <= d_output_cap d -> 0 < cap) /\
  (0 <= d_timeout_ms d -> 0 <= to) /\
  (has_flag d CLM_TOOL_OUTPUT_CAP_OVERRIDABLE = false ->
   cap = Z.min CLM_TOOL_OUTPUT_CAP_MAX
           (if d_output_cap d =? 0 then CLM_TOOL_OUTPUT_CAP_DEFAULT else d_output_cap d)) /\
  (has_flag d CLM_TOOL_TIMEOUT_OVERRIDABLE = false ->
   to = Z.min CLM_TOOL_TIMEOUT_MAX_MS (d_timeout_ms d)) /\
  (forall o v m e, parse a = Some o -> cJSON_IsObject o = true ->
     has_flag d CLM_TOOL_OUTPUT_CAP_OVERRIDABLE = true ->
     cJSON_GetObjectItemCaseSensitive o (bs "output_cap") = Some v ->
     cJSON_valuedouble v = Some (Finite m e) -> 1 <= truncate m e < 2 ^ 63 ->
     cap = Z.min CLM_TOOL_OUTPUT_CAP_MAX (truncate m e)).
Proof.
  unfold inv_compute_limits, CLM_TOOL_OUTPUT_CAP_MAX, CLM_TOOL_TIMEOUT_MAX_MS,
    CLM_TOOL_OUTPUT_CAP_DEFAULT in *. cbv zeta in E.
  destruct (limit_cases parse env d a CLM_TOOL_OUTPUT_CAP_OVERRIDABLE (bs "output_cap")
    (if d_output_cap d =? 0 then 16 * 1024 else d_output_cap d)) as (x & Ex & Hx & Fx & Vx).
  destruct (limit_cases parse env d a CLM_TOOL_TIMEOUT_OVERRIDABLE (bs "timeout_ms") (d_timeout_ms d))
    as (y & Ey & Hy & Fy & _).
  rewrite Ex, Ey in E. injection E as <- <-. clear Ex Ey.
  split_and!; try (case_if; lia).
  - intros Hd. destruct (d_output_cap d =? 0) eqn:E0; bool_facts; case_if; lia.
  - intros Hd. rewrite (Fx Hd). destruct (d_output_cap d =? 0); case_if; lia.
  - intros Hd. rewrite (Fy Hd). case_if; lia.
  - intros o v m e H1 H2 H3 H4 H5 H6. rewrite (Vx o v m e H1 H2 H3 H4 H5 H6). case_if; lia.
Qed.

(** ** Concrete batches *)

Section Play.
Context `{CJson} (fnmatch : list byte -> list byte -> bool) (parse : list byte -> option cJSON).
Context (env : tool_env) (o : oracle).

(** The choices of a run: the outside makes the calls of a script, each as
    soon as the rules allow it. *)
Fixpoint play (fuel : nat) (script : list api) (c : config) : list choice :=
  match fuel with
  | 0%nat => []
  | S fuel' =>
      let next ch script' :=
        match step fnmatch parse env ch c with
        | Some c' => ch :: play fuel' script' c'
        | None => []
        end in
      match snd c, script with
      | ([] | FCallback _ :: _), a :: script' =>
          if allowed (fst c) (snd c) a then next (Call o a) script' else next Return script
      | FCallback _ :: _, [] => next Return []
      | [], [] => []
      | _ :: _, _ => next (Run o) script
      end
  end.
End Play.

Definition demo_tool (nm : list byte) (flags : Z) : clm_tool :=
  mk_tool (mk_tool_def nm None None 0 0 flags false) false false false false 0 false 0.

Definition demo_call (i nm : list byte) : json :=
  JObject [(bs "id", JString i);
           (bs "function", JObject [(bs "name", JString nm); (bs "arguments", JString (bs "{}"))])].

Definition demo_env : tool_env := mk_env true 1 true [] None None (fun _ => - 2 ^ 63).
Definition demo_oracle : oracle := mk_oracle (fun _ => 0) true 0.
Definition demo_agent (h : clm_history) : clm_agent :=
  mk_agent [demo_tool (bs "ls") CLM_TOOL_NO_PROMPT; demo_tool (bs "rm") 0] None h 0 0 false false false.
Definition demo_w0 : world := mk_world (demo_agent []) (mk_batch [] 0 0 false true) [] [] false.
Definition demo_calls : json :=
  JArray [demo_call (bs "c1") (bs "ls"); demo_call (bs "c2") (bs "rm"); demo_call (bs "c3") (bs "ls")].
Definition demo_cs : list (list byte * list byte * list byte) :=
  [(bs "c1", bs "ls", bs "{}"); (bs "c2", bs "rm", bs "{}"); (bs "c3", bs "ls", bs "{}")].

Abbreviation demo_run := (@run json_cjson beq (fun _ => None) demo_env).
Abbreviation demo_start := (@start json_cjson (fun _ => None) demo_w0 demo_calls).
Abbreviation demo_play script :=
  (@play json_cjson beq (fun _ => None) demo_env demo_oracle 200 script demo_start).
Abbreviation demo_reached := (@reached json_cjson beq (fun _ => None) (fun _ => None) demo_env
                                demo_w0 demo_calls demo_cs).

Definition demo_world (script : list api) : world :=
  match demo_run (demo_play script) demo_start with Some (w, _) => w | None => demo_w0 end.

Lemma demo_can_start : can_start demo_w0.
Proof.
  constructor; try reflexivity.
  - intros g i. by destruct g.
  - constructor.
    + repeat constructor; vm_compute; intuition discriminate.
    + intros k t Hk. destruct k as [|[|k]]; cbn in Hk; try done; injection Hk as <-; by constructor.
    + intros k. lia.
Qed.

Lemma tools_demo_reaches script : demo_run (demo_play script) demo_start = Some (demo_world script, []) ->
  demo_reached (demo_world script) [].
Proof.
  intros E. constructor; [exact demo_can_start|reflexivity|discriminate|]. by exists (demo_play script).
Qed.

(** The first call needs no prompt and answers at once; a hook asks for the
    user on the second, who allows it, and it fails; the third answers after
    the batch was asked to cancel. *)
Definition demo_script : list api :=
  [AGateRespond 0 CLM_GATE_PASS None None; AComplete 0 (Some (bs "a.c"));
   AGateRespond 1 CLM_GATE_ASK (Some (bs "why?")) None; APermission 1 CLM_PERM_ALLOW_ONCE;
   AFail 1 (Some (bs "no such file")); AGateRespond 2 CLM_GATE_PASS None None; ACancel;
   AComplete 2 None].

Abbreviation demo_end := (demo_world demo_script).

Lemma demo_end_reached : demo_reached demo_end [].
Proof. apply tools_demo_reaches. vm_compute. reflexivity. Qed.

Lemma dispatch_safe_witness : demo_reached demo_end [] /\ bad demo_end = false.
Proof.
  split; [exact demo_end_reached|]. exact (proj1 (dispatch_safe _ _ _ _ _ _ _ demo_end [] demo_end_reached)).
Defined.

Lemma dispatch_at_rest_witness :
  (demo_reached demo_end [] /\ agent_gone (agent demo_end) = false) /\ length (invs (batch demo_end)) = 3%nat.
Proof.
  assert (Hg : agent_gone (agent demo_end) = false) by (vm_compute; reflexivity).
  split; [split; [exact demo_end_reached|exact Hg]|].
  exact (proj1 (dispatch_at_rest _ _ _ _ _ _ _ demo_end demo_end_reached Hg)).
Defined.

Lemma dispatch_refines_life_witness : demo_reached demo_end [] /\
  exists np p, life 1 (call_name demo_cs) np (allowed_before (tools (agent demo_w0))) (log demo_end) 1
               = Some p.
Proof.
  split; [exact demo_end_reached|].
  destruct (dispatch_refines_life _ _ _ _ _ _ _ demo_end [] demo_end_reached) as (np & _ & Hl).
  assert (E : exists v, invs (batch demo_end) !! 1%nat = Some v) by (eexists; vm_compute; reflexivity).
  destruct E as [v E]. destruct (Hl 1%nat v E) as (p & Hp & _). exists np, p. exact Hp.
Defined.

Lemma invoke_needs_permission_witness :
  (demo_reached demo_end [] /\
   log demo_end = take 5 (log demo_end) ++ EvInvoke 1 :: drop 6 (log demo_end)) /\
  fsum (is_hook_of 1) (drop 6 (log demo_end)) = 1%nat.
Proof.
  assert (E : log demo_end = take 5 (log demo_end) ++ EvInvoke 1 :: drop 6 (log demo_end))
    by (vm_compute; reflexivity).
  split; [split; [exact demo_end_reached|exact E]|].
  refine (proj1 (proj2 (invoke_needs_permission _ _ _ _ _ _ _ demo_end [] _ _ 1 demo_end_reached E _))).
  vm_compute. lia.
Defined.

Lemma result_after_invoke_witness :
  (demo_reached demo_end [] /\
   log demo_end = take 1 (log demo_end) ++ EvResult 2 CLM_TOOL_OK :: drop 2 (log demo_end)) /\
  In (EvInvoke 2) (drop 2 (log demo_end)).
Proof.
  assert (E : log demo_end = take 1 (log demo_end) ++ EvResult 2 CLM_TOOL_OK :: drop 2 (log demo_end))
    by (vm_compute; reflexivity).
  split; [split; [exact demo_end_reached|exact E]|].
  refine (proj2 (result_after_invoke _ _ _ _ _ _ _ demo_end [] _ _ 2 _ demo_end_reached E _) _);
    [vm_compute; lia|discriminate].
Defined.

Lemma demo_end_facts : In EvToolsDone (log demo_end) /\ agent_gone (agent demo_end) = false.
Proof. vm_compute. auto. Qed.

Lemma batch_history_witness :
  (demo_reached demo_end [] /\ In EvToolsDone (log demo_end)) /\
  exists rs, Permutation rs [0; 1; 2]%nat /\
    map hkey (history (agent demo_end)) = [(CLM_ROLE_ASSISTANT, None, None, map call_key demo_cs)]
      ++ map (result_key demo_cs) rs.
Proof.
  destruct demo_end_facts as [Hd Hg]. split; [split; [exact demo_end_reached|exact Hd]|].
  exact (batch_history _ _ _ _ _ _ _ demo_end [] demo_end_reached Hd Hg).
Defined.

Lemma batch_answers_every_call_witness :
  (demo_reached demo_end [] /\ In EvToolsDone (log demo_end) /\
   answered (history (agent demo_w0)) /\ orphan_free [] (history (agent demo_w0))) /\
  answered (history (agent demo_end)).
Proof.
  destruct demo_end_facts as [Hd Hg].
  split; [split; [exact demo_end_reached|split; [exact Hd|split; exact I]]|].
  exact (proj1 (batch_answers_every_call _ _ _ _ _ _ _ demo_end [] demo_end_reached Hd Hg I I)).
Defined.

(** The stack in the middle of a batch. *)
Definition demo_mid : config := default (demo_w0, []) (demo_run (take 9 (demo_play demo_script)) demo_start).

Lemma dispatch_terminates_witness : demo_reached (fst demo_mid) (snd demo_mid) /\
  (length (snd demo_mid) = 6)%nat /\
  exists chs w', Forall own chs /\ demo_run chs (fst demo_mid, snd demo_mid) = Some (w', []).
Proof.
  assert (Hm : demo_reached (fst demo_mid) (snd demo_mid)).
  { constructor; [exact demo_can_start|reflexivity|discriminate|].
    exists (take 9 (demo_play demo_script)). vm_compute. reflexivity. }
  split; [exact Hm|]. split; [vm_compute; reflexivity|].
  exact (proj2 (dispatch_terminates _ _ _ _ _ _ _ (fst demo_mid) (snd demo_mid) Hm) demo_oracle).
Defined.

Lemma limits_bounds_witness :
  @inv_compute_limits json_cjson (fun _ => Some (JObject [(bs "output_cap", JNumber 999999)])) demo_env
    (Some (mk_tool_def (bs "ls") None None 100 0 CLM_TOOL_OUTPUT_CAP_OVERRIDABLE false)) []
  = (CLM_TOOL_OUTPUT_CAP_MAX, 0) /\ CLM_TOOL_OUTPUT_CAP_MAX <= CLM_TOOL_OUTPUT_CAP_MAX.
Proof.
  assert (E : @inv_compute_limits json_cjson (fun _ => Some (JObject [(bs "output_cap", JNumber 999999)])) demo_env
    (Some (mk_tool_def (bs "ls") None None 100 0 CLM_TOOL_OUTPUT_CAP_OVERRIDABLE false)) []
    = (CLM_TOOL_OUTPUT_CAP_MAX, 0)) by (vm_compute; reflexivity).
  split; [exact E|]. exact (proj1 (limits_bounds _ _ _ _ _ _ E)).
Defined.

(** ** What the rules are needed for *)

Definition lone_calls : json := JArray [demo_call (bs "c1") (bs "ls")].
Abbreviation lone_start w := (@start json_cjson (fun _ => None) w lone_calls).
Abbreviation lone_reached w := (@reached json_cjson beq (fun _ => None) (fun _ => None) demo_env w
                                  lone_calls [(bs "c1", bs "ls", bs "{}")]).

(** The stack when the cancel callback of a running call runs, while the
    agent is being freed. *)
Definition freeing_choices : list choice :=
  @play json_cjson beq (fun _ => None) demo_env demo_oracle 200
    [AGateRespond 0 CLM_GATE_PASS None None; ASetCancel 0 true] (lone_start demo_w0)
  ++ [Call demo_oracle ADetach; Run demo_oracle].
Definition freeing : config := default (demo_w0, []) (demo_run freeing_choices (lone_start demo_w0)).

Lemma freeing_reached : lone_reached demo_w0 (fst freeing) (snd freeing).
Proof.
  constructor; [exact demo_can_start|reflexivity|discriminate|]. exists freeing_choices. vm_compute. reflexivity.
Qed.

(** A cancel callback that reports its call before it returns, as the one of
    [clm.exec] does, has the batch freed under the loop of
    [clm_tools_detach]; one that reports later has not. *)
Lemma fatal_reports_are_fatal_witness :
  (lone_reached demo_w0 (fst freeing) (snd freeing) /\ detaching (snd freeing) = true) /\
  exists cb k, snd freeing = [FCallback cb; FDetach k] /\
    bad (fst (detach_loop (fst (do_api demo_env demo_oracle (fst freeing) (AFail 0 (Some (bs "clm.exec cancelled"))))) k)) = true.
Proof.
  split; [split; [exact freeing_reached|reflexivity]|].
  destruct (proj2 (fatal_reports_are_fatal _ _ _ _ _ _ _ demo_oracle (fst freeing) (snd freeing)
    (AFail 0 (Some (bs "clm.exec cancelled"))) 0 freeing_reached eq_refl I) eq_refl eq_refl)
    as (cb & k & E & _ & Hlast & _).
  exists cb, k. split; [exact E|]. exact (proj2 (Hlast eq_refl)).
Defined.

Example late_report_is_safe :
  (let '(w, s) := detach_loop (fst freeing) 1 in
   let '(w, _) := clm_tool_fail demo_env demo_oracle w 0 (Some (bs "clm.exec cancelled")) in
   s = [] /\ bad w = false /\ batch_freed (batch w) = true).
Proof. vm_compute. auto. Qed.

(** A running call that cannot be cancelled, when its timer fires. *)
Definition timed : config :=
  let slow := mk_tool (mk_tool_def (bs "ls") None None 0 100 CLM_TOOL_NO_PROMPT false)
                false false false false 0 false 0 in
  let w := set_tools demo_w0 [slow] in
  default (w, []) (demo_run (@play json_cjson beq (fun _ => None) demo_env demo_oracle 200
    [AGateRespond 0 CLM_GATE_PASS None None; ATimeout 0] (lone_start w)) (lone_start w)).

(** A call without a cancel callback is finished by its timeout. Its tool
    does not know: when it was the last of the batch its own report, which
    the code says is ignored, reads the freed batch. *)
Example late_report_after_timeout :
  In (EvResult 0 CLM_TOOL_TIMEDOUT) (log (fst timed)) /\ bad (fst timed) = false /\
  batch_freed (batch (fst timed)) = true /\
  bad (fst (clm_tool_complete demo_env demo_oracle (fst timed) 0 (Some (bs "done")))) = true.
Proof. vm_compute. auto 20. Qed.

(** A call whose id is there and is not a string cannot be read: [strdup] is
    handed NULL. A call without an id can. *)
Example call_id_not_a_string :
  @read_call json_cjson (fun _ => None) (JObject [(bs "id", JNumber 1)]) = None /\
  @read_call json_cjson (fun _ => None) (JObject []) = Some ([], [], bs "{}").
Proof. vm_compute. auto. Qed.
