(* ===== verification/Files.v ===== *)
(** Image uploads ([src/libclm/files.c]) and the loop of
    [clm_agent_start_turn] that makes them: what a provider's files endpoint
    is sent and answers, the cache of uploads, and how a request comes to
    name each image by its file id. [cap_files] only sizes the allocation and
    is left out; allocation failures are not modelled. *)

From S2P Require Import Prelude Utf8 TextClean Image RateLimit Tokens CJson History HistoryJson.

Definition CLM_FILE_EXPIRES_SECS : Z := 30 * 24 * 60 * 60.
Definition CLM_FILE_REUSE_SECS : Z := 29 * 24 * 60 * 60.
Definition CLM_FILES_MAX : nat := 1024.

(** [struct clm_file_ent] *)
Record clm_file_ent := mk_file { fe_hash : Z; fe_len : nat; fe_id : option (list byte); fe_when : Z }.

(** FNV-1a, 64 bit. *)
Definition file_hash (s : list byte) : Z :=
  fold_left (fun h b => wrap64 (Z.lxor h (b2z b) * 0x100000001b3)) s 0xcbf29ce484222325.

Definition file_is (h : Z) (len : nat) (e : clm_file_ent) : bool :=
  (fe_hash e =? h) && (fe_len e =? len)%nat.

(** The position of the entry. *)
Fixpoint find_from (files : list clm_file_ent) (h : Z) (len : nat) : option nat :=
  match files with
  | [] => None
  | e :: files' => if file_is h len e then Some 0%nat else S <$> find_from files' h len
  end.

Definition files_find (files : list clm_file_ent) (url : list byte) : option nat :=
  find_from files (file_hash url) (length url).

(** [now] is what [time(NULL)] answers. *)
Definition clm_files_add (files : list clm_file_ent) (url : list byte) (id : option (list byte))
    (now : Z) : Z * list clm_file_ent :=
  match files_find files url with
  | Some i => (0, alter (fun e => mk_file (fe_hash e) (fe_len e) id now) i files)
  | None =>
      if (CLM_FILES_MAX <=? length files)%nat then (- ENOSPC, files)
      else (0, files ++ [mk_file (file_hash url) (length url) id now])
  end.

(** ** The body of an upload *)

Definition hex_digit (v : Z) : byte := nth (Z.to_nat v) (bs "0123456789abcdef") x00.

(** ["%016llx"] *)
Definition hex16 (v : Z) : list byte :=
  map (fun k => hex_digit (Z.land (Z.shiftr v (4 * (15 - Z.of_nat k))) 15)) (seq 0 16).

Definition crlf : list byte := [x0d; x0a].

Definition boundary_of (data_url : list byte) : list byte := bs "clm-" ++ hex16 (file_hash data_url).

(** [strlen] of the media type: the text between ["data:"] and
    [";base64,"]. *)
Definition multipart_head (boundary media : list byte) : list byte :=
  bs "--" ++ boundary ++ crlf ++ bs "Content-Disposition: form-data; name=" ++ [x22] ++ bs "file" ++ [x22]
  ++ bs "; filename=" ++ [x22] ++ bs "image" ++ [x22] ++ crlf ++ bs "Content-Type: " ++ media ++ crlf ++ crlf.

Definition multipart_tail (boundary : list byte) : list byte :=
  crlf ++ bs "--" ++ boundary ++ crlf ++ bs "Content-Disposition: form-data; name=" ++ [x22]
  ++ bs "expires_in_seconds" ++ [x22] ++ crlf ++ crlf ++ dec CLM_FILE_EXPIRES_SECS ++ crlf
  ++ bs "--" ++ boundary ++ bs "--" ++ crlf.

(** The boundary and the body. *)
Definition clm_files_multipart (data_url : list byte) : option (list byte * list byte) :=
  if negb (has_prefix (bs "data:") data_url) then None
  else match find_sub (bs ";base64,") data_url with
  | None => None
  | Some semi =>
      if 64 <? Z.of_nat semi - 5 then None
      else match clm_base64_decode (drop (semi + 8) data_url) with
      | None => None
      | Some raw =>
          let boundary := boundary_of data_url in
          match find_sub boundary raw with
          | Some _ => None
          | None =>
              let head := multipart_head boundary (take (semi - 5) (drop 5 data_url)) in
              let tail := multipart_tail boundary in
              if ((512 <=? length head) || (256 <=? length tail))%nat then None
              else Some (boundary, head ++ raw ++ tail)
          end
      end
  end.

(** ** The endpoint *)

Definition clm_files_url (base_url : list byte) : option (list byte) :=
  let n := length base_url in
  let suffix := bs "/messages" in
  if ((n <? length suffix)%nat || negb (beq (drop (n - length suffix) base_url) suffix)) then None
  else Some (take (n - length suffix) base_url ++ bs "/files").

Definition id_chars : list byte :=
  bs "abcdefghijklmnopqrstuvwxyzABCDEFGHIJKLMNOPQRSTUVWXYZ0123456789_-".

Section Json.
Context `{CJson} (cJSON_Parse : list byte -> option cJSON).

Definition clm_files_parse_id (body : option (list byte)) : option (list byte) :=
  b ← body;
  id ← get_string (cJSON_Parse b) (bs "id");
  if negb (beq id []) && (length id <? 256)%nat && forallb (fun c => bool_decide (c ∈ id_chars)) id
  then Some id else None.

(** ** Naming the images of a request *)

(** What a pass keeps: how often the clock was read, and the first URL that
    needs an upload. *)
Record pass := mk_pass { reads : nat; missing : option (list byte) }.

(** [want] is [ret_missing != NULL]; [clock] is what each call of
    [time(NULL)] answers. *)
Definition apply_part (files : list clm_file_ent) (clock : nat -> Z) (want : bool) (st : pass)
    (part : cJSON) : pass * cJSON :=
  let iu := cJSON_GetObjectItemCaseSensitive part (bs "image_url") in
  match iu, get_string iu (bs "url") with
  | Some iu, Some url =>
      if negb (has_prefix (bs "data:") url) then (st, part)
      else
        let e := i ← files_find files url; files !! i in
        let note st := if want && bool_decide (missing st = None)
                       then mk_pass (reads st) (Some url) else st in
        match e with
        | None => (note st, part)
        | Some e =>
            match fe_id e with
            | None => (st, part)
            | Some id =>
                let now := clock (reads st) in
                let st := mk_pass (S (reads st)) (missing st) in
                if now - fe_when e <? CLM_FILE_REUSE_SECS
                then (st, cJSON_update part (bs "image_url")
                            (cJSON_AddStringToObject iu (bs "file_id") id))
                else (note st, part)
            end
        end
  | _, _ => (st, part)
  end.

(** [cJSON_ArrayForEach], with what is kept between the elements. *)
Fixpoint for_each {A B} (f : B -> A -> B * A) (st : B) (l : list A) : B * list A :=
  match l with
  | [] => (st, [])
  | x :: l' => let '(st, x) := f st x in let '(st, l') := for_each f st l' in (st, x :: l')
  end.

Definition apply_message (files : list clm_file_ent) (clock : nat -> Z) (want : bool) (st : pass)
    (msg : cJSON) : pass * cJSON :=
  match cJSON_GetObjectItemCaseSensitive msg (bs "content") with
  | Some content =>
      if negb (cJSON_IsArray content) then (st, msg)
      else
        let '(st, parts) := for_each (apply_part files clock want) st (cJSON_elements content) in
        (st, cJSON_update msg (bs "content") (cJSON_update_elements content parts))
  | None => (st, msg)
  end.

Definition clm_files_apply (files : list clm_file_ent) (clock : nat -> Z) (want : bool)
    (messages : cJSON) : pass * cJSON :=
  let '(st, l) := for_each (apply_message files clock want) (mk_pass 0 None) (cJSON_elements messages) in
  (st, cJSON_update_elements messages l).

(** ** The uploads of a turn *)

(** What comes of an upload: the endpoint answered, or the request failed
    after it was sent, or could not be sent. A cancelled upload ends the turn
    and is not part of the loop. *)
Inductive upload_result :=
| UpResponse (status : Z) (body : option (list byte))
| UpError
| UpNotSent.

(** The agent's [files] and [file_uploads]. *)
Record uploads := mk_uploads { files : list clm_file_ent; file_uploads : bool }.

Definition file_upload_finish (u : uploads) (url : list byte) (id : option (list byte)) (now : Z)
  : uploads :=
  let '(r, l) := clm_files_add (files u) url id now in
  mk_uploads l (if r <? 0 then false else file_uploads u).

Definition file_upload_success (u : uploads) (url : list byte) (status : Z) (body : option (list byte))
    (now : Z) : uploads :=
  let id := if (200 <=? status) && (status <? 300) then clm_files_parse_id body else None in
  let u := if (status =? 404) || (status =? 405) then mk_uploads (files u) false else u in
  file_upload_finish u url id now.

(** [file_upload_start] and the completion of the request. [true]: the turn
    is started again; [false]: the image goes inline. *)
Definition file_upload (base_url : list byte) (u : uploads) (url : list byte) (res : upload_result)
    (now : Z) : bool * uploads :=
  match clm_files_url base_url with
  | None => (false, mk_uploads (files u) false)
  | Some _ =>
      match clm_files_multipart url with
      | None =>
          let '(r, l) := clm_files_add (files u) url None now in
          (false, mk_uploads l (if r <? 0 then false else file_uploads u))
      | Some _ =>
          match res with
          | UpNotSent => (false, mk_uploads (files u) false)
          | UpError => (true, file_upload_finish u url None now)
          | UpResponse status body => (true, file_upload_success u url status body now)
          end
      end
  end.

(** The start of [clm_agent_start_turn], until the request can be built:
    [clocks k] are the readings of the clock in the [k]-th round. [None] is a
    run out of fuel. *)
Fixpoint upload_loop (fuel : nat) (base_url : list byte) (messages : cJSON)
    (clocks : nat -> nat -> Z) (results : nat -> upload_result) (k : nat) (u : uploads)
  : option (uploads * cJSON) :=
  match fuel with
  | 0%nat => None
  | S fuel' =>
      if negb (file_uploads u) then Some (u, messages)
      else
        let '(st, messages') := clm_files_apply (files u) (clocks k) true messages in
        match missing st with
        | None => Some (u, messages')
        | Some url =>
            let '(again, u) := file_upload base_url u url (results k) (clocks k (reads st)) in
            if again then upload_loop fuel' base_url messages clocks results (S k) u
            else Some (u, messages')
        end
  end.
End Json.

(** ** The body of an upload *)

(** What a server reads of the first part: its headers and its content. *)
Definition first_part (boundary body : list byte) : option (list byte * list byte) :=
  let mark := bs "--" ++ boundary ++ crlf in
  if negb (has_prefix mark body) then None
  else
    let body := drop (length mark) body in
    i ← find_sub (crlf ++ crlf) body;
    let rest := drop (i + 4) body in
    j ← find_sub (crlf ++ bs "--" ++ boundary) rest;
    Some (take i body, take j rest).

Definition disposition : list byte :=
  bs "Content-Disposition: form-data; name=" ++ [x22] ++ bs "file" ++ [x22]
  ++ bs "; filename=" ++ [x22] ++ bs "image" ++ [x22].

Definition part_headers (media : list byte) : list byte :=
  disposition ++ crlf ++ bs "Content-Type: " ++ media.

Lemma hex_digit_plain v : hex_digit v <> x0d.
Proof.
  unfold hex_digit. generalize (Z.to_nat v). intros k E.
  assert (Hin : x0d = x00 \/ In x0d (bs "0123456789abcdef")).
  { rewrite <- E. destruct (nth_in_or_default k (bs "0123456789abcdef") x00) as [H| ->]; auto. }
  destruct Hin as [?|Hin]; [done|]. revert Hin. vm_compute. intuition discriminate.
Qed.

Lemma boundary_plain url : ~ In x0d (bs "--" ++ boundary_of url).
Proof.
  unfold boundary_of, hex16. rewrite !in_app_iff. intros [Hin|[Hin|Hin]].
  - revert Hin. vm_compute. intuition discriminate.
  - revert Hin. vm_compute. intuition discriminate.
  - apply in_map_iff in Hin as (k & Hk & _). by apply hex_digit_plain in Hk.
Qed.

Lemma boundary_length url : length (boundary_of url) = 20%nat.
Proof. unfold boundary_of, hex16. by rewrite length_app, length_map, length_seq. Qed.

Lemma first_part_spec url media raw : ~ In x0d media -> find_sub (boundary_of url) raw = None ->
  first_part (boundary_of url)
    (multipart_head (boundary_of url) media ++ raw ++ multipart_tail (boundary_of url))
  = Some (part_headers media, raw).
Proof.
  intros Hm Hraw. pose proof (boundary_plain url) as Hb. set (b := boundary_of url) in *. clearbody b.
  unfold first_part. set (mark := bs "--" ++ b ++ crlf). set (tail := multipart_tail b).
  assert (E : multipart_head b media ++ raw ++ tail
    = mark ++ part_headers media ++ crlf ++ crlf ++ raw ++ tail)
    by (unfold multipart_head, part_headers, disposition, mark; rewrite <- !app_assoc; done).
  rewrite E, has_prefix_app, drop_app_length. cbn [negb].
  assert (E1 : find_sub (crlf ++ crlf) (part_headers media ++ crlf ++ crlf ++ raw ++ tail)
    = Some (length (part_headers media))).
  { unfold part_headers. rewrite <- !app_assoc. cbn [crlf app].
    rewrite find_sub_skip by (vm_compute; intuition discriminate).
    rewrite find_sub_step by done.
    change (x0a :: bs "Content-Type: " ++ media ++ x0d :: x0a :: x0d :: x0a :: raw ++ tail)
      with ((x0a :: bs "Content-Type: ") ++ media ++ x0d :: x0a :: x0d :: x0a :: raw ++ tail).
    rewrite find_sub_skip by (vm_compute; intuition discriminate).
    rewrite find_sub_skip by done.
    change (x0d :: x0a :: x0d :: x0a :: raw ++ tail) with ([x0d; x0a; x0d; x0a] ++ raw ++ tail).
    rewrite find_sub_here. cbn [fmap option_fmap option_map]. f_equal.
    rewrite !length_app. cbn [length]. rewrite length_app. cbn [length]. lia. }
  rewrite E1. cbn [mbind option_bind]. rewrite take_app_length.
  replace (drop _ _) with (raw ++ tail).
  2:{ rewrite (app_assoc crlf), (app_assoc (part_headers media)).
      symmetry. apply drop_app_length'. by rewrite length_app. }
  assert (E2 : find_sub (crlf ++ bs "--" ++ b) (raw ++ tail) = Some (length raw)).
  { change (crlf ++ bs "--" ++ b) with (x0d :: (x0a :: bs "--" ++ b)).
    assert (Ht : exists t, tail = (x0d :: x0a :: bs "--" ++ b) ++ t).
    { eexists. unfold tail, multipart_tail. cbn [crlf app]. by rewrite <- app_assoc. }
    destruct Ht as [t ->]. apply find_sub_end; [by intros [?|?]|].
    destruct (find_sub (x0d :: x0a :: bs "--" ++ b) raw) as [i|] eqn:Ef; [|done].
    apply find_sub_spec in Ef as [u Ht]. exfalso.
    apply (find_sub_None _ _ Hraw (take i raw ++ x0d :: x0a :: bs "--") u).
    rewrite Ht at 1. rewrite <- !app_assoc. cbn [app]. by rewrite <- app_assoc. }
  rewrite E2. cbn [mbind option_bind]. by rewrite take_app_length.
Qed.

Lemma data_url_parts a : ~ In x3b (media_type a) ->
  has_prefix (bs "data:") (data_url a) = true /\
  find_sub (bs ";base64,") (data_url a) = Some (5 + length (media_type a))%nat /\
  drop (5 + length (media_type a) + 8) (data_url a) = clm_base64_encode (a_data a) /\
  take (5 + length (media_type a) - 5) (drop 5 (data_url a)) = media_type a.
Proof.
  intros Hs. unfold data_url. split; [apply has_prefix_app|].
  change (bs ";base64,") with (x3b :: bs "base64,").
  split_and!.
  - rewrite find_sub_skip by (vm_compute; intuition discriminate). rewrite find_sub_skip by done.
    change (x3b :: bs "base64," ++ clm_base64_encode (a_data a))
      with ((x3b :: bs "base64,") ++ clm_base64_encode (a_data a)).
    rewrite find_sub_here. cbn [fmap option_fmap option_map].
    lit_lengths. f_equal. lia.
  - rewrite !app_assoc. apply drop_app_length'. rewrite !length_app.
    cbn [length]. lit_lengths. lia.
  - change (drop 5 _) with (media_type a ++ (x3b :: bs "base64,") ++ clm_base64_encode (a_data a)).
    apply take_app_length'. lia.
Qed.

Lemma multipart_fits url media : (length media <= 64)%nat ->
  ((512 <=? length (multipart_head (boundary_of url) media))
   || (256 <=? length (multipart_tail (boundary_of url))))%nat = false.
Proof.
  intros Hm. pose proof (boundary_length url) as Hb. set (b := boundary_of url) in *. clearbody b.
  apply orb_false_iff. unfold multipart_head, multipart_tail. rewrite !length_app, Hb. cbn [length].
  split; apply Nat.leb_gt.
  - lit_lengths. cbn [length crlf]. lia.
  - assert (E : length (dec CLM_FILE_EXPIRES_SECS) = 7%nat) by (vm_compute; reflexivity).
    rewrite E. lit_lengths. cbn [length crlf]. lia.
Qed.

(** An upload carries the image. The body made for an image's data URL,
    read as a server reads a multipart form, up to the first boundary after
    the headers, gives the media type and exactly the image's bytes; no
    buffer of the code is too small for it, and a body is made for every
    image but one whose media type is longer than 64 bytes or whose bytes
    hold the boundary itself. *)
Theorem multipart_roundtrip a (Hs : ~ In x3b (media_type a)) (Hc : ~ In x0d (media_type a)) :
  match clm_files_multipart (data_url a) with
  | Some (boundary, body) =>
      first_part boundary body = Some (part_headers (media_type a), a_data a)
  | None => (64 < length (media_type a))%nat \/
            find_sub (boundary_of (data_url a)) (a_data a) <> None
  end.
Proof.
  destruct (data_url_parts a Hs) as (E1 & E2 & E3 & E4). unfold clm_files_multipart.
  rewrite E1, E2. cbn [negb]. rewrite E3, E4, decode_encode.
  case_if; [left; lia|]. destruct (find_sub (boundary_of (data_url a)) (a_data a)) eqn:Ef; [by right|].
  rewrite multipart_fits by lia. by apply first_part_spec.
Qed.

Definition demo_image : clm_attachment := mk_attachment (bs "image/png") [x89; x50; x4e; x47; x0d; x0a].

Lemma multipart_roundtrip_witness :
  (~ In x3b (media_type demo_image) /\ ~ In x0d (media_type demo_image)) /\
  (b ← clm_files_multipart (data_url demo_image); first_part (fst b) (snd b))
  = Some (part_headers (bs "image/png"), a_data demo_image).
Proof.
  assert (Hs : ~ In x3b (media_type demo_image)) by (vm_compute; intuition discriminate).
  assert (Hc : ~ In x0d (media_type demo_image)) by (vm_compute; intuition discriminate).
  split; [split; [exact Hs|exact Hc]|]. pose proof (multipart_roundtrip demo_image Hs Hc) as R.
  destruct (clm_files_multipart (data_url demo_image)) as [[b body]|]; [exact R|].
  exfalso. destruct R as [R|R]; [vm_compute in R; lia|]. apply R. vm_compute. reflexivity.
Defined.

(** ** The cache *)

(** The entry an image's URL is looked up in. *)
Definition entry (files : list clm_file_ent) (url : list byte) : option clm_file_ent :=
  i ← files_find files url; files !! i.

Definition same_key (a b : list byte) : bool :=
  (file_hash a =? file_hash b) && (length a =? length b)%nat.

Lemma find_from_alter f h len files i : (forall e, file_is h len (f e) = file_is h len e) ->
  find_from (alter f i files) h len = find_from files h len.
Proof.
  intros Hf. revert i. induction files as [|e files IH]; intros [|i]; try done.
  - cbn. by rewrite Hf.
  - change (alter f (S i) (e :: files)) with (e :: alter f i files). cbn [find_from]. by rewrite IH.
Qed.

Lemma find_from_app files e h len : find_from (files ++ [e]) h len
  = match find_from files h len with
    | Some i => Some i
    | None => if file_is h len e then Some (length files) else None
    end.
Proof.
  induction files as [|e' files IH]; cbn; [by destruct (file_is h len e)|].
  destruct (file_is h len e'); [done|]. rewrite IH. destruct (find_from files h len); [done|].
  by destruct (file_is h len e).
Qed.

Lemma find_from_Some files h len i : find_from files h len = Some i ->
  exists e, files !! i = Some e /\ file_is h len e = true.
Proof.
  revert i. induction files as [|e files IH]; intros i; cbn; [done|].
  destruct (file_is h len e) eqn:E; [intros [= <-]; eauto|].
  destruct (find_from files h len) as [j|]; [|done]. intros [= <-]. by apply IH.
Qed.

(** An addition shows where its URL is looked up, and nowhere else. *)
Lemma entry_add files url id now l : clm_files_add files url id now = (0, l) ->
  forall u, entry l u
    = if same_key url u then Some (mk_file (file_hash url) (length url) id now) else entry files u.
Proof.
  unfold clm_files_add, entry, files_find. destruct (find_from files _ _) as [i|] eqn:Ef.
  - intros [= <-] u. rewrite find_from_alter by done.
    destruct (find_from_Some _ _ _ _ Ef) as (e & He & Hk).
    unfold file_is in Hk. bool_facts. unfold same_key.
    destruct (find_from files (file_hash u) (length u)) as [j|] eqn:Eu; cbn.
    + destruct (find_from_Some _ _ _ _ Eu) as (e' & He' & Hk'). unfold file_is in Hk'. bool_facts.
      destruct (decide (j = i)) as [->|Hne].
      * rewrite list_lookup_alter_eq, He. assert (e' = e) as -> by congruence.
        assert (file_hash url = file_hash u) as -> by congruence.
        assert (length url = length u) as -> by congruence.
        rewrite Z.eqb_refl, Nat.eqb_refl. cbn. by rewrite H1, H2.
      * rewrite list_lookup_alter_ne by done. case_if; [|done]. bool_facts. congruence.
    + case_if; [|done]. bool_facts. congruence.
  - case_if; [done|]. intros [= <-] u. rewrite find_from_app. unfold file_is at 1. cbn [fe_hash fe_len].
    destruct (find_from files (file_hash u) (length u)) as [j|] eqn:Eu; cbn.
    + destruct (find_from_Some _ _ _ _ Eu) as (e' & He' & Hk'). rewrite lookup_app_l by (by eapply lookup_lt_Some).
      unfold same_key. case_if; [|done]. bool_facts. congruence.
    + unfold same_key. case_if; [|done]. cbn. by rewrite lookup_app_r, Nat.sub_diag by done.
Qed.

(** The upload need not be made again while the clock reads less than the
    reuse time past [t]. *)
Definition settled (t : Z) (files : list clm_file_ent) (url : list byte) : bool :=
  match entry files url with
  | Some e => match fe_id e with Some _ => t <=? fe_when e | None => true end
  | None => false
  end.

Lemma settled_add t files url id now l : clm_files_add files url id now = (0, l) -> t <= now ->
  settled t l url = true /\ forall u, settled t files u = true -> settled t l u = true.
Proof.
  intros E Ht. pose proof (entry_add _ _ _ _ _ E) as He. unfold settled.
  assert (Hn : match id with Some _ => t <=? now | None => true end = true)
    by (destruct id; [by apply Z.leb_le|done]).
  split.
  - rewrite He. unfold same_key. rewrite Z.eqb_refl, Nat.eqb_refl. exact Hn.
  - intros u Hu. rewrite He. by case_if.
Qed.

Lemma add_result files url id now : let r := fst (clm_files_add files url id now) in r = 0 \/ r = - ENOSPC.
Proof. unfold clm_files_add. destruct (files_find files url); [by left|]. case_if; [by right|by left]. Qed.

(** ** The uploads of a turn end *)

Section Uploads.
Context `{CJson} (cJSON_Parse : list byte -> option cJSON).

(** The image a part holds as a data URL, and all of a request. *)
Definition part_url (part : cJSON) : option (list byte) :=
  match get_string (cJSON_GetObjectItemCaseSensitive part (bs "image_url")) (bs "url") with
  | Some url => if has_prefix (bs "data:") url then Some url else None
  | None => None
  end.

Definition message_parts (msg : cJSON) : list cJSON :=
  match cJSON_GetObjectItemCaseSensitive msg (bs "content") with
  | Some content => if cJSON_IsArray content then cJSON_elements content else []
  | None => []
  end.

Definition request_parts (messages : cJSON) : list cJSON :=
  flat_map message_parts (cJSON_elements messages).

Definition image_urls (messages : cJSON) : list (list byte) := omap part_url (request_parts messages).

Section Pass.
Context (files : list clm_file_ent) (clock : nat -> Z) (t : Z).
Context (Hclock : forall k, t <= clock k < t + CLM_FILE_REUSE_SECS).

(** A URL reported as missing is one of the request, and was not settled. *)
Definition missing_ok (urls : list (list byte)) (st : pass) : Prop :=
  forall url, missing st = Some url -> In url urls /\ settled t files url = false.

Lemma apply_part_missing st part urls : missing_ok urls st ->
  missing_ok (urls ++ option_list (part_url part)) (fst (apply_part files clock true st part)).
Proof.
  intros Hst. unfold apply_part, part_url, missing_ok in *.
  assert (Hw : forall l url, missing st = Some url -> In url (urls ++ l) /\ settled t files url = false).
  { intros l url Hu. destruct (Hst url Hu). split; [|done]. apply in_app_iff. by left. }
  destruct (cJSON_GetObjectItemCaseSensitive part (bs "image_url")) as [iu|]; [|by apply Hw].
  destruct (get_string (Some iu) (bs "url")) as [u|]; [|by apply Hw].
  destruct (has_prefix (bs "data:") u); [|by apply Hw]. cbn [negb option_list].
  change (i ← files_find files u; files !! i) with (entry files u).
  assert (Hnote : settled t files u = false -> forall st', missing st' = missing st ->
    forall url, missing (if true && bool_decide (missing st' = None)
                         then mk_pass (reads st') (Some u) else st') = Some url ->
    In url (urls ++ [u]) /\ settled t files url = false).
  { intros Hu st' Est url. case_if; [|rewrite Est; apply Hw]. cbn. intros [= <-]. split; [|done].
    apply in_app_iff. right. by left. }
  destruct (entry files u) as [e|] eqn:Ee; cbn [fst].
  - destruct (fe_id e) as [fid|] eqn:Ei; [|by apply Hw]. case_if; cbn [fst]; [by apply Hw|].
    apply Hnote; [|done]. unfold settled. rewrite Ee, Ei. apply Z.leb_gt. specialize (Hclock (reads st)). lia.
  - apply Hnote; [|done]. unfold settled. by rewrite Ee.
Qed.

Lemma for_each_inv {A B} (f : B -> A -> B * A) (P : list A -> B -> Prop) l :
  (forall done_l x st, P done_l st -> P (done_l ++ [x]) (fst (f st x))) ->
  forall dl st, P dl st -> P (dl ++ l) (fst (for_each f st l)).
Proof.
  intros Hf. induction l as [|x l IH]; intros dl st HP; cbn; [by rewrite app_nil_r|].
  specialize (Hf dl x st HP). destruct (f st x) as [st' x']. specialize (IH _ _ Hf). cbn [fst] in IH.
  destruct (for_each f st' l) as [st2 l2]. rewrite <- app_assoc in IH. exact IH.
Qed.

Lemma omap_app' {A B} (f : A -> option B) l k : omap f (l ++ k) = omap f l ++ omap f k.
Proof. induction l as [|x l IH]; [done|]. cbn. destruct (f x); cbn; by rewrite IH. Qed.

Lemma apply_message_missing st msg urls : missing_ok urls st ->
  missing_ok (urls ++ omap part_url (message_parts msg)) (fst (apply_message files clock true st msg)).
Proof.
  intros Hst. unfold apply_message, message_parts.
  destruct (cJSON_GetObjectItemCaseSensitive msg (bs "content")) as [content|]; [|by rewrite app_nil_r].
  destruct (cJSON_IsArray content); cbn [negb]; [|by rewrite app_nil_r].
  assert (Hp : missing_ok (urls ++ omap part_url ([] ++ cJSON_elements content))
    (fst (for_each (apply_part files clock true) st (cJSON_elements content)))).
  { apply (for_each_inv _ (fun dl st => missing_ok (urls ++ omap part_url dl) st)); [|by rewrite app_nil_r].
    intros dl x st' H'. apply (apply_part_missing st' x) in H'.
    rewrite omap_app', app_assoc. cbn. by destruct (part_url x). }
  by destruct (for_each _ st (cJSON_elements content)).
Qed.

Lemma apply_missing messages :
  missing_ok (image_urls messages) (fst (clm_files_apply files clock true messages)).
Proof.
  unfold clm_files_apply, image_urls, request_parts.
  assert (Hm : missing_ok (omap part_url (flat_map message_parts ([] ++ cJSON_elements messages)))
    (fst (for_each (apply_message files clock true) (mk_pass 0 None) (cJSON_elements messages)))).
  { apply (for_each_inv _ (fun dl st => missing_ok (omap part_url (flat_map message_parts dl)) st)); [|done].
    intros dl x st' H'. apply (apply_message_missing st' x) in H'.
    rewrite flat_map_app, omap_app'. cbn [flat_map]. by rewrite app_nil_r. }
  by destruct (for_each _ (mk_pass 0 None) (cJSON_elements messages)).
Qed.
End Pass.

(** One upload, and the turn started again: the URL is settled, or uploads
    are given up. *)
Lemma file_upload_again base u url res now t u' :
  file_upload cJSON_Parse base u url res now = (true, u') -> t <= now ->
  file_uploads u' = false \/
  settled t (files u') url = true /\
  forall v, settled t (files u) v = true -> settled t (files u') v = true.
Proof.
  intros E Ht. unfold file_upload in E. destruct (clm_files_url base); [|done].
  destruct (clm_files_multipart url); [|by destruct (clm_files_add _ _ _ _)].
  assert (Hfin : forall u0 id, files u0 = files u -> file_upload_finish u0 url id now = u' ->
    file_uploads u' = false \/ settled t (files u') url = true /\
    forall v, settled t (files u) v = true -> settled t (files u') v = true).
  { intros u0 id E0 <-. unfold file_upload_finish. rewrite E0.
    pose proof (add_result (files u) url id now) as Hr.
    destruct (clm_files_add (files u) url id now) as [r l'] eqn:Ea. cbn [fst] in Hr.
    destruct Hr as [-> | ->]; [right|by left]. cbn [files]. by eapply settled_add. }
  destruct res as [status body| |]; [| |done]; injection E as E.
  - unfold file_upload_success in E. eapply Hfin; [|exact E]. by case_if.
  - by eapply Hfin.
Qed.

Definition unsettled (t : Z) (files : list clm_file_ent) (messages : cJSON) : nat :=
  length (List.filter (fun u => negb (settled t files u)) (image_urls messages)).

Lemma filter_fewer {A} (f g : A -> bool) l x : (forall y, g y = true -> f y = true) ->
  In x l -> f x = true -> g x = false -> (length (List.filter g l) < length (List.filter f l))%nat.
Proof.
  intros Hgf. assert (Hle : forall k, (length (List.filter g k) <= length (List.filter f k))%nat).
  { induction k as [|y k IH]; cbn; [done|]. destruct (g y) eqn:E; [rewrite (Hgf y E); cbn; lia|].
    destruct (f y); cbn; lia. }
  induction l as [|y l IH]; [done|]. intros [->|Hin] Hf Hg; cbn.
  - rewrite Hf, Hg. cbn. specialize (Hle l). lia.
  - specialize (IH Hin Hf Hg). destruct (g y) eqn:E; [rewrite (Hgf y E); cbn; lia|].
    destruct (f y); cbn; lia.
Qed.

Section Loop.
Context (base : list byte) (messages : cJSON) (clocks : nat -> nat -> Z) (results : nat -> upload_result).
Context (t : Z) (Hc : forall k j, t <= clocks k j < t + CLM_FILE_REUSE_SECS).
Abbreviation upload_loop f := (upload_loop cJSON_Parse f base messages clocks results).

(** A round ends the loop, gives uploads up or settles one more URL. *)
Lemma upload_round k u f :
  (exists r, upload_loop (S f) k u = Some r) \/
  exists u', upload_loop (S f) k u = upload_loop f (S k) u' /\
    (file_uploads u' = false \/ (unsettled t (files u') messages < unsettled t (files u) messages)%nat).
Proof.
  cbn [Files.upload_loop]. destruct (file_uploads u); cbn [negb]; [|left; eauto].
  pose proof (apply_missing (files u) (clocks k) t (Hc k) messages) as Hm.
  destruct (clm_files_apply (files u) (clocks k) true messages) as [st m'].
  destruct (missing st) as [url|] eqn:Em; [|left; eauto].
  destruct (Hm url Em) as [Hin Hs].
  destruct (file_upload _ _ u url _ _) as [[] u'] eqn:Ef; [|left; eauto].
  right. exists u'. split; [done|].
  destruct (file_upload_again _ _ _ _ _ t _ Ef) as [E|[Hs1 Hs2]]; [apply Hc|by left|right].
  apply (filter_fewer _ _ _ url); [|done|by rewrite Hs|by rewrite Hs1].
  intros v Hv. destruct (settled t (files u) v) eqn:E; [|done]. by rewrite (Hs2 v E) in Hv.
Qed.

Lemma upload_loop_ends n : forall u k, (unsettled t (files u) messages <= n)%nat ->
  exists r, upload_loop (2 + n) k u = Some r.
Proof.
  assert (Hoff : forall f k u, file_uploads u = false -> exists r, upload_loop (S f) k u = Some r).
  { intros f k u E. cbn [Files.upload_loop]. rewrite E. cbn. eauto. }
  induction n as [|n IH]; intros u k Hn.
  - destruct (upload_round k u 1) as [?|(u' & E & [Hu|Hu])]; [done| |lia].
    change (2 + 0)%nat with 2%nat. rewrite E. by apply Hoff.
  - change (2 + S n)%nat with (S (2 + n)).
    destruct (upload_round k u (2 + n)) as [?|(u' & E & [Hu|Hu])]; [done| |]; rewrite E.
    + by apply Hoff.
    + apply IH. lia.
Qed.
End Loop.

(** Starting a turn ends. Each image a request holds is uploaded at most
    once before the request is sent, whatever the endpoint answers, as long
    as the clock moves by less than the reuse time of 29 days meanwhile: the
    rounds of upload and start over are at most two more than the images
    without a settled upload. *)
Theorem uploads_end base messages clocks results t u
    (Hc : forall k j, t <= clocks k j < t + CLM_FILE_REUSE_SECS) :
  exists r, upload_loop cJSON_Parse (2 + unsettled t (files u) messages) base messages clocks results 0 u
            = Some r.
Proof. by apply (upload_loop_ends _ _ _ _ t Hc). Qed.
End Uploads.

Definition demo_request : json :=
  JArray [JObject [(bs "role", JString (bs "user"));
                   (bs "content", JArray [@attachment_part json_cjson demo_image;
                                          @attachment_part json_cjson (mk_attachment (bs "image/gif") [x47])])]].

Lemma uploads_end_witness :
  (forall k j : nat, 0 <= Z.of_nat 0 < 0 + CLM_FILE_REUSE_SECS) /\
  unsettled 0 [] demo_request = 2%nat /\
  exists r, @upload_loop json_cjson (fun _ => Some (JObject [(bs "id", JString (bs "file_1"))])) 4
    (bs "https://x/v1/messages") demo_request (fun _ _ => 0) (fun _ => UpResponse 200 (Some [])) 0
    (mk_uploads [] true) = Some r.
Proof.
  assert (Hc : forall k j : nat, 0 <= Z.of_nat 0 < 0 + CLM_FILE_REUSE_SECS) by (intros; vm_compute; split; [discriminate|reflexivity]).
  split; [exact Hc|]. split; [vm_compute; reflexivity|].
  exact (uploads_end _ (bs "https://x/v1/messages") demo_request (fun _ _ => 0)
           (fun _ => UpResponse 200 (Some [])) 0 (mk_uploads [] true) (fun _ _ => Hc 0%nat 0%nat)).
Defined.
