(* ===== verification/Stream.v ===== *)
(** The streamed response of a turn ([src/libclm/agent.c], "SSE streaming
    parser"): bytes become lines, lines become events, and the events'
    deltas become the reply's text and its tool calls.

    The providers translate their own events at one seam,
    [normalize_stream_event], which is an interface here. A function returns
    [None] where the code hands NULL to [strdup]. *)

From S2P Require Import Prelude Utf8 TextClean Image RateLimit Tokens CJson History Registry Tools.

(** [struct stream_call] *)
Record stream_call := mk_call {
  sc_id : option (list byte); sc_name : option (list byte); sc_args : option (list byte)
}.

(** [struct clm_usage]; a JSON number is an integer here. *)
Record clm_usage := mk_usage {
  prompt_tokens : Z; completion_tokens : Z; total_tokens : Z;
  cache_read_tokens : Z; cache_write_tokens : Z; tokens_per_sec : Z
}.
Definition no_usage : clm_usage := mk_usage 0 0 0 0 0 0.

(** What the frontend is told. *)
Inductive shown := ShowText (t : list byte) | ShowReasoning (t : list byte).

(** [struct clm_provider_ops], as far as a stream meets it. [Some f] is a
    provider that translates: [f] gets the event and the turn's scratch
    space. *)
Class Provider `{CJson} := {
  pstate : Type;
  pstate_null : pstate;
  normalize_stream_event : option (cJSON -> pstate -> option cJSON * pstate)
}.

Section Stream.
Context `{CJson} `{!Provider} (cJSON_Parse : list byte -> option cJSON).
(** [(int)NaN] *)
Context (int_nan : Z).

(** [struct clm_async_turn], as far as a stream fills it, with the parts of
    the agent it sets: [last_error], the response chain, and what was
    shown. *)
Record stream := mk_stream {
  line : list byte;
  text : list byte;
  calls : list stream_call;
  finish_reason : option (list byte);
  usage : clm_usage;
  have_usage : bool;
  stream_tps : Z;
  rl_advice : option (list byte);
  scratch : pstate;
  last_error : option (list byte);
  chain : option (list byte * nat);
  seen : list shown
}.

Definition stream_start : stream :=
  mk_stream [] [] [] None no_usage false 0 None pstate_null None None [].

Section Fields.
Context (s : stream).
Definition with_line (l : list byte) :=
  mk_stream l (text s) (calls s) (finish_reason s) (usage s) (have_usage s) (stream_tps s) (rl_advice s)
    (scratch s) (last_error s) (chain s) (seen s).
Definition with_text (t : list byte) :=
  mk_stream (line s) t (calls s) (finish_reason s) (usage s) (have_usage s) (stream_tps s) (rl_advice s)
    (scratch s) (last_error s) (chain s) (seen s).
Definition with_calls (c : list stream_call) :=
  mk_stream (line s) (text s) c (finish_reason s) (usage s) (have_usage s) (stream_tps s) (rl_advice s)
    (scratch s) (last_error s) (chain s) (seen s).
Definition with_finish (r : option (list byte)) :=
  mk_stream (line s) (text s) (calls s) r (usage s) (have_usage s) (stream_tps s) (rl_advice s)
    (scratch s) (last_error s) (chain s) (seen s).
Definition with_usage (u : clm_usage) (b : bool) (tps : Z) :=
  mk_stream (line s) (text s) (calls s) (finish_reason s) u b tps (rl_advice s)
    (scratch s) (last_error s) (chain s) (seen s).
Definition with_error (e a : option (list byte)) :=
  mk_stream (line s) (text s) (calls s) (finish_reason s) (usage s) (have_usage s) (stream_tps s) a
    (scratch s) e (chain s) (seen s).
Definition with_scratch (p : pstate) :=
  mk_stream (line s) (text s) (calls s) (finish_reason s) (usage s) (have_usage s) (stream_tps s) (rl_advice s)
    p (last_error s) (chain s) (seen s).
Definition with_chain (c : option (list byte * nat)) :=
  mk_stream (line s) (text s) (calls s) (finish_reason s) (usage s) (have_usage s) (stream_tps s) (rl_advice s)
    (scratch s) (last_error s) c (seen s).
Definition show (e : shown) :=
  mk_stream (line s) (text s) (calls s) (finish_reason s) (usage s) (have_usage s) (stream_tps s) (rl_advice s)
    (scratch s) (last_error s) (chain s) (seen s ++ [e]).
End Fields.

(** ** Errors *)

(** [strcasestr(s, p) != NULL] *)
Definition has_nocase (p s : list byte) : bool :=
  bool_decide (is_Some (find_sub (map lower p) (map lower s))).

Definition is_rate_limit_message (msg : option (list byte)) : bool :=
  match msg with
  | Some m => has_nocase (bs "rate limit") m || has_nocase (bs "rate_limit") m
  | None => false
  end.

Definition response_error_message (parsed : cJSON) : option (list byte) :=
  err ← cJSON_GetObjectItemCaseSensitive parsed (bs "error");
  if cJSON_IsObject err then get_string (Some err) (bs "message") else None.

Definition stream_error_message (raw : cJSON) : option (list byte) :=
  match response_error_message raw with
  | Some m => Some m
  | None =>
      match get_string (Some raw) (bs "type") with
      | Some t => if beq t (bs "error") then get_string (Some raw) (bs "message") else None
      | None => None
      end
  end.

Definition stream_note_error (s : stream) (emsg : option (list byte)) : stream :=
  match emsg with
  | None => s
  | Some m =>
      let s := with_error s (Some m) (if is_rate_limit_message emsg then Some m else rl_advice s) in
      match finish_reason s with None => with_finish s (Some (bs "error")) | Some _ => s end
  end.

(** ** Usage *)

Definition number_of (o : option cJSON) : option Z := v ← o; cJSON_GetNumberValue v.

Definition timings_tps (root : cJSON) : Z :=
  match cJSON_GetObjectItemCaseSensitive root (bs "timings") with
  | Some t => if cJSON_IsObject t
              then default 0 (number_of (cJSON_GetObjectItemCaseSensitive t (bs "predicted_per_second")))
              else 0
  | None => 0
  end.

(** [(int)cJSON_GetNumberValue(v)], kept at [d] when the member is absent. *)
Definition int_field (o : cJSON) (k : list byte) (d : Z) : Z :=
  match cJSON_GetObjectItemCaseSensitive o k with
  | Some v => default int_nan (cJSON_GetNumberValue v)
  | None => d
  end.

Definition extract_usage (root : cJSON) : option clm_usage :=
  match cJSON_GetObjectItemCaseSensitive root (bs "usage") with
  | Some u =>
      if negb (cJSON_IsObject u) then None
      else
        let cr := int_field u (bs "cache_read_tokens") 0 in
        let cr := match cJSON_GetObjectItemCaseSensitive u (bs "prompt_tokens_details") with
                  | Some d => if cJSON_IsObject d then int_field d (bs "cached_tokens") cr else cr
                  | None => cr
                  end in
        Some (mk_usage (int_field u (bs "prompt_tokens") 0) (int_field u (bs "completion_tokens") 0)
                (int_field u (bs "total_tokens") 0) cr (int_field u (bs "cache_write_tokens") 0)
                (timings_tps root))
  | None => None
  end.

Definition stream_usage (s : stream) (obj : cJSON) : stream :=
  let '(u, h) := match extract_usage obj with Some u => (u, true) | None => (usage s, have_usage s) end in
  let tps := timings_tps obj in
  let stps := if 0 <? tps then tps else stream_tps s in
  let u := if h && (tokens_per_sec u <=? 0)
           then mk_usage (prompt_tokens u) (completion_tokens u) (total_tokens u) (cache_read_tokens u)
                  (cache_write_tokens u) stps
           else u in
  with_usage s u h stps.

(** ** Tool calls *)

Definition empty_call : stream_call := mk_call None None None.

(** [stream_get_call]: the calls, with [index] among them. *)
Definition stream_get_call (l : list stream_call) (index : nat) : list stream_call :=
  if (length l <=? index)%nat then l ++ replicate (S index - length l) empty_call else l.

(** A member read once: [strdup(cJSON_GetStringValue(v))]. *)
Definition keep_first (cur : option (list byte)) (v : option cJSON) : option (option (list byte)) :=
  match cur, v with
  | None, Some v => Some <$> cJSON_GetStringValue v
  | _, _ => Some cur
  end.

Definition merge_delta (call : stream_call) (d : cJSON) : option stream_call :=
  id ← keep_first (sc_id call) (cJSON_GetObjectItemCaseSensitive d (bs "id"));
  match cJSON_GetObjectItemCaseSensitive d (bs "function") with
  | None => Some (mk_call id (sc_name call) (sc_args call))
  | Some func =>
      name ← keep_first (sc_name call) (cJSON_GetObjectItemCaseSensitive func (bs "name"));
      let args := match get_string (Some func) (bs "arguments") with
                  | Some frag => Some (default [] (sc_args call) ++ frag)
                  | None => sc_args call
                  end in
      Some (mk_call id name args)
  end.

Definition delta_index (d : cJSON) (i : nat) : Z := int_field d (bs "index") (Z.of_nat i).

Fixpoint stream_merge_tool_calls (l : list stream_call) (deltas : list cJSON) (i : nat)
  : option (list stream_call) :=
  match deltas with
  | [] => Some l
  | d :: deltas' =>
      let index := delta_index d i in
      if index <? 0 then stream_merge_tool_calls l deltas' (S i)
      else
        let k := Z.to_nat index in
        let l := stream_get_call l k in
        c ← merge_delta (default empty_call (l !! k)) d;
        stream_merge_tool_calls (<[k := c]> l) deltas' (S i)
  end.

Definition call_json (c : stream_call) (name : list byte) : cJSON :=
  let func := cJSON_AddItemToObject (cJSON_AddItemToObject cJSON_CreateObject (bs "name")
                (cJSON_CreateString name)) (bs "arguments")
                (cJSON_CreateString (default (bs "{}") (sc_args c))) in
  cJSON_AddItemToObject
    (cJSON_AddItemToObject
       (cJSON_AddItemToObject cJSON_CreateObject (bs "id") (cJSON_CreateString (default [] (sc_id c))))
       (bs "type") (cJSON_CreateString (bs "function")))
    (bs "function") func.

Definition stream_build_tool_calls (l : list stream_call) : option cJSON :=
  let arr := fold_left (fun arr c => match sc_name c with
                                     | Some name => cJSON_AddItemToArray arr (call_json c name)
                                     | None => arr
                                     end) l cJSON_CreateArray in
  match cJSON_elements arr with [] => None | _ => Some arr end.

(** ** Lines *)

(** [chain_note_response] *)
Definition chain_note_response (s : stream) (parsed : cJSON) (msgs : nat) : stream :=
  match get_string (Some parsed) (bs "provider_response_id") with
  | Some (b :: rid) => with_chain s (Some (b :: rid, msgs))
  | _ => s
  end.

Definition first_of (j : cJSON) : option cJSON := cJSON_elements j !! 0%nat.

(** The part of [stream_handle_line] that reads a choice's delta. *)
Definition stream_delta (s : stream) (delta : cJSON) : option stream :=
  let s := match get_string (Some delta) (bs "content") with
           | Some (b :: t) => show (with_text s (text s ++ b :: t)) (ShowText (b :: t))
           | _ => s
           end in
  let jr := match cJSON_GetObjectItemCaseSensitive delta (bs "reasoning_content") with
            | Some j => Some j
            | None => cJSON_GetObjectItemCaseSensitive delta (bs "reasoning")
            end in
  let s := match j ← jr; cJSON_GetStringValue j with
           | Some (b :: t) => show s (ShowReasoning (b :: t))
           | _ => s
           end in
  match cJSON_GetObjectItemCaseSensitive delta (bs "tool_calls") with
  | Some tcs =>
      if cJSON_IsArray tcs
      then l ← stream_merge_tool_calls (calls s) (cJSON_elements tcs) 0; Some (with_calls s l)
      else Some s
  | None => Some s
  end.

(** The event of a line in the canonical form. *)
Definition stream_chunk (msgs : nat) (s : stream) (obj : cJSON) : option stream :=
  let s := stream_usage s obj in
  match cJSON_GetObjectItemCaseSensitive obj (bs "choices") with
  | Some choices =>
      if negb (cJSON_IsArray choices) then Some s
      else match first_of choices with
      | None => Some s
      | Some choice =>
          let s := match get_string (Some choice) (bs "finish_reason") with
                   | Some r => with_finish s (Some r)
                   | None => s
                   end in
          let s := stream_note_error s (response_error_message obj) in
          let s := chain_note_response s obj msgs in
          match cJSON_GetObjectItemCaseSensitive choice (bs "delta") with
          | None => Some s
          | Some delta => stream_delta s delta
          end
      end
  | None => Some s
  end.

(** The event of a line, from [stream_note_error] on. *)
Definition stream_event (msgs : nat) (s : stream) (obj : cJSON) : option stream :=
  let s := stream_note_error s (stream_error_message obj) in
  let '(obj, s) := match normalize_stream_event with
                   | Some f => let '(o, p) := f obj (scratch s) in (o, with_scratch s p)
                   | None => (Some obj, s)
                   end in
  match obj with
  | None => Some s
  | Some obj => stream_chunk msgs s obj
  end.

Fixpoint skip_spaces (s : list byte) : list byte :=
  match s with x20 :: s' => skip_spaces s' | _ => s end.

(** The event a line carries. *)
Definition line_event (l : list byte) : option cJSON :=
  let l := match rev l with x0d :: r => rev r | _ => l end in
  let c := c_str l in
  if negb (has_prefix (bs "data:") c) then None
  else
    let payload := skip_spaces (drop 5 c) in
    if beq payload (bs "[DONE]") then None else cJSON_Parse payload.

(** [cancelling] is the agent's; [msgs] is the turn's [history_msgs]. *)
Definition stream_handle_line (cancelling : bool) (msgs : nat) (s : stream) : option stream :=
  if cancelling then Some s
  else match line_event (line s) with
       | None => Some s
       | Some obj => stream_event msgs s obj
       end.

(** [clm_http_data_cb_wrapper]: one chunk of the body. *)
Fixpoint clm_http_data_cb_wrapper (cancelling : bool) (msgs : nat) (s : stream) (data : list byte)
  : option stream :=
  match data with
  | [] => Some s
  | b :: data' =>
      if beq [b] [x0a] then
        s ← stream_handle_line cancelling msgs s;
        clm_http_data_cb_wrapper cancelling msgs (with_line s []) data'
      else clm_http_data_cb_wrapper cancelling msgs (with_line s (line s ++ [b])) data'
  end.
End Stream.
