(* ===== verification/StreamFacts.v ===== *)
(** The streamed response: its lines do not depend on how the network cuts
    the bytes, and the tool calls a server cut into deltas are put together
    again. *)

From S2P Require Import Prelude Utf8 TextClean Image RateLimit Tokens CJson History Registry Tools.
From S2P Require Import Stream.

(** ** Lines *)

(** The complete lines of a text, and what follows the last newline. *)
Fixpoint split_lines (data : list byte) : list (list byte) * list byte :=
  match data with
  | [] => ([], [])
  | b :: data' =>
      let '(ls, rest) := split_lines data' in
      if beq [b] [x0a] then ([] :: ls, rest)
      else match ls with
           | [] => ([], b :: rest)
           | l :: ls' => ((b :: l) :: ls', rest)
           end
  end.

(** Steps that may fail, one after the other. *)
Fixpoint foldM {A B} (f : B -> A -> option B) (l : list A) (st : B) : option B :=
  match l with
  | [] => Some st
  | x :: l' => st ← f st x; foldM f l' st
  end.

Lemma foldM_app {A B} (f : B -> A -> option B) l k st :
  foldM f (l ++ k) st = (st ← foldM f l st; foldM f k st).
Proof. revert st. induction l as [|x l IH]; intros st; [done|]. cbn. destruct (f st x); [apply IH|done]. Qed.

Section Lines.
Context `{CJson} `{!Provider} (cJSON_Parse : list byte -> option cJSON) (int_nan : Z).
Context (cancelling : bool) (msgs : nat).

Abbreviation feed := (clm_http_data_cb_wrapper cJSON_Parse int_nan cancelling msgs).
Abbreviation handle := (stream_handle_line cJSON_Parse int_nan cancelling msgs).

(** What one whole line does. *)
Definition take_line (s : stream) (l : list byte) : option stream :=
  s ← handle (with_line s l); Some (with_line s []).

(** The reference: the lines of the whole text, one by one. *)
Definition by_lines (s : stream) (data : list byte) : option stream :=
  let '(ls, rest) := split_lines data in
  s ← foldM take_line ls s; Some (with_line s rest).

Lemma with_line_twice s a b : with_line (with_line s a) b = with_line s b.
Proof. done. Qed.

Lemma feed_app s a b : feed s (a ++ b) = (s ← feed s a; feed s b).
Proof.
  revert s. induction a as [|x a IH]; intros s; [done|]. cbn [app clm_http_data_cb_wrapper].
  case_if; [|apply IH]. destruct (handle s) as [s'|]; [apply IH|done].
Qed.

Lemma split_lines_app l data : ~ In x0a l -> split_lines (l ++ data)
  = (let '(ls, rest) := split_lines data in
     match ls with [] => ([], l ++ rest) | l0 :: ls' => ((l ++ l0) :: ls', rest) end).
Proof.
  induction l as [|b l IH]; intros Hn; cbn [app split_lines].
  - destruct (split_lines data) as [[|l0 ls] rest]; done.
  - rewrite IH by (intros ?; apply Hn; by right).
    assert (E : beq [b] [x0a] = false) by (apply beq_neq; intros [= ->]; apply Hn; by left).
    rewrite E. by destruct (split_lines data) as [[|l0 ls] rest].
Qed.

Lemma feed_lines data : forall s, ~ In x0a (line s) ->
  feed s data = (s' ← by_lines (with_line s []) (line s ++ data); Some s').
Proof.
  induction data as [|b data IH]; intros s Hn; cbn [clm_http_data_cb_wrapper].
  - unfold by_lines. rewrite split_lines_app by done. cbn. rewrite app_nil_r. by destruct s.
  - unfold by_lines. rewrite split_lines_app by done. cbn [split_lines].
    destruct (beq [b] [x0a]) eqn:E.
    + assert (Hl : forall s', feed (with_line s' []) data = by_lines (with_line s' []) data).
      { intros s'. rewrite IH by (intros []). cbn [line with_line app]. by destruct (by_lines _ _). }
      unfold by_lines in Hl. destruct (split_lines data) as [ls rest]. cbn [foldM mbind option_bind].
      rewrite app_nil_r. assert (Et : take_line (with_line s []) (line s) = s' ← handle s; Some (with_line s' []))
        by (by destruct s). rewrite Et.
      destruct (handle s) as [s'|]; [|done]. cbn [mbind option_bind]. rewrite Hl.
      by destruct (foldM take_line ls (with_line s' [])).
    + rewrite IH.
      * unfold by_lines. cbn [line with_line]. rewrite <- app_assoc. cbn [app].
        rewrite split_lines_app by done. cbn [split_lines]. by rewrite E.
      * cbn. rewrite in_app_iff. intros [?|[->|[]]]; [done|]. by rewrite beq_refl in E.
Qed.

Lemma feed_chunks chunks s : line s = [] -> foldM feed chunks s = by_lines s (concat chunks).
Proof.
  intros Hs.
  assert (E : foldM feed chunks s = feed s (concat chunks)).
  { clear Hs. revert s. induction chunks as [|c chunks IH]; intros s; [done|]. cbn [foldM concat].
    rewrite feed_app. destruct (feed s c) as [s'|]; [apply IH|done]. }
  rewrite E, feed_lines by (rewrite Hs; intros []). rewrite Hs. cbn [app].
  replace (with_line s []) with s by (destruct s; cbn in *; by subst). by destruct (by_lines s _).
Qed.

(** C37. The stream does not depend on how the network cuts it. Two ways to
    cut the bytes of a response into chunks, in the middle of a line, of a
    character or of a line end, leave the same turn: the one in which the
    whole lines were handled one after the other, and the bytes after the
    last newline kept for later. *)
Theorem chunks_do_not_matter chunks chunks' s (Hs : line s = []) (Hc : concat chunks = concat chunks') :
  foldM feed chunks s = foldM feed chunks' s /\ foldM feed chunks s = by_lines s (concat chunks).
Proof. by rewrite !feed_chunks, Hc. Qed.
End Lines.

(** A provider that speaks the canonical format. *)
#[local] Instance plain_provider : @Provider json_cjson := {|
  pstate := unit; pstate_null := tt; normalize_stream_event := None
|}.

Lemma chunks_do_not_matter_witness :
  line (@stream_start json_cjson plain_provider) = [] /\
  concat [bs "da"; bs "ta: x"] = concat [bs "data:"; bs " x"] /\
  foldM (@clm_http_data_cb_wrapper json_cjson plain_provider (fun _ => None) 0 false 0) [bs "da"; bs "ta: x"] stream_start
  = foldM (@clm_http_data_cb_wrapper json_cjson plain_provider (fun _ => None) 0 false 0) [bs "data:"; bs " x"] stream_start.
Proof.
  split; [reflexivity|]. split; [reflexivity|].
  exact (proj1 (@chunks_do_not_matter json_cjson plain_provider (fun _ => None) 0 false 0
    [bs "da"; bs "ta: x"] [bs "data:"; bs " x"] stream_start eq_refl eq_refl)).
Defined.
