(* ===== verification/StreamCalls.v ===== *)
(** The tool calls of a streamed reply: a server cuts them into deltas,
    interleaves the deltas of different calls and spreads them over events,
    the network cuts the events into chunks; the dispatch reads back the
    calls the model made. *)

From S2P Require Import Prelude Utf8 TextClean Image RateLimit Tokens CJson History HistoryFacts HistoryJson.
From S2P Require Import Registry Tools ToolsSpec Stream StreamFacts.

(** One delta of one call, as OpenAI's streaming protocol sends it. *)
Record frag := mk_frag {
  f_index : nat; f_id : option (list byte); f_name : option (list byte); f_args : option (list byte)
}.

Definition frag_ok (f : frag) : Prop := str_ok (f_id f) /\ str_ok (f_name f) /\ str_ok (f_args f).

(** ** What the deltas say *)

Definition or_else {A} (a b : option A) : option A := match a with Some _ => a | None => b end.

(** A call as a reader of the protocol keeps it: the first id and the first
    name count, the pieces of the arguments are joined. *)
Definition add_frag (c : stream_call) (f : frag) : stream_call :=
  mk_call (or_else (sc_id c) (f_id f)) (or_else (sc_name c) (f_name f))
    (match f_args f with Some a => Some (default [] (sc_args c) ++ a) | None => sc_args c end).

Definition of_index (k : nat) (fs : list frag) : list frag := List.filter (fun f => f_index f =? k)%nat fs.

Definition add_at (l : list stream_call) (f : frag) : list stream_call :=
  let l := stream_get_call l (f_index f) in
  <[f_index f := add_frag (default empty_call (l !! f_index f)) f]> l.

Lemma get_call_default l i k :
  default empty_call (stream_get_call l i !! k) = default empty_call (l !! k).
Proof.
  unfold stream_get_call. destruct (length l <=? i)%nat; [|done].
  destruct (decide (k < length l)%nat) as [Hk|Hk]; [by rewrite lookup_app_l|].
  rewrite lookup_app_r by lia. rewrite (lookup_ge_None_2 l) by lia.
  destruct (replicate _ _ !! _) as [c|] eqn:E; [|done]. by apply lookup_replicate in E as [-> _].
Qed.

Lemma get_call_length l i : length (stream_get_call l i) = Nat.max (length l) (S i).
Proof.
  unfold stream_get_call. destruct (Nat.leb_spec (length l) i); [|lia].
  rewrite length_app, length_replicate. lia.
Qed.

Lemma add_at_default l f k : default empty_call (add_at l f !! k)
  = if (f_index f =? k)%nat then add_frag (default empty_call (l !! k)) f else default empty_call (l !! k).
Proof.
  unfold add_at. rewrite !get_call_default. destruct (Nat.eqb_spec (f_index f) k) as [<-|Hk].
  - rewrite list_lookup_insert_eq; [done|]. rewrite get_call_length. lia.
  - rewrite list_lookup_insert_ne by done. by rewrite get_call_default.
Qed.

Lemma add_all_default fs : forall l k, default empty_call (fold_left add_at fs l !! k)
  = fold_left add_frag (of_index k fs) (default empty_call (l !! k)).
Proof.
  induction fs as [|f fs IH]; intros l k; [done|]. cbn [fold_left of_index List.filter].
  rewrite IH, add_at_default. by destruct (f_index f =? k)%nat.
Qed.

Lemma add_all_length fs : forall l n, (length l <= n)%nat -> Forall (fun f => f_index f < n)%nat fs ->
  (length (fold_left add_at fs l) <= n)%nat.
Proof.
  induction fs as [|f fs IH]; intros l n Hl Hf; [done|]. cbn [fold_left].
  inversion Hf as [|? ? Hf1 Hfs]; subst. apply IH; [|done].
  unfold add_at. rewrite length_insert, get_call_length. lia.
Qed.

(** The pieces of a call, joined. *)
Lemma add_frags_joined fs c :
  fold_left add_frag fs c
  = mk_call (or_else (sc_id c) (head (omap f_id fs))) (or_else (sc_name c) (head (omap f_name fs)))
      (match omap f_args fs with
       | [] => sc_args c
       | l => Some (default [] (sc_args c) ++ concat l)
       end).
Proof.
  revert c. induction fs as [|f fs IH]; intros c; cbn [fold_left].
  { destruct c as [[] [] ?]; done. }
  rewrite IH. unfold add_frag. cbn [sc_id sc_name sc_args omap list_omap]. f_equal.
  - by destruct (sc_id c), (f_id f).
  - by destruct (sc_name c), (f_name f).
  - change (list_omap _ _ f_args fs) with (omap f_args fs).
    destruct (f_args f) as [a|]; [|done]. cbn [default from_option].
    destruct (omap f_args fs) as [|x l]; cbn [concat]; [by rewrite app_nil_r|by rewrite !app_assoc].
Qed.

(** The deltas [fs] carry the calls [cs]: every delta belongs to one of
    them; the first id and the first name of its deltas are the call's, and
    the pieces of arguments joined are its arguments, [{}] if there are
    none. *)
Record carries_calls (fs : list frag) (cs : list (list byte * list byte * list byte)) : Prop := {
  cc_index : Forall (fun f => f_index f < length cs)%nat fs;
  cc_call : forall k i n a, cs !! k = Some (i, n, a) ->
    head (omap f_id (of_index k fs)) = Some i /\ head (omap f_name (of_index k fs)) = Some n /\
    a = match omap f_args (of_index k fs) with [] => bs "{}" | l => concat l end
}.

Definition kept (c : list byte * list byte * list byte) (s : stream_call) : Prop :=
  sc_id s = Some (fst (fst c)) /\ sc_name s = Some (snd (fst c)) /\ default (bs "{}") (sc_args s) = snd c.

Lemma carried_calls fs cs : carries_calls fs cs -> Forall2 kept cs (fold_left add_at fs []).
Proof.
  intros [Hi Hc]. pose proof (add_all_length fs [] (length cs) ltac:(cbn; lia) Hi) as Hlen.
  assert (Hk : forall k i n a, cs !! k = Some (i, n, a) ->
    exists s, fold_left add_at fs [] !! k = Some s /\ kept (i, n, a) s).
  { intros k i n a E. destruct (Hc k i n a E) as (H1 & H2 & H3).
    pose proof (add_all_default fs [] k) as Hd. rewrite add_frags_joined in Hd. cbn in Hd.
    rewrite H1, H2 in Hd. destruct (fold_left add_at fs [] !! k) as [s|]; [|done].
    exists s. split; [done|]. cbn in Hd. subst s. split_and!; [done|done|]. cbn.
    rewrite H3. by destruct (omap f_args (of_index k fs)). }
  apply Forall2_same_length_lookup_2.
  - assert (length cs <= length (fold_left add_at fs []))%nat; [|lia].
    destruct (decide (length cs = 0)%nat) as [E|E]; [lia|].
    destruct (lookup_lt_is_Some_2 cs (length cs - 1)) as [[[i n] a] El]; [lia|].
    destruct (Hk _ _ _ _ El) as (s & Es & _). apply lookup_lt_Some in Es. lia.
  - intros k [[i n] a] s E1 E2. destruct (Hk _ _ _ _ E1) as (s' & Es & Hs). congruence.
Qed.

(** ** As JSON *)

Section Json.
Context `{CJsonLaws} `{!Provider} (cJSON_Parse : list byte -> option cJSON) (int_nan : Z).
Context (cJSON_PrintUnformatted : cJSON -> option (list byte)).

Definition delta_json (f : frag) : cJSON :=
  let o := add_opt (cJSON_AddItemToObject cJSON_CreateObject (bs "index")
             (cJSON_CreateNumber (Z.of_nat (f_index f)))) (bs "id") (f_id f) in
  cJSON_AddItemToObject o (bs "function")
    (add_opt (add_opt cJSON_CreateObject (bs "name") (f_name f)) (bs "arguments") (f_args f)).

(** The event: [{"choices":[{"delta":{"tool_calls":[...]}}]}]. *)
Definition event_json (fs : list frag) : cJSON :=
  cJSON_AddItemToObject cJSON_CreateObject (bs "choices")
    (array_from [cJSON_AddItemToObject cJSON_CreateObject (bs "delta")
                 (cJSON_AddItemToObject cJSON_CreateObject (bs "tool_calls")
                    (array_from (map delta_json fs)))]).

Lemma keep_first_opt c v : str_ok v ->
  keep_first c (cJSON_CreateString <$> v) = Some (or_else c v).
Proof.
  intros Hv. destruct c, v as [s|]; try done. cbn. rewrite string_create. cbn. by rewrite c_str_id.
Qed.

Lemma merge_delta_json c f : frag_ok f -> merge_delta c (delta_json f) = Some (add_frag c f).
Proof.
  intros (Hi & Hn & Ha). unfold merge_delta, delta_json.
  assert (E1 : cJSON_GetObjectItemCaseSensitive (delta_json f) (bs "id") = cJSON_CreateString <$> f_id f).
  { unfold delta_json. built_get. by destruct (f_id f). }
  unfold delta_json in E1. rewrite E1, keep_first_opt by done. cbn [mbind option_bind].
  rewrite get_add by is_built. rewrite get_add_opt by is_built. rewrite get_add by is_built. rewrite get_create. lit.
  set (func := add_opt _ (bs "arguments") _).
  assert (E2 : cJSON_GetObjectItemCaseSensitive func (bs "name") = cJSON_CreateString <$> f_name f).
  { unfold func. built_get. by destruct (f_name f). }
  assert (E3 : get_string (Some func) (bs "arguments") = f_args f).
  { unfold func, get_string. cbn [mbind option_bind]. built_get.
    apply c_str_ok in Ha. destruct (f_name f), (f_args f) as [a|]; cbn in *; by rewrite ?string_create. }
  rewrite E2, keep_first_opt by done. cbn [mbind option_bind]. by rewrite E3.
Qed.

Lemma delta_index_json f i : delta_index int_nan (delta_json f) i = Z.of_nat (f_index f).
Proof.
  unfold delta_index, int_field, delta_json. rewrite get_add by is_built. rewrite get_add_opt by is_built.
  rewrite get_add by is_built. rewrite get_create. lit. by rewrite number_create.
Qed.

Lemma merge_json fs : Forall frag_ok fs -> forall l i,
  stream_merge_tool_calls int_nan l (map delta_json fs) i = Some (fold_left add_at fs l).
Proof.
  induction 1 as [|f fs Hf _ IH]; intros l i; [done|]. cbn [map stream_merge_tool_calls].
  rewrite delta_index_json. destruct (Z.ltb_spec (Z.of_nat (f_index f)) 0); [lia|].
  rewrite Nat2Z.id, merge_delta_json by done. cbn [mbind option_bind]. by rewrite IH.
Qed.

Lemma get_choices fs : exists choices choice,
  cJSON_GetObjectItemCaseSensitive (event_json fs) (bs "choices") = Some choices /\
  cJSON_IsArray choices = true /\ first_of choices = Some choice /\
  get_string (Some choice) (bs "finish_reason") = None /\
  exists delta, cJSON_GetObjectItemCaseSensitive choice (bs "delta") = Some delta /\
    get_string (Some delta) (bs "content") = None /\
    cJSON_GetObjectItemCaseSensitive delta (bs "reasoning_content") = None /\
    cJSON_GetObjectItemCaseSensitive delta (bs "reasoning") = None /\
    cJSON_GetObjectItemCaseSensitive delta (bs "tool_calls") = Some (array_from (map delta_json fs)).
Proof.
  unfold event_json. eexists _, _. split; [built_get; done|].
  split; [apply array_from_elements|]. unfold first_of.
  split; [rewrite (proj2 (array_from_elements _)); done|].
  split; [unfold get_string; cbn [mbind option_bind]; built_get; done|].
  eexists. split; [built_get; done|].
  unfold get_string. cbn [mbind option_bind]. split_and!; built_get; done.
Qed.

Lemma stream_usage_keeps s o : calls (stream_usage int_nan s o) = calls s /\ line (stream_usage int_nan s o) = line s.
Proof. unfold stream_usage. by destruct (extract_usage int_nan o). Qed.

Lemma no_member fs k : beq k (bs "choices") = false ->
  cJSON_GetObjectItemCaseSensitive (event_json fs) k = None.
Proof. intros Hk. unfold event_json. rewrite get_add by is_built. by rewrite get_create, Hk. Qed.

Lemma no_error fs : response_error_message (event_json fs) = None /\ stream_error_message (event_json fs) = None.
Proof.
  assert (Er : response_error_message (event_json fs) = None)
    by (unfold response_error_message; by rewrite (no_member fs (bs "error") eq_refl)).
  split; [done|]. unfold stream_error_message, get_string. rewrite Er. cbn [mbind option_bind].
  by rewrite (no_member fs (bs "type") eq_refl).
Qed.

(** What a chunk of deltas does to the stream: it changes the calls. *)
Lemma chunk_merges msgs s fs : Forall frag_ok fs ->
  stream_chunk int_nan msgs s (event_json fs)
  = Some (with_calls (stream_usage int_nan s (event_json fs)) (fold_left add_at fs (calls s))).
Proof.
  intros Hf.
  destruct (get_choices fs) as (choices & choice & E1 & E2 & E3 & E4 & delta & E5 & E6 & E7 & E8 & E9).
  assert (Ec : forall s, chain_note_response s (event_json fs) msgs = s).
  { intros s0. unfold chain_note_response, get_string. cbn [mbind option_bind].
    by rewrite (no_member fs (bs "provider_response_id") eq_refl). }
  destruct (no_error fs) as [Er _]. destruct (stream_usage_keeps s (event_json fs)) as [U1 U2].
  unfold stream_chunk. cbv zeta. rewrite E1, E2, E3, E4, Er.
  cbn [stream_note_error negb]. rewrite Ec, E5. unfold stream_delta. rewrite E6, E7, E8. cbn [mbind option_bind].
  rewrite E9. destruct (array_from_elements (map delta_json fs)) as [-> ->]. rewrite merge_json by done.
  cbn [mbind option_bind]. by rewrite U1.
Qed.

(** ** On the wire *)

Context (Hcanon : normalize_stream_event = None).

(** What an event of deltas does to the stream. *)
Lemma event_merges msgs s fs : Forall frag_ok fs ->
  exists s', stream_event int_nan msgs s (event_json fs) = Some s' /\
    calls s' = fold_left add_at fs (calls s) /\ line s' = line s.
Proof.
  intros Hf. destruct (stream_usage_keeps s (event_json fs)) as [_ U2].
  unfold stream_event. rewrite (proj2 (no_error fs)), Hcanon. cbn [stream_note_error]. cbv zeta.
  rewrite chunk_merges by done. eexists. split; [done|]. cbn [calls line with_calls]. by rewrite U2.
Qed.

(** A line's text for an event: what a JSON printer makes, parsed back. *)
Record event_text (fs : list frag) (t : list byte) : Prop := {
  et_parse : cJSON_Parse t = Some (event_json fs);
  et_text : no_nul t;
  et_line : ~ In x0a t;
  et_start : exists b t', t = b :: t' /\ b <> x20;
  et_end : exists b t', t = t' ++ [b] /\ b <> x0d;
  et_event : t <> bs "[DONE]"
}.

(** The events of a reply on the wire, and the mark of its end. *)
Definition sse_line (t : list byte) : list byte := bs "data: " ++ t ++ [x0a; x0a].
Definition sse_body (ts : list (list byte)) : list byte := concat (map sse_line ts) ++ sse_line (bs "[DONE]").

Lemma line_of_event fs t : event_text fs t -> line_event cJSON_Parse (bs "data: " ++ t) = Some (event_json fs).
Proof.
  intros [Hp Hn Hl (b & t' & E1 & Hb) (e & t1 & E2 & He) Hd]. unfold line_event.
  assert (Er : match rev (bs "data: " ++ t) with x0d :: r => rev r | _ => bs "data: " ++ t end = bs "data: " ++ t).
  { rewrite E2, app_assoc, rev_app_distr. cbn [rev app]. by destruct e. }
  rewrite Er. assert (Hnn : no_nul (bs "data: " ++ t)).
  { apply Forall_app. split; [repeat constructor; discriminate|done]. }
  rewrite c_str_id by done. change (bs "data: " ++ t) with (bs "data:" ++ x20 :: t).
  rewrite has_prefix_app. cbn [negb]. change (drop 5 (bs "data:" ++ x20 :: t)) with (x20 :: t).
  assert (Es : skip_spaces (x20 :: t) = t) by (rewrite E1; cbn [skip_spaces]; by destruct b).
  rewrite Es. apply beq_neq in Hd. by rewrite Hd.
Qed.

Abbreviation take := (take_line cJSON_Parse int_nan false).
Abbreviation feed := (clm_http_data_cb_wrapper cJSON_Parse int_nan false).

Lemma take_event msgs s fs t : event_text fs t -> Forall frag_ok fs ->
  exists s', take msgs s (bs "data: " ++ t) = Some s' /\ calls s' = fold_left add_at fs (calls s).
Proof.
  intros Ht Hf. unfold take_line, stream_handle_line. cbn [line with_line]. rewrite (line_of_event fs) by done.
  destruct (event_merges msgs (with_line s (bs "data: " ++ t)) fs Hf) as (s' & -> & Hc & _).
  cbn [mbind option_bind]. by eexists.
Qed.

Lemma take_nothing msgs s l : line_event cJSON_Parse l = None -> take msgs s l = Some (with_line s []).
Proof. intros E. unfold take_line, stream_handle_line. cbn [line with_line]. by rewrite E. Qed.

Lemma split_sse t data : ~ In x0a t -> split_lines (sse_line t ++ data)
  = let '(ls, rest) := split_lines data in ((bs "data: " ++ t) :: [] :: ls, rest).
Proof.
  intros Ht. unfold sse_line. rewrite <- !app_assoc. cbn [app]. rewrite (app_assoc (bs "data: ")).
  rewrite split_lines_app.
  - cbn [split_lines]. rewrite beq_refl. destruct (split_lines data). by rewrite app_nil_r.
  - rewrite in_app_iff. intros [Hin|?]; [|done]. revert Hin. vm_compute. intuition discriminate.
Qed.

Lemma take_events msgs evs ts : Forall2 event_text evs ts -> Forall (Forall frag_ok) evs -> forall s, line s = [] ->
  exists s', by_lines cJSON_Parse int_nan false msgs s (sse_body ts) = Some s' /\
    calls s' = fold_left add_at (concat evs) (calls s).
Proof.
  induction 1 as [|fs t evs ts Ht _ IH]; intros Hf s Hs; unfold sse_body, by_lines; cbn [map concat app].
  - rewrite <- (app_nil_r (sse_line (bs "[DONE]"))).
    rewrite split_sse by (vm_compute; intuition discriminate). cbn [split_lines foldM].
    rewrite take_nothing by (vm_compute; done). cbn [mbind option_bind].
    rewrite take_nothing by (vm_compute; done). by eexists.
  - inversion Hf as [|? ? Hf1 Hf2]; subst. rewrite <- app_assoc, split_sse by apply Ht.
    destruct (take_event msgs s fs t Ht Hf1) as (s1 & E1 & C1).
    destruct (IH Hf2 (with_line s1 []) eq_refl) as (s2 & E2 & C2). unfold by_lines, sse_body in E2.
    destruct (split_lines _) as [ls rest]. cbn [foldM]. rewrite E1. cbn [mbind option_bind].
    rewrite take_nothing by (vm_compute; done). cbn [mbind option_bind].
    exists s2. split; [done|]. by rewrite C2, fold_left_app, <- C1.
Qed.

(** ** Building the call list *)

Definition call_text (c : list byte * list byte * list byte) : Prop :=
  no_nul (fst (fst c)) /\ no_nul (snd (fst c)) /\ no_nul (snd c).

Lemma read_call_json c s : call_text c -> kept c s ->
  read_call cJSON_PrintUnformatted (call_json s (snd (fst c))) = Some c.
Proof.
  destruct c as [[i n] a]. intros (Hi & Hn & Ha) (Ki & _ & Ka). cbn in *.
  unfold read_call, call_json, strdup_item. rewrite Ki, Ka. cbn [default from_option].
  built_get. cbn [mbind option_bind]. built_get. rewrite !string_create, !c_str_id by done. done.
Qed.

Lemma build_reads_back cs l : cs <> [] -> Forall call_text cs -> Forall2 kept cs l ->
  exists arr, stream_build_tool_calls l = Some arr /\ batch_calls cJSON_PrintUnformatted arr = Some cs.
Proof.
  intros Hne Ht Hk. unfold stream_build_tool_calls.
  assert (G : forall arr0, cJSON_IsArray arr0 = true -> exists k,
    cJSON_elements (fold_left (fun arr c => match sc_name c with
       | Some name => cJSON_AddItemToArray arr (call_json c name) | None => arr end) l arr0)
    = cJSON_elements arr0 ++ k /\ mapM (read_call cJSON_PrintUnformatted) k = Some cs).
  { clear Hne. induction Hk as [|c x cs l Hc _ IH]; intros arr0 Ha; cbn [fold_left]; [exists []; by rewrite app_nil_r|].
    inversion Ht as [|? ? Ht1 Ht2]; subst. pose proof Hc as (_ & Kn & _). rewrite Kn.
    destruct (IH Ht2 (cJSON_AddItemToArray arr0 (call_json x (snd (fst c))))) as (k & E & M); [by rewrite isarray_add|].
    exists (call_json x (snd (fst c)) :: k). rewrite E, elements_add, <- app_assoc by done. split; [done|].
    cbn. rewrite read_call_json by done. cbn. by rewrite M. }
  destruct (G cJSON_CreateArray isarray_create) as (k & E & M). rewrite elements_create in E. cbn [app] in E.
  rewrite E. destruct k as [|x k]; [|eexists; split; [done|unfold batch_calls; by rewrite E]].
  cbn in M. by injection M as <-.
Qed.

Lemma head_omap {A B} (f : A -> option B) l y : head (omap f l) = Some y -> exists x, In x l /\ f x = Some y.
Proof.
  induction l as [|x l IH]; [done|]. cbn. destruct (f x) as [z|] eqn:E.
  - intros [= ->]. eauto.
  - intros Hy. destruct (IH Hy) as (x' & ? & ?). eauto.
Qed.

Lemma carried_text fs cs : carries_calls fs cs -> Forall frag_ok fs -> Forall call_text cs.
Proof.
  intros [_ Hc] Hf. rewrite List.Forall_forall in Hf. apply List.Forall_forall. intros [[i n] a] Hin.
  apply list_elem_of_In, list_elem_of_lookup in Hin as [k Hk].
  destruct (Hc k i n a Hk) as (K1 & K2 & K3).
  assert (Hsub : forall f, In f (of_index k fs) -> frag_ok f) by (intros f Hi; apply filter_In in Hi as [Hi _]; by apply Hf).
  apply head_omap in K1 as (f1 & I1 & E1). apply head_omap in K2 as (f2 & I2 & E2).
  destruct (Hsub f1 I1) as (O1 & _ & _). destruct (Hsub f2 I2) as (_ & O2 & _).
  rewrite E1 in O1. rewrite E2 in O2. split_and!; [done|done|]. cbn [snd]. subst a.
  assert (Hall : no_nul (concat (omap f_args (of_index k fs)))).
  { clear - Hsub. induction (of_index k fs) as [|f l IH]; [constructor|].
    destruct (Hsub f) as (_ & _ & O); [by left|]. cbn.
    assert (IH' : no_nul (concat (omap f_args l))) by (apply IH; intros; apply Hsub; by right).
    destruct (f_args f) as [a|]; [|done]. cbn. by apply Forall_app. }
  destruct (omap f_args (of_index k fs)); [repeat constructor; discriminate|done].
Qed.

(** C36. A streamed reply's tool calls arrive whole. The model makes the
    calls [cs]; the server cuts them into deltas, in any order between
    calls, and packs the deltas into events; the network cuts the bytes
    anywhere. What the agent hands to the dispatch reads back as [cs]: every
    call once, in order, with its id, its name and its arguments put
    together. The JSON parser reads each event's text as the event. *)
Theorem streamed_calls_arrive msgs evs ts chunks cs (Hne : cs <> [])
    (Hw : Forall2 event_text evs ts) (Hf : Forall (Forall frag_ok) evs)
    (Hc : carries_calls (concat evs) cs) (Hb : concat chunks = sse_body ts) :
  exists s arr, foldM (feed msgs) chunks stream_start = Some s /\
    stream_build_tool_calls (calls s) = Some arr /\
    batch_calls cJSON_PrintUnformatted arr = Some cs.
Proof.
  destruct (take_events msgs evs ts Hw Hf stream_start eq_refl) as (s & E & C).
  assert (Hl : Forall call_text cs).
  { apply (carried_text (concat evs)); [done|]. clear - Hf. induction Hf; [constructor|]. cbn. by apply Forall_app. }
  destruct (build_reads_back cs (calls s) Hne Hl) as (arr & E1 & E2); [rewrite C; by apply carried_calls|].
  exists s, arr. split; [|done]. rewrite feed_chunks by done. by rewrite Hb.
Qed.
End Json.

(** ** A concrete stream *)

Definition demo_events : list (list frag) :=
  [[mk_frag 0 (Some (bs "c1")) (Some (bs "ls")) None; mk_frag 1 (Some (bs "c2")) (Some (bs "cat")) (Some (bs "{"))];
   [mk_frag 1 None None (Some (bs "}")); mk_frag 0 None None (Some (bs "{}"))]].
Definition demo_calls : list (list byte * list byte * list byte) :=
  [(bs "c1", bs "ls", bs "{}"); (bs "c2", bs "cat", bs "{}")].

#[local] Instance demo_provider : @Provider json_cjson := {|
  pstate := unit; pstate_null := tt; normalize_stream_event := None
|}.

Definition demo_parse (t : list byte) : option json :=
  if beq t (bs "{1}") then Some (event_json (nth 0 demo_events []))
  else if beq t (bs "{2}") then Some (event_json (nth 1 demo_events [])) else None.

Lemma demo_event_text k t : t = bs "{1}" /\ k = 0%nat \/ t = bs "{2}" /\ k = 1%nat ->
  event_text demo_parse (nth k demo_events []) t.
Proof.
  intros [[-> ->]|[-> ->]]; constructor; try (vm_compute; intuition discriminate); try done;
    try (repeat constructor; discriminate).
  1,3: by eexists _, _. 1: by exists x7d, (bs "{1"). by exists x7d, (bs "{2").
Qed.

Lemma demo_carries : carries_calls (concat demo_events) demo_calls.
Proof.
  split; [repeat constructor; cbn; lia|]. intros [|[|k]] i n a E; [| |done]; injection E as <- <- <-;
    by vm_compute.
Qed.

Lemma streamed_calls_arrive_witness :
  Forall2 (event_text demo_parse) demo_events [bs "{1}"; bs "{2}"] /\
  carries_calls (concat demo_events) demo_calls /\
  exists s arr,
    foldM (clm_http_data_cb_wrapper demo_parse 0 false 0)
      [take 9 (sse_body [bs "{1}"; bs "{2}"]); drop 9 (sse_body [bs "{1}"; bs "{2}"])] stream_start = Some s /\
    stream_build_tool_calls (calls s) = Some arr /\ batch_calls (fun _ => None) arr = Some demo_calls.
Proof.
  assert (Hw : Forall2 (event_text demo_parse) demo_events [bs "{1}"; bs "{2}"]).
  { constructor; [apply (demo_event_text 0); auto|]. constructor; [apply (demo_event_text 1); auto|constructor]. }
  split; [exact Hw|]. split; [exact demo_carries|].
  apply (@streamed_calls_arrive json_cjson json_laws demo_provider demo_parse 0 (fun _ => None) eq_refl 0 demo_events
    [bs "{1}"; bs "{2}"] _ demo_calls); [discriminate|exact Hw| |exact demo_carries|].
  - repeat constructor; discriminate.
  - vm_compute. reflexivity.
Defined.
