(* ===== verification/Provider.v ===== *)
(** The provider seam ([src/libclm/llm.c], [src/libclm/provider.c],
    [clm/provider.h]): the connection's settings and the operations a wire
    dialect supplies. *)

From S2P Require Import Prelude CJson Stream.

Inductive clm_provider :=
| CLM_PROVIDER_OPENAI | CLM_PROVIDER_OLLAMA | CLM_PROVIDER_ANTHROPIC | CLM_PROVIDER_OPENAI_RESPONSES.

#[export] Instance clm_provider_eq_dec : EqDecision clm_provider.
Proof. solve_decision. Defined.

Definition clm_provider_from_str (kind : option (list byte)) : clm_provider :=
  match kind with
  | None => CLM_PROVIDER_OPENAI
  | Some k =>
      if beq k (bs "ollama") then CLM_PROVIDER_OLLAMA
      else if beq k (bs "anthropic") then CLM_PROVIDER_ANTHROPIC
      else if beq k (bs "openai-responses") then CLM_PROVIDER_OPENAI_RESPONSES
      else CLM_PROVIDER_OPENAI
  end.

(** [struct clm_llm] *)
Record clm_llm := mk_llm {
  provider : clm_provider;
  api_key : list byte;
  base_url : list byte;
  model : list byte;
  disable_parallel_tool_calls : bool;
  effort : option (list byte);
  prev_response_id : option (list byte);
  cache_system : bool;
  response_schema : option (list byte)
}.

Definition clm_llm_new (p : clm_provider) (key url m : list byte) (no_parallel : bool) : clm_llm :=
  mk_llm p key url m no_parallel None None false None.

Definition with_effort (l : clm_llm) (e : option (list byte)) : clm_llm :=
  mk_llm (provider l) (api_key l) (base_url l) (model l) (disable_parallel_tool_calls l) e
    (prev_response_id l) (cache_system l) (response_schema l).
Definition with_prev (l : clm_llm) (p : option (list byte)) : clm_llm :=
  mk_llm (provider l) (api_key l) (base_url l) (model l) (disable_parallel_tool_calls l) (effort l)
    p (cache_system l) (response_schema l).
Definition with_cache_system (l : clm_llm) (b : bool) : clm_llm :=
  mk_llm (provider l) (api_key l) (base_url l) (model l) (disable_parallel_tool_calls l) (effort l)
    (prev_response_id l) b (response_schema l).
Definition with_schema (l : clm_llm) (s : option (list byte)) : clm_llm :=
  mk_llm (provider l) (api_key l) (base_url l) (model l) (disable_parallel_tool_calls l) (effort l)
    (prev_response_id l) (cache_system l) s.

(** An empty text clears a setting. *)
Definition unless_empty (s : option (list byte)) : option (list byte) :=
  match s with Some [] => None | _ => s end.

Definition clm_llm_set_effort (l : clm_llm) (e : option (list byte)) : clm_llm := with_effort l (unless_empty e).
Definition clm_llm_set_response_schema (l : clm_llm) (s : option (list byte)) : clm_llm :=
  with_schema l (unless_empty s).

(** [endpoint_path] of the operations [clm_provider_ops_get] finds. *)
Definition endpoint_path (p : clm_provider) : list byte :=
  match p with
  | CLM_PROVIDER_ANTHROPIC => bs "messages"
  | CLM_PROVIDER_OPENAI_RESPONSES => bs "responses"
  | _ => bs "chat/completions"
  end.

(** [while (len > 0 && base_url[len - 1] == '/') len--], on the reversed
    text. *)
Fixpoint skip_slashes (s : list byte) : list byte :=
  match s with x2f :: s' => skip_slashes s' | _ => s end.

Definition clm_provider_build_url (bufsz : nat) (url : list byte) (p : clm_provider) : list byte :=
  snprintf bufsz (rev (skip_slashes (rev url)) ++ bs "/" ++ endpoint_path p).

(** [struct clm_provider_ops], beside the stream's part of it: what a client
    of the seam calls. A function that owns its argument returns what became
    of it. *)
Class ProviderOps `{CJson} := {
  (** [None]: out of memory *)
  build_request : clm_llm -> cJSON -> option cJSON -> bool -> option cJSON;
  normalize_response : option (cJSON -> option cJSON);
  forbid_tool_calls : option (cJSON -> cJSON)
}.
