(* ===== verification/ProviderOpenai.v ===== *)
(** The OpenAI dialect ([src/libclm/provider_openai.c]): the canonical
    format is the wire format, apart from the images of tool results, which
    chat completions ignores where they are. They move to a user message
    after the batch. *)

From S2P Require Import Prelude Utf8 TextClean Image RateLimit Tokens CJson History HistoryFacts HistoryJson.
From S2P Require Import Registry Tools Stream Provider.

Section Openai.
Context `{CJson} (cJSON_Parse : list byte -> option cJSON).

Fixpoint name_in_calls (calls : list cJSON) (id : list byte) : option (option (list byte)) :=
  match calls with
  | [] => None
  | c :: calls' =>
      match get_string (Some c) (bs "id") with
      | Some cid =>
          if beq cid id then Some (get_string (cJSON_GetObjectItemCaseSensitive c (bs "function")) (bs "name"))
          else name_in_calls calls' id
      | None => name_in_calls calls' id
      end
  end.

(** [tool_name_for], with the messages before index [i] in reverse. *)
Fixpoint tool_name_for (before_rev : list cJSON) (id : option (list byte)) : option (list byte) :=
  match id, before_rev with
  | Some i, m :: before_rev' =>
      match name_in_calls (each (cJSON_GetObjectItemCaseSensitive m (bs "tool_calls"))) i with
      | Some name => name
      | None => tool_name_for before_rev' id
      end
  | _, _ => None
  end.

Definition label_part (name id : option (list byte)) : cJSON :=
  text_part (snprintf 256 (bs "image from tool " ++ default (bs "?") name ++ bs " (call "
                            ++ default (bs "?") id ++ bs "):")).

(** The loop over the parts: the text so far and the carrier. *)
Fixpoint split_parts (name id : option (list byte)) (parts : list cJSON) (text : option (list byte))
    (carrier : list cJSON) : option (list byte) * list cJSON :=
  match parts with
  | [] => (text, carrier)
  | part :: parts' =>
      if type_is part (bs "text") then
        let t := default [] (get_string (Some part) (bs "text")) in
        let sep := match text with Some (_ :: _) => [x0a] | _ => [] end in
        split_parts name id parts' (Some (default [] text ++ sep ++ t)) carrier
      else if type_is part (bs "image_url") then
        split_parts name id parts' text (carrier ++ [label_part name id; part])
      else split_parts name id parts' text carrier
  end.

Definition split_tool_images (before : list cJSON) (msg content : cJSON) (carrier : list cJSON)
  : cJSON * list cJSON :=
  let id := get_string (Some msg) (bs "tool_call_id") in
  let name := tool_name_for (rev before) id in
  let '(text, carrier) := split_parts name id (cJSON_elements content) None carrier in
  (cJSON_AddItemToObject (cJSON_DeleteItemFromObjectCaseSensitive msg (bs "content")) (bs "content")
     (cJSON_CreateString (default (bs "(image result)") text)), carrier).

Definition carrier_message (carrier : list cJSON) : cJSON :=
  cJSON_AddItemToObject (cJSON_AddStringToObject cJSON_CreateObject (bs "role") (bs "user"))
    (bs "content") (array_from carrier).

(** The loop of [carry_tool_images]: [done] is the array up to index [i],
    [rest] the messages from there, [carrier] NULL or the parts. *)
Fixpoint carry (done_ : list cJSON) (carrier : option (list cJSON)) (rest : list cJSON) : list cJSON :=
  match rest with
  | [] => match carrier with Some c => done_ ++ [carrier_message c] | None => done_ end
  | msg :: rest' =>
      let tool := role_is msg (bs "tool") in
      match tool, cJSON_GetObjectItemCaseSensitive msg (bs "content") with
      | true, Some content =>
          if cJSON_IsArray content then
            let '(msg, c) := split_tool_images done_ msg content (default [] carrier) in
            carry (done_ ++ [msg]) (Some c) rest'
          else carry (done_ ++ [msg]) carrier rest'
      | true, None => carry (done_ ++ [msg]) carrier rest'
      | false, _ =>
          match carrier with
          | Some c => carry (done_ ++ [carrier_message c; msg]) None rest'
          | None => carry (done_ ++ [msg]) None rest'
          end
      end
  end.

Definition carry_tool_images (messages : cJSON) : cJSON :=
  cJSON_update_elements messages (carry [] None (cJSON_elements messages)).

Definition response_format (schema : cJSON) : cJSON :=
  cJSON_AddItemToObject (cJSON_AddStringToObject cJSON_CreateObject (bs "type") (bs "json_schema"))
    (bs "json_schema")
    (cJSON_AddItemToObject (cJSON_AddStringToObject cJSON_CreateObject (bs "name") (bs "response"))
       (bs "schema") schema).

Definition openai_build_request (llm : clm_llm) (messages : cJSON) (tools : option cJSON) (stream : bool)
  : option cJSON :=
  let req := cJSON_AddStringToObject cJSON_CreateObject (bs "model") (model llm) in
  let req := cJSON_AddItemToObject req (bs "messages") (carry_tool_images messages) in
  let req := cJSON_AddItemToObject req (bs "stream") (cJSON_CreateBool stream) in
  let req := add_opt req (bs "reasoning_effort") (effort llm) in
  let req := match s ← response_schema llm; cJSON_Parse s with
             | Some schema => cJSON_AddItemToObject req (bs "response_format") (response_format schema)
             | None => req
             end in
  let req := if stream
             then cJSON_AddItemToObject req (bs "stream_options")
                    (cJSON_AddItemToObject cJSON_CreateObject (bs "include_usage") (cJSON_CreateBool true))
             else req in
  Some match tools with
       | Some tools =>
           let req := cJSON_AddItemToObject req (bs "tools") tools in
           if disable_parallel_tool_calls llm
           then cJSON_AddItemToObject req (bs "parallel_tool_calls") (cJSON_CreateBool false)
           else req
       | None => req
       end.

Definition openai_forbid_tool_calls (req : cJSON) : cJSON :=
  cJSON_AddStringToObject (cJSON_DeleteItemFromObjectCaseSensitive req (bs "tool_choice"))
    (bs "tool_choice") (bs "none").

(** [clm_provider_ops_openai] *)
Definition clm_provider_ops_openai : ProviderOps := {|
  build_request := openai_build_request;
  normalize_response := None;
  forbid_tool_calls := Some openai_forbid_tool_calls
|}.

Definition openai_stream : Provider := {|
  pstate := unit; pstate_null := tt; normalize_stream_event := None
|}.
End Openai.

(** ** Where the images go *)

Section Facts.
Context `{CJsonLaws}.

Definition is_image (part : cJSON) : bool := type_is part (bs "image_url").

(** The images a message carries. *)
Definition images (msg : cJSON) : list cJSON :=
  match cJSON_GetObjectItemCaseSensitive msg (bs "content") with
  | Some c => if cJSON_IsArray c then List.filter is_image (cJSON_elements c) else []
  | None => []
  end.

(** What makes a message part of an exchange: its role, the call it answers
    and the calls it makes. *)
Definition msg_key (msg : cJSON) : option (list byte) * option (list byte) * option cJSON :=
  (get_string (Some msg) (bs "role"), get_string (Some msg) (bs "tool_call_id"),
   cJSON_GetObjectItemCaseSensitive msg (bs "tool_calls")).

Definition key_is_tool (k : option (list byte) * option (list byte) * option cJSON) : bool :=
  match fst (fst k) with Some r => beq r (bs "tool") | None => false end.

Definition user_key : option (list byte) * option (list byte) * option cJSON := (Some (bs "user"), None, None).

(** The second list is the first with user messages put in, none of them
    before a tool message. *)
Inductive woven : list (option (list byte) * option (list byte) * option cJSON) ->
    list (option (list byte) * option (list byte) * option cJSON) -> Prop :=
| woven_nil : woven [] []
| woven_keep k a b : woven a b -> woven (k :: a) (k :: b)
| woven_user a b : match b with [] => True | k :: _ => key_is_tool k = false end ->
    woven a b -> woven a (user_key :: b).

(** An object that has its content once. *)
Definition content_once (msg : cJSON) : Prop :=
  cJSON_IsObject msg = true /\
  cJSON_GetObjectItemCaseSensitive (cJSON_DeleteItemFromObjectCaseSensitive msg (bs "content")) (bs "content") = None.

(** A tool message whose content is no array. *)
Definition plain_tool (msg : cJSON) : Prop :=
  role_is msg (bs "tool") = true ->
  match cJSON_GetObjectItemCaseSensitive msg (bs "content") with Some c => cJSON_IsArray c = false | None => True end.

Lemma carrier_images c : images (carrier_message c) = List.filter is_image c.
Proof.
  unfold images, carrier_message. built_get. destruct (array_from_elements c) as [-> ->]. done.
Qed.

Lemma carrier_key c : msg_key (carrier_message c) = user_key /\ plain_tool (carrier_message c).
Proof.
  assert (E : get_string (Some (carrier_message c)) (bs "role") = Some (bs "user")).
  { unfold get_string, carrier_message. cbn [mbind option_bind]. built_get. cbn [mbind option_bind]. by rewrite string_create. }
  split.
  - unfold msg_key. rewrite E. unfold get_string, carrier_message. cbn [mbind option_bind]. by built_get.
  - unfold plain_tool, role_is. rewrite E. by lit.
Qed.

Lemma label_no_image name id : is_image (label_part name id) = false.
Proof.
  unfold is_image, type_is, label_part, text_part, get_string. cbn [mbind option_bind]. built_get.
  cbn [mbind option_bind]. rewrite string_create. vm_compute. done.
Qed.

Lemma split_parts_images name id parts : forall text carrier,
  List.filter is_image (snd (split_parts name id parts text carrier))
  = List.filter is_image carrier ++ List.filter is_image parts.
Proof.
  induction parts as [|p parts IH]; intros text carrier; cbn [split_parts List.filter]; [by rewrite app_nil_r|].
  destruct (type_is p (bs "text")) eqn:Et.
  - rewrite IH. assert (is_image p = false) as ->; [|done]. revert Et. unfold is_image, type_is.
    destruct (get_string _ _) as [t|]; [|done]. intros E. apply beq_eq in E as ->. by lit.
  - fold (is_image p). destruct (is_image p) eqn:Ei; rewrite IH; [|done].
    rewrite List.filter_app. cbn [List.filter]. rewrite label_no_image, Ei, <- app_assoc. done.
Qed.

(** A tool message after [split_tool_images]. *)
Lemma split_message before msg content c : content_once msg ->
  cJSON_GetObjectItemCaseSensitive msg (bs "content") = Some content -> cJSON_IsArray content = true ->
  let '(m, c') := split_tool_images before msg content c in
  msg_key m = msg_key msg /\ plain_tool m /\ images m = [] /\
  List.filter is_image c' = List.filter is_image c ++ images msg.
Proof.
  intros [Ho Hc] E Ea. unfold split_tool_images.
  pose proof (split_parts_images (tool_name_for (rev before) (get_string (Some msg) (bs "tool_call_id")))
    (get_string (Some msg) (bs "tool_call_id")) (cJSON_elements content) None c) as Hs.
  destruct (split_parts _ _ _ _ _) as [text c']. cbn [snd] in Hs.
  set (m := cJSON_AddItemToObject _ _ _).
  assert (Eo : cJSON_IsObject (cJSON_DeleteItemFromObjectCaseSensitive msg (bs "content")) = true)
    by (by rewrite isobject_delete).
  assert (Em : cJSON_GetObjectItemCaseSensitive m (bs "content")
    = Some (cJSON_CreateString (default (bs "(image result)") text))).
  { unfold m. rewrite get_add, Hc by done. by lit. }
  assert (Other : forall k, beq k (bs "content") = false ->
    cJSON_GetObjectItemCaseSensitive m k = cJSON_GetObjectItemCaseSensitive msg k).
  { intros k Hk. unfold m. rewrite get_add, Hk by done. rewrite get_delete_other by (by apply beq_neq).
    by destruct (cJSON_GetObjectItemCaseSensitive msg k). }
  assert (Na : forall s, cJSON_IsArray (cJSON_CreateString s) = false).
  { intros s. destruct (cJSON_IsArray (cJSON_CreateString s)) eqn:Es; [|done].
    apply string_array in Es. by rewrite string_create in Es. }
  split_and!.
  - unfold msg_key, get_string. cbn [mbind option_bind].
    rewrite (Other (bs "role") eq_refl), (Other (bs "tool_call_id") eq_refl), (Other (bs "tool_calls") eq_refl). done.
  - intros _. by rewrite Em, Na.
  - unfold images. by rewrite Em, Na.
  - unfold images. by rewrite E, Ea.
Qed.

Lemma key_tool msg : key_is_tool (msg_key msg) = role_is msg (bs "tool").
Proof. done. Qed.

Lemma carry_spec rest : forall before c, Forall content_once rest ->
  exists out, carry before c rest = before ++ out /\
    concat (map images out) = List.filter is_image (default [] c) ++ concat (map images rest) /\
    Forall plain_tool out /\ woven (map msg_key rest) (map msg_key out).
Proof.
  induction rest as [|msg rest IH]; intros before c Hw; cbn [carry].
  { destruct c as [c|]; [|exists []; rewrite app_nil_r; split_and!; constructor].
    destruct (carrier_key c) as [Ek Ep]. exists [carrier_message c]. cbn.
    rewrite carrier_images, Ek, !app_nil_r. split_and!; try done; repeat constructor; done. }
  inversion Hw as [|? ? Hm Hw']; subst.
  assert (Keep : forall c', (role_is msg (bs "tool") = false -> c' = None) -> plain_tool msg ->
    exists out, carry (before ++ [msg]) c' rest = before ++ out /\
      concat (map images out) = images msg ++ List.filter is_image (default [] c') ++ concat (map images rest) /\
      Forall plain_tool out /\ woven (map msg_key (msg :: rest)) (map msg_key out)).
  { intros c' _ Hp. destruct (IH (before ++ [msg]) c' Hw') as (out & E1 & E2 & E3 & E4).
    exists (msg :: out). rewrite E1, <- app_assoc. cbn [map concat]. rewrite E2.
    split_and!; try done; by constructor. }
  destruct (role_is msg (bs "tool")) eqn:Et.
  - assert (No : forall k, match cJSON_GetObjectItemCaseSensitive msg (bs "content") with
        Some x => cJSON_IsArray x = false | None => True end ->
      exists out, carry (before ++ [msg]) k rest = before ++ out /\
        concat (map images out) = List.filter is_image (default [] k) ++ concat (map images (msg :: rest)) /\
        Forall plain_tool out /\ woven (map msg_key (msg :: rest)) (map msg_key out)).
    { intros k Hk. destruct (Keep k) as (out & E1 & E2 & E3 & E4); [done|by intros _|].
      exists out. split_and!; try done. rewrite E2. cbn [map concat].
      assert (images msg = []) as ->; [|done]. unfold images.
      destruct (cJSON_GetObjectItemCaseSensitive msg (bs "content")); [|done]. by rewrite Hk. }
    destruct (cJSON_GetObjectItemCaseSensitive msg (bs "content")) as [content|] eqn:Ec; [|by apply No].
    destruct (cJSON_IsArray content) eqn:Ea; [|by apply No].
    pose proof (split_message before msg content (default [] c) Hm Ec Ea) as Hs.
    destruct (split_tool_images _ _ _ _) as [m c']. destruct Hs as (S1 & S2 & S3 & S4).
    destruct (IH (before ++ [m]) (Some c') Hw') as (out & E1 & E2 & E3 & E4).
    exists (m :: out). rewrite E1, <- app_assoc. cbn [map concat default from_option].
    split_and!; [done| |by constructor|rewrite S1; by constructor].
    rewrite S3, E2. change (default [] (Some c')) with c'. cbn [app]. by rewrite S4, <- app_assoc.
  - assert (Hp : plain_tool msg) by (unfold plain_tool; by rewrite Et).
    destruct c as [c|].
    + destruct (IH (before ++ [carrier_message c; msg]) None Hw') as (out & E1 & E2 & E3 & E4).
      destruct (carrier_key c) as [Ek Ep].
      exists (carrier_message c :: msg :: out). rewrite E1, <- app_assoc.
      cbn [map concat default from_option]. rewrite Ek, E2, carrier_images.
      split_and!; [done|done|by repeat constructor|]. constructor; [by rewrite key_tool|by constructor].
    + destruct (Keep None) as (out & E1 & E2 & E3 & E4); [done|done|].
      exists out. by split_and!.
Qed.

(** C38. Every image of a conversation reaches a chat-completions model, and
    no exchange is torn apart. The request holds the same images in the same
    order, none of them in a tool message, where the server would ignore
    them; it holds every message with its role, its calls and the call it
    answers, and the user messages it adds come before no tool message, so a
    result still follows its calls directly. *)
Theorem images_reach_the_model messages (Ha : cJSON_IsArray messages = true)
    (Hw : Forall content_once (cJSON_elements messages)) :
  concat (map images (cJSON_elements (carry_tool_images messages)))
    = concat (map images (cJSON_elements messages)) /\
  Forall plain_tool (cJSON_elements (carry_tool_images messages)) /\
  woven (map msg_key (cJSON_elements messages)) (map msg_key (cJSON_elements (carry_tool_images messages))).
Proof.
  unfold carry_tool_images. rewrite elements_update by done.
  by destruct (carry_spec (cJSON_elements messages) [] None Hw) as (out & -> & E2 & E3 & E4).
Qed.
End Facts.

(** A result with an image between an exchange and the next prompt. *)
Definition demo_messages : json :=
  JArray [JObject [(bs "role", JString (bs "assistant"))];
          JObject [(bs "role", JString (bs "tool"));
                   (bs "content", JArray [@text_part json_cjson (bs "ok"); @attachment_part json_cjson (mk_attachment (bs "image/gif") [x47])])];
          JObject [(bs "role", JString (bs "user")); (bs "content", JString (bs "go on"))]].

Lemma images_reach_the_model_witness :
  Forall (@content_once json_cjson) (@cJSON_elements json_cjson demo_messages) /\
  length (@cJSON_elements json_cjson (@carry_tool_images json_cjson demo_messages)) = 4%nat /\
  concat (map (@images json_cjson) (@cJSON_elements json_cjson (@carry_tool_images json_cjson demo_messages)))
  = concat (map (@images json_cjson) (@cJSON_elements json_cjson demo_messages)).
Proof.
  assert (Hw : Forall (@content_once json_cjson) (@cJSON_elements json_cjson demo_messages))
    by (repeat constructor).
  split; [exact Hw|]. split; [vm_compute; reflexivity|].
  exact (proj1 (@images_reach_the_model json_cjson json_laws demo_messages eq_refl Hw)).
Defined.
