(* ===== verification/Canonical.v ===== *)
(** What a dialect turns a provider's answers into: the message, the usage and
    the chunks of the canonical form, which is the form of OpenAI's chat
    completions. [provider_anthropic.c] and [provider_responses.c] have each
    their own copy of this code; the copies do the same. *)

From S2P Require Import Prelude CJson.
#[local] Open Scope Z_scope.

Section Canonical.
Context `{J : CJson}.

(** A call in the canonical form. *)
Definition canonical_call (id name args : list byte) : cJSON :=
  cJSON_AddItemToObject
    (cJSON_AddStringToObject (cJSON_AddStringToObject cJSON_CreateObject (bs "id") id) (bs "type") (bs "function"))
    (bs "function")
    (cJSON_AddStringToObject (cJSON_AddStringToObject cJSON_CreateObject (bs "name") name) (bs "arguments") args).

Definition append_opt (buf : option (list byte)) (t : option (list byte)) : option (list byte) :=
  match t with Some t => Some (default [] buf ++ t) | None => buf end.

Definition canonical_message (text_buf reasoning_buf : option (list byte)) (calls : option cJSON) : cJSON :=
  let message := cJSON_AddStringToObject cJSON_CreateObject (bs "role") (bs "assistant") in
  let message := cJSON_AddItemToObject message (bs "content")
                   (match text_buf with Some t => cJSON_CreateString t | None => cJSON_CreateNull end) in
  let message := add_opt message (bs "reasoning_content") reasoning_buf in
  match calls with Some c => cJSON_AddItemToObject message (bs "tool_calls") c | None => message end.

Definition canonical_usage (itok otok cache_read cache_write : Z) : cJSON :=
  let u := cJSON_AddItemToObject cJSON_CreateObject (bs "prompt_tokens") (cJSON_CreateNumber itok) in
  let u := cJSON_AddItemToObject u (bs "completion_tokens") (cJSON_CreateNumber otok) in
  let u := cJSON_AddItemToObject u (bs "total_tokens") (cJSON_CreateNumber (itok + otok)) in
  let u := cJSON_AddItemToObject u (bs "cache_read_tokens") (cJSON_CreateNumber cache_read) in
  cJSON_AddItemToObject u (bs "cache_write_tokens") (cJSON_CreateNumber cache_write).

Definition delta_chunk (delta : cJSON) : cJSON :=
  cJSON_AddItemToObject cJSON_CreateObject (bs "choices")
    (cJSON_AddItemToArray cJSON_CreateArray (cJSON_AddItemToObject cJSON_CreateObject (bs "delta") delta)).

Definition make_delta_chunk (key value : list byte) : cJSON :=
  delta_chunk (cJSON_AddStringToObject cJSON_CreateObject key value).

Definition make_tool_delta_chunk (index : Z) (id name : option (list byte)) (args_frag : option (list byte)) : cJSON :=
  let tc := cJSON_AddItemToObject cJSON_CreateObject (bs "index") (cJSON_CreateNumber index) in
  let tc := add_opt tc (bs "id") id in
  let func := add_opt cJSON_CreateObject (bs "name") name in
  let func := cJSON_AddStringToObject func (bs "arguments") (default [] args_frag) in
  let tc := cJSON_AddItemToObject tc (bs "function") func in
  delta_chunk (cJSON_AddItemToObject cJSON_CreateObject (bs "tool_calls") (cJSON_AddItemToArray cJSON_CreateArray tc)).

End Canonical.
