(* ===== verification/CanonicalCalls.v ===== *)
(** The messages of a request in the canonical form, before a dialect
    translates them: their calls and results, and that those of a history
    whose calls are answered are paired. *)

From S2P Require Import Prelude Utf8 Image CJson History HistoryFacts HistoryJson.
From stdpp Require Import list.
#[local] Open Scope Z_scope.

Section Messages.
Context `{L : CJsonLaws}.

Abbreviation content_of m := (cJSON_GetObjectItemCaseSensitive m (bs "content")).

Definition calls_of (m : cJSON) : list cJSON :=
  match cJSON_GetObjectItemCaseSensitive m (bs "tool_calls") with
  | Some tcs => if cJSON_IsArray tcs then cJSON_elements tcs else []
  | None => []
  end.

Definition call_id (tc : cJSON) : list byte := default [] (get_string (Some tc) (bs "id")).
Definition answered_id (m : cJSON) : list byte := default [] (get_string (Some m) (bs "tool_call_id")).
(** Messages as the history makes them: calls are an assistant's, and then
    the content is no array. *)
Definition well_formed (m : cJSON) : Prop :=
  calls_of m <> [] -> role_is m (bs "assistant") = true /\ is_array (content_of m) = false.

Lemma role_is_of m r : role_is m r = true -> get_string (Some m) (bs "role") = Some r.
Proof. unfold role_is. destruct (get_string _ _); [|done]. by intros ->%beq_eq. Qed.

Lemma role_is_other m r r' : role_is m r = true -> beq r r' = false -> role_is m r' = false.
Proof. intros Hr%role_is_of E. unfold role_is. by rewrite Hr. Qed.

Lemma uncalled m r : well_formed m -> role_is m r = true -> beq r (bs "assistant") = false -> calls_of m = [].
Proof.
  intros Hm Hr E. destruct (calls_of m) eqn:Ec; [done|]. destruct Hm as [Ha _]; [by rewrite Ec|].
  apply role_is_of in Hr, Ha. rewrite Hr in Ha. injection Ha as ->. done.
Qed.

(** In the canonical form: a result answers a call of the message before its
    run, and every call is answered in the run. *)
Fixpoint answered_in (id : list byte) (l : list cJSON) : Prop :=
  match l with
  | m :: l => role_is m (bs "tool") = true /\ (answered_id m = id \/ answered_in id l)
  | [] => False
  end.

Fixpoint paired (ids : list (list byte)) (l : list cJSON) : Prop :=
  match l with
  | [] => True
  | m :: l =>
      if role_is m (bs "tool") then In (answered_id m) ids /\ paired ids l
      else (forall id, In id (map call_id (calls_of m)) -> answered_in id l) /\ paired (map call_id (calls_of m)) l
  end.

(** ** The messages of a history *)

Definition wire_id (o : option (list byte)) : list byte := default [] (c_str <$> o).

Definition wired (cz : option clm_compressor) (m : clm_message) (j : cJSON) : Prop :=
  exists p, plain_content m cz = Some p /\ wire_members m p j.

Lemma wired_role cz m j r : wired cz m j -> role_is j r = beq (role_to_str (role m)) r.
Proof. intros (p & _ & W). unfold role_is. by rewrite (wm_role _ _ _ W). Qed.

Lemma wired_tool cz m j : wired cz m j -> role_is j (bs "tool") = is_tool m /\
  (is_tool m = true -> answered_id j = wire_id (tool_call_id m)).
Proof.
  intros W. rewrite (wired_role _ _ _ _ W). destruct W as (p & _ & W). unfold is_tool, answered_id.
  rewrite (wm_id _ _ _ W). by destruct (role m).
Qed.

Lemma call_id_json tc : call_id (clm_tool_call_to_json tc) = wire_id (tc_id tc).
Proof.
  unfold call_id, get_string, clm_tool_call_to_json. cbn [mbind option_bind]. built_get.
  destruct (tc_id tc) as [i|]; cbn; [by rewrite string_create|done].
Qed.

Lemma wired_calls cz m j : wired cz m j -> map call_id (calls_of j) = map wire_id (call_ids m).
Proof.
  intros (p & _ & W). pose proof (wm_calls _ _ _ W) as Hc. unfold calls_of, call_ids. destruct (has_calls m).
  - destruct Hc as (a & -> & -> & ->). rewrite !map_map. apply map_ext, call_id_json.
  - by rewrite Hc.
Qed.

Lemma wired_answered cz h l id : Forall2 (wired cz) h l -> tool_result_present h id = true -> answered_in (wire_id id) l.
Proof.
  intros Hl. revert id. induction Hl as [|m j h l Hj _ IH]; intros [i|]; try done. cbn [tool_result_present answered_in].
  destruct (wired_tool _ _ _ Hj) as [E1 E2]. destruct (is_tool m) eqn:Et; [|done]. intros Ha. split; [done|].
  apply orb_true_iff in Ha as [Ha|Ha]; [left|right; by apply (IH (Some i))]. rewrite E2 by done.
  unfold answers in Ha. destruct (role m), (tool_call_id m) as [i'|]; try done. by apply beq_eq in Ha as ->.
Qed.

Lemma history_paired cz h l : Forall2 (wired cz) h l -> forall ids, orphan_free ids h -> answered h ->
  paired (map wire_id ids) l.
Proof.
  induction 1 as [|m j h l Hj Hl IH]; intros ids Ho Ha; [done|]. cbn [orphan_free answered paired] in *.
  destruct (wired_tool _ _ _ Hj) as [E1 E2]. rewrite E1, (wired_calls _ _ _ Hj). destruct Ha as [Ha Ha']. destruct (is_tool m).
  - destruct Ho as [Hi Ho]. rewrite E2 by done. split; [by apply in_map|by apply IH].
  - split; [|by apply IH]. intros x (id & <- & Hid)%in_map_iff. eapply wired_answered; [done|by apply Ha].
Qed.

(** Assistants' images are not sent, and none has any. *)
Definition calls_no_images (h : clm_history) : Prop := Forall (fun m => has_calls m = true -> attachments m = []) h.

Lemma wired_well_formed cz m j : wired cz m j -> (has_calls m = true -> attachments m = []) -> well_formed j.
Proof.
  intros W Hi Hc. pose proof (wired_role _ _ _ (bs "assistant") W) as Er. destruct W as (p & _ & W).
  assert (Hh : has_calls m = true).
  { destruct (has_calls m) eqn:E; [done|]. exfalso. apply Hc. unfold calls_of. pose proof (wm_calls _ _ _ W) as Hn.
    rewrite E in Hn. by rewrite Hn. }
  assert (Ra : role m = CLM_ROLE_ASSISTANT) by (unfold has_calls in Hh; by destruct (role m)).
  split; [by rewrite Er, Ra|]. pose proof (wm_content _ _ _ W) as Hp. rewrite (Hi Hh), Ra in Hp. unfold is_array.
  destruct p as [s|].
  - unfold get_string in Hp. cbn [mbind option_bind] in Hp. destruct (content_of j) as [c|]; [|done].
    by apply (string_not_array _ (c_str s)).
  - rewrite Hp. apply null_not_array.
Qed.

(** System messages, then a history: its calls are paired. With [ids], the
    results at the head answer calls of a message that is left out, and then
    there are no system messages. *)
Lemma conversation_paired ids h cz arr sys messages : orphan_free ids h -> answered h -> calls_no_images h ->
  Forall (fun m => exists p, plain_content m cz = Some p) h -> clm_history_to_json h cz = Some arr ->
  Forall (fun m => role_is m (bs "system") = true /\ well_formed m) sys -> sys = [] \/ ids = [] ->
  cJSON_elements messages = sys ++ cJSON_elements arr ->
  Forall well_formed (cJSON_elements messages) /\ paired (map wire_id ids) (cJSON_elements messages).
Proof.
  intros Ho Ha Hi Hp Hj Hs Hids Hm.
  destruct (history_array_elements h cz cJSON_CreateArray isarray_create Hp) as (out & l & E1 & E2 & Hl).
  unfold clm_history_to_json in Hj. rewrite Hj in E1. injection E1 as <-. rewrite elements_create in E2. cbn [app] in E2. subst l.
  rewrite Hm. split.
  - apply Forall_app. split; [eapply Forall_impl; [exact Hs|by intros ? []]|].
    unfold calls_no_images in Hi. clear - L Hl Hi. induction Hl as [|m j h l Hj _ IH]; [constructor|].
    inversion Hi; subst. constructor; [by eapply wired_well_formed|by apply IH].
  - pose proof (history_paired cz h _ Hl ids Ho Ha) as Hpd. destruct Hids as [->| ->]; [exact Hpd|]. clear - L Hs Hpd.
    induction Hs as [|m sys [Hr Hw] _ IH]; [done|]. cbn [app paired].
    rewrite (role_is_other _ _ (bs "tool") Hr), (uncalled m _ Hw Hr) by done. split; [by intros ? []|done].
Qed.
End Messages.
