(* ===== verification/CanonicalFacts.v ===== *)
(** The canonical form read back: what a canonical message and usage hold,
    and what the stream parser makes of a dialect's chunks. *)

From S2P Require Import Prelude Utf8 TextClean Image RateLimit Tokens CJson History HistoryFacts HistoryJson.
From S2P Require Import Registry Tools ToolsSpec Stream StreamFacts StreamCalls Canonical.
From stdpp Require Import list.
#[local] Open Scope Z_scope.

Section Messages.
Context `{L : CJsonLaws}.

Abbreviation content_of m := (cJSON_GetObjectItemCaseSensitive m (bs "content")).

Definition joined (l : list (list byte)) : option (list byte) := match l with [] => None | _ => Some (concat l) end.
Definition call_array (l : list cJSON) : option cJSON := match l with [] => None | _ => Some (array_from l) end.

Lemma joined_snoc l t : joined (l ++ [t]) = append_opt (joined l) (Some t).
Proof.
  unfold append_opt, joined. destruct (l ++ [t]) eqn:E; [by destruct l|]. rewrite <- E, List.concat_app. cbn [concat].
  rewrite app_nil_r. by destruct l.
Qed.

Lemma call_array_snoc l c : call_array (l ++ [c]) = Some (cJSON_AddItemToArray (default cJSON_CreateArray (call_array l)) c).
Proof.
  assert (E : array_from (l ++ [c]) = cJSON_AddItemToArray (array_from l) c) by (unfold array_from; by rewrite fold_left_app).
  destruct l as [|x l]; [done|]. cbn [app call_array]. change (x :: l ++ [c]) with ((x :: l) ++ [c]). by rewrite E.
Qed.

(** The message of a canonical response. *)
Definition reply_choice (out : cJSON) : option cJSON :=
  choices ← cJSON_GetObjectItemCaseSensitive out (bs "choices"); first_of choices.
Definition reply_message (out : cJSON) : option cJSON :=
  choice ← reply_choice out; cJSON_GetObjectItemCaseSensitive choice (bs "message").

Lemma first_of_one c : first_of (cJSON_AddItemToArray cJSON_CreateArray c) = Some c.
Proof. unfold first_of. by rewrite elements_add, elements_create by apply isarray_create. Qed.

Lemma canonical_call_members id name args : no_nul args ->
  get_string (Some (canonical_call id name args)) (bs "id") = Some (c_str id) /\
  exists func, cJSON_GetObjectItemCaseSensitive (canonical_call id name args) (bs "function") = Some func /\
    get_string (Some func) (bs "name") = Some (c_str name) /\ get_string (Some func) (bs "arguments") = Some args.
Proof.
  intros Ha. split; [apply get_string_built; unfold canonical_call; by built_get|].
  eexists. split; [unfold canonical_call; by built_get|]. split; [apply get_string_built; by built_get|].
  rewrite (get_string_built _ _ args) by (by built_get). by rewrite c_str_id.
Qed.

Lemma canonical_members text reasoning l :
  let m := canonical_message text reasoning (call_array l) in
  get_string (Some m) (bs "role") = Some (bs "assistant") /\
  content_of m = Some (match text with Some t => cJSON_CreateString t | None => cJSON_CreateNull end) /\
  cJSON_GetObjectItemCaseSensitive m (bs "tool_calls") = call_array l.
Proof.
  intros m. assert (E : forall k, cJSON_GetObjectItemCaseSensitive m k =
    if beq k (bs "role") then Some (cJSON_CreateString (bs "assistant"))
    else if beq k (bs "content") then Some (match text with Some t => cJSON_CreateString t | None => cJSON_CreateNull end)
    else if beq k (bs "reasoning_content") then match cJSON_CreateString <$> reasoning with Some r => Some r | None => if beq k (bs "tool_calls") then call_array l else None end
    else if beq k (bs "tool_calls") then call_array l else None).
  { intros k. subst m. unfold canonical_message. destruct (call_array l);
      repeat first [rewrite get_add_opt by is_built|rewrite get_add_string by is_built|rewrite get_add by is_built|rewrite get_create];
      destruct (beq k (bs "role")), (beq k (bs "content")), (beq k (bs "reasoning_content")), (beq k (bs "tool_calls")), reasoning; done. }
  unfold get_string. cbn [mbind option_bind]. rewrite !E. lit. cbn [mbind option_bind]. by rewrite string_create.
Qed.

Lemma concat_no_nul l : Forall no_nul l -> no_nul (concat l).
Proof. induction 1; [constructor|]. by apply Forall_app. Qed.

Lemma message_text m texts :
  content_of m = Some (match joined texts with Some t => cJSON_CreateString t | None => cJSON_CreateNull end) ->
  Forall no_nul texts -> default [] (get_string (Some m) (bs "content")) = concat texts.
Proof.
  intros E Hn. unfold get_string. cbn [mbind option_bind]. rewrite E. unfold joined.
  destruct texts as [|x l]; cbn [mbind option_bind]; [by rewrite string_null|].
  rewrite string_create. cbn [from_option]. by apply c_str_id, concat_no_nul.
Qed.
End Messages.

(** ** A chunk on the stream *)

Section Chunks.
Context `{L : CJsonLaws} `{P : !Provider} (int_nan : Z).

(** What has arrived so far. *)
Record so_far (s : stream) (t : list byte) (l : list stream_call) (st : pstate) : Prop := {
  sf_text : text s = t;
  sf_calls : calls s = l;
  sf_scratch : scratch s = st;
  sf_usage : have_usage s = false;
  sf_tps : stream_tps s = 0;
  sf_finish : Stream.finish_reason s = None;
  sf_error : last_error s = None;
  sf_chain : chain s = None
}.

Lemma so_far_scratch s t l st st' : so_far s t l st -> so_far (with_scratch s st') t l st'.
Proof. intros []. by split. Qed.

Lemma so_far_again s t l st : so_far s t l st -> so_far (with_scratch s st) t l st.
Proof. intros Hs. by eapply so_far_scratch. Qed.

Lemma usage_quiet s obj t l st : so_far s t l st -> cJSON_GetObjectItemCaseSensitive obj (bs "usage") = None ->
  cJSON_GetObjectItemCaseSensitive obj (bs "timings") = None -> so_far (stream_usage int_nan s obj) t l st.
Proof.
  intros [H1 H2 H3 H4 H5 H6 H7 H8] Eu Et. unfold stream_usage, extract_usage, timings_tps. rewrite Eu, Et. cbn [Z.ltb Z.compare].
  rewrite H4. by split.
Qed.

Lemma no_error_message e ty : get_string (Some e) (bs "type") = Some ty -> beq ty (bs "error") = false ->
  cJSON_GetObjectItemCaseSensitive e (bs "error") = None -> stream_error_message e = None.
Proof. intros Et Hn Ee. unfold stream_error_message, response_error_message. by rewrite Ee, Et, Hn. Qed.

Lemma delta_chunk_quiet msgs s t l st delta : so_far s t l st -> exists s',
  so_far s' t l st /\ stream_chunk int_nan msgs s (delta_chunk delta) = stream_delta int_nan s' delta.
Proof.
  intros Hs. set (choice := cJSON_AddItemToObject cJSON_CreateObject (bs "delta") delta).
  assert (Eg : forall k, cJSON_GetObjectItemCaseSensitive (delta_chunk delta) k
      = if beq k (bs "choices") then Some (cJSON_AddItemToArray cJSON_CreateArray choice) else None).
  { intros k. unfold delta_chunk. rewrite get_add by is_built. by rewrite get_create. }
  assert (Ed : cJSON_GetObjectItemCaseSensitive choice (bs "delta") = Some delta) by (subst choice; by built_get).
  assert (Ef : get_string (Some choice) (bs "finish_reason") = None)
    by (unfold get_string; cbn [mbind option_bind]; subst choice; by built_get).
  exists (stream_usage int_nan s (delta_chunk delta)). split; [apply usage_quiet; [done|rewrite Eg; by lit..]|].
  unfold stream_chunk. cbv zeta. rewrite Eg. lit. rewrite isarray_add, isarray_create. cbn [negb].
  rewrite first_of_one, Ef. unfold response_error_message, chain_note_response, get_string. rewrite Eg. lit.
  cbn [mbind option_bind stream_note_error]. rewrite Eg. lit. by rewrite Ed.
Qed.

Lemma text_delta msgs s t l st piece : so_far s t l st -> no_nul piece -> exists s',
  stream_chunk int_nan msgs s (make_delta_chunk (bs "content") piece) = Some s' /\ so_far s' (t ++ piece) l st.
Proof.
  intros Hs Hn. unfold make_delta_chunk. set (delta := cJSON_AddStringToObject _ _ _).
  destruct (delta_chunk_quiet msgs s t l st delta Hs) as (s1 & Hs1 & ->).
  assert (Eg : forall k, cJSON_GetObjectItemCaseSensitive delta k = if beq k (bs "content") then Some (cJSON_CreateString piece) else None).
  { intros k. subst delta. rewrite get_add_string by is_built. by rewrite get_create. }
  unfold stream_delta, get_string. cbn [mbind option_bind]. rewrite !Eg. lit. cbn [mbind option_bind].
  rewrite string_create, c_str_id by done. eexists. split; [reflexivity|]. destruct Hs1 as [H1 H2 H3 H4 H5 H6 H7 H8].
  destruct piece; cbn; [rewrite app_nil_r|rewrite <- H1]; by split.
Qed.

Lemma thinking_delta msgs s t l st piece : so_far s t l st -> exists s',
  stream_chunk int_nan msgs s (make_delta_chunk (bs "reasoning_content") piece) = Some s' /\ so_far s' t l st.
Proof.
  intros Hs. unfold make_delta_chunk. set (delta := cJSON_AddStringToObject _ _ _).
  destruct (delta_chunk_quiet msgs s t l st delta Hs) as (s1 & Hs1 & ->).
  assert (Eg : forall k, cJSON_GetObjectItemCaseSensitive delta k = if beq k (bs "reasoning_content") then Some (cJSON_CreateString piece) else None).
  { intros k. subst delta. rewrite get_add_string by is_built. by rewrite get_create. }
  unfold stream_delta, get_string. cbn [mbind option_bind]. rewrite !Eg. lit. cbn [mbind option_bind].
  rewrite string_create. eexists. split; [reflexivity|]. destruct Hs1 as [H1 H2 H3 H4 H5 H6 H7 H8].
  destruct (c_str piece); by split.
Qed.

Lemma tool_delta msgs s t l st f : so_far s t l st -> frag_ok f -> exists s',
  stream_chunk int_nan msgs s (event_json [f]) = Some s' /\ so_far s' t (add_at l f) st.
Proof.
  intros Hs Hf. rewrite chunk_merges by (by constructor). eexists. split; [reflexivity|].
  assert (Hu : so_far (stream_usage int_nan s (event_json [f])) t l st)
    by (apply usage_quiet; [done|by apply no_member..]).
  destruct Hs as [_ E _ _ _ _ _ _], Hu as [H1 H2 H3 H4 H5 H6 H7 H8]. split; [done| |done..]. cbn. by rewrite E.
Qed.

Definition start_frag (k : nat) (call name : list byte) : frag := mk_frag k (Some call) (Some name) (Some []).
Definition piece_frag (k : nat) (piece : list byte) : frag := mk_frag k None None (Some piece).

Lemma add_at_end l f : (length l <= f_index f)%nat ->
  add_at l f = l ++ replicate (f_index f - length l) empty_call ++ [add_frag empty_call f].
Proof.
  intros Hl. unfold add_at, stream_get_call. destruct (Nat.leb_spec (length l) (f_index f)); [|lia].
  replace (S (f_index f) - length l)%nat with (S (f_index f - length l)) by lia.
  rewrite replicate_S_end, app_assoc.
  set (l' := l ++ replicate (f_index f - length l) empty_call).
  assert (El : f_index f = length l') by (unfold l'; rewrite length_app, length_replicate; lia).
  rewrite El, insert_app_r_alt, lookup_app_r, Nat.sub_diag by lia. cbn. rewrite <- El. unfold l'. by rewrite <- app_assoc.
Qed.

Lemma add_at_last l c f : length l = f_index f -> add_at (l ++ [c]) f = l ++ [add_frag c f].
Proof.
  intros El. unfold add_at, stream_get_call. rewrite length_app. cbn [length].
  destruct (Nat.leb_spec (length l + 1) (f_index f)); [lia|].
  rewrite <- El, insert_app_r_alt, lookup_app_r, Nat.sub_diag by lia. done.
Qed.

(** *** The events of a block *)

(** An event of the block of index [k]; [ix] is the member that says so. *)
Definition indexed (ix ty : list byte) (k : nat) : cJSON :=
  cJSON_AddItemToObject (cJSON_AddStringToObject cJSON_CreateObject (bs "type") ty) ix (cJSON_CreateNumber (Z.of_nat k)).

Lemma indexed_members ix ty k k' : cJSON_GetObjectItemCaseSensitive (indexed ix ty k) k'
  = if beq k' (bs "type") then Some (cJSON_CreateString ty)
    else if beq k' ix then Some (cJSON_CreateNumber (Z.of_nat k)) else None.
Proof.
  unfold indexed. rewrite get_add, get_add_string by is_built. rewrite get_create. by destruct (beq k' (bs "type")).
Qed.

Lemma event_member ix ty k key v k' : cJSON_GetObjectItemCaseSensitive (cJSON_AddItemToObject (indexed ix ty k) key v) k'
  = if beq k' (bs "type") then Some (cJSON_CreateString ty)
    else if beq k' ix then Some (cJSON_CreateNumber (Z.of_nat k)) else if beq k' key then Some v else None.
Proof.
  rewrite get_add, indexed_members by (unfold indexed; is_built). by destruct (beq k' (bs "type")), (beq k' ix).
Qed.

Lemma event_type ix ty k key v : get_string (Some (cJSON_AddItemToObject (indexed ix ty k) key v)) (bs "type") = Some (c_str ty).
Proof. apply get_string_built. by rewrite event_member. Qed.

Lemma event_number ix ty k key v : beq ix (bs "type") = false ->
  default 0 (number_of (cJSON_GetObjectItemCaseSensitive (cJSON_AddItemToObject (indexed ix ty k) key v) ix)) = Z.of_nat k.
Proof. intros Hix. rewrite event_member, Hix, beq_refl. cbn. by rewrite number_create. Qed.

Lemma event_quiet ix ty k key v : beq (c_str ty) (bs "error") = false -> beq (bs "error") key = false ->
  beq (bs "error") ix = false -> stream_error_message (cJSON_AddItemToObject (indexed ix ty k) key v) = None.
Proof.
  intros Ht Hk Hix. eapply no_error_message; [apply event_type|done|]. rewrite event_member, Hix, Hk. by lit.
Qed.

(** *** A reply in pieces *)

(** One chunk's worth of a reply. *)
Inductive delta := Words (t : list byte) | Thought (t : list byte) | Piece (f : frag).

Definition delta_ok (d : delta) : Prop :=
  match d with Words t => no_nul t | Thought _ => True | Piece f => frag_ok f end.
Definition chunk_json (d : delta) : cJSON :=
  match d with
  | Words t => make_delta_chunk (bs "content") t
  | Thought t => make_delta_chunk (bs "reasoning_content") t
  | Piece f => event_json [f]
  end.

Definition words (ds : list delta) : list byte := concat (omap (fun d => match d with Words t => Some t | _ => None end) ds).
Definition frags (ds : list delta) : list frag := omap (fun d => match d with Piece f => Some f | _ => None end) ds.

Lemma said_words_app a b : words (a ++ b) = words a ++ words b.
Proof. unfold words. by rewrite omap_app, List.concat_app. Qed.

Lemma frags_app a b : frags (a ++ b) = frags a ++ frags b.
Proof. unfold frags. by rewrite omap_app. Qed.

Lemma take_delta msgs s t l st d : so_far s t l st -> delta_ok d -> exists s',
  stream_chunk int_nan msgs s (chunk_json d) = Some s' /\
  so_far s' (t ++ words [d]) (fold_left add_at (frags [d]) l) st.
Proof.
  intros Hs Hd. destruct d as [p|p|f]; unfold words, frags; cbn; rewrite ?app_nil_r.
  - by apply text_delta.
  - by apply thinking_delta.
  - by apply tool_delta.
Qed.

Section Translated.
Context (f : cJSON -> pstate -> option cJSON * pstate).

(** The dialect makes the chunks [ds] of the events. *)
Inductive translates : pstate -> list cJSON -> list delta -> pstate -> Prop :=
| tr_nil p : translates p [] [] p
| tr_none p e p1 evs ds p2 : stream_error_message e = None -> f e p = (None, p1) ->
    translates p1 evs ds p2 -> translates p (e :: evs) ds p2
| tr_some p e d p1 evs ds p2 : stream_error_message e = None -> delta_ok d -> f e p = (Some (chunk_json d), p1) ->
    translates p1 evs ds p2 -> translates p (e :: evs) (d :: ds) p2.

Lemma translates_app p1 a da p2 b db p3 : translates p1 a da p2 -> translates p2 b db p3 ->
  translates p1 (a ++ b) (da ++ db) p3.
Proof. induction 1; intros Hb; [done|by eapply tr_none; eauto|by eapply tr_some; eauto]. Qed.

Lemma translated_event msgs s e : normalize_stream_event = Some f -> stream_error_message e = None ->
  stream_event int_nan msgs s e = match f e (scratch s) with
                                  | (Some obj, p) => stream_chunk int_nan msgs (with_scratch s p) obj
                                  | (None, p) => Some (with_scratch s p)
                                  end.
Proof. intros Ef Ee. unfold stream_event. rewrite Ef, Ee. cbn [stream_note_error]. by destruct (f e (scratch s)) as [[obj|] p]. Qed.

Lemma take_translated msgs p evs ds p' : normalize_stream_event = Some f -> translates p evs ds p' ->
  forall s t l, so_far s t l p -> exists s', foldM (stream_event int_nan msgs) evs s = Some s' /\
    so_far s' (t ++ words ds) (fold_left add_at (frags ds) l) p'.
Proof.
  intros Ef. induction 1 as [p|p e p1 evs ds p2 Ee E _ IH|p e d p1 evs ds p2 Ee Hd E _ IH]; intros s t l Hs; cbn [foldM].
  - exists s. by rewrite app_nil_r.
  - rewrite (translated_event msgs s e Ef Ee), (sf_scratch _ _ _ _ Hs), E. cbn [mbind option_bind].
    by apply IH, (so_far_scratch s t l p).
  - rewrite (translated_event msgs s e Ef Ee), (sf_scratch _ _ _ _ Hs), E.
    destruct (take_delta msgs _ _ _ _ d (so_far_scratch _ _ _ _ p1 Hs) Hd) as (s1 & -> & H1). cbn [mbind option_bind].
    destruct (IH s1 _ _ H1) as (s2 & E2 & H2). exists s2. split; [done|]. rewrite <- app_assoc in H2.
    change (d :: ds) with ([d] ++ ds). by rewrite said_words_app, frags_app, fold_left_app.
Qed.
End Translated.

(** *** The blocks of a reply *)

(** What the model says, in the pieces the server sends it in. *)
Inductive said_block :=
| SText (ps : list (list byte))
| SThinking (ps : list (list byte))
| SCall (call name : list byte) (ps : list (list byte)).

Definition block_deltas (k : nat) (b : said_block) : list delta :=
  match b with
  | SText ps => map Words ps
  | SThinking ps => map Thought ps
  | SCall call name ps => Piece (start_frag k call name) :: map (fun p => Piece (piece_frag k p)) ps
  end.

Fixpoint blocks_deltas (k : nat) (bl : list said_block) : list delta :=
  match bl with [] => [] | b :: bl => block_deltas k b ++ blocks_deltas (S k) bl end.

Definition block_words (b : said_block) : list byte := match b with SText ps => concat ps | _ => [] end.
Definition block_calls (b : said_block) : list (stream_call * list byte) :=
  match b with SCall call name ps => [(mk_call (Some call) (Some name) (Some (concat ps)), name)] | _ => [] end.

(** The calls that have a name. *)
Definition named (l : list stream_call) : list (stream_call * list byte) :=
  omap (fun c => pair c <$> sc_name c) l.

Lemma block_deltas_words k b : words (block_deltas k b) = block_words b.
Proof. destruct b as [ps|ps|call name ps]; unfold words; cbn; induction ps as [|p ps IH]; cbn in *; congruence. Qed.

Lemma pieces_join k ps : forall l0 c, length l0 = k -> is_Some (sc_args c) ->
  fold_left add_at (map (piece_frag k) ps) (l0 ++ [c])
  = l0 ++ [mk_call (sc_id c) (sc_name c) (Some (default [] (sc_args c) ++ concat ps))].
Proof.
  induction ps as [|p ps IH]; intros l0 c El Hc; cbn [map fold_left concat].
  - destruct c as [i n a]. destruct Hc as [x Hx]. cbn in *. subst a. cbn. by rewrite app_nil_r.
  - rewrite add_at_last by done. rewrite IH by (done || eauto). cbn. destruct c as [[] [] []]; cbn; by rewrite ?app_assoc.
Qed.

(** The calls after a block of index [k]. *)
Lemma block_deltas_calls k b l : (length l <= k)%nat -> exists l', fold_left add_at (frags (block_deltas k b)) l = l' /\
  (length l' <= S k)%nat /\ named l' = named l ++ block_calls b.
Proof.
  intros Hl. eexists. split; [done|]. destruct b as [ps|ps|call name ps]; cbn [block_deltas block_calls].
  - assert (E : frags (map Words ps) = []) by (induction ps; [done|]; by cbn). rewrite E, app_nil_r. cbn [fold_left]. split; [lia|done].
  - assert (E : frags (map Thought ps) = []) by (induction ps; [done|]; by cbn). rewrite E, app_nil_r. cbn [fold_left]. split; [lia|done].
  - assert (E : frags (Piece (start_frag k call name) :: map (fun p => Piece (piece_frag k p)) ps)
      = start_frag k call name :: map (piece_frag k) ps).
    { unfold frags. cbn. f_equal. induction ps as [|p ps IH]; cbn in *; congruence. }
    rewrite E. cbn [fold_left]. rewrite add_at_end by done. cbn [f_index start_frag]. rewrite app_assoc.
    rewrite pieces_join; [|rewrite length_app, length_replicate; lia|by eexists].
    rewrite !length_app, length_replicate. cbn [length]. split; [lia|].
    unfold named. rewrite !omap_app, <- app_assoc. f_equal. cbn. by induction (k - length l)%nat.
Qed.

Lemma blocks_deltas_said bl : forall k l, (length l <= k)%nat ->
  words (blocks_deltas k bl) = concat (map block_words bl) /\
  named (fold_left add_at (frags (blocks_deltas k bl)) l) = named l ++ flat_map block_calls bl.
Proof.
  induction bl as [|b bl IH]; intros k l Hl; cbn [blocks_deltas map concat flat_map]; [by rewrite app_nil_r|].
  destruct (block_deltas_calls k b l Hl) as (l1 & E1 & L1 & N1). destruct (IH (S k) l1 L1) as [W N].
  rewrite said_words_app, frags_app, fold_left_app, block_deltas_words, E1, W, N, N1. by rewrite <- app_assoc.
Qed.

Lemma build_named l : stream_build_tool_calls l = call_array (map (fun c => call_json (fst c) (snd c)) (named l)).
Proof.
  unfold stream_build_tool_calls.
  assert (E : forall arr, fold_left (fun arr c => match sc_name c with
       | Some name => cJSON_AddItemToArray arr (call_json c name) | None => arr end) l arr
     = fold_left cJSON_AddItemToArray (map (fun c => call_json (fst c) (snd c)) (named l)) arr).
  { induction l as [|c l IH]; intros arr; [done|]. cbn [fold_left named omap list_omap].
    rewrite IH. unfold named. cbn. by destruct (sc_name c). }
  rewrite E. fold (array_from (map (fun c => call_json (fst c) (snd c)) (named l))).
  rewrite (proj2 (array_from_elements _)). by destruct (map _ (named l)).
Qed.

(** *** The end of the stream *)

Lemma extract_canonical root i o r w :
  cJSON_GetObjectItemCaseSensitive root (bs "usage") = Some (canonical_usage i o r w) ->
  cJSON_GetObjectItemCaseSensitive root (bs "timings") = None ->
  extract_usage int_nan root = Some (mk_usage i o (i + o) r w 0).
Proof.
  intros Eu Et. unfold extract_usage. rewrite Eu. assert (Ho : cJSON_IsObject (canonical_usage i o r w) = true) by (unfold canonical_usage; is_built).
  assert (E : forall k, cJSON_GetObjectItemCaseSensitive (canonical_usage i o r w) k =
    if beq k (bs "prompt_tokens") then Some (cJSON_CreateNumber i)
    else if beq k (bs "completion_tokens") then Some (cJSON_CreateNumber o)
    else if beq k (bs "total_tokens") then Some (cJSON_CreateNumber (i + o))
    else if beq k (bs "cache_read_tokens") then Some (cJSON_CreateNumber r)
    else if beq k (bs "cache_write_tokens") then Some (cJSON_CreateNumber w) else None).
  { intros k. unfold canonical_usage. repeat first [rewrite get_add by is_built|rewrite get_create].
    by destruct (beq k (bs "prompt_tokens")), (beq k (bs "completion_tokens")), (beq k (bs "total_tokens")), (beq k (bs "cache_read_tokens")). }
  rewrite Ho. cbn [negb]. unfold int_field, timings_tps. rewrite !E, Et. lit. by rewrite !number_create.
Qed.

(** The chunk that ends a reply: the reason, the usage, perhaps the id under
    which the server keeps it. *)
Lemma take_last msgs s t l st raw choice fin i o r w : so_far s t l st ->
  cJSON_GetObjectItemCaseSensitive raw (bs "choices") = Some (cJSON_AddItemToArray cJSON_CreateArray choice) ->
  get_string (Some choice) (bs "finish_reason") = Some fin ->
  cJSON_GetObjectItemCaseSensitive choice (bs "delta") = None ->
  cJSON_GetObjectItemCaseSensitive raw (bs "usage") = Some (canonical_usage i o r w) ->
  cJSON_GetObjectItemCaseSensitive raw (bs "timings") = None ->
  exists s', stream_chunk int_nan msgs s raw = Some s' /\ text s' = t /\ calls s' = l /\
    Stream.finish_reason s' = Some fin /\ usage s' = mk_usage i o (i + o) r w 0 /\
    last_error s' = response_error_message raw /\
    chain s' = match get_string (Some raw) (bs "provider_response_id") with
               | Some (b :: rid) => Some (b :: rid, msgs) | _ => None end.
Proof.
  intros [S1 S2 S3 S4 S5 S6 S7 S8] Ec Ef Ed Eu Et. unfold stream_chunk. cbv zeta. rewrite Ec, isarray_add, isarray_create.
  cbn [negb]. rewrite first_of_one, Ef, Ed. set (s1 := stream_usage int_nan s raw).
  assert (HU : text s1 = t /\ calls s1 = l /\ usage s1 = mk_usage i o (i + o) r w 0 /\ last_error s1 = None /\ chain s1 = None).
  { subst s1. unfold stream_usage. rewrite (extract_canonical raw _ _ _ _ Eu Et). unfold timings_tps. rewrite Et. cbn. by rewrite S5. }
  clearbody s1. destruct HU as (T & C & U & E & Ch). unfold stream_note_error.
  eexists. split; [reflexivity|]. unfold chain_note_response.
  destruct (response_error_message raw), (get_string (Some raw) (bs "provider_response_id")) as [[|]|]; cbn; by split_and!.
Qed.
End Chunks.
