(* ===== verification/ProviderAnthropic.v ===== *)
(** The Anthropic dialect ([src/libclm/provider_anthropic.c]): a request in
    the canonical form becomes one of the Messages API, a response or a
    stream event of that API becomes a canonical one. A tree that the code
    changes in place is returned changed; allocation failures are not
    modelled; a JSON number is an integer. *)

From S2P Require Import Prelude CJson Stream Provider Canonical.
From stdpp Require Import list.
#[local] Open Scope Z_scope.

Definition CLM_ANTHROPIC_VERSION : list byte := bs "2023-06-01".
Definition CLM_ANTHROPIC_MAX_TOKENS : Z := 64000.

Section Anthropic.
Context `{J : CJson} (cJSON_Parse : list byte -> option cJSON).
Context (cJSON_PrintUnformatted : cJSON -> option (list byte)).

(** ** Requests *)

Definition append_system_text (sys : option (list byte)) (t : list byte) : option (list byte) :=
  Some match sys with
       | Some (b :: s) => (b :: s) ++ [x0a; x0a] ++ t
       | _ => t
       end.

Definition tool_call_to_tool_use (tc : cJSON) : cJSON :=
  let block := cJSON_AddStringToObject cJSON_CreateObject (bs "type") (bs "tool_use") in
  let block := cJSON_AddStringToObject block (bs "id") (default [] (get_string (Some tc) (bs "id"))) in
  let func := cJSON_GetObjectItemCaseSensitive tc (bs "function") in
  let block := cJSON_AddStringToObject block (bs "name") (default [] (get_string func (bs "name"))) in
  let input := match a ← get_string func (bs "arguments"); cJSON_Parse a with
               | Some j => if cJSON_IsObject j then j else cJSON_CreateObject
               | None => cJSON_CreateObject
               end in
  cJSON_AddItemToObject block (bs "input") input.

(** [msg] may be NULL. *)
Definition is_tool_result_carrier (msg : option cJSON) : bool :=
  match msg with
  | None => false
  | Some m =>
      role_is m (bs "user") &&
      match cJSON_GetObjectItemCaseSensitive m (bs "content") with
      | Some c => cJSON_IsArray c && match cJSON_elements c with b :: _ => type_is b (bs "tool_result") | [] => false end
      | None => false
      end
  end.

(** The offset of the first comma is the one behind ";base64,". *)
Definition data_url_split (url : list byte) : option (list byte * list byte) :=
  if has_prefix (bs "data:") url then
    semi ← find_sub (bs ";base64,") url;
    comma ← find_sub (bs ",") url;
    if (comma =? semi + 7)%nat then Some (take (semi - 5) (drop 5 url), drop (comma + 1) url) else None
  else None.

Definition image_source (url : list byte) (file_id : option (list byte)) : cJSON :=
  let src := cJSON_CreateObject in
  match file_id with
  | Some f => cJSON_AddStringToObject (cJSON_AddStringToObject src (bs "type") (bs "file")) (bs "file_id") f
  | None =>
      match data_url_split url with
      | Some (mt, data) =>
          cJSON_AddStringToObject
            (cJSON_AddStringToObject (cJSON_AddStringToObject src (bs "type") (bs "base64")) (bs "media_type") mt)
            (bs "data") data
      | None => cJSON_AddStringToObject (cJSON_AddStringToObject src (bs "type") (bs "url")) (bs "url") url
      end
  end.

Definition image_block (url : list byte) (file_id : option (list byte)) : cJSON :=
  cJSON_AddItemToObject (cJSON_AddStringToObject cJSON_CreateObject (bs "type") (bs "image"))
    (bs "source") (image_source url file_id).

Definition text_block (t : list byte) : cJSON :=
  cJSON_AddStringToObject (cJSON_AddStringToObject cJSON_CreateObject (bs "type") (bs "text")) (bs "text") t.

(** NULL or empty text adds nothing. *)
Definition append_text_block (blocks : cJSON) (t : option (list byte)) : cJSON :=
  match t with
  | Some (b :: s) => cJSON_AddItemToArray blocks (text_block (b :: s))
  | _ => blocks
  end.

Definition append_part_block (blocks p : cJSON) : cJSON :=
  if type_is p (bs "text") then append_text_block blocks (get_string (Some p) (bs "text"))
  else if type_is p (bs "image_url") then
    let iu := cJSON_GetObjectItemCaseSensitive p (bs "image_url") in
    match get_string iu (bs "url") with
    | Some url => cJSON_AddItemToArray blocks (image_block url (get_string iu (bs "file_id")))
    | None => blocks
    end
  else blocks.

Definition append_part_blocks (blocks parts : cJSON) : cJSON :=
  fold_left append_part_block (cJSON_elements parts) blocks.

Definition convert_content (content : option cJSON) : cJSON :=
  match content with
  | Some c =>
      if cJSON_IsArray c then append_part_blocks cJSON_CreateArray c
      else cJSON_CreateString (default [] (cJSON_GetStringValue c))
  | None => cJSON_CreateString []
  end.

(** The message with its blocks changed in place. *)
Definition change_blocks (f : cJSON -> cJSON) (msg : cJSON) : cJSON :=
  match cJSON_GetObjectItemCaseSensitive msg (bs "content") with
  | Some blocks => cJSON_update msg (bs "content") (f blocks)
  | None => msg
  end.

Definition append_queued_user (content : option cJSON) (carrier : cJSON) : cJSON :=
  change_blocks (fun blocks =>
    match content with
    | Some c => if cJSON_IsArray c then append_part_blocks blocks c else append_text_block blocks (cJSON_GetStringValue c)
    | None => blocks
    end) carrier.

Definition tool_result_block (m : cJSON) : cJSON :=
  cJSON_AddItemToObject
    (cJSON_AddStringToObject
       (cJSON_AddStringToObject cJSON_CreateObject (bs "type") (bs "tool_result"))
       (bs "tool_use_id") (default [] (get_string (Some m) (bs "tool_call_id"))))
    (bs "content") (convert_content (cJSON_GetObjectItemCaseSensitive m (bs "content"))).

Definition new_carrier : cJSON :=
  cJSON_AddItemToObject (cJSON_AddStringToObject cJSON_CreateObject (bs "role") (bs "user"))
    (bs "content") cJSON_CreateArray.

Definition add_tool_result (m carrier : cJSON) : cJSON :=
  change_blocks (fun blocks => cJSON_AddItemToArray blocks (tool_result_block m)) carrier.

(** A user's or an assistant's message. *)
Definition convert_message (m : cJSON) : cJSON :=
  let out_msg := cJSON_AddStringToObject cJSON_CreateObject (bs "role") (default [] (get_string (Some m) (bs "role"))) in
  let content := cJSON_GetObjectItemCaseSensitive m (bs "content") in
  let calls := match cJSON_GetObjectItemCaseSensitive m (bs "tool_calls") with
               | Some tcs => if cJSON_IsArray tcs then cJSON_elements tcs else []
               | None => []
               end in
  match calls with
  | [] => cJSON_AddItemToObject out_msg (bs "content") (convert_content content)
  | _ =>
      let blocks := append_text_block cJSON_CreateArray (string_of content) in
      let blocks := fold_left (fun b tc => cJSON_AddItemToArray b (tool_call_to_tool_use tc)) calls blocks in
      cJSON_AddItemToObject out_msg (bs "content") blocks
  end.

(** One turn of the loop of [convert_messages]: the system text and the
    messages so far. *)
Definition convert_step (st : option (list byte) * list cJSON) (m : cJSON) : option (list byte) * list cJSON :=
  let '(sys, out) := st in
  let content := cJSON_GetObjectItemCaseSensitive m (bs "content") in
  if role_is m (bs "system") then
    (match string_of content with Some t => append_system_text sys t | None => sys end, out)
  else
    let l := last out in
    if role_is m (bs "tool") then
      (sys, if is_tool_result_carrier l
            then removelast out ++ [add_tool_result m (default cJSON_CreateNull l)]
            else out ++ [add_tool_result m new_carrier])
    else if role_is m (bs "user") && is_tool_result_carrier l then
      (sys, removelast out ++ [append_queued_user content (default cJSON_CreateNull l)])
    else (sys, out ++ [convert_message m]).

Definition convert_messages (messages : cJSON) : option (list byte) * list cJSON :=
  fold_left convert_step (cJSON_elements messages) (None, []).

Definition convert_tool (out t : cJSON) : cJSON :=
  match cJSON_GetObjectItemCaseSensitive t (bs "function") with
  | None => out
  | Some func =>
      let out_t := cJSON_AddStringToObject cJSON_CreateObject (bs "type") (bs "custom") in
      let out_t := cJSON_AddStringToObject out_t (bs "name") (default [] (get_string (Some func) (bs "name"))) in
      let out_t := cJSON_AddStringToObject out_t (bs "description")
                     (default [] (get_string (Some func) (bs "description"))) in
      cJSON_AddItemToArray out
        (cJSON_AddItemToObject out_t (bs "input_schema")
           (default cJSON_CreateObject (cJSON_GetObjectItemCaseSensitive func (bs "parameters"))))
  end.

Definition convert_tools (tools : option cJSON) : cJSON := fold_left convert_tool (each tools) cJSON_CreateArray.

(** ** Cache breakpoints *)

Definition make_cache_control : cJSON := cJSON_AddStringToObject cJSON_CreateObject (bs "type") (bs "ephemeral").

Definition block_is_cacheable (block : cJSON) : bool :=
  match get_string (Some block) (bs "type") with
  | None => false
  | Some t =>
      if negb (beq t (bs "text")) then true
      else match get_string (Some block) (bs "text") with Some (_ :: _) => true | _ => false end
  end.

(** The body of the loop: the message, and whether it was marked. *)
Definition mark_blocks (msg content : cJSON) : cJSON * bool :=
  if cJSON_IsArray content then
    match last (cJSON_elements content) with
    | Some block =>
        if block_is_cacheable block then
          (cJSON_update msg (bs "content")
             (cJSON_update_elements content
                (removelast (cJSON_elements content)
                 ++ [cJSON_AddItemToObject block (bs "cache_control") make_cache_control])), true)
        else (msg, false)
    | None => (msg, false)
    end
  else (msg, false).

Definition mark_message (msg : cJSON) : cJSON * bool :=
  match cJSON_GetObjectItemCaseSensitive msg (bs "content") with
  | None => (msg, false)
  | Some content =>
      match cJSON_GetStringValue content with
      | Some [] => (msg, false)
      | Some t =>
          let blocks := cJSON_AddItemToArray cJSON_CreateArray (text_block t) in
          mark_blocks (cJSON_update msg (bs "content") blocks) blocks
      | None => mark_blocks msg content
      end
  end.

(** From the last message back. *)
Fixpoint mark_from (messages_rev : list cJSON) : list cJSON :=
  match messages_rev with
  | [] => []
  | msg :: earlier =>
      let '(msg, marked) := mark_message msg in
      if marked then msg :: earlier else msg :: mark_from earlier
  end.

Definition mark_history_breakpoint (messages : list cJSON) : list cJSON := rev (mark_from (rev messages)).

Definition system_blocks (t : list byte) : option cJSON :=
  match t with
  | [] => None
  | _ => Some (cJSON_AddItemToArray cJSON_CreateArray
                 (cJSON_AddItemToObject (text_block t) (bs "cache_control") make_cache_control))
  end.

(** ** The request *)

Definition json_schema_format (schema : cJSON) : cJSON :=
  cJSON_AddItemToObject (cJSON_AddStringToObject cJSON_CreateObject (bs "type") (bs "json_schema"))
    (bs "schema") schema.

Definition output_config (llm : clm_llm) : cJSON :=
  let oc := add_opt cJSON_CreateObject (bs "effort") (effort llm) in
  match s ← response_schema llm; cJSON_Parse s with
  | Some schema => cJSON_AddItemToObject oc (bs "format") (json_schema_format schema)
  | None => oc
  end.

Definition no_parallel_choice : cJSON :=
  cJSON_AddItemToObject (cJSON_AddStringToObject cJSON_CreateObject (bs "type") (bs "auto"))
    (bs "disable_parallel_tool_use") (cJSON_CreateBool true).

Definition anthropic_build_request (llm : clm_llm) (messages : cJSON) (tools : option cJSON) (stream : bool)
  : option cJSON :=
  let '(system, anth_messages) := convert_messages messages in
  let anth_tools := convert_tools tools in
  let req := cJSON_AddStringToObject cJSON_CreateObject (bs "model") (model llm) in
  let req := match system with
             | Some t => cJSON_AddItemToObject req (bs "system") (default (cJSON_CreateString t) (system_blocks t))
             | None => req
             end in
  let req := cJSON_AddItemToObject req (bs "messages") (array_from (mark_history_breakpoint anth_messages)) in
  let req := cJSON_AddItemToObject req (bs "max_tokens") (cJSON_CreateNumber CLM_ANTHROPIC_MAX_TOKENS) in
  let req := cJSON_AddItemToObject req (bs "stream") (cJSON_CreateBool stream) in
  let req := match effort llm, response_schema llm with
             | None, None => req
             | _, _ => cJSON_AddItemToObject req (bs "output_config") (output_config llm)
             end in
  Some match cJSON_elements anth_tools with
       | [] => req
       | _ =>
           let req := cJSON_AddItemToObject req (bs "tools") anth_tools in
           if disable_parallel_tool_calls llm
           then cJSON_AddItemToObject req (bs "tool_choice") no_parallel_choice
           else req
       end.

Definition anthropic_build_auth_headers (llm : clm_llm) : list (list byte) :=
  [bs "Content-Type: application/json"]
  ++ match api_key llm with [] => [] | k => [bs "x-api-key: " ++ k] end
  ++ [bs "anthropic-version: " ++ CLM_ANTHROPIC_VERSION].

(** ** The response *)

Definition usage_number (usage : cJSON) (name : list byte) : Z :=
  default 0 (number_of (cJSON_GetObjectItemCaseSensitive usage name)).

Definition anthropic_prompt_tokens (usage : cJSON) : Z :=
  usage_number usage (bs "input_tokens") + usage_number usage (bs "cache_read_input_tokens")
  + usage_number usage (bs "cache_creation_input_tokens").

Definition map_stop_reason (reason : list byte) : list byte :=
  if beq reason (bs "end_turn") || beq reason (bs "stop_sequence") then bs "stop"
  else if beq reason (bs "max_tokens") then bs "length"
  else if beq reason (bs "tool_use") then bs "tool_calls"
  else reason.

Definition tool_use_to_call (b : cJSON) : cJSON :=
  let args_str := j ← cJSON_GetObjectItemCaseSensitive b (bs "input"); cJSON_PrintUnformatted j in
  canonical_call (default [] (get_string (Some b) (bs "id"))) (default [] (get_string (Some b) (bs "name")))
    (default (bs "{}") args_str).

(** The loop's state: [text_buf], [reasoning_buf], [tool_calls]. *)
Definition normalize_block (st : option (list byte) * option (list byte) * option cJSON) (b : cJSON)
  : option (list byte) * option (list byte) * option cJSON :=
  let '(text_buf, reasoning_buf, calls) := st in
  if type_is b (bs "text") then (append_opt text_buf (get_string (Some b) (bs "text")), reasoning_buf, calls)
  else if type_is b (bs "thinking") then
    (text_buf, append_opt reasoning_buf (get_string (Some b) (bs "thinking")), calls)
  else if type_is b (bs "tool_use") then
    (text_buf, reasoning_buf,
     Some (cJSON_AddItemToArray (default cJSON_CreateArray calls) (tool_use_to_call b)))
  else st.

Definition anthropic_normalize_response (raw : cJSON) : option cJSON :=
  content_blocks ← cJSON_GetObjectItemCaseSensitive raw (bs "content");
  if negb (cJSON_IsArray content_blocks) then None
  else
    let '(text_buf, reasoning_buf, calls) :=
      fold_left normalize_block (cJSON_elements content_blocks) (None, None, None) in
    let choice0 := cJSON_AddItemToObject cJSON_CreateObject (bs "message")
                     (canonical_message text_buf reasoning_buf calls) in
    let choice0 := add_opt choice0 (bs "finish_reason")
                     (map_stop_reason <$> get_string (Some raw) (bs "stop_reason")) in
    let out := cJSON_AddItemToObject cJSON_CreateObject (bs "choices")
                 (cJSON_AddItemToArray cJSON_CreateArray choice0) in
    Some match cJSON_GetObjectItemCaseSensitive raw (bs "usage") with
         | Some jusage =>
             if cJSON_IsObject jusage then
               cJSON_AddItemToObject out (bs "usage")
                 (canonical_usage (anthropic_prompt_tokens jusage) (usage_number jusage (bs "output_tokens"))
                    (usage_number jusage (bs "cache_read_input_tokens"))
                    (usage_number jusage (bs "cache_creation_input_tokens")))
             else out
         | None => out
         end.

(** ** The stream *)

Record anth_stream_state := mk_anth { input_tokens : Z; cache_read : Z; cache_write : Z }.

(** [stream_state]: NULL is replaced by zeroes. *)
Definition stream_state (state : option anth_stream_state) : anth_stream_state := default (mk_anth 0 0 0) state.

Definition block_start (raw : cJSON) : option cJSON :=
  match cJSON_GetObjectItemCaseSensitive raw (bs "content_block") with
  | Some block =>
      if type_is block (bs "tool_use") then
        Some (make_tool_delta_chunk (usage_number raw (bs "index"))
                (Some (default [] (get_string (Some block) (bs "id"))))
                (Some (default [] (get_string (Some block) (bs "name")))) None)
      else None
  | None => None
  end.

Definition block_delta (raw : cJSON) : option cJSON :=
  let delta := cJSON_GetObjectItemCaseSensitive raw (bs "delta") in
  let dtype := default [] (get_string delta (bs "type")) in
  if beq dtype (bs "text_delta") then Some (make_delta_chunk (bs "content") (default [] (get_string delta (bs "text"))))
  else if beq dtype (bs "thinking_delta") then
    Some (make_delta_chunk (bs "reasoning_content") (default [] (get_string delta (bs "thinking"))))
  else if beq dtype (bs "input_json_delta") then
    Some (make_tool_delta_chunk (usage_number raw (bs "index")) None None
            (Some (default [] (get_string delta (bs "partial_json")))))
  else None.

Definition message_start (raw : cJSON) (st : anth_stream_state) : anth_stream_state :=
  match message ← cJSON_GetObjectItemCaseSensitive raw (bs "message");
        cJSON_GetObjectItemCaseSensitive message (bs "usage") with
  | Some usage =>
      if cJSON_IsObject usage then
        mk_anth (anthropic_prompt_tokens usage) (usage_number usage (bs "cache_read_input_tokens"))
          (usage_number usage (bs "cache_creation_input_tokens"))
      else st
  | None => st
  end.

Definition message_delta (raw : cJSON) (st : anth_stream_state) : cJSON :=
  let choice0 := add_opt cJSON_CreateObject (bs "finish_reason")
                   (map_stop_reason <$> get_string (cJSON_GetObjectItemCaseSensitive raw (bs "delta")) (bs "stop_reason")) in
  let out := cJSON_AddItemToObject cJSON_CreateObject (bs "choices")
               (cJSON_AddItemToArray cJSON_CreateArray choice0) in
  match usage ← cJSON_GetObjectItemCaseSensitive raw (bs "usage");
        number_of (cJSON_GetObjectItemCaseSensitive usage (bs "output_tokens")) with
  | Some otok =>
      cJSON_AddItemToObject out (bs "usage") (canonical_usage (input_tokens st) otok (cache_read st) (cache_write st))
  | None => out
  end.

Definition anthropic_normalize_stream_event (raw : cJSON) (state : option anth_stream_state)
  : option cJSON * option anth_stream_state :=
  let type := default [] (get_string (Some raw) (bs "type")) in
  if beq type (bs "content_block_start") then (block_start raw, state)
  else if beq type (bs "content_block_delta") then (block_delta raw, state)
  else if beq type (bs "message_start") then (None, Some (message_start raw (stream_state state)))
  else if beq type (bs "message_delta") then
    (Some (message_delta raw (stream_state state)), Some (stream_state state))
  else (None, state).

Definition anthropic_forbid_tool_calls (req : cJSON) : cJSON :=
  cJSON_AddItemToObject (cJSON_DeleteItemFromObjectCaseSensitive req (bs "tool_choice")) (bs "tool_choice")
    (cJSON_AddStringToObject cJSON_CreateObject (bs "type") (bs "none")).

(** [clm_provider_ops_anthropic] *)
Definition clm_provider_ops_anthropic : ProviderOps := {|
  build_request := anthropic_build_request;
  normalize_response := Some anthropic_normalize_response;
  forbid_tool_calls := Some anthropic_forbid_tool_calls
|}.

Definition anthropic_stream : Provider := {|
  pstate := option anth_stream_state; pstate_null := None;
  normalize_stream_event := Some anthropic_normalize_stream_event
|}.
End Anthropic.
