(* ===== verification/AnthropicFacts.v ===== *)
(** What the Anthropic dialect promises about a request: the conversation
    arrives as it was said, every call is followed by its results as the
    Messages API demands, and at most two cache breakpoints are set. *)

From S2P Require Import Prelude CJson History HistoryFacts HistoryJson Stream Provider Canonical CanonicalCalls ProviderAnthropic.
From stdpp Require Import list.
#[local] Open Scope Z_scope.

Section Facts.
Context `{L : CJsonLaws} (cJSON_Parse : list byte -> option cJSON).

(** ** What a conversation says *)

Inductive leaf := LText (t : list byte) | LImage (source : cJSON).
Inductive item :=
| Said (l : leaf)
| Use (id name : list byte) (input : cJSON)
| Result (id : list byte) (ls : list leaf).

Definition text_leaf (t : option (list byte)) : list leaf :=
  match t with Some (b :: s) => [LText (b :: s)] | _ => [] end.

(** *** In the canonical form *)

Definition part_leaves (p : cJSON) : list leaf :=
  if type_is p (bs "text") then text_leaf (get_string (Some p) (bs "text"))
  else if type_is p (bs "image_url") then
    let iu := cJSON_GetObjectItemCaseSensitive p (bs "image_url") in
    match get_string iu (bs "url") with
    | Some url => [LImage (image_source url (get_string iu (bs "file_id")))]
    | None => []
    end
  else [].

Definition in_leaves (content : option cJSON) : list leaf :=
  match content with
  | Some c => if cJSON_IsArray c then flat_map part_leaves (cJSON_elements c) else text_leaf (cJSON_GetStringValue c)
  | None => []
  end.

Definition call_input (tc : cJSON) : cJSON :=
  match a ← get_string (cJSON_GetObjectItemCaseSensitive tc (bs "function")) (bs "arguments"); cJSON_Parse a with
  | Some j => if cJSON_IsObject j then j else cJSON_CreateObject
  | None => cJSON_CreateObject
  end.

Definition call_item (tc : cJSON) : item :=
  Use (call_id tc) (default [] (get_string (cJSON_GetObjectItemCaseSensitive tc (bs "function")) (bs "name")))
    (call_input tc).

Abbreviation content_of m := (cJSON_GetObjectItemCaseSensitive m (bs "content")).

Definition in_items (m : cJSON) : list item :=
  if role_is m (bs "tool") then [Result (answered_id m) (in_leaves (content_of m))]
  else map Said (in_leaves (content_of m)) ++ map call_item (calls_of m).

(** *** In Anthropic's form *)

Definition block_leaves (b : cJSON) : list leaf :=
  if type_is b (bs "text") then text_leaf (get_string (Some b) (bs "text"))
  else if type_is b (bs "image") then
    match cJSON_GetObjectItemCaseSensitive b (bs "source") with Some s => [LImage s] | None => [] end
  else [].

Definition out_leaves (content : option cJSON) : list leaf :=
  match content with
  | Some c => if cJSON_IsArray c then flat_map block_leaves (cJSON_elements c) else text_leaf (cJSON_GetStringValue c)
  | None => []
  end.

Definition block_items (b : cJSON) : list item :=
  if type_is b (bs "tool_use") then
    [Use (default [] (get_string (Some b) (bs "id"))) (default [] (get_string (Some b) (bs "name")))
       (default cJSON_CreateObject (cJSON_GetObjectItemCaseSensitive b (bs "input")))]
  else if type_is b (bs "tool_result") then
    [Result (default [] (get_string (Some b) (bs "tool_use_id"))) (out_leaves (content_of b))]
  else map Said (block_leaves b).

Definition out_items (m : cJSON) : list item :=
  match content_of m with
  | Some c => if cJSON_IsArray c then flat_map block_items (cJSON_elements c) else map Said (text_leaf (cJSON_GetStringValue c))
  | None => []
  end.

(** ** The blocks *)

Ltac built_type := unfold type_is, get_string; cbn [mbind option_bind]; built_get; rewrite ?string_create;
  repeat match goal with |- context [c_str (bs ?a)] => let r := eval vm_compute in (c_str (bs a)) in change (c_str (bs a)) with r end.

Lemma text_block_items t : t <> [] -> c_str t = t ->
  block_items (text_block t) = [Said (LText t)] /\ block_leaves (text_block t) = [LText t] /\
  type_is (text_block t) (bs "tool_result") = false.
Proof.
  intros Hn Ht. assert (E : cJSON_GetObjectItemCaseSensitive (text_block t) (bs "type") = Some (cJSON_CreateString (bs "text")))
    by (unfold text_block; built_get; done).
  assert (Et : get_string (Some (text_block t)) (bs "text") = Some t).
  { rewrite (get_string_built _ _ t); [by rewrite Ht|]. unfold text_block. by built_get. }
  unfold block_items, block_leaves. rewrite !(type_is_built _ _ _ E) by (vm_compute; done). lit. rewrite Et.
  by destruct t.
Qed.

Lemma image_block_items url f :
  block_items (image_block url f) = [Said (LImage (image_source url f))] /\
  block_leaves (image_block url f) = [LImage (image_source url f)] /\
  type_is (image_block url f) (bs "tool_result") = false.
Proof.
  assert (E : cJSON_GetObjectItemCaseSensitive (image_block url f) (bs "type") = Some (cJSON_CreateString (bs "image")))
    by (unfold image_block; built_get; done).
  assert (Es : cJSON_GetObjectItemCaseSensitive (image_block url f) (bs "source") = Some (image_source url f))
    by (unfold image_block; built_get; done).
  unfold block_items, block_leaves. rewrite !(type_is_built _ _ _ E) by (vm_compute; done). lit. by rewrite Es.
Qed.

(** Blocks that say [ls], none of them a result. *)
Record say (bl : list cJSON) (ls : list leaf) : Prop := {
  say_items : flat_map block_items bl = map Said ls;
  say_leaves : flat_map block_leaves bl = ls;
  say_results : Forall (fun b => type_is b (bs "tool_result") = false) bl
}.

Lemma say_nil : say [] [].
Proof. done. Qed.

Lemma say_one b l : block_items b = [Said l] -> block_leaves b = [l] -> type_is b (bs "tool_result") = false ->
  say [b] [l].
Proof. intros E1 E2 E3. split; cbn; rewrite ?E1, ?E2; [done|done|by constructor]. Qed.

Lemma say_app a b la lb : say a la -> say b lb -> say (a ++ b) (la ++ lb).
Proof. intros [A1 A2 A3] [B1 B2 B3]. split; rewrite ?flat_map_app; [by rewrite A1, B1, map_app|congruence|by apply Forall_app]. Qed.

(** An array that [bl] was added to. *)
Definition grown (a a' : cJSON) (bl : list cJSON) : Prop :=
  cJSON_IsArray a' = true /\ cJSON_elements a' = cJSON_elements a ++ bl.

Lemma grown_refl a : cJSON_IsArray a = true -> grown a a [].
Proof. intros Ha. split; [done|]. by rewrite app_nil_r. Qed.

Lemma grown_add a b : cJSON_IsArray a = true -> grown a (cJSON_AddItemToArray a b) [b].
Proof. intros Ha. split; [by rewrite isarray_add|by apply elements_add]. Qed.

Lemma grown_trans a b c l l' : grown a b l -> grown b c l' -> grown a c (l ++ l').
Proof. intros [_ E1] [Hc E2]. split; [done|]. by rewrite E2, E1, app_assoc. Qed.

Definition text_blocks (t : option (list byte)) : list cJSON :=
  match t with Some (b :: s) => [text_block (b :: s)] | _ => [] end.

Definition part_blocks (p : cJSON) : list cJSON :=
  if type_is p (bs "text") then text_blocks (get_string (Some p) (bs "text"))
  else if type_is p (bs "image_url") then
    let iu := cJSON_GetObjectItemCaseSensitive p (bs "image_url") in
    match get_string iu (bs "url") with
    | Some url => [image_block url (get_string iu (bs "file_id"))]
    | None => []
    end
  else [].

Lemma text_blocks_say t : (forall s, t = Some s -> c_str s = s) -> say (text_blocks t) (text_leaf t).
Proof.
  intros Ht. destruct t as [[|b s]|]; try apply say_nil.
  destruct (text_block_items (b :: s)) as (? & ? & ?); [done|by apply Ht|]. by apply say_one.
Qed.

Lemma part_blocks_say p : say (part_blocks p) (part_leaves p).
Proof.
  unfold part_blocks, part_leaves. destruct (type_is p (bs "text")); [apply text_blocks_say; intros s; apply c_str_value|].
  destruct (type_is p (bs "image_url")); [|apply say_nil].
  cbv zeta. destruct (get_string _ (bs "url")) as [url|]; [|apply say_nil].
  destruct (image_block_items url (get_string (cJSON_GetObjectItemCaseSensitive p (bs "image_url")) (bs "file_id"))) as (? & ? & ?).
  by apply say_one.
Qed.

Lemma parts_say l : say (flat_map part_blocks l) (flat_map part_leaves l).
Proof. induction l as [|p l IH]; [apply say_nil|]. cbn. apply say_app; [apply part_blocks_say|done]. Qed.

Lemma append_text_grown a t : cJSON_IsArray a = true -> grown a (append_text_block a t) (text_blocks t).
Proof. intros Ha. destruct t as [[|b s]|]; cbn; by (apply grown_refl || apply grown_add). Qed.

Lemma append_part_grown a p : cJSON_IsArray a = true -> grown a (append_part_block a p) (part_blocks p).
Proof.
  intros Ha. unfold append_part_block, part_blocks. destruct (type_is p (bs "text")); [by apply append_text_grown|].
  destruct (type_is p (bs "image_url")); [|by apply grown_refl].
  cbv zeta. destruct (get_string _ (bs "url")) as [url|]; by (apply grown_refl || apply grown_add).
Qed.

Lemma append_parts_grown l : forall a, cJSON_IsArray a = true ->
  grown a (fold_left append_part_block l a) (flat_map part_blocks l).
Proof.
  induction l as [|p l IH]; intros a Ha; cbn [fold_left flat_map]; [by apply grown_refl|].
  eapply grown_trans; [by apply append_part_grown|]. apply IH. by apply append_part_grown.
Qed.

(** The blocks of a content, a string or parts. *)
Definition content_blocks (content : option cJSON) : list cJSON :=
  match content with
  | Some c => if cJSON_IsArray c then flat_map part_blocks (cJSON_elements c) else text_blocks (cJSON_GetStringValue c)
  | None => []
  end.

Lemma content_blocks_say content : say (content_blocks content) (in_leaves content).
Proof.
  destruct content as [c|]; [|apply say_nil]. cbn. destruct (cJSON_IsArray c); [apply parts_say|].
  apply text_blocks_say. intros s. apply string_value.
Qed.

Lemma convert_content_leaves content : out_leaves (Some (convert_content content)) = in_leaves content.
Proof.
  unfold convert_content, out_leaves, in_leaves. destruct content as [c|]; [|by rewrite created_string_not_array, string_create].
  destruct (cJSON_IsArray c) eqn:Ea.
  - destruct (append_parts_grown (cJSON_elements c) cJSON_CreateArray isarray_create) as [G1 G2].
    unfold append_part_blocks. rewrite G1, G2, elements_create. apply parts_say.
  - rewrite created_string_not_array, string_create. destruct (cJSON_GetStringValue c) as [s|] eqn:Es; [|done].
    cbn. by rewrite (string_value _ _ Es).
Qed.

Lemma tool_result_items m :
  block_items (tool_result_block m) = [Result (answered_id m) (in_leaves (content_of m))] /\
  type_is (tool_result_block m) (bs "tool_result") = true.
Proof.
  assert (E : cJSON_GetObjectItemCaseSensitive (tool_result_block m) (bs "type") = Some (cJSON_CreateString (bs "tool_result")))
    by (unfold tool_result_block; built_get; done).
  assert (Ec : content_of (tool_result_block m) = Some (convert_content (content_of m)))
    by (unfold tool_result_block; built_get; done).
  assert (Ei : get_string (Some (tool_result_block m)) (bs "tool_use_id") = Some (answered_id m)).
  { rewrite (get_string_built _ _ (answered_id m)); [|unfold tool_result_block; by built_get].
    f_equal. unfold answered_id. destruct (get_string (Some m) _) eqn:Eg; [by eapply c_str_value|done]. }
  unfold block_items. rewrite !(type_is_built _ _ _ E) by (vm_compute; done). lit. rewrite Ei, Ec.
  by rewrite convert_content_leaves.
Qed.

Lemma tool_use_items tc : block_items (tool_call_to_tool_use cJSON_Parse tc) = [call_item tc] /\
  type_is (tool_call_to_tool_use cJSON_Parse tc) (bs "tool_result") = false.
Proof.
  set (b := tool_call_to_tool_use cJSON_Parse tc).
  assert (E : cJSON_GetObjectItemCaseSensitive b (bs "type") = Some (cJSON_CreateString (bs "tool_use")))
    by (unfold b, tool_call_to_tool_use; built_get; done).
  assert (Ed : forall o k, c_str (default [] (get_string o k)) = default [] (get_string o k)).
  { intros o k. destruct (get_string o k) eqn:Eg; [by eapply c_str_value|done]. }
  assert (Ei : get_string (Some b) (bs "id") = Some (call_id tc)).
  { rewrite (get_string_built _ _ (call_id tc)); [by unfold call_id; rewrite Ed|unfold b, tool_call_to_tool_use; by built_get]. }
  assert (En : get_string (Some b) (bs "name")
    = Some (default [] (get_string (cJSON_GetObjectItemCaseSensitive tc (bs "function")) (bs "name")))).
  { erewrite get_string_built; [by rewrite Ed|unfold b, tool_call_to_tool_use; by built_get]. }
  assert (Ep : cJSON_GetObjectItemCaseSensitive b (bs "input") = Some (call_input tc))
    by (unfold b, tool_call_to_tool_use; built_get; done).
  unfold block_items. rewrite !(type_is_built _ _ _ E) by (vm_compute; done). lit. by rewrite Ei, En, Ep.
Qed.

(** *** Blocks without a cache breakpoint *)

Definition plain_block (b : cJSON) : Prop :=
  cJSON_IsObject b = true /\ cJSON_GetObjectItemCaseSensitive b (bs "cache_control") = None.

Definition plain_msg (m : cJSON) : Prop :=
  match content_of m with Some c => cJSON_IsArray c = true -> Forall plain_block (cJSON_elements c) | None => True end.

Ltac is_plain := split; [is_built|built_get; done].

Lemma text_block_plain t : plain_block (text_block t).
Proof. unfold text_block. is_plain. Qed.

Lemma image_block_plain url f : plain_block (image_block url f).
Proof. unfold image_block. is_plain. Qed.

Lemma tool_result_plain m : plain_block (tool_result_block m).
Proof. unfold tool_result_block. is_plain. Qed.

Lemma tool_use_plain tc : plain_block (tool_call_to_tool_use cJSON_Parse tc).
Proof. unfold tool_call_to_tool_use. is_plain. Qed.

Lemma text_blocks_plain t : Forall plain_block (text_blocks t).
Proof. destruct t as [[|b s]|]; constructor; [apply text_block_plain|done]. Qed.

Lemma parts_plain l : Forall plain_block (flat_map part_blocks l).
Proof.
  induction l as [|p l IH]; [constructor|]. apply Forall_app. split; [|done]. unfold part_blocks.
  destruct (type_is p (bs "text")); [apply text_blocks_plain|]. destruct (type_is p (bs "image_url")); [|constructor].
  cbv zeta. destruct (get_string _ (bs "url")); constructor; [apply image_block_plain|constructor].
Qed.

Lemma content_blocks_plain content : Forall plain_block (content_blocks content).
Proof.
  destruct content as [c|]; [|constructor]. cbn. destruct (cJSON_IsArray c); [apply parts_plain|apply text_blocks_plain].
Qed.

(** ** The messages *)

Abbreviation role_of m := (default [] (get_string (Some m) (bs "role"))).

(** A message with an array of blocks. *)
Definition holds (m : cJSON) (r : list byte) (bl : list cJSON) : Prop :=
  get_string (Some m) (bs "role") = Some r /\
  exists a, content_of m = Some a /\ cJSON_IsArray a = true /\ cJSON_elements a = bl.

Lemma holds_items m r bl : holds m r bl -> out_items m = flat_map block_items bl.
Proof. intros (_ & a & E & Ha & <-). unfold out_items. by rewrite E, Ha. Qed.

Lemma holds_change f m r bl bl' : holds m r bl ->
  (forall a, cJSON_IsArray a = true -> cJSON_elements a = bl -> cJSON_IsArray (f a) = true /\ cJSON_elements (f a) = bl') ->
  holds (change_blocks f m) r bl'.
Proof.
  intros (Er & a & E & Ha & El) Hf. unfold change_blocks. rewrite E. destruct (Hf a Ha El) as [F1 F2]. split.
  - unfold get_string in *. cbn [mbind option_bind] in *. rewrite (get_update _ _ _ _ _ E). lit. done.
  - exists (f a). split; [|done]. rewrite (get_update _ _ _ _ _ E). by lit.
Qed.

(** A user message that starts with the result of a call. *)
Definition carrier (m : cJSON) (bl : list cJSON) : Prop :=
  holds m (bs "user") bl /\ exists b bl', bl = b :: bl' /\ type_is b (bs "tool_result") = true.

Lemma carrier_is m bl : carrier m bl -> is_tool_result_carrier (Some m) = true.
Proof.
  intros [(Er & a & E & Ha & El) (b & bl' & -> & Hb)]. unfold is_tool_result_carrier, role_is. rewrite Er, E, Ha, El, Hb.
  by rewrite beq_refl.
Qed.

Lemma new_carrier_holds : holds new_carrier (bs "user") [].
Proof.
  split.
  - erewrite get_string_built; [|unfold new_carrier; by built_get]. done.
  - exists cJSON_CreateArray. split; [unfold new_carrier; built_get; done|]. split; [apply isarray_create|apply elements_create].
Qed.

Lemma add_result_holds m c bl : holds c (bs "user") bl -> holds (add_tool_result m c) (bs "user") (bl ++ [tool_result_block m]).
Proof.
  intros Hc. eapply holds_change; [exact Hc|]. intros a Ha <-. by rewrite isarray_add, elements_add.
Qed.

Lemma add_result_carrier m c : c = new_carrier \/ (exists bl, carrier c bl) -> exists bl,
  holds c (bs "user") bl /\ carrier (add_tool_result m c) (bl ++ [tool_result_block m]).
Proof.
  intros [-> |(bl & Hc & b & bl' & -> & Hb)]; eexists; (split; [apply new_carrier_holds || exact Hc|]).
  - split; [apply add_result_holds, new_carrier_holds|]. exists (tool_result_block m), []. split; [done|apply tool_result_items].
  - split; [by apply add_result_holds|]. by exists b, (bl' ++ [tool_result_block m]).
Qed.

Lemma queued_carrier content c bl : carrier c bl ->
  carrier (append_queued_user content c) (bl ++ content_blocks content).
Proof.
  intros [Hc (b & bl' & -> & Hb)]. split; [|by exists b, (bl' ++ content_blocks content)].
  eapply holds_change; [exact Hc|]. intros a Ha <-. unfold content_blocks.
  destruct content as [x|]; [|split; [done|by rewrite app_nil_r]]. destruct (cJSON_IsArray x).
  - by apply append_parts_grown.
  - by apply append_text_grown.
Qed.

(** ** The conversation *)

Abbreviation convert_message := (convert_message cJSON_Parse).

Lemma uses_say l : forall a, cJSON_IsArray a = true ->
  let a' := fold_left (fun b tc => cJSON_AddItemToArray b (tool_call_to_tool_use cJSON_Parse tc)) l a in
  cJSON_IsArray a' = true /\ cJSON_elements a' = cJSON_elements a ++ map (tool_call_to_tool_use cJSON_Parse) l.
Proof. intros a Ha. by apply (elements_fold (tool_call_to_tool_use cJSON_Parse)). Qed.

Record converted (m o : cJSON) : Prop := {
  cv_role : get_string (Some o) (bs "role") = Some (role_of m);
  cv_items : out_items o = map Said (in_leaves (content_of m)) ++ map call_item (calls_of m);
  cv_results : is_tool_result_carrier (Some o) = false;
  cv_plain : plain_msg o
}.

Lemma convert_message_ok m : well_formed m -> converted m (convert_message m).
Proof.
  intros Hm. unfold well_formed in Hm. set (o := convert_message m).
  assert (Ec : exists c, content_of o = Some c /\ (match calls_of m with
     | [] => c = convert_content (content_of m)
     | l => c = fold_left (fun b tc => cJSON_AddItemToArray b (tool_call_to_tool_use cJSON_Parse tc)) l
              (append_text_block cJSON_CreateArray (string_of (content_of m))) end)).
  { unfold o, ProviderAnthropic.convert_message. fold (calls_of m).
    destruct (calls_of m); eexists; (split; [built_get; reflexivity|reflexivity]). }
  assert (Er : get_string (Some o) (bs "role") = Some (role_of m)).
  { rewrite (get_string_built _ _ (role_of m)).
    - f_equal. destruct (get_string (Some m) (bs "role")) eqn:E; [by eapply c_str_value|done].
    - unfold o, ProviderAnthropic.convert_message. fold (calls_of m). destruct (calls_of m); built_get; reflexivity. }
  clearbody o. destruct Ec as (c & Ec & E). destruct (calls_of m) as [|tc tcs] eqn:Et.
  - subst c. split; [done| | |]; unfold out_items, is_tool_result_carrier, plain_msg; rewrite Ec.
    + rewrite Et. unfold in_leaves, convert_content. cbn [map]. rewrite app_nil_r. destruct (content_of m) as [x|]; [|by rewrite created_string_not_array, string_create].
      destruct (cJSON_IsArray x); [|rewrite created_string_not_array, string_create].
      * destruct (append_parts_grown (cJSON_elements x) cJSON_CreateArray isarray_create) as [G1 G2].
        unfold append_part_blocks. rewrite G1, G2, elements_create. apply parts_say.
      * destruct (cJSON_GetStringValue x) as [s|] eqn:Es; [|done]. cbn. by rewrite (string_value _ _ Es).
    + apply andb_false_iff. right. unfold convert_content. destruct (content_of m) as [x|]; [|by rewrite created_string_not_array].
      destruct (cJSON_IsArray x); [|by rewrite created_string_not_array].
      destruct (append_parts_grown (cJSON_elements x) cJSON_CreateArray isarray_create) as [G1 G2].
      unfold append_part_blocks. rewrite G1, G2, elements_create. cbn [app].
      destruct (parts_say (cJSON_elements x)) as [_ _ S]. destruct (flat_map _ _); [done|]. by inversion S.
    + unfold convert_content. destruct (content_of m) as [x|]; [|by rewrite created_string_not_array].
      destruct (cJSON_IsArray x); [|by rewrite created_string_not_array]. intros _.
      destruct (append_parts_grown (cJSON_elements x) cJSON_CreateArray isarray_create) as [G1 G2].
      unfold append_part_blocks. rewrite G2, elements_create. apply parts_plain.
  - destruct (Hm ltac:(done)) as [Ha Hn].
    destruct (append_text_grown cJSON_CreateArray (string_of (content_of m)) isarray_create) as [G1 G2].
    destruct (uses_say (tc :: tcs) _ G1) as [U1 U2]. cbv zeta in U1, U2. rewrite <- E in U1, U2.
    rewrite G2, elements_create in U2. cbn [app] in U2.
    assert (Hs : say (text_blocks (string_of (content_of m))) (in_leaves (content_of m))).
    { pose proof (content_blocks_say (content_of m)) as Hs. revert Hs Hn. unfold content_blocks, is_array, string_of.
      destruct (content_of m) as [x|]; [|done]. cbn. by destruct (cJSON_IsArray x). }
    split; [done| | |]; unfold out_items, is_tool_result_carrier, plain_msg; rewrite Ec.
    + rewrite U1, U2, flat_map_app, Et. f_equal; [apply Hs|]. rewrite flat_map_concat_map, map_map.
      rewrite (map_ext _ (fun x => [call_item x])) by (intros x; apply tool_use_items).
      generalize (tc :: tcs) as l. intros l. induction l; [done|]. cbn. by f_equal.
    + rewrite U1, U2. apply andb_false_iff. left. unfold role_is in *. rewrite Er.
      apply role_is_of in Ha. by rewrite Ha.
    + intros _. rewrite U2. apply Forall_app. split; [apply text_blocks_plain|].
      apply Forall_map, Forall_forall. intros x _. apply tool_use_plain.
Qed.

(** The loop without its accumulator: [cur] is the carrier at the end of the
    array, if there is one. *)
Fixpoint conv (cur : option cJSON) (l : list cJSON) : list cJSON :=
  match l with
  | [] => option_list cur
  | m :: l =>
      if role_is m (bs "system") then conv cur l
      else if role_is m (bs "tool") then conv (Some (add_tool_result m (default new_carrier cur))) l
      else match cur with
           | Some c =>
               if role_is m (bs "user") then conv (Some (append_queued_user (content_of m) c)) l
               else c :: convert_message m :: conv None l
           | None => convert_message m :: conv None l
           end
  end.

Definition open_carrier (cur : option cJSON) : Prop :=
  match cur with Some c => exists bl, carrier c bl | None => True end.

Lemma add_result_open m cur : open_carrier cur -> open_carrier (Some (add_tool_result m (default new_carrier cur))).
Proof.
  intros Hc. destruct (add_result_carrier m (default new_carrier cur)) as (bl & _ & Hn); [|by eexists].
  destruct cur; [by right|by left].
Qed.

Lemma queued_open content c : open_carrier (Some c) -> open_carrier (Some (append_queued_user content c)).
Proof. intros [bl Hc]. eexists. by apply queued_carrier. Qed.

Definition system_texts (l : list cJSON) : list (list byte) :=
  omap (fun m => string_of (content_of m)) (List.filter (fun m => role_is m (bs "system")) l).

Lemma convert_conv l : forall sys out cur, Forall well_formed l -> open_carrier cur ->
  (cur = None -> is_tool_result_carrier (last out) = false) ->
  fold_left (convert_step cJSON_Parse) l (sys, out ++ option_list cur)
  = (fold_left append_system_text (system_texts l) sys, out ++ conv cur l).
Proof.
  induction l as [|m l IH]; intros sys out cur Hl Hc Ho; [done|]. inversion Hl as [|? ? Hm Hl']; subst.
  assert (Elast : last (out ++ option_list cur) = match cur with Some c => Some c | None => last out end).
  { destruct cur as [c|]; cbn; [by rewrite last_snoc|by rewrite app_nil_r]. }
  assert (Ec : is_tool_result_carrier (last (out ++ option_list cur)) = bool_decide (is_Some cur)).
  { rewrite Elast. destruct cur as [c|]; [|by apply Ho]. destruct Hc as [bl Hc]. by rewrite (carrier_is _ _ Hc). }
  assert (Er : forall c, cur = Some c -> removelast (out ++ option_list cur) = out).
  { intros c ->. cbn. by rewrite removelast_app, app_nil_r. }
  cbn [fold_left conv]. unfold convert_step at 2. cbv zeta. rewrite Ec. unfold system_texts. cbn [List.filter].
  destruct (role_is m (bs "system")).
  { rewrite IH by done. cbn [omap list_omap]. by destruct (string_of (content_of m)). }
  fold (system_texts l).
  destruct (role_is m (bs "tool")).
  { pose proof (add_result_open m cur Hc) as Hn. destruct cur as [c|]; cbn [default bool_decide] in *.
    - rewrite bool_decide_eq_true_2 by done. rewrite Elast, (Er c) by done. cbn [default from_option].
      by apply (IH sys out (Some (add_tool_result m c))).
    - rewrite bool_decide_eq_false_2 by (by intros []). change (option_list (@None cJSON)) with (@nil cJSON). rewrite app_nil_r.
      by apply (IH sys out (Some (add_tool_result m new_carrier))). }
  destruct cur as [c|].
  - rewrite bool_decide_eq_true_2 by done. rewrite andb_true_r. destruct (role_is m (bs "user")).
    + rewrite Elast, (Er c) by done. cbn [default from_option].
      apply (IH sys out (Some (append_queued_user (content_of m) c))); [done|by apply queued_open|done].
    + replace ((out ++ option_list (Some c)) ++ [convert_message m]) with ((out ++ [c; convert_message m]) ++ option_list None)
        by (change (option_list (Some c)) with [c]; change (option_list (@None cJSON)) with (@nil cJSON);
            by rewrite app_nil_r, <- app_assoc).
      rewrite (IH sys (out ++ [c; convert_message m]) None Hl' I); [by rewrite <- app_assoc|].
      intros _. change [c; convert_message m] with ([c] ++ [convert_message m]). rewrite app_assoc, last_snoc. by apply convert_message_ok.
  - rewrite bool_decide_eq_false_2 by (by intros []). rewrite andb_false_r. change (option_list (@None cJSON)) with (@nil cJSON). rewrite app_nil_r.
    replace (out ++ [convert_message m]) with ((out ++ [convert_message m]) ++ option_list None) by apply app_nil_r.
    rewrite (IH sys (out ++ [convert_message m]) None Hl' I); [by rewrite <- app_assoc|].
    intros _. rewrite last_snoc. by apply convert_message_ok.
Qed.
(** *** What is said *)

(** Whose turn it is said in; results come from the user's side. *)
Definition in_said (m : cJSON) : list (list byte * item) :=
  map (pair (if role_is m (bs "tool") then bs "user" else role_of m)) (in_items m).
Definition out_said (m : cJSON) : list (list byte * item) := map (pair (role_of m)) (out_items m).
Definition spoken (l : list cJSON) : list cJSON := List.filter (fun m => negb (role_is m (bs "system"))) l.

Lemma carrier_said c bl : carrier c bl -> out_said c = map (pair (bs "user")) (flat_map block_items bl).
Proof. intros [Hc _]. unfold out_said. rewrite (proj1 Hc). by rewrite (holds_items _ _ _ Hc). Qed.

Lemma add_result_said m cur : open_carrier cur -> role_is m (bs "tool") = true ->
  out_said (add_tool_result m (default new_carrier cur)) = flat_map out_said (option_list cur) ++ in_said m.
Proof.
  intros Hc Hm. unfold in_said, in_items. rewrite Hm. destruct cur as [c|].
  - change (default new_carrier (Some c)) with c. change (option_list (Some c)) with [c].
    destruct Hc as [bl Hc]. destruct (add_result_carrier m c) as (bl' & Hb & Hn); [right; by eexists|].
    rewrite (carrier_said _ _ Hn), flat_map_app. cbn. rewrite (proj1 (tool_result_items m)), !app_nil_r, map_app.
    f_equal. unfold out_said. rewrite (proj1 Hb). by rewrite (holds_items _ _ _ Hb).
  - change (default new_carrier None) with new_carrier. change (option_list (@None cJSON)) with (@nil cJSON).
    destruct (add_result_carrier m new_carrier) as (bl' & Hb & Hn); [by left|].
    rewrite (carrier_said _ _ Hn), flat_map_app. cbn. rewrite (proj1 (tool_result_items m)), !app_nil_r, map_app.
    assert (E : bl' = []).
    { destruct Hb as (_ & a & E & _ & <-). destruct new_carrier_holds as (_ & a' & E' & _ & F). by rewrite E' in E; injection E as <-. }
    by rewrite E.
Qed.

Lemma queued_said c m : open_carrier (Some c) -> role_is m (bs "user") = true -> well_formed m ->
  out_said (append_queued_user (content_of m) c) = out_said c ++ in_said m.
Proof.
  intros [bl Hc] Hu Hm. rewrite (carrier_said _ _ (queued_carrier (content_of m) _ _ Hc)), (carrier_said _ _ Hc), flat_map_app, map_app.
  f_equal. rewrite (say_items _ _ (content_blocks_say _)). unfold in_said, in_items.
  rewrite (role_is_other _ _ (bs "tool") Hu) by done. rewrite (role_is_of _ _ Hu). cbn [default from_option].
  destruct (calls_of m) eqn:E; [by rewrite app_nil_r|]. destruct Hm as [Ha _]; [by rewrite E|].
  by rewrite (role_is_other _ _ (bs "user") Ha) in Hu.
Qed.

Lemma convert_said m : well_formed m -> role_is m (bs "tool") = false -> out_said (convert_message m) = in_said m.
Proof.
  intros Hm Ht. destruct (convert_message_ok m Hm) as [Er Ei _]. unfold out_said, in_said, in_items.
  by rewrite Er, Ei, Ht.
Qed.

Lemma conv_said l : forall cur, Forall well_formed l -> open_carrier cur ->
  flat_map out_said (conv cur l) = flat_map out_said (option_list cur) ++ flat_map in_said (spoken l).
Proof.
  induction l as [|m l IH]; intros cur Hl Hc; cbn [conv spoken List.filter]; [by rewrite app_nil_r|].
  inversion Hl as [|? ? Hm Hl']; subst. destruct (role_is m (bs "system")); cbn [negb]; [by apply IH|].
  fold (spoken l). destruct (role_is m (bs "tool")) eqn:Et.
  { rewrite IH by (done || by apply add_result_open). cbn [option_list flat_map].
    change (option_list (Some ?x)) with [x]. cbn [flat_map]. by rewrite app_nil_r, add_result_said, <- app_assoc. }
  destruct cur as [c|]; [destruct (role_is m (bs "user")) eqn:Eu|].
  - rewrite IH by (done || by apply queued_open). change (option_list (Some ?x)) with [x]. cbn [flat_map].
    by rewrite !app_nil_r, queued_said, <- app_assoc.
  - change (option_list (Some c)) with [c]. cbn [flat_map]. rewrite IH by done.
    change (option_list (@None cJSON)) with (@nil cJSON). cbn [flat_map app]. by rewrite convert_said, app_nil_r.
  - change (option_list (@None cJSON)) with (@nil cJSON). cbn [flat_map app]. rewrite IH by done.
    change (option_list (@None cJSON)) with (@nil cJSON). cbn [flat_map app]. by rewrite convert_said.
Qed.

(** *** Calls and results *)

(** In Anthropic's: a call is answered in the very next message, a user's;
    results come before everything else in a message, and answer a call of
    the message before. *)
Definition is_result (i : item) : bool := match i with Result _ _ => true | _ => false end.
Definition result_ids (m : cJSON) : list (list byte) :=
  omap (fun i => match i with Result id _ => Some id | _ => None end) (out_items m).
Definition use_ids (m : cJSON) : list (list byte) :=
  omap (fun i => match i with Use id _ _ => Some id | _ => None end) (out_items m).

Definition results_first (m : cJSON) : Prop :=
  exists a b, out_items m = a ++ b /\ Forall (fun i => is_result i = true) a /\ Forall (fun i => is_result i = false) b.

Fixpoint wire_paired (ids : list (list byte)) (l : list cJSON) : Prop :=
  match l with
  | [] => True
  | m :: l =>
      (forall id, In id (result_ids m) -> In id ids) /\ results_first m /\
      (forall id, In id (use_ids m) ->
         match l with m' :: _ => role_is m' (bs "user") = true /\ In id (result_ids m') | [] => False end) /\
      wire_paired (use_ids m) l
  end.

Lemma said_no_ids ls : omap (fun i => match i with Result id _ => Some id | _ => None end) (map Said ls) = [] /\
  omap (fun i => match i with Use id _ _ => Some id | _ => None end) (map Said ls) = [] /\
  Forall (fun i => is_result i = false) (map Said ls).
Proof. induction ls as [|l ls (IH1 & IH2 & IH3)]; [done|]. cbn. split_and!; try done. by constructor. Qed.

(** What a carrier's items are: results, then what the user said. *)
Record carries (c : cJSON) (ids : list (list byte)) (only : bool) : Prop := {
  ca_role : role_is c (bs "user") = true;
  ca_ids : result_ids c = ids;
  ca_uses : use_ids c = [];
  ca_first : results_first c;
  ca_only : only = true -> Forall (fun i => is_result i = true) (out_items c)
}.

Lemma carrier_items_add m c bl : holds c (bs "user") bl ->
  out_items (add_tool_result m c) = flat_map block_items bl ++ [Result (answered_id m) (in_leaves (content_of m))].
Proof.
  intros Hc. rewrite (holds_items _ _ _ (add_result_holds m c bl Hc)), flat_map_app. cbn.
  by rewrite (proj1 (tool_result_items m)), app_nil_r.
Qed.

Lemma holds_role m bl : holds m (bs "user") bl -> role_is m (bs "user") = true.
Proof. intros [E _]. unfold role_is. rewrite E. apply beq_refl. Qed.

Lemma add_result_carries m cur ids : open_carrier cur ->
  (forall c, cur = Some c -> carries c ids true) -> (cur = None -> ids = []) ->
  carries (add_tool_result m (default new_carrier cur)) (ids ++ [answered_id m]) true.
Proof.
  intros Hc Hi Hn. set (c := default new_carrier cur).
  assert (G : exists bl, holds c (bs "user") bl /\ holds (add_tool_result m c) (bs "user") (bl ++ [tool_result_block m]) /\
    Forall (fun i => is_result i = true) (flat_map block_items bl) /\
    omap (fun i => match i with Result id _ => Some id | _ => None end) (flat_map block_items bl) = ids /\
    omap (fun i => match i with Use id _ _ => Some id | _ => None end) (flat_map block_items bl) = []).
  { destruct cur as [c'|]; subst c.
    - change (default new_carrier (Some c')) with c'. destruct Hc as (bl & Hb & _). destruct (Hi c' eq_refl) as [_ H2 H3 _ H5].
      unfold result_ids, use_ids in *. rewrite (holds_items _ _ _ Hb) in *. exists bl. split; [done|].
      split; [by apply add_result_holds|]. split; [by apply H5|done].
    - change (default new_carrier None) with new_carrier. exists []. split; [apply new_carrier_holds|].
      split; [apply add_result_holds, new_carrier_holds|]. rewrite (Hn eq_refl). cbn. split_and!; [constructor|done|done]. }
  destruct G as (bl & Hb & Ha & F & E1 & E2). pose proof (carrier_items_add m c bl Hb) as Ei. split.
  - by eapply holds_role.
  - unfold result_ids. by rewrite Ei, omap_app, E1.
  - unfold use_ids. by rewrite Ei, omap_app, E2.
  - exists (out_items (add_tool_result m c)), []. rewrite app_nil_r. split; [done|]. split; [|constructor].
    rewrite Ei. apply Forall_app. split; [done|by repeat constructor].
  - intros _. rewrite Ei. apply Forall_app. split; [done|by repeat constructor].
Qed.

Lemma queued_carries content c ids : open_carrier (Some c) -> carries c ids true \/ carries c ids false ->
  carries (append_queued_user content c) ids false.
Proof.
  intros [bl Hc] Hi. assert (H0 : carries c ids false) by (destruct Hi as [[]|]; [by split|done]).
  destruct H0 as [H1 H2 H3 H4 _]. pose proof (queued_carrier content _ _ Hc) as Hq.
  assert (Ei : out_items (append_queued_user content c) = out_items c ++ map Said (in_leaves content)).
  { rewrite (holds_items _ _ _ (proj1 Hq)), (holds_items _ _ _ (proj1 Hc)), flat_map_app. f_equal. apply content_blocks_say. }
  destruct (said_no_ids (in_leaves content)) as (S1 & S2 & S3). split; [|..|done].
  - eapply holds_role, Hq.
  - unfold result_ids in *. by rewrite Ei, omap_app, S1, app_nil_r.
  - unfold use_ids in *. by rewrite Ei, omap_app, H3, S2.
  - destruct H4 as (a & b & E & Fa & Fb). exists a, (b ++ map Said (in_leaves content)).
    rewrite Ei, E, <- app_assoc. split; [done|]. split; [done|]. by apply Forall_app.
Qed.

Lemma convert_ids m : well_formed m ->
  result_ids (convert_message m) = [] /\ use_ids (convert_message m) = map call_id (calls_of m) /\
  results_first (convert_message m).
Proof.
  intros Hm. destruct (convert_message_ok m Hm) as [_ Ei _]. unfold result_ids, use_ids. rewrite Ei, !omap_app.
  destruct (said_no_ids (in_leaves (content_of m))) as (S1 & S2 & S3). rewrite S1, S2. cbn [app].
  assert (Hc : omap (fun i => match i with Result id _ => Some id | _ => None end) (map call_item (calls_of m)) = [] /\
    omap (fun i => match i with Use id _ _ => Some id | _ => None end) (map call_item (calls_of m)) = map call_id (calls_of m) /\
    Forall (fun i => is_result i = false) (map call_item (calls_of m))).
  { clear. induction (calls_of m) as [|x l (IH1 & IH2 & IH3)]; [done|]. cbn. split; [exact IH1|split; [by f_equal|by constructor]]. }
  destruct Hc as (C1 & C2 & C3). split_and!; [done|done|]. exists [], (out_items (convert_message m)).
  rewrite Ei. split; [done|]. split; [constructor|]. apply Forall_app. by split.
Qed.

(** *** What the messages after a call answer *)

Definition has_results (ids : list (list byte)) (l : list cJSON) : Prop :=
  match l with m :: _ => role_is m (bs "user") = true /\ incl ids (result_ids m) | [] => False end.

Lemma result_ids_add m c bl : holds c (bs "user") bl ->
  result_ids (add_tool_result m c) = result_ids c ++ [answered_id m].
Proof. intros Hc. unfold result_ids. by rewrite (carrier_items_add m c bl Hc), omap_app, <- (holds_items _ _ _ Hc). Qed.

Lemma conv_keeps l : forall c ids, open_carrier (Some c) -> incl ids (result_ids c) -> has_results ids (conv (Some c) l).
Proof.
  induction l as [|m l IH]; intros c ids Hc Hi; cbn [conv].
  { destruct Hc as (bl & Hc & _). split; [by eapply holds_role|done]. }
  destruct (role_is m (bs "system")); [by apply IH|]. destruct (role_is m (bs "tool")).
  { apply IH; [by apply (add_result_open m (Some c))|]. change (default new_carrier (Some c)) with c.
    destruct Hc as (bl & Hc & _). rewrite (result_ids_add m c bl Hc). by apply incl_appl. }
  destruct (role_is m (bs "user")); [|destruct Hc as (bl & Hc & _); split; [by eapply holds_role|done]].
  apply IH; [by apply queued_open|]. destruct Hc as (bl & Hc). pose proof (queued_carrier (content_of m) _ _ Hc) as Hq.
  unfold result_ids in *. rewrite (holds_items _ _ _ (proj1 Hq)), flat_map_app, <- (holds_items _ _ _ (proj1 Hc)), omap_app.
  by apply incl_appl.
Qed.

Lemma conv_answers l : forall cur id, open_carrier cur -> answered_in id l -> has_results [id] (conv cur l).
Proof.
  induction l as [|m l IH]; intros cur id Hc Ha; [done|]. destruct Ha as [Ht Ha]. cbn [conv].
  rewrite (role_is_other _ _ (bs "system") Ht), Ht by done. pose proof (add_result_open m cur Hc) as Hn.
  destruct Ha as [<-|Ha]; [|by apply IH]. apply conv_keeps; [done|].
  destruct (add_result_carrier m (default new_carrier cur)) as (bl & Hb & _); [destruct cur; [by right|by left]|].
  rewrite (result_ids_add _ _ _ Hb). apply incl_appr, incl_refl.
Qed.

Lemma message_paired m l ids : well_formed m -> (forall id, In id (map call_id (calls_of m)) -> answered_in id l) ->
  wire_paired (map call_id (calls_of m)) (conv None l) -> wire_paired ids (convert_message m :: conv None l).
Proof.
  intros Hm Ha Hl. destruct (convert_ids m Hm) as (E1 & E2 & E3). cbn [wire_paired]. rewrite E1, E2.
  split_and!; [by intros ? []|done| |done]. intros id Hi. apply Ha in Hi.
  pose proof (conv_answers l None id I Hi) as Hr. destruct (conv None l) as [|m' l']; [done|].
  split; [apply Hr|]. destruct Hr as [_ Hr]. apply Hr. by left.
Qed.

Lemma conv_paired l : forall cur ids ids', Forall well_formed l -> open_carrier cur -> paired ids' l -> incl ids' ids ->
  (forall c, cur = Some c -> exists rids b, carries c rids b /\ incl rids ids /\ (b = true \/ ids' = [])) ->
  wire_paired ids (conv cur l).
Proof.
  induction l as [|m l IH]; intros cur ids ids' Hl Hc Hp Hi Hr; cbn [conv].
  { destruct cur as [c|]; [|done]. destruct (Hr c eq_refl) as (rids & b & [C1 C2 C3 C4 _] & C5 & _).
    change (option_list (Some c)) with [c]. cbn [wire_paired]. rewrite C2, C3. by split_and!. }
  inversion Hl as [|? ? Hm Hl']; subst. cbn [paired] in Hp.
  destruct (role_is m (bs "system")) eqn:Es.
  { rewrite (role_is_other _ _ (bs "tool") Es) in Hp by done. rewrite (uncalled m _ Hm Es) in Hp by done.
    apply (IH cur ids []); [done|done|apply Hp|by intros ? []|]. intros c E.
    destruct (Hr c E) as (rids & b & ? & ? & _). exists rids, b. split_and!; auto. }
  destruct (role_is m (bs "tool")) eqn:Et.
  { destruct Hp as [Ha Hp]. apply (IH _ ids ids'); [done|by apply add_result_open|done|done|]. intros c [= <-].
    assert (Hx : exists rids, (forall c, cur = Some c -> carries c rids true) /\ incl rids ids /\ (cur = None -> rids = [])).
    { destruct cur as [c|]; [|exists []; split_and!; [done|by intros ? []|done]].
      destruct (Hr c eq_refl) as (rids & b & H1 & H2 & [-> | ->]); [|done]. exists rids. split_and!; [by intros ? [= <-]|done|done]. }
    destruct Hx as (rids & H1 & H2 & H3). exists (rids ++ [answered_id m]), true. split; [by apply add_result_carries|].
    split; [|by left]. apply incl_app; [done|]. intros x [<-|[]]. by apply Hi. }
  destruct cur as [c|]; [destruct (role_is m (bs "user")) eqn:Eu|].
  - rewrite (uncalled m _ Hm Eu) in Hp by done. destruct (Hr c eq_refl) as (rids & b & H1 & H2 & _).
    apply (IH _ ids []); [done|by apply queued_open|apply Hp|by intros ? []|]. intros x [= <-].
    exists rids, false. split_and!; [|done|by right]. apply queued_carries; [done|]. destruct b; auto.
  - destruct (Hr c eq_refl) as (rids & b & [C1 C2 C3 C4 _] & C5 & _). cbn [wire_paired]. rewrite C2, C3.
    split; [done|]. split; [done|]. split; [by intros ? []|]. apply message_paired; [done|apply Hp|].
    by apply (IH None _ (map call_id (calls_of m))); [done|done|apply Hp|apply incl_refl|].
  - apply message_paired; [done|apply Hp|]. by apply (IH None _ (map call_id (calls_of m))); [done|done|apply Hp|apply incl_refl|].
Qed.

(** ** Cache breakpoints *)

Lemma holds_plain m r bl : holds m r bl -> plain_msg m <-> Forall plain_block bl.
Proof. intros (_ & a & E & Ha & <-). unfold plain_msg. rewrite E. split; auto. Qed.

Lemma add_result_plain m cur : open_carrier cur -> (forall c, cur = Some c -> plain_msg c) ->
  plain_msg (add_tool_result m (default new_carrier cur)).
Proof.
  intros Hc Hp. assert (G : exists bl, holds (default new_carrier cur) (bs "user") bl /\ Forall plain_block bl).
  { destruct cur as [c|]; [|exists []; split; [apply new_carrier_holds|constructor]].
    destruct Hc as (bl & Hc & _). exists bl. split; [done|]. apply (holds_plain _ _ _ Hc). by apply Hp. }
  destruct G as (bl & Hb & Hf). apply (holds_plain _ _ _ (add_result_holds m _ _ Hb)).
  apply Forall_app. split; [done|]. constructor; [apply tool_result_plain|constructor].
Qed.

Lemma queued_plain content c : open_carrier (Some c) -> plain_msg c -> plain_msg (append_queued_user content c).
Proof.
  intros [bl Hc] Hp. apply (holds_plain _ _ _ (proj1 (queued_carrier content _ _ Hc))).
  apply Forall_app. split; [by apply (holds_plain _ _ _ (proj1 Hc))|apply content_blocks_plain].
Qed.

Lemma conv_plain l : forall cur, Forall well_formed l -> open_carrier cur -> (forall c, cur = Some c -> plain_msg c) ->
  Forall plain_msg (conv cur l).
Proof.
  induction l as [|m l IH]; intros cur Hl Hc Hp; cbn [conv].
  { destruct cur as [c|]; [|constructor]. constructor; [by apply Hp|constructor]. }
  inversion Hl as [|? ? Hm Hl']; subst. destruct (role_is m (bs "system")); [by apply IH|].
  destruct (role_is m (bs "tool")).
  { apply IH; [done|by apply add_result_open|]. intros c [= <-]. by apply add_result_plain. }
  destruct cur as [c|]; [destruct (role_is m (bs "user"))|].
  - apply IH; [done|by apply queued_open|]. intros x [= <-]. apply queued_plain; [done|by apply Hp].
  - constructor; [by apply Hp|]. constructor; [by apply convert_message_ok|]. by apply IH.
  - constructor; [by apply convert_message_ok|]. by apply IH.
Qed.

Definition marked (b : cJSON) : bool :=
  match cJSON_GetObjectItemCaseSensitive b (bs "cache_control") with Some _ => true | None => false end.

(** The breakpoints of a content. *)
Definition marks (content : option cJSON) : nat :=
  match content with
  | Some c => if cJSON_IsArray c then length (List.filter marked (cJSON_elements c)) else 0%nat
  | None => 0%nat
  end.

(** A message that ends in something that can be marked. *)
Definition can_end (m : cJSON) : bool :=
  match content_of m with
  | None => false
  | Some c =>
      match cJSON_GetStringValue c with
      | Some t => negb (beq t [])
      | None => cJSON_IsArray c && match last (cJSON_elements c) with Some b => block_is_cacheable b | None => false end
      end
  end.

Abbreviation with_mark b := (cJSON_AddItemToObject b (bs "cache_control") make_cache_control).

Lemma get_with_mark b k : cJSON_IsObject b = true -> beq k (bs "cache_control") = false ->
  cJSON_GetObjectItemCaseSensitive (with_mark b) k = cJSON_GetObjectItemCaseSensitive b k.
Proof. intros Hb Hk. rewrite get_add, Hk by done. by destruct (cJSON_GetObjectItemCaseSensitive b k). Qed.

Lemma items_with_mark b : cJSON_IsObject b = true -> block_items (with_mark b) = block_items b.
Proof.
  intros Hb. unfold block_items, block_leaves, type_is, get_string. cbn [mbind option_bind].
  by rewrite !get_with_mark by done.
Qed.

Lemma plain_not_marked l : Forall plain_block l -> List.filter marked l = [].
Proof. induction 1 as [|b l [_ Hb] _ IH]; [done|]. cbn. unfold marked at 1. by rewrite Hb. Qed.

Record same_words (m' m : cJSON) : Prop := {
  sw_role : get_string (Some m') (bs "role") = get_string (Some m) (bs "role");
  sw_items : out_items m' = out_items m
}.

Lemma mark_blocks_ok m c : content_of m = Some c -> cJSON_IsArray c = true -> Forall plain_block (cJSON_elements c) ->
  same_words (fst (mark_blocks m c)) m /\
  snd (mark_blocks m c) = match last (cJSON_elements c) with Some b => block_is_cacheable b | None => false end /\
  marks (content_of (fst (mark_blocks m c))) = b2n (snd (mark_blocks m c)).
Proof.
  intros Ec Ha Hp. unfold mark_blocks. rewrite Ha.
  assert (Hm : marks (content_of m) = 0%nat) by (unfold marks; by rewrite Ec, Ha, plain_not_marked).
  destruct (last (cJSON_elements c)) as [b|] eqn:El; [|by split_and!]. destruct (block_is_cacheable b); [|by split_and!].
  apply last_Some in El as [bl El]. rewrite El in *. rewrite removelast_app by done. cbn [removelast]. rewrite app_nil_r.
  apply Forall_app in Hp as [Hp Hb]. inversion Hb as [|? ? [Ho Hn] _]; subst. cbn [fst snd].
  set (c' := cJSON_update_elements c _). assert (Ha' : cJSON_IsArray c' = true) by (subst c'; by rewrite isarray_update).
  assert (El' : cJSON_elements c' = bl ++ [with_mark b]) by (subst c'; by rewrite elements_update). clearbody c'.
  assert (Ec' : content_of (cJSON_update m (bs "content") c') = Some c') by (rewrite (get_update _ _ _ _ _ Ec); by lit).
  split; [split|split; [done|]].
  - unfold get_string. cbn [mbind option_bind]. rewrite (get_update _ _ _ _ _ Ec). by lit.
  - unfold out_items. rewrite Ec', Ec, Ha, Ha', El, El', !flat_map_app. cbn. by rewrite items_with_mark.
  - unfold marks. rewrite Ec', Ha', El', List.filter_app, plain_not_marked by done. cbn. unfold marked.
    by rewrite get_add, Hn by done.
Qed.

Lemma mark_message_ok m : plain_msg m ->
  same_words (fst (mark_message m)) m /\ snd (mark_message m) = can_end m /\
  marks (content_of (fst (mark_message m))) = b2n (snd (mark_message m)).
Proof.
  intros Hp. unfold mark_message, can_end, plain_msg in *. destruct (content_of m) as [c|] eqn:Ec.
  2: { cbn. rewrite Ec. by split_and!. }
  destruct (cJSON_GetStringValue c) as [[|x t]|] eqn:Es.
  - cbn [fst snd]. rewrite Ec. unfold marks. rewrite (string_not_array _ _ Es). by split_and!.
  - set (blocks := cJSON_AddItemToArray _ _). set (m' := cJSON_update m _ _).
    assert (Ec' : content_of m' = Some blocks) by (subst m'; rewrite (get_update _ _ _ _ _ Ec); by lit).
    assert (Ha : cJSON_IsArray blocks = true) by (subst blocks; rewrite isarray_add; apply isarray_create).
    assert (El : cJSON_elements blocks = [text_block (x :: t)])
      by (subst blocks; by rewrite elements_add, elements_create by apply isarray_create).
    assert (Et : block_items (text_block (x :: t)) = [Said (LText (x :: t))])
      by (apply text_block_items; [done|by apply (string_value _ _ Es)]).
    assert (Hs : same_words m' m).
    { split.
      - unfold get_string. cbn [mbind option_bind]. subst m'. rewrite (get_update _ _ _ _ _ Ec). by lit.
      - unfold out_items. rewrite Ec', Ec, Ha, El, (string_not_array _ _ Es), Es. cbn. by rewrite Et. }
    destruct (mark_blocks_ok m' blocks Ec' Ha) as (B1 & B2 & B3).
    { rewrite El. constructor; [apply text_block_plain|constructor]. }
    split; [|split; [|exact B3]].
    + destruct B1 as [R1 I1], Hs as [R2 I2]. split; congruence.
    + rewrite B2, El. cbn. unfold block_is_cacheable.
      assert (Eg : cJSON_GetObjectItemCaseSensitive (text_block (x :: t)) (bs "type") = Some (cJSON_CreateString (bs "text")))
        by (unfold text_block; by built_get).
      rewrite (get_string_built _ _ _ Eg). change (c_str (bs "text")) with (bs "text"). lit. cbn [negb].
      rewrite (get_string_built _ _ (x :: t)) by (unfold text_block; by built_get). by rewrite (string_value _ _ Es).
  - destruct (cJSON_IsArray c) eqn:Ha; [|unfold mark_blocks; rewrite Ha; cbn; rewrite Ec; unfold marks; rewrite Ha; by split_and!].
    destruct (mark_blocks_ok m c Ec Ha (Hp eq_refl)) as (B1 & B2 & B3). by rewrite B2 in *.
Qed.

Lemma mark_from_ok l : Forall plain_msg l ->
  Forall2 same_words (mark_from l) l /\
  sum_list_with (fun m => marks (content_of m)) (mark_from l) = b2n (existsb can_end l).
Proof.
  assert (Hz : forall l, Forall plain_msg l -> sum_list_with (fun m => marks (content_of m)) l = 0%nat).
  { induction 1 as [|m l' Hm _ IH]; [done|]. cbn. rewrite IH. unfold marks, plain_msg in *.
    destruct (content_of m) as [c|]; [|done]. destruct (cJSON_IsArray c); [|done]. by rewrite plain_not_marked by auto. }
  induction 1 as [|m l Hm Hl [IH1 IH2]]; [split; [constructor|done]|].
  destruct (mark_message_ok m Hm) as (M1 & M2 & M3). cbn [mark_from existsb].
  destruct (mark_message m) as [m' b]. cbn [fst snd] in *. subst b. destruct (can_end m); cbn [orb sum_list_with].
  - split; [|by rewrite M3, (Hz l Hl)]. constructor; [done|]. clear. induction l; constructor; [by split|done].
  - split; [by constructor|]. by rewrite M3, IH2.
Qed.

Lemma existsb_rev {A} (f : A -> bool) l : existsb f (reverse l) = existsb f l.
Proof.
  induction l as [|x l IH]; [done|]. rewrite reverse_cons, existsb_app, IH. cbn. by rewrite orb_false_r, orb_comm.
Qed.

Lemma mark_history_ok l : Forall plain_msg l ->
  Forall2 same_words (mark_history_breakpoint l) l /\
  sum_list_with (fun m => marks (content_of m)) (mark_history_breakpoint l) = b2n (existsb can_end l).
Proof.
  intros Hl. assert (E : forall l' : list cJSON, rev l' = reverse l') by apply rev_alt.
  unfold mark_history_breakpoint. rewrite !E.
  destruct (mark_from_ok (reverse l)) as [H1 H2]; [by apply Forall_reverse|]. split.
  - rewrite <- (reverse_involutive l) at 2. by apply Forall2_reverse.
  - by rewrite sum_list_with_reverse, H2, existsb_rev.
Qed.
End Facts.
