(* ===== verification/AnthropicRequests.v ===== *)
(** The theorems about an Anthropic request as it is sent: what it says, that
    its calls are answered when the history's are, and its cache
    breakpoints. *)

From S2P Require Import Prelude Utf8 Image CJson History HistoryFacts HistoryJson Stream Provider Canonical CanonicalCalls ProviderAnthropic AnthropicFacts.
From stdpp Require Import list.
#[local] Open Scope Z_scope.

Section Requests.
Context `{L : CJsonLaws} (cJSON_Parse : list byte -> option cJSON).

Abbreviation content_of m := (cJSON_GetObjectItemCaseSensitive m (bs "content")).
Abbreviation request_of := (anthropic_build_request cJSON_Parse).

Lemma request_members llm messages tools stream req : request_of llm messages tools stream = Some req ->
  cJSON_GetObjectItemCaseSensitive req (bs "messages")
  = Some (array_from (mark_history_breakpoint (snd (convert_messages cJSON_Parse messages)))) /\
  cJSON_GetObjectItemCaseSensitive req (bs "system")
  = (fun t => default (cJSON_CreateString t) (system_blocks t)) <$> fst (convert_messages cJSON_Parse messages).
Proof.
  unfold anthropic_build_request. destruct (convert_messages cJSON_Parse messages) as [sys out]. cbn [fst snd].
  destruct sys as [t|], (effort llm), (response_schema llm), (cJSON_elements (convert_tools tools)),
    (disable_parallel_tool_calls llm); intros [= <-]; split; built_get; done.
Qed.

Definition messages_of (req : cJSON) : list cJSON := each (cJSON_GetObjectItemCaseSensitive req (bs "messages")).

Lemma converted_messages llm messages tools stream req : request_of llm messages tools stream = Some req ->
  Forall well_formed (cJSON_elements messages) ->
  messages_of req = mark_history_breakpoint (conv cJSON_Parse None (cJSON_elements messages)) /\
  fst (convert_messages cJSON_Parse messages)
  = fold_left append_system_text (system_texts (cJSON_elements messages)) None.
Proof.
  intros Hr Hw. destruct (request_members _ _ _ _ _ Hr) as [Em _].
  pose proof (convert_conv cJSON_Parse (cJSON_elements messages) None [] None Hw I ltac:(done)) as E.
  unfold convert_messages in *. cbn [app] in E. change (option_list (@None cJSON)) with (@nil cJSON) in E.
  rewrite E in *. cbn [fst snd] in *. split; [|done].
  unfold messages_of. rewrite Em. cbn [each]. apply array_from_elements.
Qed.

(** ** What it says *)

Fixpoint blank_lines (l : list (list byte)) : list byte :=
  match l with
  | [] => []
  | [t] => t
  | t :: l => t ++ [x0a; x0a] ++ blank_lines l
  end.

Lemma blank_lines_snoc l t : l <> [] -> blank_lines (l ++ [t]) = blank_lines l ++ [x0a; x0a] ++ t.
Proof.
  induction l as [|x l IH]; [done|]. intros _. destruct l as [|y l]; [done|].
  change (blank_lines ((x :: y :: l) ++ [t])) with (x ++ [x0a; x0a] ++ blank_lines ((y :: l) ++ [t])).
  rewrite IH by done. change (blank_lines (x :: y :: l)) with (x ++ [x0a; x0a] ++ blank_lines (y :: l)).
  by rewrite !app_assoc.
Qed.

Lemma blank_lines_cons l : l <> [] -> Forall (fun t => t <> []) l -> exists b s, blank_lines l = b :: s.
Proof. destruct l as [|[|b t] l]; [done|by inversion 2|]. intros _ _. destruct l; cbn; eauto. Qed.

Lemma system_text_joined texts : Forall (fun t => t <> []) texts ->
  fold_left append_system_text texts None = match texts with [] => None | _ => Some (blank_lines texts) end.
Proof.
  induction texts as [|t texts IH] using rev_ind; [done|]. intros [Ht Hn]%Forall_app. inversion Hn as [|? ? Hn1 _]; subst.
  rewrite fold_left_app, (IH Ht). cbn [fold_left]. destruct texts as [|x texts]; [done|].
  assert (Hc : exists b s, blank_lines (x :: texts) = b :: s) by (by apply blank_lines_cons).
  destruct Hc as (b & s & E). rewrite E. unfold append_system_text.
  change (Some ((b :: s) ++ [x0a; x0a] ++ t) = Some (blank_lines ((x :: texts) ++ [t]))).
  by rewrite blank_lines_snoc, E.
Qed.

(** The system prompt of a request. *)
Definition system_prompt_of (req : cJSON) : option (list byte) :=
  match cJSON_GetObjectItemCaseSensitive req (bs "system") with
  | None => None
  | Some s =>
      if cJSON_IsArray s then match cJSON_elements s with b :: _ => get_string (Some b) (bs "text") | [] => None end
      else cJSON_GetStringValue s
  end.

Lemma no_nul_c_str s : c_str s = s -> no_nul s.
Proof. intros <-. apply c_str_no_nul. Qed.

Lemma system_texts_no_nul l : Forall no_nul (system_texts l).
Proof.
  unfold system_texts. apply Forall_forall. intros t (m & _ & Ht)%list_elem_of_omap. apply no_nul_c_str.
  unfold string_of in Ht. destruct (content_of m) as [c|]; [|done]. by apply string_value in Ht.
Qed.

Lemma blank_lines_no_nul l : Forall no_nul l -> no_nul (blank_lines l).
Proof.
  induction 1 as [|t l Ht _ IH]; [constructor|]. destruct l; [done|]. apply Forall_app. split; [done|].
  apply Forall_app. split; [|done]. repeat constructor; discriminate.
Qed.

Lemma system_blocks_text t : t <> [] -> c_str t = t -> exists s b, system_blocks t = Some s /\
  cJSON_IsArray s = true /\ cJSON_elements s = [b] /\ get_string (Some b) (bs "text") = Some t /\ marks (Some s) = 1%nat.
Proof.
  intros Hn Ht. destruct t as [|x t]; [done|]. unfold system_blocks. eexists _, _. split; [done|].
  set (b := cJSON_AddItemToObject _ _ _).
  assert (Ha : cJSON_IsArray (cJSON_AddItemToArray cJSON_CreateArray b) = true) by (rewrite isarray_add; apply isarray_create).
  assert (El : cJSON_elements (cJSON_AddItemToArray cJSON_CreateArray b) = [b])
    by (by rewrite elements_add, elements_create by apply isarray_create).
  split; [done|]. split; [done|]. split.
  - rewrite (get_string_built _ _ (x :: t)); [by rewrite Ht|]. subst b. unfold text_block. by built_get.
  - unfold marks. rewrite Ha, El. cbn. unfold marked. subst b. unfold text_block. by built_get.
Qed.

Lemma same_words_said l l' : Forall2 same_words l' l -> flat_map out_said l' = flat_map out_said l.
Proof.
  induction 1 as [|m' m l' l [H1 H2] _ IH]; [done|]. cbn. rewrite IH. f_equal. unfold out_said. by rewrite H1, H2.
Qed.


(** ** Its calls *)

Lemma same_words_paired l l' : Forall2 same_words l' l -> forall ids, wire_paired ids l -> wire_paired ids l'.
Proof.
  induction 1 as [|m' m l' l [H1 H2] Hl IH]; intros ids; [done|]. cbn [wire_paired].
  assert (Er : result_ids m' = result_ids m) by (unfold result_ids; by rewrite H2).
  assert (Eu : use_ids m' = use_ids m) by (unfold use_ids; by rewrite H2).
  rewrite Er, Eu. intros (W1 & W2 & W3 & W4). split; [done|]. split.
  { destruct W2 as (a & b & E & Ha & Hb). exists a, b. by rewrite H2. }
  split; [|by apply IH]. intros id Hi. specialize (W3 id Hi). destruct Hl as [|x' x l' l [X1 X2] _]; [done|].
  unfold role_is, result_ids in *. by rewrite X1, X2.
Qed.

(** C15. Anthropic takes every request made from a history whose calls are
    answered and whose results are asked for, as every history is that the
    agent sends: each call is answered in the very next message, which
    is the user's; the results come first in it, and every result answers a
    call of the message before. *)
Theorem anthropic_calls_are_answered llm h cz arr sys messages tools stream req
    (Ho : orphan_free [] h) (Ha : answered h) (Hi : calls_no_images h)
    (Hp : Forall (fun m => exists p, plain_content m cz = Some p) h)
    (Hj : clm_history_to_json h cz = Some arr)
    (Hs : Forall (fun m => role_is m (bs "system") = true /\ well_formed m) sys)
    (Hm : cJSON_elements messages = sys ++ cJSON_elements arr)
    (Hr : request_of llm messages tools stream = Some req) :
  wire_paired [] (messages_of req).
Proof.
  destruct (conversation_paired [] h cz arr sys messages Ho Ha Hi Hp Hj Hs (or_intror eq_refl) Hm) as [Hw Hpd].
  destruct (converted_messages _ _ _ _ _ Hr Hw) as [Em _]. rewrite Em.
  eapply same_words_paired; [apply mark_history_ok; by apply conv_plain|].
  by apply (conv_paired cJSON_Parse _ None [] []); [done|done|exact Hpd|apply incl_refl|].
Qed.

(** ** Its cache breakpoints *)

(** The breakpoints of a request, in the system prompt and the messages. *)
Definition breakpoints (req : cJSON) : nat :=
  (marks (cJSON_GetObjectItemCaseSensitive req (bs "system"))
   + sum_list_with (fun m => marks (content_of m)) (messages_of req))%nat.

(** An Anthropic request sets at most two cache breakpoints, of the four
    the API takes: one on the system prompt if there is any, and one on the
    conversation if any of it can carry one. *)
Theorem anthropic_breakpoints llm messages tools stream req
    (Hw : Forall well_formed (cJSON_elements messages))
    (Ht : Forall (fun t => t <> []) (system_texts (cJSON_elements messages)))
    (Hr : request_of llm messages tools stream = Some req) :
  breakpoints req = (b2n (bool_decide (system_texts (cJSON_elements messages) <> []))
    + b2n (existsb can_end (snd (convert_messages cJSON_Parse messages))))%nat /\ (breakpoints req <= 2)%nat.
Proof.
  destruct (converted_messages _ _ _ _ _ Hr Hw) as [Em Es]. destruct (request_members _ _ _ _ _ Hr) as [_ Eg].
  assert (E : breakpoints req = (b2n (bool_decide (system_texts (cJSON_elements messages) <> []))
    + b2n (existsb can_end (snd (convert_messages cJSON_Parse messages))))%nat).
  { unfold breakpoints. f_equal.
    - rewrite Eg, Es, system_text_joined by done.
      destruct (system_texts (cJSON_elements messages)) as [|t texts] eqn:Et; [done|]. rewrite <- Et in *.
      rewrite bool_decide_eq_true_2 by (by rewrite Et).
      assert (Hc : exists b s, blank_lines (system_texts (cJSON_elements messages)) = b :: s)
        by (apply blank_lines_cons; [by rewrite Et|done]).
      destruct (system_blocks_text (blank_lines (system_texts (cJSON_elements messages)))) as (s & b & E1 & _ & _ & _ & E5).
      { destruct Hc as (? & ? & ->). done. }
      { apply c_str_id, blank_lines_no_nul, system_texts_no_nul. }
      cbn [fmap option_fmap option_map]. rewrite E1. exact E5.
    - pose proof (convert_conv cJSON_Parse (cJSON_elements messages) None [] None Hw I ltac:(done)) as E.
      unfold convert_messages. cbn [app] in E. change (option_list (@None cJSON)) with (@nil cJSON) in E.
      rewrite Em, E. cbn [snd]. apply mark_history_ok. by apply conv_plain. }
  split; [exact E|]. rewrite E. destruct (bool_decide _), (existsb _ _); cbn; lia.
Qed.
End Requests.
