(* ===== verification/AnthropicReplies.v ===== *)
(** Replies of the Messages API: the canonical form of a response, sent back
    in the next request, says what the model said; and a reply that is
    streamed comes to the same as one that is not. *)

From S2P Require Import Prelude Utf8 TextClean Image RateLimit Tokens CJson History HistoryFacts HistoryJson.
From S2P Require Import Registry Tools ToolsSpec Stream StreamFacts StreamCalls Provider Canonical CanonicalCalls CanonicalFacts ProviderAnthropic AnthropicFacts.
From stdpp Require Import list.
#[local] Open Scope Z_scope.

Section Replies.
Context `{L : CJsonLaws} (cJSON_Parse : list byte -> option cJSON).
Context (cJSON_PrintUnformatted : cJSON -> option (list byte)).
Context (int_nan : Z).

Abbreviation normalize_block := (normalize_block cJSON_PrintUnformatted).
Abbreviation tool_use_to_call := (tool_use_to_call cJSON_PrintUnformatted).
Abbreviation content_of m := (cJSON_GetObjectItemCaseSensitive m (bs "content")).

(** ** The blocks of a response *)

Definition block_texts (l : list cJSON) : list (list byte) :=
  omap (fun b => if type_is b (bs "text") then get_string (Some b) (bs "text") else None) l.
Definition tool_uses (l : list cJSON) : list cJSON := List.filter (fun b => type_is b (bs "tool_use")) l.

Lemma normalize_blocks l : exists reasoning, fold_left normalize_block l (None, None, None)
  = (joined (block_texts l), reasoning, call_array (map tool_use_to_call (tool_uses l))).
Proof.
  induction l as [|b l [r IH]] using rev_ind; [by exists None|]. rewrite fold_left_app, IH. cbn [fold_left].
  unfold block_texts, tool_uses. rewrite omap_app, List.filter_app, map_app. fold (block_texts l) (tool_uses l).
  cbn [omap list_omap List.filter]. unfold ProviderAnthropic.normalize_block.
  destruct (type_is b (bs "text")) eqn:E1.
  - rewrite (type_is_other _ _ (bs "tool_use") E1) by done. cbn [map]. rewrite app_nil_r. exists r.
    destruct (get_string _ _); [by rewrite joined_snoc|by rewrite app_nil_r].
  - rewrite app_nil_r. destruct (type_is b (bs "thinking")) eqn:E2.
    + rewrite (type_is_other _ _ (bs "tool_use") E2) by done. cbn [map]. rewrite app_nil_r. by eexists.
    + destruct (type_is b (bs "tool_use")); [|cbn [map]; rewrite app_nil_r; by exists r].
      cbn [map]. rewrite call_array_snoc. by exists r.
Qed.

Lemma normalized raw content : content_of raw = Some content -> cJSON_IsArray content = true ->
  exists out choice m reasoning, anthropic_normalize_response cJSON_PrintUnformatted raw = Some out /\
    reply_choice out = Some choice /\ reply_message out = Some m /\
    m = canonical_message (joined (block_texts (cJSON_elements content))) reasoning
          (call_array (map tool_use_to_call (tool_uses (cJSON_elements content)))) /\
    get_string (Some choice) (bs "finish_reason") = c_str <$> (map_stop_reason <$> get_string (Some raw) (bs "stop_reason")) /\
    cJSON_GetObjectItemCaseSensitive out (bs "usage")
    = (u ← cJSON_GetObjectItemCaseSensitive raw (bs "usage");
       if cJSON_IsObject u then Some (canonical_usage (anthropic_prompt_tokens u) (usage_number u (bs "output_tokens"))
         (usage_number u (bs "cache_read_input_tokens")) (usage_number u (bs "cache_creation_input_tokens"))) else None) /\
    cJSON_GetObjectItemCaseSensitive out (bs "timings") = None.
Proof.
  intros Ec Ha. unfold anthropic_normalize_response. rewrite Ec. cbn [mbind option_bind]. rewrite Ha. cbn [negb].
  destruct (normalize_blocks (cJSON_elements content)) as [r ->].
  set (m := canonical_message _ _ _). set (fin := map_stop_reason <$> _).
  set (choice := add_opt (cJSON_AddItemToObject cJSON_CreateObject (bs "message") m) (bs "finish_reason") fin).
  assert (Em : cJSON_GetObjectItemCaseSensitive choice (bs "message") = Some m) by (subst choice; built_get; done).
  assert (Ef : get_string (Some choice) (bs "finish_reason") = c_str <$> fin).
  { unfold get_string. cbn [mbind option_bind]. subst choice. built_get. destruct fin; cbn; [apply string_create|done]. }
  clearbody choice. set (out0 := cJSON_AddItemToObject cJSON_CreateObject (bs "choices") _).
  assert (G : forall out, cJSON_GetObjectItemCaseSensitive out (bs "choices")
      = Some (cJSON_AddItemToArray cJSON_CreateArray choice) ->
    reply_choice out = Some choice /\ reply_message out = Some m).
  { intros out E. assert (E1 : reply_choice out = Some choice) by (unfold reply_choice; rewrite E; apply first_of_one).
    split; [done|]. unfold reply_message. by rewrite E1. }
  assert (Ho : cJSON_IsObject out0 = true) by (subst out0; is_built).
  assert (E0 : forall k, cJSON_GetObjectItemCaseSensitive out0 k
      = if beq k (bs "choices") then Some (cJSON_AddItemToArray cJSON_CreateArray choice) else None).
  { intros k. subst out0. rewrite get_add by is_built. by rewrite get_create. }
  clearbody out0. eexists _, choice, m, r. split; [reflexivity|].
  destruct (cJSON_GetObjectItemCaseSensitive raw (bs "usage")) as [u|]; cbn [mbind option_bind]; [destruct (cJSON_IsObject u)|].
  - destruct (G (cJSON_AddItemToObject out0 (bs "usage") (canonical_usage (anthropic_prompt_tokens u) (usage_number u (bs "output_tokens"))
         (usage_number u (bs "cache_read_input_tokens")) (usage_number u (bs "cache_creation_input_tokens")))))
      as [G1 G2]; [rewrite get_add, E0 by done; by lit|].
    split_and!; try done; rewrite get_add, E0 by done; by lit.
  - destruct (G out0) as [G1 G2]; [rewrite E0; by lit|]. split_and!; try done; rewrite E0; by lit.
  - destruct (G out0) as [G1 G2]; [rewrite E0; by lit|]. split_and!; try done; rewrite E0; by lit.
Qed.

(** ** The reply in the next request *)

(** A call whose input the JSON library prints and reads back. *)
Definition prints_back (b : cJSON) : Prop :=
  exists j t, cJSON_GetObjectItemCaseSensitive b (bs "input") = Some j /\ cJSON_IsObject j = true /\
    cJSON_PrintUnformatted j = Some t /\ no_nul t /\ cJSON_Parse t = Some j.

Lemma call_reads_back b : type_is b (bs "tool_use") = true -> prints_back b ->
  [call_item cJSON_Parse (tool_use_to_call b)] = block_items b.
Proof.
  intros Hb (j & t & Ej & Ho & Et & Hn & Ep). unfold block_items. rewrite Hb, Ej.
  unfold call_item, call_id, call_input, ProviderAnthropic.tool_use_to_call. rewrite Ej. cbn [mbind option_bind]. rewrite Et.
  cbn [from_option Datatypes.id].
  destruct (canonical_call_members (default [] (get_string (Some b) (bs "id"))) (default [] (get_string (Some b) (bs "name"))) t Hn)
    as (E1 & func & E2 & E3 & E4).
  rewrite E1, E2, E3, E4, !default_c_str. cbn [mbind option_bind from_option Datatypes.id]. by rewrite Ep, Ho.
Qed.

Lemma uses_read_back l : Forall prints_back (tool_uses l) ->
  map (call_item cJSON_Parse) (map tool_use_to_call (tool_uses l)) = flat_map block_items (tool_uses l).
Proof.
  intros Hp. assert (Hu : Forall (fun b => type_is b (bs "tool_use") = true) (tool_uses l)).
  { apply List.Forall_forall. intros b Hb. apply filter_In in Hb. by destruct Hb. }
  revert Hp Hu. induction (tool_uses l) as [|b k IH]; intros Hp Hu; [done|].
  inversion Hp; inversion Hu; subst. cbn [map flat_map]. rewrite <- call_reads_back by done. cbn [app]. f_equal. by apply IH.
Qed.

Lemma block_texts_no_nul l : Forall no_nul (block_texts l).
Proof.
  unfold block_texts. apply Forall_forall. intros t (b & _ & Ht)%list_elem_of_omap. destruct (type_is b _); [|done].
  apply c_str_value in Ht. rewrite <- Ht. apply c_str_no_nul.
Qed.

(** C17. The model hears its own words: a response, taken into the canonical
    form and sent back in the next request, says the same text and makes the
    same calls, with their ids, names and inputs. *)
Theorem anthropic_hears_itself raw content (Ec : content_of raw = Some content) (Ha : cJSON_IsArray content = true)
    (Hp : Forall prints_back (tool_uses (cJSON_elements content))) :
  exists out m, anthropic_normalize_response cJSON_PrintUnformatted raw = Some out /\ reply_message out = Some m /\
    well_formed m /\
    out_items (convert_message cJSON_Parse m)
    = map Said (text_leaf (joined (block_texts (cJSON_elements content))))
      ++ flat_map block_items (tool_uses (cJSON_elements content)).
Proof.
  destruct (normalized raw content Ec Ha) as (out & choice & m & r & E1 & _ & E2 & Em & _).
  exists out, m. split; [done|]. split; [done|].
  set (uses := tool_uses (cJSON_elements content)) in *. set (texts := block_texts (cJSON_elements content)) in *.
  destruct (canonical_members (joined texts) r (map tool_use_to_call uses)) as (M1 & M2 & M3).
  rewrite <- Em in M1, M2, M3.
  assert (Hn : no_nul (concat texts)) by apply concat_no_nul, block_texts_no_nul.
  assert (Hc : calls_of m = map tool_use_to_call uses).
  { unfold calls_of. rewrite M3. destruct (map tool_use_to_call uses) as [|c l]; [done|]. cbn [call_array].
    by destruct (array_from_elements (c :: l)) as [-> ->]. }
  assert (Hl : in_leaves (content_of m) = text_leaf (joined texts) /\ is_array (content_of m) = false).
  { rewrite M2. unfold joined. destruct texts as [|t l] eqn:Et; cbn [in_leaves is_array].
    - by rewrite null_not_array, string_null.
    - rewrite created_string_not_array, string_create. by rewrite c_str_id. }
  assert (Hw : well_formed m) by (intros _; split; [unfold role_is; by rewrite M1|apply Hl]).
  split; [done|]. rewrite (cv_items _ _ _ (convert_message_ok cJSON_Parse m Hw)), (proj1 Hl), Hc. f_equal.
  by apply uses_read_back.
Qed.

(** ** The reply as a stream *)

#[local] Instance anthropic_provider : Provider := anthropic_stream.

(** What the model says, in the pieces the server sends it in. *)
Inductive reply_block :=
| BText (pieces : list (list byte))
| BThinking (pieces : list (list byte))
| BTool (call name : list byte) (input : cJSON) (pieces : list (list byte)).

Record reply_usage := mk_reply_usage { ru_input : Z; ru_read : Z; ru_write : Z; ru_output : Z }.

Abbreviation typed t := (cJSON_AddStringToObject cJSON_CreateObject (bs "type") t).

(** *** As one message *)

Definition thinking_block (t : list byte) : cJSON := cJSON_AddStringToObject (typed (bs "thinking")) (bs "thinking") t.
Definition tool_use_block (call name : list byte) (input : cJSON) : cJSON :=
  cJSON_AddItemToObject
    (cJSON_AddStringToObject (cJSON_AddStringToObject (typed (bs "tool_use")) (bs "id") call) (bs "name") name)
    (bs "input") input.

Definition block_json (b : reply_block) : cJSON :=
  match b with
  | BText ps => text_block (concat ps)
  | BThinking ps => thinking_block (concat ps)
  | BTool call name input _ => tool_use_block call name input
  end.

Definition input_usage (u : reply_usage) : cJSON :=
  cJSON_AddItemToObject
    (cJSON_AddItemToObject
       (cJSON_AddItemToObject cJSON_CreateObject (bs "input_tokens") (cJSON_CreateNumber (ru_input u)))
       (bs "cache_read_input_tokens") (cJSON_CreateNumber (ru_read u)))
    (bs "cache_creation_input_tokens") (cJSON_CreateNumber (ru_write u)).
Definition with_output (o : cJSON) (u : reply_usage) : cJSON :=
  cJSON_AddItemToObject o (bs "output_tokens") (cJSON_CreateNumber (ru_output u)).

Definition message_json (bl : list reply_block) (stop : list byte) (u : reply_usage) : cJSON :=
  cJSON_AddItemToObject
    (cJSON_AddStringToObject
       (cJSON_AddItemToObject cJSON_CreateObject (bs "content") (array_from (map block_json bl)))
       (bs "stop_reason") stop)
    (bs "usage") (with_output (input_usage u) u).

(** *** As events *)

Definition start_json (u : reply_usage) : cJSON :=
  cJSON_AddItemToObject (typed (bs "message_start")) (bs "message")
    (cJSON_AddItemToObject cJSON_CreateObject (bs "usage") (input_usage u)).

Abbreviation at_index := (indexed (bs "index")).

Definition block_start_json (k : nat) (b : reply_block) : cJSON :=
  cJSON_AddItemToObject (at_index (bs "content_block_start") k) (bs "content_block")
    match b with
    | BText _ => text_block []
    | BThinking _ => thinking_block []
    | BTool call name _ _ => tool_use_block call name cJSON_CreateObject
    end.

Definition block_delta_json (k : nat) (b : reply_block) (piece : list byte) : cJSON :=
  cJSON_AddItemToObject (at_index (bs "content_block_delta") k) (bs "delta")
    match b with
    | BText _ => cJSON_AddStringToObject (typed (bs "text_delta")) (bs "text") piece
    | BThinking _ => cJSON_AddStringToObject (typed (bs "thinking_delta")) (bs "thinking") piece
    | BTool _ _ _ _ => cJSON_AddStringToObject (typed (bs "input_json_delta")) (bs "partial_json") piece
    end.

Definition pieces (b : reply_block) : list (list byte) :=
  match b with BText ps | BThinking ps | BTool _ _ _ ps => ps end.

Definition block_events (k : nat) (b : reply_block) : list cJSON :=
  block_start_json k b :: map (block_delta_json k b) (pieces b) ++ [at_index (bs "content_block_stop") k].

Definition end_json (stop : list byte) (u : reply_usage) : cJSON :=
  cJSON_AddItemToObject
    (cJSON_AddItemToObject (typed (bs "message_delta")) (bs "delta")
       (cJSON_AddStringToObject cJSON_CreateObject (bs "stop_reason") stop))
    (bs "usage") (with_output cJSON_CreateObject u).

Fixpoint blocks_events (k : nat) (bl : list reply_block) : list cJSON :=
  match bl with [] => [] | b :: bl => block_events k b ++ blocks_events (S k) bl end.

Definition events (bl : list reply_block) (stop : list byte) (u : reply_usage) : list cJSON :=
  start_json u :: blocks_events 0 bl ++ [end_json stop u; typed (bs "message_stop")].

(** The texts are C strings, and the pieces of a call's input are its text. *)
Definition block_ok (b : reply_block) : Prop :=
  Forall no_nul (pieces b) /\
  match b with
  | BTool call name input ps => no_nul call /\ no_nul name /\ cJSON_PrintUnformatted input = Some (concat ps)
  | _ => True
  end.

(** *** What an event does *)

Abbreviation step := (stream_event int_nan).

Lemma get_typed e t k v : cJSON_IsObject e = true -> cJSON_GetObjectItemCaseSensitive e (bs "type") = Some (cJSON_CreateString t) ->
  get_string (Some (cJSON_AddItemToObject e k v)) (bs "type") = Some (c_str t).
Proof.
  intros He Et. apply get_string_built. by rewrite get_add, Et.
Qed.

(** *** The events of a block *)

Lemma event_index ty k key v : usage_number (cJSON_AddItemToObject (at_index ty k) key v) (bs "index") = Z.of_nat k.
Proof. by apply event_number. Qed.

Lemma tool_use_members call name input : no_nul call -> no_nul name ->
  type_is (tool_use_block call name input) (bs "tool_use") = true /\
  get_string (Some (tool_use_block call name input)) (bs "id") = Some call /\
  get_string (Some (tool_use_block call name input)) (bs "name") = Some name /\
  cJSON_GetObjectItemCaseSensitive (tool_use_block call name input) (bs "input") = Some input.
Proof.
  intros Hc Hn. split.
  - rewrite (type_is_built _ (bs "tool_use")) by (done || (unfold tool_use_block; built_get; done)). done.
  - split; [|split; [|unfold tool_use_block; built_get; done]].
    + rewrite (get_string_built _ _ call) by (unfold tool_use_block; built_get; done). by rewrite c_str_id.
    + rewrite (get_string_built _ _ name) by (unfold tool_use_block; built_get; done). by rewrite c_str_id.
Qed.

Lemma start_translates k b st : block_ok b ->
  anthropic_normalize_stream_event (block_start_json k b) st
  = (match b with BTool call name _ _ => Some (event_json [start_frag k call name]) | _ => None end, st).
Proof.
  intros [_ Hb]. unfold anthropic_normalize_stream_event, block_start_json. rewrite event_type.
  change (c_str (bs "content_block_start")) with (bs "content_block_start"). cbn [from_option Datatypes.id]. lit.
  unfold block_start. rewrite event_member, event_index. lit. destruct b as [ps|ps|call name input ps].
  - rewrite (type_is_built _ (bs "text")) by (done || (unfold text_block; built_get; done)). by lit.
  - rewrite (type_is_built _ (bs "thinking")) by (done || (unfold thinking_block; built_get; done)). by lit.
  - destruct Hb as (Hc & Hn & _). destruct (tool_use_members call name cJSON_CreateObject Hc Hn) as (E1 & E2 & E3 & _).
    by rewrite E1, E2, E3.
Qed.

Lemma delta_type t key v : get_string (Some (cJSON_AddStringToObject (typed t) key v)) (bs "type") = Some (c_str t).
Proof.
  apply get_string_built. rewrite get_add_string by is_built. rewrite get_add_string by is_built. by rewrite get_create.
Qed.

Lemma delta_value t key v : beq key (bs "type") = false -> no_nul v ->
  get_string (Some (cJSON_AddStringToObject (typed t) key v)) key = Some v.
Proof.
  intros Hk Hv. rewrite (get_string_built _ _ v), c_str_id; [done|done|].
  rewrite get_add_string by is_built. rewrite get_add_string by is_built. by rewrite get_create, Hk, beq_refl.
Qed.

Lemma delta_translates k b piece st : no_nul piece ->
  anthropic_normalize_stream_event (block_delta_json k b piece) st
  = (Some match b with
          | BText _ => make_delta_chunk (bs "content") piece
          | BThinking _ => make_delta_chunk (bs "reasoning_content") piece
          | BTool _ _ _ _ => event_json [piece_frag k piece]
          end, st).
Proof.
  intros Hp. unfold anthropic_normalize_stream_event, block_delta_json. rewrite event_type.
  change (c_str (bs "content_block_delta")) with (bs "content_block_delta"). cbn [from_option Datatypes.id]. lit.
  unfold block_delta. rewrite event_index, event_member. lit. f_equal.
  destruct b; rewrite delta_type; [change (c_str (bs "text_delta")) with (bs "text_delta")|
    change (c_str (bs "thinking_delta")) with (bs "thinking_delta")|change (c_str (bs "input_json_delta")) with (bs "input_json_delta")];
    cbn [from_option Datatypes.id]; lit; by rewrite delta_value.
Qed.

(** The block as the canonical form has it. *)
Definition said (b : reply_block) : said_block :=
  match b with BText ps => SText ps | BThinking ps => SThinking ps | BTool call name _ ps => SCall call name ps end.

Abbreviation event := (fun e st => anthropic_normalize_stream_event e st).

Lemma deltas_translate k b ps st : Forall no_nul ps ->
  translates event st (map (block_delta_json k b) ps)
    (map (fun p => match b with BText _ => Words p | BThinking _ => Thought p | BTool _ _ _ _ => Piece (piece_frag k p) end) ps) st.
Proof.
  induction 1 as [|p ps Hp _ IH]; [constructor|]. cbn [map].
  eapply tr_some; [by apply event_quiet| | |exact IH]; [|rewrite delta_translates by done; by destruct b].
  destruct b; cbn; [done|done|by split_and!].
Qed.

Lemma block_translates k b st : block_ok b ->
  translates event st (block_events k b) (block_deltas k (said b)) st.
Proof.
  intros Hb. pose proof (deltas_translate k b (pieces b) st (proj1 Hb)) as Hd.
  assert (Hstop : translates event st [at_index (bs "content_block_stop") k] [] st).
  { eapply tr_none; [|..|constructor].
    - eapply no_error_message; [apply get_string_built; by rewrite indexed_members|done|by rewrite indexed_members].
    - unfold anthropic_normalize_stream_event. rewrite (get_string_built _ _ (bs "content_block_stop")) by (by rewrite indexed_members).
      change (c_str (bs "content_block_stop")) with (bs "content_block_stop"). cbn [from_option Datatypes.id]. by lit. }
  pose proof (translates_app _ _ _ _ _ _ _ _ Hd Hstop) as Hr. rewrite app_nil_r in Hr.
  pose proof (start_translates k b st Hb) as Es. unfold block_events.
  destruct b as [ps|ps|call name input ps]; cbn [said block_deltas pieces] in *.
  1,2: eapply tr_none; [by apply event_quiet|exact Es|exact Hr].
  eapply tr_some; [by apply event_quiet| |exact Es|exact Hr].
  destruct Hb as (_ & Hc & Hn & _). split_and!; [done|done|constructor].
Qed.

Lemma blocks_translate bl st : Forall block_ok bl -> forall k,
  translates event st (blocks_events k bl) (blocks_deltas k (map said bl)) st.
Proof.
  induction 1 as [|b bl Hb _ IH]; intros k; cbn [blocks_events map blocks_deltas]; [constructor|].
  eapply translates_app; [by apply block_translates|apply IH].
Qed.

(** *** The ends of the stream *)

(** What the first event leaves. *)
Definition known (u : reply_usage) : option anth_stream_state :=
  Some (mk_anth (ru_input u + ru_read u + ru_write u) (ru_read u) (ru_write u)).

Lemma message_start_translates u st : stream_error_message (start_json u) = None /\
  anthropic_normalize_stream_event (start_json u) st = (None, known u).
Proof.
  assert (E : forall k, cJSON_GetObjectItemCaseSensitive (start_json u) k =
    if beq k (bs "type") then Some (cJSON_CreateString (bs "message_start"))
    else if beq k (bs "message") then Some (cJSON_AddItemToObject cJSON_CreateObject (bs "usage") (input_usage u)) else None).
  { intros k. unfold start_json. repeat first [rewrite get_add by is_built|rewrite get_add_string by is_built|rewrite get_create].
    by destruct (beq k (bs "type")). }
  assert (Et : get_string (Some (start_json u)) (bs "type") = Some (bs "message_start"))
    by (rewrite (get_string_built _ _ (bs "message_start")); [done|by rewrite E]).
  split; [eapply no_error_message; [exact Et|done|by rewrite E]|].
  unfold anthropic_normalize_stream_event. rewrite Et. cbn [from_option Datatypes.id]. lit.
  unfold message_start. rewrite E. lit. cbn [mbind option_bind]. rewrite get_add by is_built. rewrite get_create. lit.
  assert (Hu : cJSON_IsObject (input_usage u) = true) by (unfold input_usage; is_built). rewrite Hu.
  assert (Ei : forall k n, (k, n) ∈ [(bs "input_tokens", ru_input u); (bs "cache_read_input_tokens", ru_read u);
      (bs "cache_creation_input_tokens", ru_write u)] -> usage_number (input_usage u) k = n).
  { intros k n Hk. unfold usage_number, input_usage, number_of.
    repeat (apply elem_of_cons in Hk as [[= -> ->]|Hk]; [built_get; cbn; by rewrite number_create|]). by apply elem_of_nil in Hk. }
  unfold anthropic_prompt_tokens.
  by rewrite (Ei _ (ru_input u)), (Ei _ (ru_read u)), (Ei _ (ru_write u)) by (rewrite !elem_of_cons; tauto).
Qed.

Definition end_choice (stop : list byte) : cJSON :=
  add_opt cJSON_CreateObject (bs "finish_reason") (Some (map_stop_reason (c_str stop))).

Lemma end_translates stop u : stream_error_message (end_json stop u) = None /\
  exists raw, anthropic_normalize_stream_event (end_json stop u) (known u) = (Some raw, known u) /\
    forall k, cJSON_GetObjectItemCaseSensitive raw k =
      if beq k (bs "choices") then Some (cJSON_AddItemToArray cJSON_CreateArray (end_choice stop))
      else if beq k (bs "usage") then Some (canonical_usage (ru_input u + ru_read u + ru_write u) (ru_output u) (ru_read u) (ru_write u))
      else None.
Proof.
  assert (E : forall k, cJSON_GetObjectItemCaseSensitive (end_json stop u) k =
    if beq k (bs "type") then Some (cJSON_CreateString (bs "message_delta"))
    else if beq k (bs "delta") then Some (cJSON_AddStringToObject cJSON_CreateObject (bs "stop_reason") stop)
    else if beq k (bs "usage") then Some (with_output cJSON_CreateObject u) else None).
  { intros k. unfold end_json. repeat first [rewrite get_add by is_built|rewrite get_add_string by is_built|rewrite get_create].
    by destruct (beq k (bs "type")), (beq k (bs "delta")). }
  assert (Et : get_string (Some (end_json stop u)) (bs "type") = Some (bs "message_delta"))
    by (rewrite (get_string_built _ _ (bs "message_delta")); [done|by rewrite E]).
  split; [eapply no_error_message; [exact Et|done|by rewrite E]|].
  unfold anthropic_normalize_stream_event. rewrite Et. cbn [from_option Datatypes.id]. lit.
  unfold known at 1 2. cbn [stream_state from_option Datatypes.id]. eexists. split; [reflexivity|]. intros k.
  unfold message_delta. rewrite !E. lit. cbn [mbind option_bind].
  unfold with_output at 1. rewrite get_add by is_built. rewrite get_create. lit. cbn [number_of mbind option_bind].
  rewrite number_create.
  rewrite (get_string_built _ _ stop) by (rewrite get_add_string by is_built; by rewrite get_create).
  rewrite get_add by is_built. rewrite get_add by is_built. rewrite get_create. by destruct (beq k (bs "choices")).
Qed.

Lemma stop_translates st : stream_error_message (typed (bs "message_stop")) = None /\
  anthropic_normalize_stream_event (typed (bs "message_stop")) st = (None, st).
Proof.
  assert (Et : get_string (Some (typed (bs "message_stop"))) (bs "type") = Some (bs "message_stop")).
  { rewrite (get_string_built _ _ (bs "message_stop")); [done|]. rewrite get_add_string by is_built. by rewrite get_create. }
  split; [eapply no_error_message; [exact Et|done|rewrite get_add_string by is_built; by rewrite get_create]|].
  unfold anthropic_normalize_stream_event. rewrite Et. cbn [from_option Datatypes.id]. by lit.
Qed.

(** What the agent has of the streamed reply. *)
Lemma take_stream msgs bl stop u : Forall block_ok bl -> exists s,
  foldM (step msgs) (events bl stop u) stream_start = Some s /\
  text s = concat (map block_words (map said bl)) /\ named (calls s) = flat_map block_calls (map said bl) /\
  Stream.finish_reason s = Some (c_str (map_stop_reason (c_str stop))) /\
  usage s = mk_usage (ru_input u + ru_read u + ru_write u) (ru_output u)
    (ru_input u + ru_read u + ru_write u + ru_output u) (ru_read u) (ru_write u) 0.
Proof.
  intros Hb. destruct (message_start_translates u None) as [M1 M2], (end_translates stop u) as (N1 & raw & N2 & Er),
    (stop_translates (known u)) as [P1 P2].
  assert (Hev : Stream.normalize_stream_event = Some (fun e st => anthropic_normalize_stream_event e st)) by done.
  assert (Ht : translates event None (start_json u :: blocks_events 0 bl) (blocks_deltas 0 (map said bl)) (known u))
    by (eapply tr_none; [exact M1|exact M2|by apply blocks_translate]).
  destruct (take_translated int_nan _ msgs _ _ _ _ Hev Ht stream_start [] []) as (s1 & E1 & H1); [by split|].
  destruct (blocks_deltas_said (map said bl) 0 []) as [W N]; [cbn; lia|].
  unfold events. rewrite app_comm_cons, foldM_app, E1. cbn [mbind option_bind foldM].
  rewrite (translated_event int_nan _ msgs _ _ Hev N1), (sf_scratch _ _ _ _ H1), N2.
  assert (Ef : get_string (Some (end_choice stop)) (bs "finish_reason") = Some (c_str (map_stop_reason (c_str stop))))
    by (apply get_string_built; unfold end_choice; by built_get).
  destruct (take_last int_nan msgs _ _ _ _ raw _ _ _ _ _ _ (so_far_again _ _ _ _ H1) (Er (bs "choices")) Ef
    ltac:(unfold end_choice; by built_get) (Er (bs "usage")) (Er (bs "timings"))) as (s2 & -> & T & C & F & U & _).
  cbn [mbind option_bind]. rewrite (translated_event int_nan _ msgs _ _ Hev P1).
  destruct (stop_translates (scratch s2)) as [_ ->]. cbn [mbind option_bind]. eexists. split; [reflexivity|].
  cbn [text calls Stream.finish_reason usage with_scratch]. rewrite T, C, F, U, W, N. done.
Qed.

(** *** The same reply as one message *)

Lemma message_members bl stop u k : cJSON_GetObjectItemCaseSensitive (message_json bl stop u) k =
  if beq k (bs "content") then Some (array_from (map block_json bl))
  else if beq k (bs "stop_reason") then Some (cJSON_CreateString stop)
  else if beq k (bs "usage") then Some (with_output (input_usage u) u) else None.
Proof.
  unfold message_json. repeat first [rewrite get_add by is_built|rewrite get_add_string by is_built|rewrite get_create].
  by destruct (beq k (bs "content")), (beq k (bs "stop_reason")).
Qed.

Lemma full_usage u : let m := with_output (input_usage u) u in
  cJSON_IsObject m = true /\ anthropic_prompt_tokens m = ru_input u + ru_read u + ru_write u /\
  usage_number m (bs "output_tokens") = ru_output u /\ usage_number m (bs "cache_read_input_tokens") = ru_read u /\
  usage_number m (bs "cache_creation_input_tokens") = ru_write u.
Proof.
  intros m. assert (E : forall k, cJSON_GetObjectItemCaseSensitive m k =
    if beq k (bs "input_tokens") then Some (cJSON_CreateNumber (ru_input u))
    else if beq k (bs "cache_read_input_tokens") then Some (cJSON_CreateNumber (ru_read u))
    else if beq k (bs "cache_creation_input_tokens") then Some (cJSON_CreateNumber (ru_write u))
    else if beq k (bs "output_tokens") then Some (cJSON_CreateNumber (ru_output u)) else None).
  { intros k. subst m. unfold with_output, input_usage. repeat first [rewrite get_add by is_built|rewrite get_create].
    by destruct (beq k (bs "input_tokens")), (beq k (bs "cache_read_input_tokens")), (beq k (bs "cache_creation_input_tokens")). }
  split; [subst m; unfold with_output, input_usage; is_built|]. unfold anthropic_prompt_tokens, usage_number, number_of.
  rewrite !E. lit. cbn [mbind option_bind]. by rewrite !number_create.
Qed.

Lemma block_types b : block_ok b ->
  (if type_is (block_json b) (bs "text") then get_string (Some (block_json b)) (bs "text") else None)
  = match b with BText ps => Some (concat ps) | _ => None end /\
  map tool_use_to_call (tool_uses [block_json b]) = map (fun c => call_json (fst c) (snd c)) (block_calls (said b)).
Proof.
  intros [Hp Hb]. unfold tool_uses. destruct b as [ps|ps|call name input ps]; cbn [block_json List.filter].
  - rewrite !(type_is_built (text_block (concat ps)) (bs "text")) by (done || (unfold text_block; built_get; done)). lit.
    split; [|done]. rewrite (get_string_built _ _ (concat ps)) by (unfold text_block; built_get; done).
    rewrite c_str_id; [done|by apply concat_no_nul].
  - rewrite !(type_is_built (thinking_block (concat ps)) (bs "thinking")) by (done || (unfold thinking_block; built_get; done)). by lit.
  - destruct Hb as (Hc & Hn & Ep). destruct (tool_use_members call name input Hc Hn) as (E1 & E2 & E3 & E4).
    rewrite E1, (type_is_other _ _ (bs "text") E1) by done. split; [done|]. cbn [map block_calls said].
    unfold ProviderAnthropic.tool_use_to_call. rewrite E2, E3, E4. cbn [mbind option_bind]. by rewrite Ep.
Qed.

Lemma block_texts_cons b l : block_texts (b :: l)
  = match (if type_is b (bs "text") then get_string (Some b) (bs "text") else None) with Some t => [t] | None => [] end
    ++ block_texts l.
Proof. unfold block_texts. cbn [omap list_omap]. by destruct (if type_is b (bs "text") then _ else _). Qed.

Lemma message_blocks bl : Forall block_ok bl ->
  concat (block_texts (map block_json bl)) = concat (map block_words (map said bl)) /\
  map tool_use_to_call (tool_uses (map block_json bl))
  = map (fun c => call_json (fst c) (snd c)) (flat_map block_calls (map said bl)).
Proof.
  induction 1 as [|b bl Hb _ [IH1 IH2]]; [done|]. destruct (block_types b Hb) as [T1 T2]. split.
  - cbn [map]. rewrite block_texts_cons, T1. destruct b; cbn [app concat block_words said map]; by rewrite IH1.
  - change (map block_json (b :: bl)) with ([block_json b] ++ map block_json bl). unfold tool_uses in *.
    rewrite List.filter_app, map_app, T2, IH2. cbn [flat_map map]. by rewrite map_app.
Qed.

End Replies.
