(* ===== verification/AnthropicRun.v ===== *)
(** The Anthropic dialect at work on a small conversation: the witnesses of
    its theorems. *)

From S2P Require Import Prelude Utf8 Image CJson History HistoryFacts HistoryJson Stream StreamFacts Provider.
From S2P Require Import Canonical CanonicalCalls CanonicalFacts ProviderAnthropic AnthropicFacts AnthropicRequests AnthropicReplies.
From stdpp Require Import list.
#[local] Open Scope Z_scope.
#[local] Existing Instance json_cjson.

Definition anth_demo_parse (t : list byte) : option (@cJSON json_cjson) := if beq t (bs "{}") then Some (JObject []) else None.
Definition anth_demo_print (j : @cJSON json_cjson) : option (list byte) := match j with JObject [] => Some (bs "{}") | _ => None end.

Definition anth_demo_llm : clm_llm := clm_llm_new CLM_PROVIDER_ANTHROPIC (bs "k") (bs "https://h/v1") (bs "m") false.

(** A question, a call, its result, a question that waited, an answer. *)
Definition anth_demo_history : clm_history :=
  let said r t := message_set_content (clm_message_create r) (Some t) None in
  [said CLM_ROLE_USER (bs "what is here?");
   mk_message CLM_ROLE_ASSISTANT None 0 false None None
     [mk_tool_call (Some (bs "c1")) (Some (bs "ls")) (Some (bs "{}"))] [];
   message_set_content (set_ids (clm_message_create CLM_ROLE_TOOL) (Some (bs "c1")) (Some (bs "ls"))) (Some (bs "a b")) None;
   said CLM_ROLE_USER (bs "hurry");
   said CLM_ROLE_ASSISTANT (bs "two files")].

Definition anth_demo_system : json := JObject [(bs "role", JString (bs "system")); (bs "content", JString (bs "be brief"))].
Definition anth_demo_array : json := default JNull (clm_history_to_json anth_demo_history None).
Definition anth_demo_messages : json := JArray (anth_demo_system :: cJSON_elements anth_demo_array).
Definition anth_demo_request : json :=
  default JNull (anthropic_build_request anth_demo_parse anth_demo_llm anth_demo_messages None true).

Ltac check_form := first
  [ intros _; split; vm_compute; reflexivity
  | let H := fresh in intros H; exfalso; apply H; vm_compute; reflexivity ].

Lemma anth_demo_well_formed : Forall well_formed (cJSON_elements anth_demo_messages).
Proof.
  apply List.Forall_forall. intros m Hm. vm_compute in Hm.
  repeat (destruct Hm as [<-|Hm]; [check_form|]). destruct Hm.
Qed.

Lemma anth_demo_texts : Forall (fun t => t <> []) (system_texts (cJSON_elements anth_demo_messages)).
Proof.
  assert (E : system_texts (cJSON_elements anth_demo_messages) = [bs "be brief"]) by (vm_compute; reflexivity).
  rewrite E. by repeat constructor.
Qed.

Lemma anth_demo_built : anthropic_build_request anth_demo_parse anth_demo_llm anth_demo_messages None true = Some anth_demo_request.
Proof. vm_compute. reflexivity. Qed.

(** The request is one of four messages: the result and the question that
    waited are one. *)
Example anth_demo_request_roles : map (fun m => get_string (Some m) (bs "role")) (messages_of anth_demo_request)
  = [Some (bs "user"); Some (bs "assistant"); Some (bs "user"); Some (bs "assistant")].
Proof. vm_compute. reflexivity. Qed.


Lemma anth_demo_orphan_free : orphan_free [] anth_demo_history.
Proof. cbn. repeat split. by left. Qed.

Lemma anth_demo_answered : answered anth_demo_history.
Proof. cbn. split; [by intros ? []|]. split; [by intros ? [<-|[]]|]. repeat split; by intros ? []. Qed.

Lemma anth_demo_no_images : calls_no_images anth_demo_history.
Proof. unfold calls_no_images. repeat constructor. Qed.

Lemma anth_demo_plain : Forall (fun m => exists p, plain_content m None = Some p) anth_demo_history.
Proof. repeat (constructor; [eexists; vm_compute; reflexivity|]). constructor. Qed.

Lemma anth_demo_system_ok : Forall (fun m => role_is m (bs "system") = true /\ well_formed m) [anth_demo_system].
Proof. constructor; [|constructor]. split; [reflexivity|]. check_form. Qed.

Lemma anthropic_calls_are_answered_witness :
  orphan_free [] anth_demo_history /\ answered anth_demo_history /\ wire_paired [] (messages_of anth_demo_request).
Proof.
  split; [exact anth_demo_orphan_free|]. split; [exact anth_demo_answered|].
  exact (@anthropic_calls_are_answered json_cjson json_laws anth_demo_parse anth_demo_llm anth_demo_history None anth_demo_array [anth_demo_system]
    anth_demo_messages None true anth_demo_request anth_demo_orphan_free anth_demo_answered anth_demo_no_images anth_demo_plain eq_refl anth_demo_system_ok
    eq_refl anth_demo_built).
Defined.

Lemma anthropic_breakpoints_witness : breakpoints anth_demo_request = 2%nat /\ (breakpoints anth_demo_request <= 2)%nat.
Proof.
  exact (@anthropic_breakpoints json_cjson json_laws anth_demo_parse anth_demo_llm anth_demo_messages None true anth_demo_request
    anth_demo_well_formed anth_demo_texts anth_demo_built).
Defined.

(** A reply: thinking, a text in two pieces, a call in two. *)
Definition anth_demo_reply : list reply_block :=
  [BThinking [bs "hm"]; BText [bs "I "; bs "look"]; BTool (bs "c2") (bs "cat") (JObject []) [bs "{"; bs "}"]].
Definition anth_demo_usage : reply_usage := mk_reply_usage 10 5 1 7.
Definition anth_demo_raw : json := message_json anth_demo_reply (bs "tool_use") anth_demo_usage.

Lemma anth_demo_reply_ok : Forall (block_ok anth_demo_print) anth_demo_reply.
Proof.
  repeat (constructor; [split; [repeat (constructor; [repeat constructor; discriminate|]); constructor|]|]); try constructor;
    try done; repeat constructor; discriminate.
Qed.

Lemma anth_demo_prints_back : Forall (prints_back anth_demo_parse anth_demo_print) (tool_uses (cJSON_elements (array_from (map block_json anth_demo_reply)))).
Proof.
  assert (E : tool_uses (cJSON_elements (array_from (map block_json anth_demo_reply))) = [block_json (BTool (bs "c2") (bs "cat") (JObject []) [])])
    by (vm_compute; reflexivity).
  rewrite E. constructor; [|constructor]. exists (JObject []), (bs "{}"). split_and!; try (vm_compute; reflexivity).
  repeat constructor; discriminate.
Qed.

Lemma anthropic_hears_itself_witness : exists out m,
  anthropic_normalize_response anth_demo_print anth_demo_raw = Some out /\ reply_message out = Some m /\ well_formed m /\
  out_items (convert_message anth_demo_parse m)
  = [Said (LText (bs "I look")); Use (bs "c2") (bs "cat") (JObject [])].
Proof.
  exact (@anthropic_hears_itself json_cjson json_laws anth_demo_parse anth_demo_print anth_demo_raw
    (array_from (map block_json anth_demo_reply)) eq_refl eq_refl anth_demo_prints_back).
Defined.

