(* ===== verification/ProviderResponses.v ===== *)
(** The OpenAI Responses dialect ([src/libclm/provider_responses.c]): a
    request in the canonical form becomes one of the Responses API, whose
    input is a flat list of items; a response or a stream event of that API
    becomes a canonical one. As in [ProviderAnthropic], a tree the code
    changes in place is returned changed and allocation failures are not
    modelled; the file's own copies of the canonical form's builders are
    those of [Canonical]. *)

From S2P Require Import Prelude CJson Stream Provider Canonical.
From stdpp Require Import list.
#[local] Open Scope Z_scope.

Definition CLM_RESPONSES_MAX_OUTPUT_TOKENS : Z := 64000.

Section Responses.
Context `{J : CJson}.

(** ** Requests *)

Definition tool_call_to_function_call_item (tc : cJSON) : cJSON :=
  let item := cJSON_AddStringToObject cJSON_CreateObject (bs "type") (bs "function_call") in
  let item := cJSON_AddStringToObject item (bs "call_id") (default [] (get_string (Some tc) (bs "id"))) in
  let func := cJSON_GetObjectItemCaseSensitive tc (bs "function") in
  let item := cJSON_AddStringToObject item (bs "name") (default [] (get_string func (bs "name"))) in
  cJSON_AddStringToObject item (bs "arguments") (default (bs "{}") (get_string func (bs "arguments"))).

(** The part as the API spells it, if it is one of the two kinds. *)
Definition convert_part (p : cJSON) : option cJSON :=
  let part type key val :=
    v ← val; Some (cJSON_AddStringToObject (cJSON_AddStringToObject cJSON_CreateObject (bs "type") type) key v) in
  if type_is p (bs "text") then part (bs "input_text") (bs "text") (get_string (Some p) (bs "text"))
  else if type_is p (bs "image_url") then
    part (bs "input_image") (bs "image_url") (get_string (cJSON_GetObjectItemCaseSensitive p (bs "image_url")) (bs "url"))
  else None.

Definition convert_parts (parts : cJSON) : cJSON :=
  fold_left (fun out p => match convert_part p with Some item => cJSON_AddItemToArray out item | None => out end)
    (cJSON_elements parts) cJSON_CreateArray.

(** [content] may be NULL. *)
Definition convert_content (content : option cJSON) : cJSON :=
  match content with
  | Some c => if cJSON_IsArray c then convert_parts c else cJSON_CreateString (default [] (cJSON_GetStringValue c))
  | None => cJSON_CreateString []
  end.

Definition role_of (m : cJSON) : list byte := default [] (get_string (Some m) (bs "role")).

(** The parts of a system message: a string is one. *)
Definition system_parts (content : option cJSON) : cJSON :=
  let parts := convert_content content in
  match cJSON_GetStringValue parts with
  | Some t =>
      cJSON_AddItemToArray cJSON_CreateArray
        (cJSON_AddStringToObject (cJSON_AddStringToObject cJSON_CreateObject (bs "type") (bs "input_text")) (bs "text") t)
  | None => parts
  end.

Definition breakpoint : cJSON := cJSON_AddStringToObject cJSON_CreateObject (bs "mode") (bs "explicit").

Definition cached_system_item (content : option cJSON) : cJSON :=
  let parts := system_parts content in
  let parts := match last (cJSON_elements parts) with
               | Some p => cJSON_update_elements parts
                             (removelast (cJSON_elements parts)
                              ++ [cJSON_AddItemToObject p (bs "prompt_cache_breakpoint") breakpoint])
               | None => parts
               end in
  cJSON_AddItemToObject (cJSON_AddStringToObject cJSON_CreateObject (bs "role") (bs "developer")) (bs "content") parts.

(** The items of one message. *)
Definition convert_message (m : cJSON) : list cJSON :=
  let content := cJSON_GetObjectItemCaseSensitive m (bs "content") in
  if role_is m (bs "tool") then
    let item := cJSON_AddStringToObject cJSON_CreateObject (bs "type") (bs "function_call_output") in
    let item := cJSON_AddStringToObject item (bs "call_id") (default [] (get_string (Some m) (bs "tool_call_id"))) in
    [cJSON_AddItemToObject item (bs "output") (convert_content content)]
  else
    let tool_calls := cJSON_GetObjectItemCaseSensitive m (bs "tool_calls") in
    match (if role_is m (bs "assistant") && is_array tool_calls then each tool_calls else []) with
    | [] => [cJSON_AddItemToObject (cJSON_AddStringToObject cJSON_CreateObject (bs "role") (role_of m))
               (bs "content") (convert_content content)]
    | calls => map tool_call_to_function_call_item calls
    end.

(** The last message of the leading run of system messages, from [sys_end]. *)
Fixpoint system_run (l : list cJSON) (sys_end : Z) : Z :=
  match l with
  | m :: l => if beq (role_of m) (bs "system") then system_run l (sys_end + 1) else sys_end
  | [] => sys_end
  end.

Fixpoint convert_from (sys_end i : Z) (l : list cJSON) (out : cJSON) : cJSON :=
  match l with
  | [] => out
  | m :: l =>
      convert_from sys_end (i + 1) l
        (if i =? sys_end
         then cJSON_AddItemToArray out (cached_system_item (cJSON_GetObjectItemCaseSensitive m (bs "content")))
         else fold_left cJSON_AddItemToArray (convert_message m) out)
  end.

Definition convert_messages (messages : cJSON) (cache_system : bool) : cJSON :=
  let l := cJSON_elements messages in
  convert_from (if cache_system then system_run l (-1) else -1) 0 l cJSON_CreateArray.

Definition convert_tool (out t : cJSON) : cJSON :=
  match cJSON_GetObjectItemCaseSensitive t (bs "function") with
  | None => out
  | Some func =>
      let out_t := cJSON_AddStringToObject cJSON_CreateObject (bs "type") (bs "function") in
      let out_t := cJSON_AddStringToObject out_t (bs "name") (default [] (get_string (Some func) (bs "name"))) in
      let out_t := cJSON_AddStringToObject out_t (bs "description")
                     (default [] (get_string (Some func) (bs "description"))) in
      cJSON_AddItemToArray out
        (cJSON_AddItemToObject out_t (bs "parameters")
           (default cJSON_CreateObject (cJSON_GetObjectItemCaseSensitive func (bs "parameters"))))
  end.

Definition convert_tools (tools : cJSON) : cJSON := fold_left convert_tool (cJSON_elements tools) cJSON_CreateArray.

Definition responses_build_request (llm : clm_llm) (messages : cJSON) (tools : option cJSON) (stream : bool)
  : option cJSON :=
  let req := cJSON_AddStringToObject cJSON_CreateObject (bs "model") (model llm) in
  let req := cJSON_AddItemToObject req (bs "input") (convert_messages messages (cache_system llm)) in
  let req := cJSON_AddItemToObject req (bs "stream") (cJSON_CreateBool stream) in
  let req := cJSON_AddItemToObject req (bs "max_output_tokens") (cJSON_CreateNumber CLM_RESPONSES_MAX_OUTPUT_TOKENS) in
  let req := add_opt req (bs "previous_response_id") (prev_response_id llm) in
  let req := match effort llm with
             | Some e => cJSON_AddItemToObject req (bs "reasoning")
                           (cJSON_AddStringToObject cJSON_CreateObject (bs "effort") e)
             | None => req
             end in
  Some match convert_tools <$> tools with
       | Some rtools =>
           match cJSON_elements rtools with
           | [] => req
           | _ =>
               let req := cJSON_AddItemToObject req (bs "tools") rtools in
               let req := if disable_parallel_tool_calls llm
                          then cJSON_AddItemToObject req (bs "parallel_tool_calls") (cJSON_CreateBool false)
                          else req in
               cJSON_AddStringToObject req (bs "tool_choice") (bs "auto")
           end
       | None => req
       end.

(** ** The response *)

(** [response] may be NULL. *)
Definition map_status (response : option cJSON) (status : option (list byte)) (has_tool_calls : bool)
  : option (list byte) :=
  if has_tool_calls then Some (bs "tool_calls")
  else match status with
  | None => None
  | Some st =>
      if beq st (bs "completed") then Some (bs "stop")
      else if beq st (bs "incomplete") then
        let why := det ← (r ← response; cJSON_GetObjectItemCaseSensitive r (bs "incomplete_details"));
                   if cJSON_IsObject det then get_string (Some det) (bs "reason") else None in
        match why with
        | Some w => if beq w (bs "content_filter") then Some (bs "content_filter") else Some (bs "length")
        | None => Some (bs "length")
        end
      else if beq st (bs "failed") || beq st (bs "cancelled") then Some (bs "error")
      else Some st
  end.

Definition carry_error (out response : cJSON) : cJSON :=
  match err ← cJSON_GetObjectItemCaseSensitive response (bs "error");
        if cJSON_IsObject err then get_string (Some err) (bs "message") else None with
  | Some msg => cJSON_AddItemToObject out (bs "error") (cJSON_AddStringToObject cJSON_CreateObject (bs "message") msg)
  | None => out
  end.

Definition int_member (o : cJSON) (k : list byte) : Z := default 0 (number_of (cJSON_GetObjectItemCaseSensitive o k)).

Definition responses_input_detail (usage : cJSON) (field : list byte) : Z :=
  match cJSON_GetObjectItemCaseSensitive usage (bs "input_tokens_details") with
  | Some d => if cJSON_IsObject d then int_member d field else 0
  | None => 0
  end.

Definition add_usage (out : cJSON) (jusage : option cJSON) : cJSON :=
  match jusage with
  | Some u =>
      if cJSON_IsObject u then
        cJSON_AddItemToObject out (bs "usage")
          (canonical_usage (int_member u (bs "input_tokens")) (int_member u (bs "output_tokens"))
             (responses_input_detail u (bs "cached_tokens")) (responses_input_detail u (bs "cache_write_tokens")))
      else out
  | None => out
  end.

(** The texts of a message item. *)
Definition append_message_part (buf : option (list byte)) (c : cJSON) : option (list byte) :=
  if type_is c (bs "output_text") then append_opt buf (get_string (Some c) (bs "text")) else buf.

Definition append_message (buf : option (list byte)) (item : cJSON) : option (list byte) :=
  let content := cJSON_GetObjectItemCaseSensitive item (bs "content") in
  if is_array content then fold_left append_message_part (each content) buf else buf.

(** The summary, then the content, of a reasoning item. *)
Definition append_reasoning (buf : option (list byte)) (item : cJSON) : option (list byte) :=
  fold_left (fun buf key =>
      fold_left (fun buf part => append_opt buf (get_string (Some part) (bs "text")))
        (each (cJSON_GetObjectItemCaseSensitive item key)) buf)
    [bs "summary"; bs "content"] buf.

Definition function_call_to_call (item : cJSON) : cJSON :=
  canonical_call (default [] (get_string (Some item) (bs "call_id"))) (default [] (get_string (Some item) (bs "name")))
    (default (bs "{}") (get_string (Some item) (bs "arguments"))).

(** The loop's state: [text_buf], [reasoning_buf], [tool_calls]. *)
Definition normalize_item (st : option (list byte) * option (list byte) * option cJSON) (item : cJSON)
  : option (list byte) * option (list byte) * option cJSON :=
  let '(text_buf, reasoning_buf, calls) := st in
  if type_is item (bs "message") then (append_message text_buf item, reasoning_buf, calls)
  else if type_is item (bs "reasoning") then (text_buf, append_reasoning reasoning_buf item, calls)
  else if type_is item (bs "function_call") then
    (text_buf, reasoning_buf, Some (cJSON_AddItemToArray (default cJSON_CreateArray calls) (function_call_to_call item)))
  else st.

(** The end that a response and the last event of a stream share: the id, the
    reason and, of a failure, the message. [response] may be NULL. *)
Definition close_with (choice0 : cJSON) (response : option cJSON) (has_tool_calls : bool) : cJSON :=
  let mapped := map_status response (get_string response (bs "status")) has_tool_calls in
  let out := cJSON_AddItemToObject cJSON_CreateObject (bs "choices")
               (cJSON_AddItemToArray cJSON_CreateArray (add_opt choice0 (bs "finish_reason") mapped)) in
  let out := add_opt out (bs "provider_response_id") (get_string response (bs "id")) in
  match mapped, response with
  | Some m, Some r => if beq m (bs "error") then carry_error out r else out
  | _, _ => out
  end.

Definition responses_normalize_response (raw : cJSON) : option cJSON :=
  output ← cJSON_GetObjectItemCaseSensitive raw (bs "output");
  if negb (cJSON_IsArray output) then None
  else
    let '(text_buf, reasoning_buf, calls) := fold_left normalize_item (cJSON_elements output) (None, None, None) in
    let choice0 := cJSON_AddItemToObject cJSON_CreateObject (bs "message")
                     (canonical_message text_buf reasoning_buf calls) in
    let out := close_with choice0 (Some raw) (bool_decide (is_Some calls)) in
    Some (add_usage out (cJSON_GetObjectItemCaseSensitive raw (bs "usage"))).

(** ** The stream *)

Record resp_stream_state := mk_resp { saw_tool_call : bool }.

(** [stream_state]: NULL is replaced by zeroes. *)
Definition stream_state (state : option resp_stream_state) : resp_stream_state := default (mk_resp false) state.

Definition item_added (raw : cJSON) (state : option resp_stream_state) : option cJSON * option resp_stream_state :=
  match cJSON_GetObjectItemCaseSensitive raw (bs "item") with
  | Some item =>
      if type_is item (bs "function_call") then
        (Some (make_tool_delta_chunk (int_member raw (bs "output_index"))
                 (Some (default [] (get_string (Some item) (bs "call_id"))))
                 (Some (default [] (get_string (Some item) (bs "name")))) None),
         Some (mk_resp true))
      else (None, state)
  | None => (None, state)
  end.

Definition response_end (raw : cJSON) (st : resp_stream_state) : cJSON :=
  let response := cJSON_GetObjectItemCaseSensitive raw (bs "response") in
  add_usage (close_with cJSON_CreateObject response (saw_tool_call st))
    (r ← response; cJSON_GetObjectItemCaseSensitive r (bs "usage")).

Definition responses_normalize_stream_event (raw : cJSON) (state : option resp_stream_state)
  : option cJSON * option resp_stream_state :=
  let type := default [] (get_string (Some raw) (bs "type")) in
  let delta := default [] (get_string (Some raw) (bs "delta")) in
  if beq type (bs "response.output_text.delta") then (Some (make_delta_chunk (bs "content") delta), state)
  else if beq type (bs "response.reasoning_summary_text.delta") || beq type (bs "response.reasoning_text.delta") then
    (Some (make_delta_chunk (bs "reasoning_content") delta), state)
  else if beq type (bs "response.output_item.added") then item_added raw state
  else if beq type (bs "response.function_call_arguments.delta") then
    (Some (make_tool_delta_chunk (int_member raw (bs "output_index")) None None (Some delta)), state)
  else if beq type (bs "response.completed") || beq type (bs "response.incomplete") || beq type (bs "response.failed") then
    (Some (response_end raw (stream_state state)), Some (stream_state state))
  else (None, state).

Definition responses_forbid_tool_calls (req : cJSON) : cJSON :=
  cJSON_AddStringToObject (cJSON_DeleteItemFromObjectCaseSensitive req (bs "tool_choice")) (bs "tool_choice") (bs "none").

(** [clm_provider_ops_responses] *)
Definition clm_provider_ops_responses : ProviderOps := {|
  build_request := responses_build_request;
  normalize_response := Some responses_normalize_response;
  forbid_tool_calls := Some responses_forbid_tool_calls
|}.

Definition responses_stream : Provider := {|
  pstate := option resp_stream_state; pstate_null := None;
  normalize_stream_event := Some responses_normalize_stream_event
|}.
End Responses.
