(* ===== verification/ResponsesFacts.v ===== *)
(** What the Responses dialect promises about a request: its input says what
    the conversation says, one cache breakpoint at most is set, and every
    call is followed by its output. *)

From S2P Require Import Prelude Utf8 Image CJson History HistoryFacts HistoryJson.
From S2P Require Import Stream Provider Canonical CanonicalCalls ProviderResponses.
From stdpp Require Import list.
#[local] Open Scope Z_scope.

Section Requests.
Context `{L : CJsonLaws}.

Abbreviation content_of m := (cJSON_GetObjectItemCaseSensitive m (bs "content")).

(** ** What a conversation says *)

Inductive part := PText (t : list byte) | PImage (url : list byte).
Inductive item :=
| Message (role : list byte) (ps : list part)
| Call (id name args : list byte)
| Output (id : list byte) (ps : list part).

Definition text_part (t : list byte) : list part := match t with [] => [] | _ => [PText t] end.
Definition image_part (url : option (list byte)) : list part := match url with Some u => [PImage u] | None => [] end.

(** The parts of a content, with [f] for one part. *)
Definition parts_by (f : cJSON -> list part) (content : option cJSON) : list part :=
  match content with
  | Some c => if cJSON_IsArray c then flat_map f (cJSON_elements c) else text_part (default [] (cJSON_GetStringValue c))
  | None => []
  end.

(** The developer's side is the system's. *)
Definition side (role : list byte) : list byte := if beq role (bs "developer") then bs "system" else role.

(** *** In the canonical form *)

Definition in_part (p : cJSON) : list part :=
  if type_is p (bs "text") then text_part (default [] (get_string (Some p) (bs "text")))
  else if type_is p (bs "image_url") then image_part (get_string (cJSON_GetObjectItemCaseSensitive p (bs "image_url")) (bs "url"))
  else [].
Definition in_parts := parts_by in_part.

Definition in_call (tc : cJSON) : item :=
  let func := cJSON_GetObjectItemCaseSensitive tc (bs "function") in
  Call (call_id tc) (default [] (get_string func (bs "name"))) (default (bs "{}") (get_string func (bs "arguments"))).

(** A message with calls says the calls: its text has no place in the API. *)
Definition in_items (m : cJSON) : list item :=
  if role_is m (bs "tool") then [Output (answered_id m) (in_parts (content_of m))]
  else match (if role_is m (bs "assistant") then calls_of m else []) with
       | [] => [Message (side (role_of m)) (in_parts (content_of m))]
       | cs => map in_call cs
       end.

(** *** In the API's form *)

Definition out_part (p : cJSON) : list part :=
  if type_is p (bs "input_text") then text_part (default [] (get_string (Some p) (bs "text")))
  else if type_is p (bs "input_image") then image_part (get_string (Some p) (bs "image_url"))
  else [].
Definition out_parts := parts_by out_part.

Definition out_item (j : cJSON) : item :=
  let str k := default [] (get_string (Some j) k) in
  if type_is j (bs "function_call") then Call (str (bs "call_id")) (str (bs "name")) (str (bs "arguments"))
  else if type_is j (bs "function_call_output") then
    Output (str (bs "call_id")) (out_parts (cJSON_GetObjectItemCaseSensitive j (bs "output")))
  else Message (side (str (bs "role"))) (out_parts (content_of j)).

Definition input_of (req : cJSON) : list cJSON := each (cJSON_GetObjectItemCaseSensitive req (bs "input")).

(** ** The parts *)

(** A part as the dialect builds it. *)
Definition built_part (p : cJSON) : Prop :=
  cJSON_IsObject p = true /\ cJSON_GetObjectItemCaseSensitive p (bs "prompt_cache_breakpoint") = None.

Lemma part_of_two type key val : beq key (bs "type") = false -> beq (bs "prompt_cache_breakpoint") key = false ->
  let p := cJSON_AddStringToObject (cJSON_AddStringToObject cJSON_CreateObject (bs "type") type) key val in
  built_part p /\ get_string (Some p) (bs "type") = Some (c_str type) /\ get_string (Some p) key = Some (c_str val).
Proof.
  intros Hk Hb p. assert (E : forall k, cJSON_GetObjectItemCaseSensitive p k =
    if beq k (bs "type") then Some (cJSON_CreateString type) else if beq k key then Some (cJSON_CreateString val) else None).
  { intros k. subst p. rewrite get_add_string, get_add_string by is_built. rewrite get_create. by destruct (beq k (bs "type")). }
  split; [split; [subst p; is_built|rewrite E; lit; by rewrite Hb]|].
  split; apply get_string_built; rewrite E; [by lit|by rewrite Hk, beq_refl].
Qed.

Lemma convert_part_says p : match convert_part p with
                            | Some x => built_part x /\ out_part x = in_part p
                            | None => in_part p = [] end.
Proof.
  unfold convert_part, in_part, out_part. destruct (type_is p (bs "text")).
  - destruct (get_string (Some p) (bs "text")) as [t|] eqn:Et; cbn [mbind option_bind]; [|done].
    destruct (part_of_two (bs "input_text") (bs "text") t eq_refl eq_refl) as (B & T & V). split; [done|].
    unfold type_is. rewrite T, V. change (c_str (bs "input_text")) with (bs "input_text"). lit.
    cbn. by rewrite (c_str_value _ _ _ Et).
  - destruct (type_is p (bs "image_url")); [|done].
    destruct (get_string _ (bs "url")) as [u|] eqn:Eu; cbn [mbind option_bind]; [|done].
    destruct (part_of_two (bs "input_image") (bs "image_url") u eq_refl eq_refl) as (B & T & V). split; [done|].
    unfold type_is. rewrite T, V. change (c_str (bs "input_image")) with (bs "input_image"). lit.
    cbn. by rewrite (c_str_value _ _ _ Eu).
Qed.

Lemma convert_parts_elements parts : let a := convert_parts parts in
  cJSON_IsArray a = true /\ Forall built_part (cJSON_elements a) /\
  flat_map out_part (cJSON_elements a) = flat_map in_part (cJSON_elements parts).
Proof.
  intros a. assert (Hf : forall l acc, cJSON_IsArray acc = true -> Forall built_part (cJSON_elements acc) ->
    let a := fold_left (fun out p => match convert_part p with Some item => cJSON_AddItemToArray out item | None => out end) l acc in
    cJSON_IsArray a = true /\ Forall built_part (cJSON_elements a) /\
    flat_map out_part (cJSON_elements a) = flat_map out_part (cJSON_elements acc) ++ flat_map in_part l).
  { induction l as [|p l IH]; intros acc Ha Hb; cbn [fold_left flat_map]; [by rewrite app_nil_r|].
    pose proof (convert_part_says p) as Hp. destruct (convert_part p) as [x|].
    - destruct Hp as [Hx Ex]. destruct (IH (cJSON_AddItemToArray acc x)) as (I1 & I2 & I3).
      + by rewrite isarray_add.
      + rewrite elements_add by done. apply Forall_app. split; [done|by constructor].
      + split_and!; [done|done|]. rewrite I3, elements_add, flat_map_app by done. cbn. by rewrite app_nil_r, Ex, <- app_assoc.
    - rewrite Hp. by apply IH. }
  destruct (Hf (cJSON_elements parts) cJSON_CreateArray isarray_create) as (H1 & H2 & H3); [by rewrite elements_create; constructor|].
  split_and!; [done|done|]. cbv zeta in H3. rewrite elements_create in H3. exact H3.
Qed.

Lemma convert_content_says content : out_parts (Some (convert_content content)) = in_parts content.
Proof.
  unfold convert_content, out_parts, in_parts, parts_by. destruct content as [c|]; [|by rewrite created_string_not_array, string_create].
  destruct (cJSON_IsArray c).
  - by destruct (convert_parts_elements c) as (-> & _ & ->).
  - rewrite created_string_not_array, string_create. destruct (cJSON_GetStringValue c) as [s|] eqn:Es; [|done].
    cbn. by rewrite (string_value _ _ Es).
Qed.

(** ** The cached system message *)

Lemma system_parts_says content : let a := system_parts content in
  cJSON_IsArray a = true /\ Forall built_part (cJSON_elements a) /\ flat_map out_part (cJSON_elements a) = in_parts content.
Proof.
  unfold system_parts. pose proof (convert_content_says content) as Hs. destruct (cJSON_IsArray (convert_content content)) eqn:Ea.
  - rewrite string_array by done. unfold convert_content in *. destruct content as [c|]; [|by rewrite created_string_not_array in Ea].
    unfold in_parts, parts_by. destruct (cJSON_IsArray c); [apply convert_parts_elements|by rewrite created_string_not_array in Ea].
  - assert (Ec : exists s, convert_content content = cJSON_CreateString s).
    { unfold convert_content in *. destruct content as [c|]; [|by eexists]. destruct (cJSON_IsArray c); [|by eexists].
      by rewrite (proj1 (convert_parts_elements c)) in Ea. }
    destruct Ec as [s Ec]. rewrite Ec in *. rewrite string_create.
    destruct (part_of_two (bs "input_text") (bs "text") (c_str s) eq_refl eq_refl) as (B & T & V).
    rewrite isarray_add, elements_add, elements_create by apply isarray_create. split_and!; [apply isarray_create|constructor; [exact B|constructor]|].
    rewrite <- Hs. unfold out_parts, parts_by. rewrite created_string_not_array, string_create. cbn [app flat_map].
    rewrite app_nil_r. unfold out_part, type_is. rewrite T, V. change (c_str (bs "input_text")) with (bs "input_text"). lit.
    cbn. by rewrite c_str_twice.
Qed.

(** How many parts of a content are marked. *)
Definition marked (p : cJSON) : bool := bool_decide (is_Some (cJSON_GetObjectItemCaseSensitive p (bs "prompt_cache_breakpoint"))).
Definition marks (content : option cJSON) : nat :=
  if is_array content then length (List.filter marked (each content)) else 0%nat.

Lemma built_unmarked l : Forall built_part l -> List.filter marked l = [].
Proof. induction 1 as [|p l [_ Hp] _ IH]; [done|]. cbn. unfold marked at 1. by rewrite Hp. Qed.

Lemma breakpoint_says p : cJSON_IsObject p = true ->
  out_part (cJSON_AddItemToObject p (bs "prompt_cache_breakpoint") breakpoint) = out_part p.
Proof.
  intros Hp. unfold out_part, type_is, get_string. cbn [mbind option_bind]. rewrite !get_add by done. lit.
  by destruct (cJSON_GetObjectItemCaseSensitive p (bs "type")), (cJSON_GetObjectItemCaseSensitive p (bs "text")),
    (cJSON_GetObjectItemCaseSensitive p (bs "image_url")).
Qed.

Lemma cached_system_says content : exists a,
  content_of (cached_system_item content) = Some a /\ out_parts (Some a) = in_parts content /\ (marks (Some a) <= 1)%nat /\
  out_item (cached_system_item content) = Message (bs "system") (in_parts content) /\
  cJSON_GetObjectItemCaseSensitive (cached_system_item content) (bs "output") = None.
Proof.
  destruct (system_parts_says content) as (A & B & S). unfold cached_system_item. set (parts := match last _ with Some p => _ | None => _ end).
  assert (HP : cJSON_IsArray parts = true /\ flat_map out_part (cJSON_elements parts) = in_parts content /\ (marks (Some parts) <= 1)%nat).
  { unfold parts, marks, is_array. cbn [each]. destruct (last (cJSON_elements (system_parts content))) as [p|] eqn:El.
    - apply last_Some in El as [l El]. rewrite El in *. rewrite isarray_update, elements_update, removelast_last by done.
      apply Forall_app in B as [Bl Bp]. inversion Bp as [|? ? [Hp _] _]; subst. rewrite A, List.filter_app, (built_unmarked l Bl).
      rewrite <- S, !flat_map_app. cbn [flat_map app List.filter]. rewrite breakpoint_says by done.
      split_and!; [done|done|]. destruct (marked _); cbn; lia.
    - rewrite A, (built_unmarked _ B). split_and!; [done|done|cbn; lia]. }
  clearbody parts. destruct HP as (P1 & P2 & P3). set (item := cJSON_AddItemToObject _ _ _).
  assert (E : forall k, cJSON_GetObjectItemCaseSensitive item k =
    if beq k (bs "role") then Some (cJSON_CreateString (bs "developer")) else if beq k (bs "content") then Some parts else None).
  { intros k. subst item. rewrite get_add, get_add_string by is_built. rewrite get_create. by destruct (beq k (bs "role")). }
  exists parts. assert (Eo : out_parts (Some parts) = in_parts content) by (unfold out_parts, parts_by; by rewrite P1).
  split_and!; [by rewrite E|done|done| |by rewrite E].
  unfold out_item, type_is, get_string. cbn [mbind option_bind]. rewrite !E. lit. cbn [mbind option_bind].
  rewrite string_create. change (c_str (bs "developer")) with (bs "developer"). cbn [from_option Datatypes.id]. by rewrite Eo.
Qed.

(** ** The messages *)

Lemma call_item_says tc : out_item (tool_call_to_function_call_item tc) = in_call tc /\
  content_of (tool_call_to_function_call_item tc) = None /\
  cJSON_GetObjectItemCaseSensitive (tool_call_to_function_call_item tc) (bs "output") = None.
Proof.
  set (j := tool_call_to_function_call_item tc). set (func := cJSON_GetObjectItemCaseSensitive tc (bs "function")).
  assert (E : forall k, cJSON_GetObjectItemCaseSensitive j k =
    if beq k (bs "type") then Some (cJSON_CreateString (bs "function_call"))
    else if beq k (bs "call_id") then Some (cJSON_CreateString (call_id tc))
    else if beq k (bs "name") then Some (cJSON_CreateString (default [] (get_string func (bs "name"))))
    else if beq k (bs "arguments") then Some (cJSON_CreateString (default (bs "{}") (get_string func (bs "arguments")))) else None).
  { intros k. subst j. unfold tool_call_to_function_call_item. repeat first [rewrite get_add_string by is_built|rewrite get_create].
    by destruct (beq k (bs "type")), (beq k (bs "call_id")), (beq k (bs "name")). }
  split; [|split; by rewrite E]. unfold out_item, type_is, get_string at 1 2 3 4. cbn [mbind option_bind]. rewrite !E. lit.
  cbn [mbind option_bind]. rewrite !string_create. change (c_str (bs "function_call")) with (bs "function_call"). lit.
  cbn [from_option Datatypes.id]. unfold in_call. fold func. f_equal; [apply default_c_str..|].
  destruct (get_string func (bs "arguments")) as [a|] eqn:Ea; [by apply c_str_value in Ea|done].
Qed.

Lemma message_item_says r content : let j := cJSON_AddItemToObject (cJSON_AddStringToObject cJSON_CreateObject (bs "role") r)
    (bs "content") (convert_content content) in
  out_item j = Message (side (c_str r)) (in_parts content) /\ content_of j = Some (convert_content content) /\
  cJSON_GetObjectItemCaseSensitive j (bs "output") = None.
Proof.
  intros j. assert (E : forall k, cJSON_GetObjectItemCaseSensitive j k =
    if beq k (bs "role") then Some (cJSON_CreateString r) else if beq k (bs "content") then Some (convert_content content) else None).
  { intros k. subst j. rewrite get_add, get_add_string by is_built. rewrite get_create. by destruct (beq k (bs "role")). }
  split; [|split; by rewrite E]. unfold out_item, type_is, get_string. cbn [mbind option_bind]. rewrite !E. lit.
  cbn [mbind option_bind]. rewrite string_create. cbn [from_option Datatypes.id]. by rewrite convert_content_says.
Qed.

Lemma output_item_says m : role_is m (bs "tool") = true -> exists j, convert_message m = [j] /\
  out_item j = Output (answered_id m) (in_parts (content_of m)) /\ content_of j = None /\
  cJSON_GetObjectItemCaseSensitive j (bs "output") = Some (convert_content (content_of m)).
Proof.
  intros Hm. unfold convert_message. rewrite Hm. eexists. split; [reflexivity|]. set (j := cJSON_AddItemToObject _ _ _).
  assert (E : forall k, cJSON_GetObjectItemCaseSensitive j k =
    if beq k (bs "type") then Some (cJSON_CreateString (bs "function_call_output"))
    else if beq k (bs "call_id") then Some (cJSON_CreateString (answered_id m))
    else if beq k (bs "output") then Some (convert_content (content_of m)) else None).
  { intros k. subst j. rewrite get_add, get_add_string, get_add_string by is_built. rewrite get_create.
    by destruct (beq k (bs "type")), (beq k (bs "call_id")). }
  split; [|split; by rewrite E]. unfold out_item, type_is, get_string. cbn [mbind option_bind]. rewrite !E. lit.
  cbn [mbind option_bind]. rewrite !string_create. change (c_str (bs "function_call_output")) with (bs "function_call_output").
  lit. cbn [from_option Datatypes.id]. unfold answered_id. by rewrite default_c_str, convert_content_says.
Qed.

(** The marks of an item. *)
Definition item_marks (j : cJSON) : nat := (marks (content_of j) + marks (cJSON_GetObjectItemCaseSensitive j (bs "output")))%nat.

Lemma content_unmarked content : marks (Some (convert_content content)) = 0%nat.
Proof.
  unfold marks, is_array, convert_content. destruct content as [c|]; [|by rewrite created_string_not_array].
  destruct (cJSON_IsArray c); [|by rewrite created_string_not_array]. destruct (convert_parts_elements c) as (-> & B & _).
  cbn [each]. by rewrite (built_unmarked _ B).
Qed.

Lemma convert_message_says m : map out_item (convert_message m) = in_items m /\
  sum_list_with item_marks (convert_message m) = 0%nat.
Proof.
  unfold in_items. destruct (role_is m (bs "tool")) eqn:Et.
  { destruct (output_item_says m Et) as (j & -> & E1 & E2 & E3). cbn. unfold item_marks.
    by rewrite E1, E2, E3, content_unmarked. }
  unfold convert_message. rewrite Et.
  assert (Ec : (if role_is m (bs "assistant") && is_array (cJSON_GetObjectItemCaseSensitive m (bs "tool_calls"))
      then each (cJSON_GetObjectItemCaseSensitive m (bs "tool_calls")) else []) = if role_is m (bs "assistant") then calls_of m else []).
  { unfold calls_of, is_array. destruct (role_is m (bs "assistant")); [|done].
    by destruct (cJSON_GetObjectItemCaseSensitive m (bs "tool_calls")) as [a|]; [destruct (cJSON_IsArray a)|]. }
  rewrite Ec. destruct (if role_is m (bs "assistant") then calls_of m else []) as [|tc tcs].
  - destruct (message_item_says (role_of m) (content_of m)) as (E1 & E2 & E3). cbn [map sum_list_with]. rewrite E1.
    unfold item_marks. rewrite E2, E3, content_unmarked. unfold role_of. by rewrite default_c_str.
  - generalize (tc :: tcs). intros l. induction l as [|x l [IH1 IH2]]; [done|]. cbn [map sum_list_with].
    destruct (call_item_says x) as (E1 & E2 & E3). rewrite E1, IH1, IH2. unfold item_marks. by rewrite E2, E3.
Qed.

(** ** The input *)

Lemma cached_item_says m : role_of m = bs "system" ->
  [out_item (cached_system_item (content_of m))] = in_items m /\ (item_marks (cached_system_item (content_of m)) <= 1)%nat.
Proof.
  intros Hr. destruct (cached_system_says (content_of m)) as (a & E1 & E2 & E3 & E4 & E5). split.
  - assert (Hi : forall r, role_is m r = beq (bs "system") r).
    { intros r. unfold role_is, role_of in *. destruct (get_string (Some m) (bs "role")); [|done]. cbn in Hr. by subst. }
    unfold in_items. rewrite !Hi, Hr, E4. by lit.
  - unfold item_marks. rewrite E1, E5. change (marks None) with 0%nat. lia.
Qed.

Lemma convert_from_says se l : forall i out, cJSON_IsArray out = true ->
  (forall k m, l !! k = Some m -> i + Z.of_nat k = se -> role_of m = bs "system") ->
  exists items, cJSON_elements (convert_from se i l out) = cJSON_elements out ++ items /\
    map out_item items = flat_map in_items l /\
    (sum_list_with item_marks items <= if ((i <=? se) && (se <? i + zlen l))%Z then 1 else 0)%nat.
Proof.
  induction l as [|m l IH]; intros i out Ha Hse; cbn [convert_from flat_map].
  { exists []. rewrite app_nil_r. split_and!; [done|done|cbn; lia]. }
  assert (Hrest : forall k m', l !! k = Some m' -> i + 1 + Z.of_nat k = se -> role_of m' = bs "system").
  { intros k m' Hk Hi. apply (Hse (S k)); [done|lia]. }
  assert (Hl : zlen (m :: l) = 1 + zlen l) by (unfold zlen; cbn [length]; lia).
  destruct (Z.eqb_spec i se) as [<-|Hne].
  - destruct (cached_item_says m) as [E1 E2]; [by apply (Hse 0%nat); [done|lia]|].
    destruct (IH (i + 1) (cJSON_AddItemToArray out (cached_system_item (content_of m)))) as (items & I1 & I2 & I3);
      [by rewrite isarray_add|done|].
    exists (cached_system_item (content_of m) :: items). rewrite I1, elements_add, <- app_assoc by done.
    split_and!; [done|cbn [map]; by rewrite I2, <- E1|]. cbn [sum_list_with]. pose proof (Nat2Z.is_nonneg (length l)) as Hz.
    assert (E0 : (i + 1 <=? i) = false) by lia. assert (E3 : (i <=? i) && (i <? i + zlen (m :: l)) = true) by (unfold zlen in *; lia).
    rewrite E0 in I3. rewrite E3. cbn [andb] in I3. lia.
  - destruct (elements_fold (fun x => x) (convert_message m) out Ha) as [F1 F2]. rewrite map_id in F2.
    change (fold_left (fun a x => cJSON_AddItemToArray a x)) with (fold_left cJSON_AddItemToArray) in F1, F2.
    destruct (IH (i + 1) (fold_left cJSON_AddItemToArray (convert_message m) out) F1 Hrest) as (items & I1 & I2 & I3).
    destruct (convert_message_says m) as [M1 M2].
    exists (convert_message m ++ items). rewrite I1, F2, <- app_assoc, map_app, M1, I2. split_and!; [done|done|].
    rewrite sum_list_with_app, M2.
    assert (E0 : (i + 1 <=? se) && (se <? i + 1 + zlen l) = (i <=? se) && (se <? i + zlen (m :: l))) by lia.
    rewrite E0 in I3. lia.
Qed.

Lemma system_run_says l : forall e, e <= system_run l e /\
  forall k m, l !! k = Some m -> e + 1 + Z.of_nat k <= system_run l e -> role_of m = bs "system".
Proof.
  induction l as [|x l IH]; intros e; cbn [system_run]; [split; [lia|by intros k m Hk]|].
  destruct (beq (role_of x) (bs "system")) eqn:Ex; [|split; [lia|intros k m _ Hk; lia]].
  destruct (IH (e + 1)) as [I1 I2]. split; [lia|]. intros [|k] m Hk Hle; [injection Hk as <-; by apply beq_eq|].
  apply (I2 k m Hk). lia.
Qed.

Lemma request_input llm messages tools stream req : responses_build_request llm messages tools stream = Some req ->
  input_of req = cJSON_elements (convert_messages messages (cache_system llm)) /\
  get_string (Some req) (bs "previous_response_id") = c_str <$> prev_response_id llm.
Proof.
  unfold responses_build_request, input_of, get_string. cbn [mbind option_bind].
  destruct (effort llm), (prev_response_id llm), tools as [t|]; cbn [fmap option_fmap option_map];
    repeat match goal with |- context [match cJSON_elements ?x with [] => _ | _ :: _ => _ end] => destruct (cJSON_elements x) end;
    destruct (disable_parallel_tool_calls llm); intros [= <-]; split; built_get; cbn; by rewrite ?string_create.
Qed.

Definition starts_with_system (messages : cJSON) : bool :=
  match cJSON_elements messages with m :: _ => beq (role_of m) (bs "system") | [] => false end.

Lemma input_says messages cache : let input := cJSON_elements (convert_messages messages cache) in
  map out_item input = flat_map in_items (cJSON_elements messages) /\
  (sum_list_with item_marks input <= if cache && starts_with_system messages then 1 else 0)%nat.
Proof.
  unfold convert_messages, starts_with_system. cbv zeta. set (l := cJSON_elements messages). set (se := if cache then _ else _).
  destruct (convert_from_says se l 0 cJSON_CreateArray isarray_create) as (items & E1 & E2 & E3).
  { intros k m Hk Hi. unfold se in Hi. destruct cache; [|lia]. apply (proj2 (system_run_says l (-1)) k m Hk). lia. }
  rewrite E1, elements_create. cbn [app]. split; [done|].
  destruct cache; [|subst se; cbn in *; lia]. destruct l as [|m l]; [subst se; cbn in *; lia|].
  cbn [andb]. destruct (beq (role_of m) (bs "system")) eqn:Em; [revert E3; case_ifs; lia|].
  subst se. cbn [system_run] in E3. rewrite Em in E3. cbn in E3. lia.
Qed.

Definition breakpoints (req : cJSON) : nat := sum_list_with item_marks (input_of req).


(** ** Its calls *)

Fixpoint past_calls (l : list item) : list item := match l with Call _ _ _ :: l => past_calls l | _ => l end.
Fixpoint outputs_run (l : list item) : list (list byte) := match l with Output i _ :: l => i :: outputs_run l | _ => [] end.

(** A call stands in a run of calls, and its output in the run of outputs
    behind; an output answers a call of the run before. [open] are the calls
    of the last run, and [calling] says that it has not ended. *)
Fixpoint items_paired (open : list (list byte)) (calling : bool) (l : list item) : Prop :=
  match l with
  | [] => True
  | Call i _ _ :: l =>
      In i (outputs_run (past_calls l)) /\ items_paired (i :: if calling then open else []) true l
  | Output i _ :: l => In i open /\ items_paired open false l
  | Message _ _ :: l => items_paired [] false l
  end.

Lemma in_items_tool m : role_is m (bs "tool") = true -> in_items m = [Output (answered_id m) (in_parts (content_of m))].
Proof. intros Hm. unfold in_items. by rewrite Hm. Qed.

Lemma answered_outputs id l : answered_in id l ->
  past_calls (flat_map in_items l) = flat_map in_items l /\ In id (outputs_run (flat_map in_items l)).
Proof.
  induction l as [|m l IH]; [done|]. cbn [answered_in flat_map]. intros [Hm Ha]. rewrite (in_items_tool _ Hm). split; [done|].
  cbn [app outputs_run]. destruct Ha as [<-|Ha]; [by left|right; by apply IH].
Qed.

Lemma calls_past cs rest : past_calls (map in_call cs ++ rest) = past_calls rest.
Proof. by induction cs. Qed.

Lemma calls_paired rest ids : (forall id, In id ids -> In id (outputs_run (past_calls rest))) ->
  (forall open calling, incl ids open -> items_paired open calling rest) ->
  forall cs open (calling : bool), incl (map call_id cs) ids -> incl ids (map call_id cs ++ (if calling then open else [])) ->
  (cs = [] -> calling = true) -> items_paired open calling (map in_call cs ++ rest).
Proof.
  intros Ho Hr. induction cs as [|c cs IH]; intros open calling Hi Hc He; cbn [map app items_paired].
  { apply Hr. rewrite (He eq_refl) in Hc. exact Hc. }
  cbn [map] in Hi, Hc. split; [rewrite calls_past; apply Ho, Hi; by left|].
  apply IH; [intros x Hx; apply Hi; by right| |done].
  intros x Hx. apply Hc in Hx. cbn in Hx. rewrite in_app_iff in *. cbn. tauto.
Qed.

Lemma paired_items l : Forall well_formed l -> forall ids open calling, paired ids l -> incl ids open ->
  items_paired open calling (flat_map in_items l).
Proof.
  induction 1 as [|m l Hm _ IH]; intros ids open calling Hp Hi; [done|]. cbn [paired flat_map] in *.
  destruct (role_is m (bs "tool")) eqn:Et.
  { rewrite (in_items_tool _ Et). destruct Hp as [Hid Hp]. cbn [app items_paired]. split; [by apply Hi|by eapply IH]. }
  destruct Hp as [Ha Hp]. unfold in_items. rewrite Et.
  destruct (calls_of m) as [|c cs] eqn:Ec.
  { assert (E : (if role_is m (bs "assistant") then @nil cJSON else []) = []) by (by destruct (role_is m (bs "assistant"))).
    rewrite E. cbn [app items_paired]. apply (IH [] [] false Hp), incl_refl. }
  destruct Hm as [Hr _]; [by rewrite Ec|]. rewrite Hr.
  apply (calls_paired (flat_map in_items l) (map call_id (c :: cs))) with (cs := c :: cs); [|by intros; eapply IH|apply incl_refl| |done].
  - intros id Hid. destruct (answered_outputs id l (Ha id Hid)) as [-> Ho]. exact Ho.
  - intros x Hx. apply in_app_iff. by left.
Qed.

(** C19. The Responses API takes every request made from a history whose
    calls are answered: each call has its output right behind the run of
    calls it is in, and each output answers a call of the run before it. In
    a request that continues a stored response, the outputs at the head
    answer the calls [ids] of that response. *)
Theorem responses_calls_are_answered llm ids h cz arr sys messages tools stream req
    (Ho : orphan_free ids h) (Ha : answered h) (Hi : calls_no_images h)
    (Hp : Forall (fun m => exists p, plain_content m cz = Some p) h)
    (Hj : clm_history_to_json h cz = Some arr)
    (Hs : Forall (fun m => role_is m (bs "system") = true /\ well_formed m) sys) (Hids : sys = [] \/ ids = [])
    (Hm : cJSON_elements messages = sys ++ cJSON_elements arr)
    (Hr : responses_build_request llm messages tools stream = Some req) :
  items_paired (map wire_id ids) false (map out_item (input_of req)).
Proof.
  destruct (conversation_paired ids h cz arr sys messages Ho Ha Hi Hp Hj Hs Hids Hm) as [Hw Hpd].
  assert (E : map out_item (input_of req) = flat_map in_items (cJSON_elements messages)).
  { destruct (request_input _ _ _ _ _ Hr) as [-> _]. by apply input_says. }
  rewrite E. by apply (paired_items _ Hw (map wire_id ids)), incl_refl.
Qed.
End Requests.
