(* ===== verification/ResponsesReplies.v ===== *)
(** Replies of the Responses API: the canonical form of a response, what the
    next request replays of it, and that a reply that is streamed comes to
    the same as one that is not. *)

From S2P Require Import Prelude Utf8 TextClean Image RateLimit Tokens CJson History HistoryFacts HistoryJson.
From S2P Require Import Registry Tools ToolsSpec Stream StreamFacts StreamCalls Provider.
From S2P Require Import Canonical CanonicalCalls CanonicalFacts ProviderResponses ResponsesFacts.
From stdpp Require Import list.
#[local] Open Scope Z_scope.

Section Replies.
Context `{L : CJsonLaws} (int_nan : Z).

Abbreviation content_of m := (cJSON_GetObjectItemCaseSensitive m (bs "content")).

(** ** The items of a response *)

Definition message_texts (item : cJSON) : list (list byte) :=
  if is_array (content_of item)
  then omap (fun c => if type_is c (bs "output_text") then get_string (Some c) (bs "text") else None) (each (content_of item))
  else [].
Definition output_texts (l : list cJSON) : list (list byte) :=
  flat_map (fun i => if type_is i (bs "message") then message_texts i else []) l.
Definition function_calls (l : list cJSON) : list cJSON := List.filter (fun i => type_is i (bs "function_call")) l.

Lemma append_message_texts ts item : append_message (joined ts) item = joined (ts ++ message_texts item).
Proof.
  unfold append_message, message_texts. destruct (is_array (content_of item)); [|by rewrite app_nil_r].
  generalize (each (content_of item)). intros l. revert ts. induction l as [|c l IH]; intros ts; cbn [fold_left omap list_omap].
  { by rewrite app_nil_r. }
  unfold append_message_part at 2. destruct (type_is c (bs "output_text")); [|apply IH].
  destruct (get_string (Some c) (bs "text")) as [t|]; [|apply IH].
  rewrite <- joined_snoc, IH. f_equal. by rewrite <- app_assoc.
Qed.

Lemma normalize_items l : exists reasoning, fold_left normalize_item l (None, None, None)
  = (joined (output_texts l), reasoning, call_array (map function_call_to_call (function_calls l))).
Proof.
  induction l as [|i l [r IH]] using rev_ind; [by exists None|]. rewrite fold_left_app, IH. cbn [fold_left].
  unfold output_texts, function_calls. rewrite flat_map_app, List.filter_app, map_app. fold (output_texts l) (function_calls l).
  cbn [flat_map List.filter]. rewrite app_nil_r. unfold normalize_item. destruct (type_is i (bs "message")) eqn:E1.
  - rewrite (type_is_other _ _ (bs "function_call") E1), append_message_texts by done. cbn [map]. rewrite app_nil_r. by exists r.
  - rewrite app_nil_r. destruct (type_is i (bs "reasoning")) eqn:E2.
    + rewrite (type_is_other _ _ (bs "function_call") E2) by done. cbn [map]. rewrite app_nil_r. by eexists.
    + destruct (type_is i (bs "function_call")); [|cbn [map]; rewrite app_nil_r; by exists r].
      cbn [map]. rewrite call_array_snoc. by exists r.
Qed.

(** ** How a reply ends *)

Definition mapped_status (response : option cJSON) (calls : bool) : option (list byte) :=
  map_status response (get_string response (bs "status")) calls.

(** The failure that is told. *)
Definition told_error (response : option cJSON) (calls : bool) : option (list byte) :=
  if bool_decide (mapped_status response calls = Some (bs "error")) then r ← response; response_error_message r else None.

Definition told_usage (u : option cJSON) : option cJSON :=
  u ← u; if cJSON_IsObject u
         then Some (canonical_usage (int_member u (bs "input_tokens")) (int_member u (bs "output_tokens"))
                      (responses_input_detail u (bs "cached_tokens")) (responses_input_detail u (bs "cache_write_tokens")))
         else None.

Record ended (choice0 : cJSON) (response : option cJSON) (calls : bool) (u : option cJSON) (out : cJSON) : Prop := {
  en_choice : cJSON_GetObjectItemCaseSensitive out (bs "choices")
    = Some (cJSON_AddItemToArray cJSON_CreateArray (add_opt choice0 (bs "finish_reason") (mapped_status response calls)));
  en_id : get_string (Some out) (bs "provider_response_id") = get_string response (bs "id");
  en_error : response_error_message out = told_error response calls;
  en_usage : cJSON_GetObjectItemCaseSensitive out (bs "usage") = told_usage u;
  en_timings : cJSON_GetObjectItemCaseSensitive out (bs "timings") = None
}.

Lemma error_value r m : response_error_message r = Some m -> c_str m = m.
Proof.
  unfold response_error_message. destruct (cJSON_GetObjectItemCaseSensitive r (bs "error")) as [e|]; [|done]. cbn [mbind option_bind].
  destruct (cJSON_IsObject e); [apply c_str_value|done].
Qed.

Lemma close_ends choice0 response calls u : ended choice0 response calls u (add_usage (close_with choice0 response calls) u).
Proof.
  set (out1 := close_with choice0 response calls).
  assert (Ho : cJSON_IsObject out1 = true).
  { subst out1. unfold close_with, carry_error. destruct (map_status _ _ _) as [m|], response as [r|]; try is_built.
    destruct (beq m (bs "error")); [|is_built]. destruct (mbind _ _); is_built. }
  assert (E : forall k, beq k (bs "error") = false -> cJSON_GetObjectItemCaseSensitive out1 k =
    if beq k (bs "choices") then Some (cJSON_AddItemToArray cJSON_CreateArray (add_opt choice0 (bs "finish_reason") (mapped_status response calls)))
    else if beq k (bs "provider_response_id") then cJSON_CreateString <$> get_string response (bs "id") else None).
  { intros k Hk. subst out1. unfold close_with, carry_error, mapped_status.
    assert (G : forall o, cJSON_IsObject o = true -> forall v, cJSON_GetObjectItemCaseSensitive (cJSON_AddItemToObject o (bs "error") v) k
       = cJSON_GetObjectItemCaseSensitive o k).
    { intros o Hob v. rewrite get_add, Hk by done. by destruct (cJSON_GetObjectItemCaseSensitive o k). }
    destruct (map_status _ _ _) as [m|], response as [r|]; try destruct (beq m (bs "error"));
      try destruct (mbind _ (cJSON_GetObjectItemCaseSensitive r (bs "error"))); rewrite ?G by is_built;
      rewrite get_add_opt, get_add, get_create by is_built; by destruct (beq k (bs "choices")). }
  assert (Ee : response_error_message out1 = told_error response calls).
  { subst out1. unfold told_error, mapped_status, close_with. set (mapped := map_status _ _ _).
    assert (N : response_error_message (add_opt (cJSON_AddItemToObject cJSON_CreateObject (bs "choices")
       (cJSON_AddItemToArray cJSON_CreateArray (add_opt choice0 (bs "finish_reason") mapped))) (bs "provider_response_id") (get_string response (bs "id"))) = None)
      by (unfold response_error_message; rewrite get_add_opt, get_add, get_create by is_built; by lit).
    destruct mapped as [m|]; [|by rewrite bool_decide_false by done].
    destruct response as [r|]; [|rewrite N; by destruct (bool_decide _)]. destruct (beq m (bs "error")) eqn:Em.
    - apply beq_eq in Em as ->. rewrite bool_decide_true by done. cbn [mbind option_bind]. unfold carry_error. fold (response_error_message r).
      destruct (response_error_message r) as [e|] eqn:Er; [|exact N]. unfold response_error_message at 1.
      rewrite get_add, get_add_opt, get_add, get_create by is_built. lit. cbn [mbind option_bind].
      assert (Ob : cJSON_IsObject (cJSON_AddStringToObject cJSON_CreateObject (bs "message") e) = true) by is_built. rewrite Ob.
      rewrite (get_string_built _ _ e); [by rewrite (error_value r e Er)|]. rewrite get_add_string, get_create by is_built. by lit.
    - rewrite N, bool_decide_false; [done|]. intros [= ->]. by rewrite beq_refl in Em. }
  clearbody out1.
  assert (U : forall k, cJSON_GetObjectItemCaseSensitive (add_usage out1 u) k = match cJSON_GetObjectItemCaseSensitive out1 k with
     | Some x => Some x | None => if beq k (bs "usage") then told_usage u else None end).
  { intros k. unfold add_usage, told_usage. destruct u as [v|]; cbn [mbind option_bind]; [destruct (cJSON_IsObject v); [by apply get_add|]|];
    by destruct (cJSON_GetObjectItemCaseSensitive out1 k), (beq k (bs "usage")). }
  split.
  - by rewrite U, E by done.
  - unfold get_string at 1. cbn [mbind option_bind]. rewrite U, E by done. lit.
    destruct (get_string response (bs "id")) as [i|] eqn:Ei; cbn; [|done]. rewrite string_create. f_equal. by eapply c_str_value.
  - unfold response_error_message at 1. rewrite U. unfold response_error_message at 1 in Ee. revert Ee. lit.
    by destruct (cJSON_GetObjectItemCaseSensitive out1 (bs "error")).
  - rewrite U, E by done. by lit.
  - rewrite U, E by done. by lit.
Qed.

Lemma ended_choice choice0 response calls u out : ended choice0 response calls u out -> cJSON_IsObject choice0 = true ->
  exists choice, cJSON_GetObjectItemCaseSensitive out (bs "choices") = Some (cJSON_AddItemToArray cJSON_CreateArray choice) /\
    reply_choice out = Some choice /\
    (forall k, cJSON_GetObjectItemCaseSensitive choice k = match cJSON_GetObjectItemCaseSensitive choice0 k with
       | Some x => Some x
       | None => if beq k (bs "finish_reason") then cJSON_CreateString <$> mapped_status response calls else None end).
Proof.
  intros [E _ _ _ _] Ho. eexists. split; [exact E|]. split; [|intros k; by rewrite get_add_opt].
  unfold reply_choice. rewrite E. apply first_of_one.
Qed.

Lemma mapped_c_str response calls m : mapped_status response calls = Some m -> c_str m = m.
Proof.
  unfold mapped_status, map_status. destruct calls; [by intros [= <-]|].
  destruct (get_string response (bs "status")) as [st|] eqn:Es; [|done]. destruct (beq st (bs "completed")); [by intros [= <-]|].
  destruct (beq st (bs "incomplete")); [destruct (mbind _ _) as [w|]; [destruct (beq w _)|]; by intros [= <-]|].
  destruct (beq st (bs "failed") || beq st (bs "cancelled")); intros [= <-]; [done|by eapply c_str_value].
Qed.

Lemma r_normalized raw output : cJSON_GetObjectItemCaseSensitive raw (bs "output") = Some output -> cJSON_IsArray output = true ->
  let calls := function_calls (cJSON_elements output) in
  exists out choice m reasoning, responses_normalize_response raw = Some out /\
    reply_choice out = Some choice /\ reply_message out = Some m /\
    m = canonical_message (joined (output_texts (cJSON_elements output))) reasoning (call_array (map function_call_to_call calls)) /\
    get_string (Some choice) (bs "finish_reason") = mapped_status (Some raw) (bool_decide (calls <> [])) /\
    ended (cJSON_AddItemToObject cJSON_CreateObject (bs "message") m) (Some raw) (bool_decide (calls <> []))
      (cJSON_GetObjectItemCaseSensitive raw (bs "usage")) out.
Proof.
  intros Eo Ha calls. unfold responses_normalize_response. rewrite Eo. cbn [mbind option_bind]. rewrite Ha. cbn [negb].
  destruct (normalize_items (cJSON_elements output)) as [r ->]. fold calls.
  assert (Eb : bool_decide (is_Some (call_array (map function_call_to_call calls))) = bool_decide (calls <> [])).
  { destruct calls; [by rewrite !bool_decide_false by (by intros [] || done)|by rewrite !bool_decide_true by done]. }
  rewrite Eb. set (m := canonical_message _ _ _).
  pose proof (close_ends (cJSON_AddItemToObject cJSON_CreateObject (bs "message") m) (Some raw) (bool_decide (calls <> []))
    (cJSON_GetObjectItemCaseSensitive raw (bs "usage"))) as He. set (out := add_usage _ _) in *. clearbody out.
  destruct (ended_choice _ _ _ _ _ He) as (choice & E1 & E2 & E3); [is_built|].
  exists out, choice, m, r. split_and!; try done.
  - unfold reply_message. rewrite E2. cbn [mbind option_bind]. rewrite E3, get_add, get_create by is_built. by lit.
  - unfold get_string at 1. cbn [mbind option_bind]. rewrite E3, get_add, get_create by is_built. lit.
    destruct (mapped_status _ _) as [x|] eqn:Em; cbn; [|done]. rewrite string_create. f_equal. by eapply mapped_c_str.
Qed.

(** ** The reply in the next request *)

Lemma r_call_reads_back f : in_call (function_call_to_call f)
  = Call (default [] (get_string (Some f) (bs "call_id"))) (default [] (get_string (Some f) (bs "name")))
      (default (bs "{}") (get_string (Some f) (bs "arguments"))).
Proof.
  unfold in_call, call_id, function_call_to_call.
  assert (Hn : no_nul (default (bs "{}") (get_string (Some f) (bs "arguments")))).
  { destruct (get_string (Some f) (bs "arguments")) as [a|] eqn:Ea; cbn [from_option].
    - apply c_str_value in Ea. rewrite <- Ea. apply c_str_no_nul.
    - repeat constructor; discriminate. }
  destruct (canonical_call_members (default [] (get_string (Some f) (bs "call_id"))) (default [] (get_string (Some f) (bs "name"))) _ Hn)
    as (E1 & func & E2 & E3 & E4).
  rewrite E1, E2, E3, E4. cbn [from_option Datatypes.id]. by rewrite !default_c_str.
Qed.

Lemma output_texts_no_nul l : Forall no_nul (output_texts l).
Proof.
  unfold output_texts. apply List.Forall_forall. intros t (i & _ & Ht)%in_flat_map. destruct (type_is i _); [|done].
  unfold message_texts in Ht. destruct (is_array _); [|done].
  apply list_elem_of_In, list_elem_of_omap in Ht as (c & _ & Ht). destruct (type_is c _); [|done].
  apply c_str_value in Ht. rewrite <- Ht. apply c_str_no_nul.
Qed.

(** C21. What the next request replays of a reply: the calls it made, with
    their ids, names and arguments, or its text if it made none. *)
Theorem responses_replays_the_reply raw output (Eo : cJSON_GetObjectItemCaseSensitive raw (bs "output") = Some output)
    (Ha : cJSON_IsArray output = true) :
  exists out m, responses_normalize_response raw = Some out /\ reply_message out = Some m /\ well_formed m /\
    map out_item (convert_message m)
    = match function_calls (cJSON_elements output) with
      | [] => [Message (bs "assistant") (text_part (concat (output_texts (cJSON_elements output))))]
      | fs => map (fun f => Call (default [] (get_string (Some f) (bs "call_id"))) (default [] (get_string (Some f) (bs "name")))
                              (default (bs "{}") (get_string (Some f) (bs "arguments")))) fs
      end.
Proof.
  destruct (r_normalized raw output Eo Ha) as (out & choice & m & r & E1 & _ & E2 & Em & _). exists out, m.
  set (fs := function_calls (cJSON_elements output)) in *. set (texts := output_texts (cJSON_elements output)) in *.
  destruct (canonical_members (joined texts) r (map function_call_to_call fs)) as (M1 & M2 & M3). rewrite <- Em in M1, M2, M3.
  assert (Hc : calls_of m = map function_call_to_call fs).
  { unfold calls_of. rewrite M3. destruct (map function_call_to_call fs) as [|c l]; [done|]. cbn [call_array].
    by destruct (array_from_elements (c :: l)) as [-> ->]. }
  assert (Hr : forall x, role_is m x = beq (bs "assistant") x) by (intros x; unfold role_is; by rewrite M1).
  split_and!; [done|done| |].
  { intros _. rewrite Hr. split; [done|]. unfold is_array. rewrite M2. destruct (joined texts);
      [apply created_string_not_array|apply null_not_array]. }
  rewrite (proj1 (convert_message_says m)). unfold in_items. rewrite !Hr. lit. rewrite Hc.
  destruct fs as [|f fs]; cbn [map]; [|by rewrite r_call_reads_back, map_map, (map_ext _ _ r_call_reads_back)].
  unfold role_of. rewrite M1. cbn [from_option Datatypes.id]. do 2 f_equal. unfold in_parts, parts_by. rewrite M2.
  pose proof (concat_no_nul _ (output_texts_no_nul (cJSON_elements output))) as Hn. fold texts in Hn.
  unfold joined in *. destruct texts as [|t l]; cbn [concat] in *; [by rewrite null_not_array, string_null|].
  rewrite created_string_not_array, string_create. cbn [from_option Datatypes.id]. by rewrite c_str_id.
Qed.

(** A response that failed or was cut short is taken for a normal one if
    it holds a call: it ends in [tool_calls], so the agent runs the call, of
    which the arguments may be missing, and the server's message is lost. *)
Theorem responses_failed_calls_run raw output (Eo : cJSON_GetObjectItemCaseSensitive raw (bs "output") = Some output)
    (Ha : cJSON_IsArray output = true) (Hf : function_calls (cJSON_elements output) <> []) :
  exists out choice m, responses_normalize_response raw = Some out /\ reply_choice out = Some choice /\
    reply_message out = Some m /\ calls_of m = map function_call_to_call (function_calls (cJSON_elements output)) /\
    get_string (Some choice) (bs "finish_reason") = Some (bs "tool_calls") /\ response_error_message out = None.
Proof.
  destruct (r_normalized raw output Eo Ha) as (out & choice & m & r & E1 & E2 & E3 & Em & Ef & He). exists out, choice, m.
  rewrite (bool_decide_true (_ <> [])) in Ef, He by done. split_and!; try done.
  - destruct (canonical_members (joined (output_texts (cJSON_elements output))) r
      (map function_call_to_call (function_calls (cJSON_elements output)))) as (_ & _ & M3). rewrite <- Em in M3.
    unfold calls_of. rewrite M3. destruct (map _ (function_calls _)) as [|c l]; [done|]. cbn [call_array].
    by destruct (array_from_elements (c :: l)) as [-> ->].
  - by rewrite (en_error _ _ _ _ _ He).
Qed.

(** ** The reply as a stream *)

#[local] Instance responses_provider : Provider := responses_stream.

Abbreviation typed t := (cJSON_AddStringToObject cJSON_CreateObject (bs "type") t).
Abbreviation at_output := (indexed (bs "output_index")).
Abbreviation step := (stream_event int_nan).

(** How the server says the reply ended. *)
Record reply_end := mk_reply_end {
  re_id : list byte;
  re_status : list byte;
  re_reason : option (list byte);
  re_error : option (list byte);
  re_input : Z; re_cached : Z; re_written : Z; re_output : Z
}.

(** *** As one response *)

Definition text_content (t : list byte) : cJSON :=
  cJSON_AddItemToArray cJSON_CreateArray (cJSON_AddStringToObject (typed (bs "output_text")) (bs "text") t).
Definition message_item (t : list byte) : cJSON := cJSON_AddItemToObject (typed (bs "message")) (bs "content") (text_content t).
Definition reasoning_item (t : list byte) : cJSON :=
  cJSON_AddItemToObject (typed (bs "reasoning")) (bs "summary")
    (cJSON_AddItemToArray cJSON_CreateArray (cJSON_AddStringToObject (typed (bs "summary_text")) (bs "text") t)).
Definition call_item (call name args : list byte) : cJSON :=
  cJSON_AddStringToObject
    (cJSON_AddStringToObject (cJSON_AddStringToObject (typed (bs "function_call")) (bs "call_id") call) (bs "name") name)
    (bs "arguments") args.

Definition block_item (b : said_block) : cJSON :=
  match b with
  | SText ps => message_item (concat ps)
  | SThinking ps => reasoning_item (concat ps)
  | SCall call name ps => call_item call name (concat ps)
  end.

Definition usage_json (e : reply_end) : cJSON :=
  let details := cJSON_AddItemToObject
    (cJSON_AddItemToObject cJSON_CreateObject (bs "cached_tokens") (cJSON_CreateNumber (re_cached e)))
    (bs "cache_write_tokens") (cJSON_CreateNumber (re_written e)) in
  cJSON_AddItemToObject
    (cJSON_AddItemToObject
       (cJSON_AddItemToObject cJSON_CreateObject (bs "input_tokens") (cJSON_CreateNumber (re_input e)))
       (bs "output_tokens") (cJSON_CreateNumber (re_output e)))
    (bs "input_tokens_details") details.

Definition add_within (o : cJSON) (k k' : list byte) (v : option (list byte)) : cJSON :=
  match v with Some t => cJSON_AddItemToObject o k (cJSON_AddStringToObject cJSON_CreateObject k' t) | None => o end.

Definition response_json (bl : list said_block) (e : reply_end) : cJSON :=
  let r := cJSON_AddItemToObject
    (cJSON_AddItemToObject
       (cJSON_AddStringToObject
          (cJSON_AddStringToObject cJSON_CreateObject (bs "id") (re_id e)) (bs "status") (re_status e))
       (bs "output") (array_from (map block_item bl)))
    (bs "usage") (usage_json e) in
  add_within (add_within r (bs "incomplete_details") (bs "reason") (re_reason e)) (bs "error") (bs "message") (re_error e).

(** *** As events *)

Definition item_started (k : nat) (b : said_block) : cJSON :=
  cJSON_AddItemToObject (at_output (bs "response.output_item.added") k) (bs "item")
    match b with
    | SText _ => message_item []
    | SThinking _ => typed (bs "reasoning")
    | SCall call name _ => call_item call name []
    end.

Definition delta_type (b : said_block) : list byte :=
  match b with
  | SText _ => bs "response.output_text.delta"
  | SThinking _ => bs "response.reasoning_summary_text.delta"
  | SCall _ _ _ => bs "response.function_call_arguments.delta"
  end.
Definition delta_event (k : nat) (b : said_block) (p : list byte) : cJSON :=
  cJSON_AddItemToObject (at_output (delta_type b) k) (bs "delta") (cJSON_CreateString p).

Definition pieces (b : said_block) : list (list byte) := match b with SText ps | SThinking ps | SCall _ _ ps => ps end.

Definition block_events (k : nat) (b : said_block) : list cJSON :=
  item_started k b :: map (delta_event k b) (pieces b)
  ++ [cJSON_AddItemToObject (at_output (bs "response.output_item.done") k) (bs "item") (block_item b)].

Fixpoint blocks_events (k : nat) (bl : list said_block) : list cJSON :=
  match bl with [] => [] | b :: bl => block_events k b ++ blocks_events (S k) bl end.

Definition end_event (ty : list byte) (bl : list said_block) (e : reply_end) : cJSON :=
  cJSON_AddItemToObject (typed ty) (bs "response") (response_json bl e).
Definition end_types : list (list byte) := [bs "response.completed"; bs "response.incomplete"; bs "response.failed"].

Definition events (ty : list byte) (bl : list said_block) (e : reply_end) : list cJSON :=
  typed (bs "response.created") :: blocks_events 0 bl ++ [end_event ty bl e].

(** The texts are C strings. *)
Definition block_ok (b : said_block) : Prop :=
  Forall no_nul (pieces b) /\ match b with SCall call name _ => no_nul call /\ no_nul name | _ => True end.

(** *** What the events of a block do *)

Lemma item_members call name args : no_nul call -> no_nul name -> no_nul args ->
  let j := call_item call name args in
  type_is j (bs "function_call") = true /\ get_string (Some j) (bs "call_id") = Some call /\
  get_string (Some j) (bs "name") = Some name /\ get_string (Some j) (bs "arguments") = Some args.
Proof.
  intros Hc Hn Ha j. assert (E : forall k, cJSON_GetObjectItemCaseSensitive j k =
    if beq k (bs "type") then Some (cJSON_CreateString (bs "function_call"))
    else if beq k (bs "call_id") then Some (cJSON_CreateString call)
    else if beq k (bs "name") then Some (cJSON_CreateString name)
    else if beq k (bs "arguments") then Some (cJSON_CreateString args) else None).
  { intros k. subst j. unfold call_item. repeat first [rewrite get_add_string by is_built|rewrite get_create].
    by destruct (beq k (bs "type")), (beq k (bs "call_id")), (beq k (bs "name")). }
  unfold type_is, get_string. cbn [mbind option_bind]. rewrite !E. lit. cbn [mbind option_bind]. rewrite !string_create.
  change (c_str (bs "function_call")) with (bs "function_call"). lit. by rewrite !c_str_id by done.
Qed.

Lemma item_type (j : cJSON) ty t : cJSON_GetObjectItemCaseSensitive j (bs "type") = Some (cJSON_CreateString ty) -> c_str ty = ty ->
  beq ty t = false -> type_is j t = false.
Proof. intros E Hc Ht. by rewrite (type_is_built _ _ _ E Hc). Qed.

(** The scratch space after some blocks. *)
Definition is_call (b : said_block) : bool := match b with SCall _ _ _ => true | _ => false end.
Definition noted (st : option resp_stream_state) (calls : bool) : option resp_stream_state :=
  if calls then Some (mk_resp true) else st.

Abbreviation event := (fun e st => responses_normalize_stream_event e st).

Lemma started_translates k b st : block_ok b ->
  responses_normalize_stream_event (item_started k b) st
  = (match b with SCall call name _ => Some (event_json [start_frag k call name]) | _ => None end, noted st (is_call b)).
Proof.
  intros [_ Hb]. unfold responses_normalize_stream_event, item_started. rewrite event_type.
  change (c_str (bs "response.output_item.added")) with (bs "response.output_item.added"). cbn [from_option Datatypes.id]. lit.
  cbn [orb]. unfold item_added, int_member. rewrite event_member, event_number by done. lit. destruct b as [ps|ps|call name ps].
  - rewrite (item_type _ (bs "message")); [done| |done|done]. unfold message_item. built_get. done.
  - rewrite (item_type _ (bs "reasoning")); [done| |done|done]. built_get. done.
  - destruct Hb as [Hc Hn]. destruct (item_members call name [] Hc Hn) as (E1 & E2 & E3 & _); [constructor|].
    by rewrite E1, E2, E3.
Qed.

Lemma r_delta_translates k b p st : no_nul p ->
  responses_normalize_stream_event (delta_event k b p) st
  = (Some match b with
          | SText _ => make_delta_chunk (bs "content") p
          | SThinking _ => make_delta_chunk (bs "reasoning_content") p
          | SCall _ _ _ => event_json [piece_frag k p]
          end, st).
Proof.
  intros Hp. unfold responses_normalize_stream_event, delta_event. rewrite event_type.
  assert (Ed : get_string (Some (cJSON_AddItemToObject (at_output (delta_type b) k) (bs "delta") (cJSON_CreateString p))) (bs "delta") = Some p).
  { rewrite (get_string_built _ _ p), c_str_id by (done || (rewrite event_member; by lit)). done. }
  unfold int_member. rewrite Ed, event_number by done.
  assert (Et : c_str (delta_type b) = delta_type b) by (by destruct b). rewrite Et. cbn [from_option Datatypes.id].
  destruct b; cbn [delta_type]; lit; done.
Qed.

Lemma r_deltas_translate k b ps st : Forall no_nul ps ->
  translates event st (map (delta_event k b) ps)
    (map (fun p => match b with SText _ => Words p | SThinking _ => Thought p | SCall _ _ _ => Piece (piece_frag k p) end) ps) st.
Proof.
  induction 1 as [|p ps Hp _ IH]; [constructor|]. cbn [map].
  eapply tr_some; [destruct b; by apply event_quiet| | |exact IH]; [|rewrite r_delta_translates by done; by destruct b].
  destruct b; cbn; [done|done|by split_and!].
Qed.

Lemma quiet_translates e ty st : get_string (Some e) (bs "type") = Some ty ->
  cJSON_GetObjectItemCaseSensitive e (bs "error") = None ->
  ty = bs "response.created" \/ ty = bs "response.output_item.done" -> translates event st [e] [] st.
Proof.
  intros Et Ee Ht. eapply tr_none; [| |constructor].
  - eapply no_error_message; [exact Et|destruct Ht as [->| ->]; by lit|done].
  - unfold responses_normalize_stream_event. rewrite Et. cbn [from_option Datatypes.id]. by destruct Ht as [->| ->]; lit.
Qed.

Lemma r_block_translates k b st : block_ok b ->
  translates event st (block_events k b) (block_deltas k b) (noted st (is_call b)).
Proof.
  intros Hb. pose proof (r_deltas_translate k b (pieces b) (noted st (is_call b)) (proj1 Hb)) as Hd.
  assert (Hdone : translates event (noted st (is_call b))
    [cJSON_AddItemToObject (at_output (bs "response.output_item.done") k) (bs "item") (block_item b)] [] (noted st (is_call b))).
  { eapply quiet_translates; [apply event_type|rewrite event_member; by lit|by right]. }
  pose proof (translates_app _ _ _ _ _ _ _ _ Hd Hdone) as Hr. rewrite app_nil_r in Hr.
  pose proof (started_translates k b st Hb) as Es. unfold block_events.
  destruct b as [ps|ps|call name ps]; cbn [block_deltas pieces] in *.
  1,2: eapply tr_none; [by apply event_quiet|exact Es|exact Hr].
  eapply tr_some; [by apply event_quiet| |exact Es|exact Hr]. destruct Hb as (_ & Hc & Hn). split_and!; [done|done|constructor].
Qed.

Lemma r_blocks_translate bl : Forall block_ok bl -> forall k st,
  translates event st (blocks_events k bl) (blocks_deltas k bl) (noted st (existsb is_call bl)).
Proof.
  induction 1 as [|b bl Hb _ IH]; intros k st; cbn [blocks_events blocks_deltas existsb]; [constructor|].
  eapply translates_app; [by apply r_block_translates|]. specialize (IH (S k) (noted st (is_call b))).
  by destruct (is_call b), (existsb is_call bl).
Qed.

(** *** The end of the stream *)

Lemma response_members bl e k : cJSON_GetObjectItemCaseSensitive (response_json bl e) k =
  if beq k (bs "id") then Some (cJSON_CreateString (re_id e))
  else if beq k (bs "status") then Some (cJSON_CreateString (re_status e))
  else if beq k (bs "output") then Some (array_from (map block_item bl))
  else if beq k (bs "usage") then Some (usage_json e)
  else match (if beq k (bs "incomplete_details") then cJSON_AddStringToObject cJSON_CreateObject (bs "reason") <$> re_reason e else None) with
       | Some x => Some x
       | None => if beq k (bs "error") then cJSON_AddStringToObject cJSON_CreateObject (bs "message") <$> re_error e else None
       end.
Proof.
  unfold response_json, add_within. destruct (re_reason e), (re_error e);
    repeat first [rewrite get_add by is_built|rewrite get_add_string by is_built|rewrite get_create];
    by destruct (beq k (bs "id")), (beq k (bs "status")), (beq k (bs "output")), (beq k (bs "usage")),
      (beq k (bs "incomplete_details")), (beq k (bs "error")).
Qed.

Lemma usage_told e : told_usage (Some (usage_json e))
  = Some (canonical_usage (re_input e) (re_output e) (re_cached e) (re_written e)).
Proof.
  unfold told_usage. cbn [mbind option_bind]. set (details := cJSON_AddItemToObject
    (cJSON_AddItemToObject cJSON_CreateObject (bs "cached_tokens") (cJSON_CreateNumber (re_cached e)))
    (bs "cache_write_tokens") (cJSON_CreateNumber (re_written e))).
  assert (Ho : cJSON_IsObject (usage_json e) = true) by (unfold usage_json; is_built).
  assert (Hd : cJSON_IsObject details = true) by (subst details; is_built).
  assert (E : forall k, cJSON_GetObjectItemCaseSensitive (usage_json e) k =
    if beq k (bs "input_tokens") then Some (cJSON_CreateNumber (re_input e))
    else if beq k (bs "output_tokens") then Some (cJSON_CreateNumber (re_output e))
    else if beq k (bs "input_tokens_details") then Some details else None).
  { intros k. unfold usage_json. fold details. rewrite get_add, get_add, get_add, get_create by is_built.
    by destruct (beq k (bs "input_tokens")), (beq k (bs "output_tokens")). }
  assert (Ed : forall k, cJSON_GetObjectItemCaseSensitive details k =
    if beq k (bs "cached_tokens") then Some (cJSON_CreateNumber (re_cached e))
    else if beq k (bs "cache_write_tokens") then Some (cJSON_CreateNumber (re_written e)) else None).
  { intros k. subst details. rewrite get_add, get_add, get_create by is_built. by destruct (beq k (bs "cached_tokens")). }
  rewrite Ho. unfold responses_input_detail. rewrite !E. lit. rewrite Hd. unfold int_member, number_of. rewrite !E, !Ed. lit.
  cbn [mbind option_bind]. by rewrite !number_create.
Qed.

Lemma status_maps r r' calls : (forall k, k = bs "status" \/ k = bs "incomplete_details" ->
    cJSON_GetObjectItemCaseSensitive r k = cJSON_GetObjectItemCaseSensitive r' k) ->
  mapped_status (Some r) calls = mapped_status (Some r') calls.
Proof. intros E. unfold mapped_status, map_status, get_string. cbn [mbind option_bind]. by rewrite !E by auto. Qed.

Lemma mapped_some bl e calls : exists m, mapped_status (Some (response_json bl e)) calls = Some m.
Proof.
  unfold mapped_status, map_status. rewrite (get_string_built _ _ (re_status e)) by (by rewrite response_members).
  destruct calls; [by eexists|]. destruct (beq _ (bs "completed")); [by eexists|].
  destruct (beq _ (bs "incomplete")); [destruct (mbind _ _) as [w|]; [destruct (beq w _)|]; by eexists|].
  destruct (beq _ (bs "failed") || _); by eexists.
Qed.

Lemma r_end_translates ty bl e st : In ty end_types -> stream_error_message (end_event ty bl e) = None /\
  exists raw, responses_normalize_stream_event (end_event ty bl e) st = (Some raw, Some (stream_state st)) /\
    ended cJSON_CreateObject (Some (response_json bl e)) (saw_tool_call (stream_state st)) (Some (usage_json e)) raw.
Proof.
  intros Hty. assert (Hc : c_str ty = ty) by (by destruct Hty as [<-|[<-|[<-|[]]]]).
  assert (E : forall k, cJSON_GetObjectItemCaseSensitive (end_event ty bl e) k =
    if beq k (bs "type") then Some (cJSON_CreateString ty) else if beq k (bs "response") then Some (response_json bl e) else None).
  { intros k. unfold end_event. rewrite get_add, get_add_string by is_built. rewrite get_create. by destruct (beq k (bs "type")). }
  assert (Et : get_string (Some (end_event ty bl e)) (bs "type") = Some ty)
    by (rewrite (get_string_built _ _ ty) by (by rewrite E); by rewrite Hc).
  split; [eapply no_error_message; [exact Et|by destruct Hty as [<-|[<-|[<-|[]]]]|by rewrite E]|].
  exists (response_end (end_event ty bl e) (stream_state st)). split.
  - unfold responses_normalize_stream_event. rewrite Et. cbn [from_option Datatypes.id].
    by destruct Hty as [<-|[<-|[<-|[]]]]; lit.
  - unfold response_end. rewrite !E. lit. cbn [mbind option_bind]. rewrite response_members. lit. apply close_ends.
Qed.

(** What the agent has before the last event. *)
Lemma take_blocks msgs bl : Forall block_ok bl -> exists s,
  foldM (step msgs) (typed (bs "response.created") :: blocks_events 0 bl) stream_start = Some s /\
  so_far s (words (blocks_deltas 0 bl)) (fold_left add_at (frags (blocks_deltas 0 bl)) []) (noted None (existsb is_call bl)) /\
  words (blocks_deltas 0 bl) = concat (map block_words bl) /\
  named (fold_left add_at (frags (blocks_deltas 0 bl)) []) = flat_map block_calls bl.
Proof.
  intros Hb. destruct (blocks_deltas_said bl 0 []) as [W N]; [cbn; lia|].
  assert (Hc : translates event None [typed (bs "response.created")] [] None).
  { eapply quiet_translates; [|rewrite get_add_string, get_create by is_built; by lit|by left].
    rewrite (get_string_built _ _ (bs "response.created")); [done|]. rewrite get_add_string, get_create by is_built. by lit. }
  pose proof (translates_app _ _ _ _ _ _ _ _ Hc (r_blocks_translate bl Hb 0 None)) as Ht.
  assert (Hev : Stream.normalize_stream_event = Some (fun e st => responses_normalize_stream_event e st)) by done.
  destruct (take_translated int_nan _ msgs _ _ _ _ Hev Ht stream_start [] []) as (s & E & Hs); [by split|].
  exists s. by split_and!.
Qed.

Lemma item_says b : block_ok b ->
  (if type_is (block_item b) (bs "message") then message_texts (block_item b) else [])
  = match b with SText ps => [concat ps] | _ => [] end /\
  map function_call_to_call (function_calls [block_item b]) = map (fun c => call_json (fst c) (snd c)) (block_calls b).
Proof.
  intros [Hp Hb]. unfold function_calls. destruct b as [ps|ps|call name ps]; cbn [block_item List.filter].
  - rewrite (type_is_built (message_item (concat ps)) (bs "message")) by (done || (unfold message_item; built_get; done)).
    rewrite (type_is_built (message_item (concat ps)) (bs "message")) by (done || (unfold message_item; built_get; done)). lit.
    split; [|done]. unfold message_texts, message_item. rewrite get_add, get_add_string, get_create by is_built. lit.
    unfold is_array, text_content. rewrite isarray_add, isarray_create. cbn [each]. rewrite elements_add, elements_create by apply isarray_create.
    cbn [app omap list_omap]. set (c := cJSON_AddStringToObject _ _ _).
    assert (E : forall k, cJSON_GetObjectItemCaseSensitive c k = if beq k (bs "type") then Some (cJSON_CreateString (bs "output_text"))
      else if beq k (bs "text") then Some (cJSON_CreateString (concat ps)) else None).
    { intros k. subst c. rewrite get_add_string, get_add_string by is_built. rewrite get_create. by destruct (beq k (bs "type")). }
    rewrite (type_is_built c (bs "output_text")) by (done || by rewrite E). lit.
    rewrite (get_string_built _ _ (concat ps)) by (by rewrite E). by rewrite c_str_id by (by apply concat_no_nul).
  - rewrite (type_is_built (reasoning_item (concat ps)) (bs "reasoning")) by (done || (unfold reasoning_item; built_get; done)).
    rewrite (type_is_built (reasoning_item (concat ps)) (bs "reasoning")) by (done || (unfold reasoning_item; built_get; done)). by lit.
  - destruct Hb as [Hc Hn]. destruct (item_members call name (concat ps) Hc Hn) as (E1 & E2 & E3 & E4); [by apply concat_no_nul|].
    rewrite E1, (type_is_other _ _ (bs "message") E1) by done. split; [done|]. cbn [map block_calls].
    unfold function_call_to_call. by rewrite E2, E3, E4.
Qed.

Lemma items_say bl : Forall block_ok bl ->
  concat (output_texts (map block_item bl)) = concat (map block_words bl) /\
  map function_call_to_call (function_calls (map block_item bl)) = map (fun c => call_json (fst c) (snd c)) (flat_map block_calls bl) /\
  bool_decide (function_calls (map block_item bl) <> []) = existsb is_call bl.
Proof.
  induction 1 as [|b bl Hb _ (IH1 & IH2 & IH3)]; [done|]. destruct (item_says b Hb) as [T1 T2].
  change (map block_item (b :: bl)) with ([block_item b] ++ map block_item bl). unfold function_calls in *.
  rewrite List.filter_app, map_app, T2, IH2. cbn [flat_map existsb map]. split_and!.
  - unfold output_texts in *. cbn [flat_map app]. rewrite T1. destruct b; cbn [app concat block_words]; by rewrite IH1.
  - by rewrite map_app.
  - destruct b as [ps|ps|call name ps]; cbn [is_call orb block_calls map] in *.
    1,2: apply map_eq_nil in T2; rewrite T2; exact IH3.
    destruct (List.filter _ [block_item (SCall call name ps)]); [done|]. by apply bool_decide_true.
Qed.

(** C18. Whether a reply is streamed does not matter: however the server cuts
    it into deltas, and however it ends, what the agent puts together is what
    it reads off the same reply sent as one response: the text, the calls,
    the reason it ended, the error if it failed, the tokens it used and the
    id under which the server keeps it. *)
Theorem responses_stream_what_they_say msgs ty bl e (Hb : Forall block_ok bl) (Hty : In ty end_types) :
  exists s out choice m, foldM (step msgs) (events ty bl e) stream_start = Some s /\
    responses_normalize_response (response_json bl e) = Some out /\
    reply_choice out = Some choice /\ reply_message out = Some m /\
    default [] (get_string (Some m) (bs "content")) = text s /\
    cJSON_GetObjectItemCaseSensitive m (bs "tool_calls") = stream_build_tool_calls (calls s) /\
    get_string (Some choice) (bs "finish_reason") = Stream.finish_reason s /\
    response_error_message out = last_error s /\ extract_usage int_nan out = Some (usage s) /\
    chain s = match get_string (Some out) (bs "provider_response_id") with
              | Some (b :: rid) => Some (b :: rid, msgs) | _ => None end.
Proof.
  destruct (array_from_elements (map block_item bl)) as [A1 A2]. destruct (items_say bl Hb) as (I1 & I2 & I3).
  destruct (r_normalized (response_json bl e) _ ltac:(by rewrite response_members) A1) as (out & choice & m & r & N1 & N2 & N3 & Em & Ef & He).
  rewrite A2 in Em, Ef, He. rewrite I3 in Ef, He. rewrite I2 in Em. rewrite response_members in He. revert He. lit. intros He.
  destruct (take_blocks msgs bl Hb) as (s1 & E1 & H1 & W & N).
  destruct (r_end_translates ty bl e (noted None (existsb is_call bl)) Hty) as (P1 & raw & P2 & Pe).
  assert (Es : saw_tool_call (stream_state (noted None (existsb is_call bl))) = existsb is_call bl) by (by destruct (existsb is_call bl)).
  rewrite Es in Pe. destruct (mapped_some bl e (existsb is_call bl)) as [fin Efin].
  destruct (ended_choice _ _ _ _ _ Pe) as (last_choice & L1 & _ & L3); [is_built|].
  assert (Lf : get_string (Some last_choice) (bs "finish_reason") = Some fin).
  { rewrite (get_string_built _ _ fin); [by rewrite (mapped_c_str _ _ _ Efin)|]. rewrite L3, get_create, Efin. by lit. }
  assert (Ld : cJSON_GetObjectItemCaseSensitive last_choice (bs "delta") = None) by (rewrite L3, get_create; by lit).
  assert (Lu := en_usage _ _ _ _ _ Pe). rewrite usage_told in Lu.
  pose proof (fun st => so_far_scratch _ _ _ _ st H1) as Hs1.
  destruct (take_last int_nan msgs _ _ _ _ raw _ _ _ _ _ _ (Hs1 (Some (stream_state (noted None (existsb is_call bl))))) L1 Lf Ld Lu
    (en_timings _ _ _ _ _ Pe)) as (s & E2 & T & C & F & U & X & Ch).
  exists s, out, choice, m. split.
  { unfold events. rewrite app_comm_cons, foldM_app, E1. cbn [mbind option_bind foldM].
    assert (Hev : Stream.normalize_stream_event = Some (fun e st => responses_normalize_stream_event e st)) by done.
    rewrite (translated_event int_nan _ msgs _ _ Hev P1), (sf_scratch _ _ _ _ H1), P2.
    by rewrite E2. }
  destruct (canonical_members (joined (output_texts (map block_item bl))) r
    (map (fun c => call_json (fst c) (snd c)) (flat_map block_calls bl))) as (_ & M2 & M3). rewrite <- Em in M2, M3.
  split_and!; try done.
  - rewrite T, W, <- I1. apply (message_text m _ M2), output_texts_no_nul.
  - by rewrite M3, C, build_named, N.
  - by rewrite Ef, F, Efin.
  - by rewrite X, (en_error _ _ _ _ _ He), (en_error _ _ _ _ _ Pe).
  - assert (Hu := en_usage _ _ _ _ _ He). rewrite usage_told in Hu.
    by rewrite U, (extract_canonical int_nan out _ _ _ _ Hu (en_timings _ _ _ _ _ He)).
  - by rewrite Ch, (en_id _ _ _ _ _ He), (en_id _ _ _ _ _ Pe).
Qed.
End Replies.
