(* ===== verification/ResponsesRun.v ===== *)
(** The Responses dialect at work: the witnesses of its theorems, and a
    failed response whose call is run. *)

From S2P Require Import Prelude Utf8 Image CJson History HistoryFacts HistoryJson Stream StreamFacts Provider.
From S2P Require Import Canonical CanonicalCalls CanonicalFacts ProviderResponses ResponsesFacts ResponsesReplies.
From stdpp Require Import list.
#[local] Open Scope Z_scope.
#[local] Existing Instance json_cjson.

(** A connection that continues a stored response, and one that does not. *)
Definition resp_demo_llm (prev : option (list byte)) : clm_llm :=
  with_prev (with_cache_system (clm_llm_new CLM_PROVIDER_OPENAI_RESPONSES (bs "k") (bs "https://h/v1") (bs "m") false) true) prev.

Definition resp_demo_said (r : clm_role) (t : list byte) : clm_message := message_set_content (clm_message_create r) (Some t) None.

(** The result of a call of the stored response, then a question. *)
Definition resp_demo_tail : clm_history :=
  [message_set_content (set_ids (clm_message_create CLM_ROLE_TOOL) (Some (bs "c1")) (Some (bs "ls"))) (Some (bs "a b")) None;
   resp_demo_said CLM_ROLE_USER (bs "hurry")].
Definition resp_demo_array : json := default JNull (clm_history_to_json resp_demo_tail None).
Definition resp_demo_request : json :=
  default JNull (responses_build_request (resp_demo_llm (Some (bs "resp_1"))) resp_demo_array None true).

Lemma resp_demo_built : responses_build_request (resp_demo_llm (Some (bs "resp_1"))) resp_demo_array None true = Some resp_demo_request.
Proof. vm_compute. reflexivity. Qed.

Lemma resp_demo_orphan_free : orphan_free [Some (bs "c1")] resp_demo_tail.
Proof. cbn. repeat split. by left. Qed.

Lemma resp_demo_answered : answered resp_demo_tail.
Proof. cbn. repeat split; by intros ? []. Qed.

Lemma resp_demo_plain : Forall (fun m => exists p, plain_content m None = Some p) resp_demo_tail.
Proof. repeat (constructor; [eexists; vm_compute; reflexivity|]). constructor. Qed.

Lemma resp_demo_no_images : calls_no_images resp_demo_tail.
Proof. unfold calls_no_images. repeat constructor. Qed.

Lemma responses_calls_are_answered_witness :
  orphan_free [Some (bs "c1")] resp_demo_tail /\ items_paired [bs "c1"] false (map out_item (input_of resp_demo_request)).
Proof.
  split; [exact resp_demo_orphan_free|].
  exact (@responses_calls_are_answered json_cjson json_laws (resp_demo_llm (Some (bs "resp_1"))) [Some (bs "c1")] resp_demo_tail None
    resp_demo_array [] resp_demo_array None true resp_demo_request resp_demo_orphan_free resp_demo_answered resp_demo_no_images
    resp_demo_plain eq_refl (List.Forall_nil _) (or_introl eq_refl) eq_refl resp_demo_built).
Defined.

(** A prompt to cache, a question with an image, an answer. *)
Definition resp_demo_messages : json :=
  JArray [JObject [(bs "role", JString (bs "system")); (bs "content", JString (bs "be brief"))];
          JObject [(bs "role", JString (bs "user"));
                   (bs "content", JArray [JObject [(bs "type", JString (bs "text")); (bs "text", JString (bs "what is this?"))];
                                          JObject [(bs "type", JString (bs "image_url"));
                                                   (bs "image_url", JObject [(bs "url", JString (bs "data:image/png;base64,AA=="))])]])];
          JObject [(bs "role", JString (bs "assistant")); (bs "content", JString (bs "a dot"))]].
Definition resp_demo_first : json := default JNull (responses_build_request (resp_demo_llm None) resp_demo_messages None true).


(** A reply: a thought, a text in two pieces, a call in two. *)
Definition resp_demo_reply : list said_block :=
  [SThinking [bs "hm"]; SText [bs "I "; bs "look"]; SCall (bs "c2") (bs "cat") [bs "{"; bs "}"]].
Definition resp_demo_end : reply_end := mk_reply_end (bs "resp_2") (bs "completed") None None 10 5 0 7.
Definition resp_demo_raw : json := response_json resp_demo_reply resp_demo_end.

Lemma resp_demo_reply_ok : Forall block_ok resp_demo_reply.
Proof.
  repeat (constructor; [split; [repeat (constructor; [repeat constructor; discriminate|]); constructor|]|]); try constructor;
    try done; repeat constructor; discriminate.
Qed.

Lemma responses_stream_what_they_say_witness :
  Forall block_ok resp_demo_reply /\
  exists (s : @stream json_cjson responses_stream) (out choice m : json),
    foldM (@stream_event json_cjson responses_stream 0 0) (events (bs "response.completed") resp_demo_reply resp_demo_end)
      (@stream_start json_cjson responses_stream) = Some s /\
    responses_normalize_response resp_demo_raw = Some out /\
    reply_choice out = Some choice /\ reply_message out = Some m /\
    default [] (get_string (Some m) (bs "content")) = text s /\
    cJSON_GetObjectItemCaseSensitive m (bs "tool_calls") = stream_build_tool_calls (calls s) /\
    get_string (Some choice) (bs "finish_reason") = Stream.finish_reason s /\
    response_error_message out = last_error s /\ extract_usage 0 out = Some (usage s) /\
    chain s = match get_string (Some out) (bs "provider_response_id") with
              | Some (b :: rid) => Some (b :: rid, 0%nat) | _ => None end.
Proof.
  split; [exact resp_demo_reply_ok|].
  exact (@responses_stream_what_they_say json_cjson json_laws 0 0%nat (bs "response.completed") resp_demo_reply resp_demo_end
    resp_demo_reply_ok (or_introl eq_refl)).
Defined.

Lemma responses_replays_the_reply_witness : exists (out m : json),
  responses_normalize_response resp_demo_raw = Some out /\ reply_message out = Some m /\ well_formed m /\
  map out_item (convert_message m) = [Call (bs "c2") (bs "cat") (bs "{}")].
Proof.
  exact (@responses_replays_the_reply json_cjson json_laws resp_demo_raw (array_from (map block_item resp_demo_reply)) eq_refl eq_refl).
Defined.

(** The server gave up in the middle of a call. *)
Definition resp_demo_failed : json :=
  response_json [SCall (bs "c3") (bs "rm") [bs "{path:"]]
    (mk_reply_end (bs "resp_3") (bs "failed") None (Some (bs "server error")) 10 5 0 7).

Lemma responses_failed_calls_run_witness :
  get_string (Some resp_demo_failed) (bs "status") = Some (bs "failed") /\
  exists (out choice m : json), responses_normalize_response resp_demo_failed = Some out /\ reply_choice out = Some choice /\
    reply_message out = Some m /\ calls_of m = [canonical_call (bs "c3") (bs "rm") (bs "{path:")] /\
    get_string (Some choice) (bs "finish_reason") = Some (bs "tool_calls") /\ response_error_message out = None.
Proof.
  split; [reflexivity|].
  exact (@responses_failed_calls_run json_cjson json_laws resp_demo_failed
    (array_from (map block_item [SCall (bs "c3") (bs "rm") [bs "{path:"]])) eq_refl eq_refl ltac:(discriminate)).
Defined.
