(* ===== verification/Requests.v ===== *)
(** What a model request is made of ([src/libclm/agent.c] and the schemas of
    [src/libclm/tools.c]): prompt parts, tool schemas, the response chain,
    the compaction prompt, the URLs beside the endpoint. *)

From S2P Require Import Prelude Utf8 TextClean Image RateLimit Tokens CJson History HistoryJson.
From S2P Require Import Registry Stream Provider ProviderOpenai.

(** ** Texts *)

Definition default_system_prompt : list byte :=
  bs "You are a helpful assistant. Answer from your own knowledge whenever you can. Use the provided tools only when the task requires reading or modifying the user's files or running a command on their system. When you already have the answer, reply directly without using tools.".

Definition time_context_note : list byte :=
  bs "

You may periodically receive a line beginning with "
  ++ [x22]
  ++ bs "[context update]"
  ++ [x22]
  ++ bs " carrying the current date and time, and sometimes facts about the host. Treat it as silent ambient context, not as a message from the user. Never announce, repeat, or comment on the time unless the user explicitly asks about the date or time.".

Definition build_system_prompt (base : list byte) : list byte := base ++ time_context_note.

Definition compact_prompt (target : list byte) : list byte :=
  bs "Summarize the conversation so far into a briefing that lets you continue the work without reading anything again. Use these sections, and skip a section with nothing in it:

1. Task: the goal and the current sub-goal, in the user's words where they gave them.
2. Files: every file created or changed, each with its state (done, broken, in progress) and what is left in it.
3. Facts and decisions: what was decided or verified, each with where it came from (a spec section, a test result, a command output). Keep exact numbers, identifiers, paths and names.
4. Open problems: failing tests, errors and unanswered questions, with the last thing tried for each.
5. Next step: the exact next action.

Facts already written to a notes file: name the file and what it holds; do not copy them. Keep every file path, command and number. "
  ++ target ++ bs " Output only the briefing.".

(** ** Prompt parts *)

(** The parts of the system prompt, by key. *)
Definition prompt_parts := list (list byte * list byte).

(** [strcmp(a, b) < 0]: bytes compare as [unsigned char]. *)
Fixpoint str_lt (a b : list byte) : bool :=
  match a, b with
  | _, [] => false
  | [], _ :: _ => true
  | x :: a', y :: b' => if b2z x <? b2z y then true else (b2z x =? b2z y) && str_lt a' b'
  end.

(** [clm_agent_set_prompt_part]: the parts, and whether they changed. *)
Fixpoint set_prompt_part (parts : prompt_parts) (key : list byte) (text : option (list byte))
  : prompt_parts * bool :=
  match parts with
  | [] => match text with Some t => ([(key, t)], true) | None => ([], false) end
  | (k, t) :: parts' =>
      if str_lt k key then let '(r, c) := set_prompt_part parts' key text in ((k, t) :: r, c)
      else if beq k key then
        match text with
        | Some t' => if beq t t' then (parts, false) else ((k, t') :: parts', true)
        | None => (parts', true)
        end
      else match text with Some t' => ((key, t') :: parts, true) | None => (parts, false) end
  end.

Section Json.
Context `{CJson} (cJSON_Parse : list byte -> option cJSON).

Definition parts_text (base : list byte) (parts : prompt_parts) : list byte :=
  base ++ concat (map (fun p => [x0a; x0a] ++ snd p) parts).

Definition apply_prompt_parts (parts : prompt_parts) (messages : cJSON) : cJSON :=
  match cJSON_elements messages with
  | sys :: rest =>
      match parts, role_is sys (bs "system"), get_string (Some sys) (bs "content") with
      | _ :: _, true, Some base =>
          cJSON_update_elements messages
            (cJSON_update sys (bs "content") (cJSON_CreateString (parts_text base parts)) :: rest)
      | _, _, _ => messages
      end
  | [] => messages
  end.

(** ** Tool schemas *)

Definition int_prop (desc : list byte) : cJSON :=
  cJSON_AddStringToObject (cJSON_AddStringToObject cJSON_CreateObject (bs "type") (bs "integer"))
    (bs "description") desc.

Definition inject_prop (props : cJSON) (name desc : list byte) : cJSON :=
  match cJSON_GetObjectItemCaseSensitive props name with
  | Some _ => props
  | None => cJSON_AddItemToObject props name (int_prop desc)
  end.

Definition injected (d : clm_tool_def) (props : cJSON) : cJSON :=
  let props := if has_flag d CLM_TOOL_TIMEOUT_OVERRIDABLE
               then inject_prop props (bs "timeout_ms")
                      (bs "optional: max milliseconds before this call is aborted")
               else props in
  if has_flag d CLM_TOOL_OUTPUT_CAP_OVERRIDABLE
  then inject_prop props (bs "output_cap") (bs "optional: max bytes of output to return")
  else props.

(** The [parameters] of a schema. *)
Definition tool_params (d : clm_tool_def) : cJSON :=
  let params := match s ← d_params_schema d; cJSON_Parse s with
                | Some p => match cJSON_GetObjectItem p (bs "type") with
                            | Some _ => p
                            | None => cJSON_CreateObject
                            end
                | None => cJSON_CreateObject
                end in
  let params := match cJSON_GetObjectItemCaseSensitive params (bs "type") with
                | Some _ => params
                | None => cJSON_AddStringToObject params (bs "type") (bs "object")
                end in
  match cJSON_GetObjectItemCaseSensitive params (bs "properties") with
  | Some props => cJSON_update params (bs "properties") (injected d props)
  | None => cJSON_AddItemToObject params (bs "properties") (injected d cJSON_CreateObject)
  end.

Definition tool_schema (d : clm_tool_def) : cJSON :=
  cJSON_AddItemToObject (cJSON_AddStringToObject cJSON_CreateObject (bs "type") (bs "function"))
    (bs "function")
    (cJSON_AddItemToObject
       (cJSON_AddStringToObject (cJSON_AddStringToObject cJSON_CreateObject (bs "name") (d_name d))
          (bs "description") (default [] (d_description d)))
       (bs "parameters") (tool_params d)).

(** The tools a request offers; [vision] is negative for a model known to
    take no images. *)
Definition offered (vision : Z) (t : clm_tool) : bool :=
  linked t && negb (has_flag (t_def t) CLM_TOOL_HIDDEN)
  && negb (has_flag (t_def t) CLM_TOOL_VISION && (vision <? 0)).

Definition clm_tools_build_schema (tools : registry) (vision : Z) : cJSON :=
  fold_left (fun arr t => if offered vision t then cJSON_AddItemToArray arr (tool_schema (t_def t)) else arr)
    tools cJSON_CreateArray.

(** ** The response chain *)

(** The part of [clm_agent_start_turn] that leaves out what the server
    holds: the id to continue from, the chain that stays, and the messages
    to send. *)
Definition cut_chain (chain : option (list byte * nat)) (messages : list cJSON)
  : option (list byte) * option (list byte * nat) * list cJSON :=
  match chain with
  | None => (None, None, messages)
  | Some (rid, sent) =>
      if ((0 <? sent) && (sent <=? length messages))%nat then
        let sent' := match messages !! sent with
                     | Some reply => if role_is reply (bs "assistant") then S sent else sent
                     | None => sent
                     end in
        (Some rid, chain, drop sent' messages)
      else (None, None, messages)
  end.
End Json.

(** ** Compaction *)

Definition CLM_COMPACT_TARGET_PCT : Z := 5.
Definition CLM_COMPACT_TARGET_MIN : Z := 500.
Definition CLM_COMPACT_TARGET_MAX : Z := 4000.

(** The budget a summary is scaled to, and its target in tokens. *)
Definition compact_budget (ctx_max autocompact_tokens : Z) : Z :=
  if (0 <? autocompact_tokens) && ((ctx_max <=? 0) || (autocompact_tokens <? ctx_max))
  then autocompact_tokens else ctx_max.

Definition compact_target_tokens (budget : Z) : Z :=
  let t := Z.quot (budget * CLM_COMPACT_TARGET_PCT) 100 in
  let t := if t <? CLM_COMPACT_TARGET_MIN then CLM_COMPACT_TARGET_MIN else t in
  if CLM_COMPACT_TARGET_MAX <? t then CLM_COMPACT_TARGET_MAX else t.

Definition compact_target (ctx_max autocompact_tokens : Z) : list byte :=
  let budget := compact_budget ctx_max autocompact_tokens in
  if budget <=? 0 then bs "Aim for 2000-4000 tokens."
  else snprintf 64 (bs "Aim for at most " ++ dec (compact_target_tokens budget) ++ bs " tokens.").

(** [compact_effort] *)
Definition compaction_effort (setting : option (list byte)) (llm : clm_llm) : option (list byte) :=
  match setting with
  | Some e => if beq e (bs "session") then effort llm else Some e
  | None =>
      match effort llm with
      | Some _ => if bool_decide (provider llm = CLM_PROVIDER_ANTHROPIC) then effort llm
                  else Some (bs "none")
      | None => None
      end
  end.

(** ** URLs *)

(** [strrchr(s, '/')]: the offset of the last slash. *)
Fixpoint last_slash (s : list byte) : option nat :=
  match s with
  | [] => None
  | b :: s' => match last_slash s' with
               | Some i => Some (S i)
               | None => if beq [b] [x2f] then Some 0%nat else None
               end
  end.

Definition clm_derive_models_url (url : list byte) : list byte :=
  let comp := bs "/chat/completions" in
  let n := (length url - length comp)%nat in
  if (length comp <=? length url)%nat && beq (drop n url) comp then take n url ++ bs "/models"
  else match last_slash url with
       | Some i => take i url ++ bs "/models"
       | None => url
       end.

Definition clm_derive_props_url (url : list byte) : option (list byte) :=
  a ← find_sub (bs "//") url;
  let rest := drop (a + 2) url in
  Some (match find_sub (bs "/") rest with
        | Some i => take (a + 2 + i) url
        | None => url
        end ++ bs "/props").

(** [agent_wants_file_uploads] *)
Definition wants_file_uploads (llm : clm_llm) (file_uploads_cfg : Z) : bool :=
  if negb (bool_decide (provider llm = CLM_PROVIDER_ANTHROPIC)) || (file_uploads_cfg <? 0) then false
  else (0 <? file_uploads_cfg) || has_prefix (bs "https://api.anthropic.com/") (base_url llm).

(** ** What a part is afterwards *)

Fixpoint part_of (parts : prompt_parts) (key : list byte) : option (list byte) :=
  match parts with
  | [] => None
  | (k, t) :: parts' => if beq key k then Some t else part_of parts' key
  end.

(** The keys ascend. *)
Fixpoint parts_sorted (parts : prompt_parts) : Prop :=
  match parts with
  | [] => True
  | (k, _) :: parts' => Forall (fun p => str_lt k (fst p) = true) parts' /\ parts_sorted parts'
  end.

Lemma str_lt_irrefl a : str_lt a a = false.
Proof. induction a as [|x a IH]; [done|]. cbn. by rewrite Z.ltb_irrefl, Z.eqb_refl, IH. Qed.

Lemma str_lt_trans a b c : str_lt a b = true -> str_lt b c = true -> str_lt a c = true.
Proof.
  revert b c. induction a as [|x a IH]; intros [|y b] [|z c]; cbn; try done.
  destruct (Z.ltb_spec (b2z x) (b2z y)), (Z.ltb_spec (b2z y) (b2z z)), (Z.ltb_spec (b2z x) (b2z z)); try done;
    try lia; rewrite ?andb_true_iff, ?Z.eqb_eq; try (intros; lia).
  intros [E1 L1] [E2 L2]. split; [lia|eauto].
Qed.

Lemma str_lt_total a b : str_lt a b = false -> a <> b -> str_lt b a = true.
Proof.
  revert b. induction a as [|x a IH]; intros [|y b]; cbn; try done.
  destruct (Z.ltb_spec (b2z x) (b2z y)), (Z.ltb_spec (b2z y) (b2z x)); try done.
  replace (b2z x) with (b2z y) by lia. rewrite Z.eqb_refl. cbn. intros Hlt Hn. apply IH; [done|].
  intros ->. apply Hn. f_equal. apply b2z_inj. lia.
Qed.

Lemma part_of_below parts key : Forall (fun p => str_lt key (fst p) = true) parts -> part_of parts key = None.
Proof.
  induction 1 as [|[k t] parts Hk _ IH]; [done|]. cbn in *. destruct (beq key k) eqn:E; [|done].
  apply beq_eq in E as ->. by rewrite str_lt_irrefl in Hk.
Qed.

Lemma below_trans k key parts : str_lt key k = true -> Forall (fun p => str_lt k (fst p) = true) parts ->
  Forall (fun p : list byte * list byte => str_lt key (fst p) = true) parts.
Proof. intros Hk. apply Forall_impl. intros p. by apply str_lt_trans. Qed.

Lemma set_part_below parts key text k0 : str_lt k0 key = true ->
  Forall (fun p => str_lt k0 (fst p) = true) parts ->
  Forall (fun p => str_lt k0 (fst p) = true) (fst (set_prompt_part parts key text)).
Proof.
  intros Hk. induction parts as [|[k t] parts IH]; intros Hall; cbn [set_prompt_part].
  { destruct text; cbn; [by repeat constructor|constructor]. }
  inversion Hall as [|? ? Hh Ht]; subst. destruct (str_lt k key).
  { specialize (IH Ht). destruct (set_prompt_part parts key text). by constructor. }
  destruct (beq k key), text as [t'|]; try done; [|by repeat constructor].
  destruct (beq t t'); [done|by constructor].
Qed.

Lemma set_part_spec parts key text : parts_sorted parts ->
  parts_sorted (fst (set_prompt_part parts key text)) /\
  (forall k, part_of (fst (set_prompt_part parts key text)) k = if beq k key then text else part_of parts k) /\
  (snd (set_prompt_part parts key text) = false <-> fst (set_prompt_part parts key text) = parts).
Proof.
  assert (Longer : forall (x : list byte * list byte) l, x :: l <> l).
  { intros x l Hl. apply (f_equal length) in Hl. cbn in Hl. lia. }
  induction parts as [|[k t] parts IH]; intros Hs; cbn [set_prompt_part].
  { destruct text as [t'|]; (split; [by cbn; auto|]; split; [|done]); intros k; cbn; by destruct (beq k key). }
  destruct Hs as [Hb Hs]. destruct (str_lt k key) eqn:Ek.
  - destruct (IH Hs) as (I1 & I2 & I3). pose proof (set_part_below parts key text k Ek Hb) as Hb'.
    destruct (set_prompt_part parts key text) as [r c]. cbn [fst snd] in *. split; [done|]. split.
    + intros k'. cbn [part_of]. rewrite I2. destruct (beq k' k) eqn:E1; [|done]. apply beq_eq in E1 as ->.
      assert (beq k key = false) as ->; [|done]. apply beq_neq. intros ->. by rewrite str_lt_irrefl in Ek.
    + rewrite I3. split; [by intros ->|by intros [= ->]].
  - destruct (beq k key) eqn:E.
    + apply beq_eq in E as ->. destruct text as [t'|]; [destruct (beq t t') eqn:Et|]; cbn [fst snd].
      * apply beq_eq in Et as ->. split; [done|]. split; [|done]. intros k'. cbn. by destruct (beq k' key).
      * apply beq_neq in Et. split; [done|]. split; [|split; [done|by intros [= ->]]].
        intros k'. cbn. by destruct (beq k' key).
      * split; [done|]. split; [|split; [done|intros Hp; by apply eq_sym, Longer in Hp]].
        intros k'. cbn. destruct (beq k' key) eqn:E'; [|done]. apply beq_eq in E' as ->. by apply part_of_below.
    + apply beq_neq in E. assert (Hlt : str_lt key k = true) by (apply str_lt_total; done).
      assert (Hall : Forall (fun p => str_lt key (fst p) = true) ((k, t) :: parts)).
      { constructor; [done|]. by eapply below_trans. }
      destruct text as [t'|]; cbn [fst snd].
      * split; [by split|]. split; [by intros k'; cbn; destruct (beq k' key)|].
        split; [done|intros Hp; by apply Longer in Hp].
      * split; [done|]. split; [|done]. intros k'. destruct (beq k' key) eqn:E'; [|done].
        apply beq_eq in E' as ->. by apply part_of_below.
Qed.

(** The prompt parts are a map, kept in the order of its keys. Setting
    a part under a key changes that key alone, a NULL text removes it, and
    the agent is told that the prompt changed (and drops the response chain)
    exactly when it did. *)
Theorem prompt_parts_are_a_map parts key text (Hs : parts_sorted parts) :
  let '(parts', changed) := set_prompt_part parts key text in
  parts_sorted parts' /\
  (forall k, part_of parts' k = if beq k key then text else part_of parts k) /\
  (changed = false <-> parts' = parts).
Proof. pose proof (set_part_spec parts key text Hs). by destruct (set_prompt_part parts key text). Qed.

Lemma prompt_parts_are_a_map_witness :
  parts_sorted [(bs "a", bs "1"); (bs "c", bs "3")] /\
  let '(parts', changed) := set_prompt_part [(bs "a", bs "1"); (bs "c", bs "3")] (bs "b") (Some (bs "2")) in
  parts_sorted parts' /\
  (forall k, part_of parts' k = if beq k (bs "b") then Some (bs "2") else part_of [(bs "a", bs "1"); (bs "c", bs "3")] k) /\
  (changed = false <-> parts' = [(bs "a", bs "1"); (bs "c", bs "3")]).
Proof.
  assert (Hs : parts_sorted [(bs "a", bs "1"); (bs "c", bs "3")]) by (repeat constructor).
  split; [exact Hs|]. exact (prompt_parts_are_a_map _ (bs "b") (Some (bs "2")) Hs).
Defined.

(** A summary is asked to stay between the bounds of the code, whatever the
    budget. *)
Lemma compact_target_bounds budget :
  CLM_COMPACT_TARGET_MIN <= compact_target_tokens budget <= CLM_COMPACT_TARGET_MAX.
Proof.
  unfold compact_target_tokens, CLM_COMPACT_TARGET_MIN, CLM_COMPACT_TARGET_MAX.
  destruct (Z.ltb_spec (budget * CLM_COMPACT_TARGET_PCT ÷ 100) 500); [by cbn|].
  destruct (Z.ltb_spec 4000 (budget * CLM_COMPACT_TARGET_PCT ÷ 100)); lia.
Qed.
