(* ===== verification/AgentState.v ===== *)
(** The state of an agent ([struct clm_agent] in [clm/internal.h],
    [struct clm_async_turn] in [src/libclm/agent.c]) and of the host behind
    it, as far as a turn changes them. A field keeps its C name; the setters
    are one per field. *)

From S2P Require Import Prelude Utf8 TextClean Image RateLimit Tokens CJson History HistoryJson Registry.
From S2P Require Import Files Stream Provider ProviderOpenai Requests.

Inductive clm_agent_state :=
| CLM_STATE_IDLE | CLM_STATE_THINKING | CLM_STATE_CALLING_TOOL | CLM_STATE_RATE_LIMITED
| CLM_STATE_COMPLETE | CLM_STATE_ERROR.

#[export] Instance clm_agent_state_eq_dec : EqDecision clm_agent_state.
Proof. solve_decision. Defined.

(** What does not change while turns run: the settings of [clm_cfg], with
    [ctx_max] and [vision] as the probes found them, and whether the host
    has timers. *)
Record settings := mk_settings {
  stream_on : bool;
  max_iterations : Z;
  ctx_max : Z;
  autocompact_pct : Z;
  autocompact_tokens : Z;
  vision : Z;
  system_prompt_base : option (list byte);
  system_prompt_suffix : option (list byte);
  compact_effort : option (list byte);
  compressor : option clm_compressor;
  has_timers : bool
}.

Section State.
Context `{CJson} `{!Provider}.

(** [struct clm_async_turn] *)
Record turn := mk_turn {
  t_body : list byte;
  t_streaming : bool;
  t_stream : stream;
  history_msgs : nat;
  ctx_bytes : Z;
  rl_retries : Z
}.

Definition with_stream (t : turn) (s : stream) : turn :=
  mk_turn (t_body t) (t_streaming t) s (history_msgs t) (ctx_bytes t) (rl_retries t).

(** What a request was posted for: its callbacks and their [user]. *)
Inductive request := RTurn (t : turn) | RCompact | RUpload (url : list byte).

(** What happened, for the theorems to speak of: a turn was accepted (for a
    prompt, or to compact), [cb_on_turn_done] was called, a text was accepted
    by [clm_agent_notify], a user message joined the history, a request was
    built from a history, with the response it continues, its messages and
    those it sends, a request left, a wait was begun, a batch of tool calls
    was handed over, the frontend began a turn from within
    [cb_on_turn_done], a notification was refused after its turn. *)
Inductive ev :=
| EvBegin (prompt : bool)
| EvDone (status : Z)
| EvNotify (text : list byte)
| EvUser (text : list byte)
| EvTurn (h : clm_history) (prev : option (list byte)) (all sent : list cJSON)
| EvPost (k : request)
| EvWait (ms : Z)
| EvBatch
| EvReentry
| EvDropped (text : list byte).

(** [struct clm_agent] and the host. *)
Record world := mk_world {
  state : clm_agent_state;
  history : clm_history;
  last_error : option (list byte);
  iteration : Z;
  gate_denials : Z;
  ctx_used : Z;
  facts_pending : bool;
  last_time_stamp : Z;
  pending_notify : option (list byte);
  cancelling : bool;
  compact_resume_chain : bool;
  compact_body : option (list byte);
  compact_rl_retries : Z;
  compact_effort_changed : bool;
  compact_effort_fallback : bool;
  mid_chain_compact_started : bool;
  mid_chain_compact_succeeded : bool;
  mid_chain_compact_failed : bool;
  (** [resp_chain_id] and [resp_chain_sent] *)
  resp_chain : option (list byte * nat);
  tools_unsupported : bool;
  (** [files] and [file_uploads] *)
  ups : uploads;
  files_lost : Z;
  llm_rl : option clm_ratelimit;
  tools : registry;
  parts : prompt_parts;
  prompt_parts_changed : bool;
  (** the calls of the batch that runs *)
  active_batch : option cJSON;
  (** the handle of the request in flight *)
  inflight : option nat;
  (** whether the handle is not NULL *)
  llm_rl_timer : bool;
  rl_parked_turn : option turn;
  compact_rl_timer : bool;
  (** the host: its requests by handle, and which were cancelled *)
  requests : list (nat * (request * bool));
  next_id : nat;
  (** the host: its timers *)
  llm_timer : option turn;
  compact_timer : bool;
  (** what happened, the newest first *)
  log : list ev;
  (** NULL was handed to [strdup] *)
  bad : bool
}.

Definition set_state (v : clm_agent_state) (w : world) : world :=
  mk_world v (history w) (last_error w) (iteration w) (gate_denials w) (ctx_used w) (facts_pending
    w) (last_time_stamp w) (pending_notify w) (cancelling w) (compact_resume_chain w)
    (compact_body w) (compact_rl_retries w) (compact_effort_changed w) (compact_effort_fallback w)
    (mid_chain_compact_started w) (mid_chain_compact_succeeded w) (mid_chain_compact_failed w)
    (resp_chain w) (tools_unsupported w) (ups w) (files_lost w) (llm_rl w) (tools w) (parts w)
    (prompt_parts_changed w) (active_batch w) (inflight w) (llm_rl_timer w) (rl_parked_turn w)
    (compact_rl_timer w) (requests w) (next_id w) (llm_timer w) (compact_timer w) (log w) (bad w).
Definition set_history (v : clm_history) (w : world) : world :=
  mk_world (state w) v (last_error w) (iteration w) (gate_denials w) (ctx_used w) (facts_pending
    w) (last_time_stamp w) (pending_notify w) (cancelling w) (compact_resume_chain w)
    (compact_body w) (compact_rl_retries w) (compact_effort_changed w) (compact_effort_fallback w)
    (mid_chain_compact_started w) (mid_chain_compact_succeeded w) (mid_chain_compact_failed w)
    (resp_chain w) (tools_unsupported w) (ups w) (files_lost w) (llm_rl w) (tools w) (parts w)
    (prompt_parts_changed w) (active_batch w) (inflight w) (llm_rl_timer w) (rl_parked_turn w)
    (compact_rl_timer w) (requests w) (next_id w) (llm_timer w) (compact_timer w) (log w) (bad w).
Definition set_last_error (v : option (list byte)) (w : world) : world :=
  mk_world (state w) (history w) v (iteration w) (gate_denials w) (ctx_used w) (facts_pending w)
    (last_time_stamp w) (pending_notify w) (cancelling w) (compact_resume_chain w) (compact_body
    w) (compact_rl_retries w) (compact_effort_changed w) (compact_effort_fallback w)
    (mid_chain_compact_started w) (mid_chain_compact_succeeded w) (mid_chain_compact_failed w)
    (resp_chain w) (tools_unsupported w) (ups w) (files_lost w) (llm_rl w) (tools w) (parts w)
    (prompt_parts_changed w) (active_batch w) (inflight w) (llm_rl_timer w) (rl_parked_turn w)
    (compact_rl_timer w) (requests w) (next_id w) (llm_timer w) (compact_timer w) (log w) (bad w).
Definition set_iteration (v : Z) (w : world) : world :=
  mk_world (state w) (history w) (last_error w) v (gate_denials w) (ctx_used w) (facts_pending w)
    (last_time_stamp w) (pending_notify w) (cancelling w) (compact_resume_chain w) (compact_body
    w) (compact_rl_retries w) (compact_effort_changed w) (compact_effort_fallback w)
    (mid_chain_compact_started w) (mid_chain_compact_succeeded w) (mid_chain_compact_failed w)
    (resp_chain w) (tools_unsupported w) (ups w) (files_lost w) (llm_rl w) (tools w) (parts w)
    (prompt_parts_changed w) (active_batch w) (inflight w) (llm_rl_timer w) (rl_parked_turn w)
    (compact_rl_timer w) (requests w) (next_id w) (llm_timer w) (compact_timer w) (log w) (bad w).
Definition set_gate_denials (v : Z) (w : world) : world :=
  mk_world (state w) (history w) (last_error w) (iteration w) v (ctx_used w) (facts_pending w)
    (last_time_stamp w) (pending_notify w) (cancelling w) (compact_resume_chain w) (compact_body
    w) (compact_rl_retries w) (compact_effort_changed w) (compact_effort_fallback w)
    (mid_chain_compact_started w) (mid_chain_compact_succeeded w) (mid_chain_compact_failed w)
    (resp_chain w) (tools_unsupported w) (ups w) (files_lost w) (llm_rl w) (tools w) (parts w)
    (prompt_parts_changed w) (active_batch w) (inflight w) (llm_rl_timer w) (rl_parked_turn w)
    (compact_rl_timer w) (requests w) (next_id w) (llm_timer w) (compact_timer w) (log w) (bad w).
Definition set_ctx_used (v : Z) (w : world) : world :=
  mk_world (state w) (history w) (last_error w) (iteration w) (gate_denials w) v (facts_pending w)
    (last_time_stamp w) (pending_notify w) (cancelling w) (compact_resume_chain w) (compact_body
    w) (compact_rl_retries w) (compact_effort_changed w) (compact_effort_fallback w)
    (mid_chain_compact_started w) (mid_chain_compact_succeeded w) (mid_chain_compact_failed w)
    (resp_chain w) (tools_unsupported w) (ups w) (files_lost w) (llm_rl w) (tools w) (parts w)
    (prompt_parts_changed w) (active_batch w) (inflight w) (llm_rl_timer w) (rl_parked_turn w)
    (compact_rl_timer w) (requests w) (next_id w) (llm_timer w) (compact_timer w) (log w) (bad w).
Definition set_facts_pending (v : bool) (w : world) : world :=
  mk_world (state w) (history w) (last_error w) (iteration w) (gate_denials w) (ctx_used w) v
    (last_time_stamp w) (pending_notify w) (cancelling w) (compact_resume_chain w) (compact_body
    w) (compact_rl_retries w) (compact_effort_changed w) (compact_effort_fallback w)
    (mid_chain_compact_started w) (mid_chain_compact_succeeded w) (mid_chain_compact_failed w)
    (resp_chain w) (tools_unsupported w) (ups w) (files_lost w) (llm_rl w) (tools w) (parts w)
    (prompt_parts_changed w) (active_batch w) (inflight w) (llm_rl_timer w) (rl_parked_turn w)
    (compact_rl_timer w) (requests w) (next_id w) (llm_timer w) (compact_timer w) (log w) (bad w).
Definition set_last_time_stamp (v : Z) (w : world) : world :=
  mk_world (state w) (history w) (last_error w) (iteration w) (gate_denials w) (ctx_used w)
    (facts_pending w) v (pending_notify w) (cancelling w) (compact_resume_chain w) (compact_body
    w) (compact_rl_retries w) (compact_effort_changed w) (compact_effort_fallback w)
    (mid_chain_compact_started w) (mid_chain_compact_succeeded w) (mid_chain_compact_failed w)
    (resp_chain w) (tools_unsupported w) (ups w) (files_lost w) (llm_rl w) (tools w) (parts w)
    (prompt_parts_changed w) (active_batch w) (inflight w) (llm_rl_timer w) (rl_parked_turn w)
    (compact_rl_timer w) (requests w) (next_id w) (llm_timer w) (compact_timer w) (log w) (bad w).
Definition set_pending_notify (v : option (list byte)) (w : world) : world :=
  mk_world (state w) (history w) (last_error w) (iteration w) (gate_denials w) (ctx_used w)
    (facts_pending w) (last_time_stamp w) v (cancelling w) (compact_resume_chain w) (compact_body
    w) (compact_rl_retries w) (compact_effort_changed w) (compact_effort_fallback w)
    (mid_chain_compact_started w) (mid_chain_compact_succeeded w) (mid_chain_compact_failed w)
    (resp_chain w) (tools_unsupported w) (ups w) (files_lost w) (llm_rl w) (tools w) (parts w)
    (prompt_parts_changed w) (active_batch w) (inflight w) (llm_rl_timer w) (rl_parked_turn w)
    (compact_rl_timer w) (requests w) (next_id w) (llm_timer w) (compact_timer w) (log w) (bad w).
Definition set_cancelling (v : bool) (w : world) : world :=
  mk_world (state w) (history w) (last_error w) (iteration w) (gate_denials w) (ctx_used w)
    (facts_pending w) (last_time_stamp w) (pending_notify w) v (compact_resume_chain w)
    (compact_body w) (compact_rl_retries w) (compact_effort_changed w) (compact_effort_fallback w)
    (mid_chain_compact_started w) (mid_chain_compact_succeeded w) (mid_chain_compact_failed w)
    (resp_chain w) (tools_unsupported w) (ups w) (files_lost w) (llm_rl w) (tools w) (parts w)
    (prompt_parts_changed w) (active_batch w) (inflight w) (llm_rl_timer w) (rl_parked_turn w)
    (compact_rl_timer w) (requests w) (next_id w) (llm_timer w) (compact_timer w) (log w) (bad w).
Definition set_compact_resume_chain (v : bool) (w : world) : world :=
  mk_world (state w) (history w) (last_error w) (iteration w) (gate_denials w) (ctx_used w)
    (facts_pending w) (last_time_stamp w) (pending_notify w) (cancelling w) v (compact_body w)
    (compact_rl_retries w) (compact_effort_changed w) (compact_effort_fallback w)
    (mid_chain_compact_started w) (mid_chain_compact_succeeded w) (mid_chain_compact_failed w)
    (resp_chain w) (tools_unsupported w) (ups w) (files_lost w) (llm_rl w) (tools w) (parts w)
    (prompt_parts_changed w) (active_batch w) (inflight w) (llm_rl_timer w) (rl_parked_turn w)
    (compact_rl_timer w) (requests w) (next_id w) (llm_timer w) (compact_timer w) (log w) (bad w).
Definition set_compact_body (v : option (list byte)) (w : world) : world :=
  mk_world (state w) (history w) (last_error w) (iteration w) (gate_denials w) (ctx_used w)
    (facts_pending w) (last_time_stamp w) (pending_notify w) (cancelling w) (compact_resume_chain
    w) v (compact_rl_retries w) (compact_effort_changed w) (compact_effort_fallback w)
    (mid_chain_compact_started w) (mid_chain_compact_succeeded w) (mid_chain_compact_failed w)
    (resp_chain w) (tools_unsupported w) (ups w) (files_lost w) (llm_rl w) (tools w) (parts w)
    (prompt_parts_changed w) (active_batch w) (inflight w) (llm_rl_timer w) (rl_parked_turn w)
    (compact_rl_timer w) (requests w) (next_id w) (llm_timer w) (compact_timer w) (log w) (bad w).
Definition set_compact_rl_retries (v : Z) (w : world) : world :=
  mk_world (state w) (history w) (last_error w) (iteration w) (gate_denials w) (ctx_used w)
    (facts_pending w) (last_time_stamp w) (pending_notify w) (cancelling w) (compact_resume_chain
    w) (compact_body w) v (compact_effort_changed w) (compact_effort_fallback w)
    (mid_chain_compact_started w) (mid_chain_compact_succeeded w) (mid_chain_compact_failed w)
    (resp_chain w) (tools_unsupported w) (ups w) (files_lost w) (llm_rl w) (tools w) (parts w)
    (prompt_parts_changed w) (active_batch w) (inflight w) (llm_rl_timer w) (rl_parked_turn w)
    (compact_rl_timer w) (requests w) (next_id w) (llm_timer w) (compact_timer w) (log w) (bad w).
Definition set_compact_effort_changed (v : bool) (w : world) : world :=
  mk_world (state w) (history w) (last_error w) (iteration w) (gate_denials w) (ctx_used w)
    (facts_pending w) (last_time_stamp w) (pending_notify w) (cancelling w) (compact_resume_chain
    w) (compact_body w) (compact_rl_retries w) v (compact_effort_fallback w)
    (mid_chain_compact_started w) (mid_chain_compact_succeeded w) (mid_chain_compact_failed w)
    (resp_chain w) (tools_unsupported w) (ups w) (files_lost w) (llm_rl w) (tools w) (parts w)
    (prompt_parts_changed w) (active_batch w) (inflight w) (llm_rl_timer w) (rl_parked_turn w)
    (compact_rl_timer w) (requests w) (next_id w) (llm_timer w) (compact_timer w) (log w) (bad w).
Definition set_compact_effort_fallback (v : bool) (w : world) : world :=
  mk_world (state w) (history w) (last_error w) (iteration w) (gate_denials w) (ctx_used w)
    (facts_pending w) (last_time_stamp w) (pending_notify w) (cancelling w) (compact_resume_chain
    w) (compact_body w) (compact_rl_retries w) (compact_effort_changed w) v
    (mid_chain_compact_started w) (mid_chain_compact_succeeded w) (mid_chain_compact_failed w)
    (resp_chain w) (tools_unsupported w) (ups w) (files_lost w) (llm_rl w) (tools w) (parts w)
    (prompt_parts_changed w) (active_batch w) (inflight w) (llm_rl_timer w) (rl_parked_turn w)
    (compact_rl_timer w) (requests w) (next_id w) (llm_timer w) (compact_timer w) (log w) (bad w).
Definition set_mid_chain_compact_started (v : bool) (w : world) : world :=
  mk_world (state w) (history w) (last_error w) (iteration w) (gate_denials w) (ctx_used w)
    (facts_pending w) (last_time_stamp w) (pending_notify w) (cancelling w) (compact_resume_chain
    w) (compact_body w) (compact_rl_retries w) (compact_effort_changed w) (compact_effort_fallback
    w) v (mid_chain_compact_succeeded w) (mid_chain_compact_failed w) (resp_chain w)
    (tools_unsupported w) (ups w) (files_lost w) (llm_rl w) (tools w) (parts w)
    (prompt_parts_changed w) (active_batch w) (inflight w) (llm_rl_timer w) (rl_parked_turn w)
    (compact_rl_timer w) (requests w) (next_id w) (llm_timer w) (compact_timer w) (log w) (bad w).
Definition set_mid_chain_compact_succeeded (v : bool) (w : world) : world :=
  mk_world (state w) (history w) (last_error w) (iteration w) (gate_denials w) (ctx_used w)
    (facts_pending w) (last_time_stamp w) (pending_notify w) (cancelling w) (compact_resume_chain
    w) (compact_body w) (compact_rl_retries w) (compact_effort_changed w) (compact_effort_fallback
    w) (mid_chain_compact_started w) v (mid_chain_compact_failed w) (resp_chain w)
    (tools_unsupported w) (ups w) (files_lost w) (llm_rl w) (tools w) (parts w)
    (prompt_parts_changed w) (active_batch w) (inflight w) (llm_rl_timer w) (rl_parked_turn w)
    (compact_rl_timer w) (requests w) (next_id w) (llm_timer w) (compact_timer w) (log w) (bad w).
Definition set_mid_chain_compact_failed (v : bool) (w : world) : world :=
  mk_world (state w) (history w) (last_error w) (iteration w) (gate_denials w) (ctx_used w)
    (facts_pending w) (last_time_stamp w) (pending_notify w) (cancelling w) (compact_resume_chain
    w) (compact_body w) (compact_rl_retries w) (compact_effort_changed w) (compact_effort_fallback
    w) (mid_chain_compact_started w) (mid_chain_compact_succeeded w) v (resp_chain w)
    (tools_unsupported w) (ups w) (files_lost w) (llm_rl w) (tools w) (parts w)
    (prompt_parts_changed w) (active_batch w) (inflight w) (llm_rl_timer w) (rl_parked_turn w)
    (compact_rl_timer w) (requests w) (next_id w) (llm_timer w) (compact_timer w) (log w) (bad w).
Definition set_resp_chain (v : option (list byte * nat)) (w : world) : world :=
  mk_world (state w) (history w) (last_error w) (iteration w) (gate_denials w) (ctx_used w)
    (facts_pending w) (last_time_stamp w) (pending_notify w) (cancelling w) (compact_resume_chain
    w) (compact_body w) (compact_rl_retries w) (compact_effort_changed w) (compact_effort_fallback
    w) (mid_chain_compact_started w) (mid_chain_compact_succeeded w) (mid_chain_compact_failed w)
    v (tools_unsupported w) (ups w) (files_lost w) (llm_rl w) (tools w) (parts w)
    (prompt_parts_changed w) (active_batch w) (inflight w) (llm_rl_timer w) (rl_parked_turn w)
    (compact_rl_timer w) (requests w) (next_id w) (llm_timer w) (compact_timer w) (log w) (bad w).
Definition set_tools_unsupported (v : bool) (w : world) : world :=
  mk_world (state w) (history w) (last_error w) (iteration w) (gate_denials w) (ctx_used w)
    (facts_pending w) (last_time_stamp w) (pending_notify w) (cancelling w) (compact_resume_chain
    w) (compact_body w) (compact_rl_retries w) (compact_effort_changed w) (compact_effort_fallback
    w) (mid_chain_compact_started w) (mid_chain_compact_succeeded w) (mid_chain_compact_failed w)
    (resp_chain w) v (ups w) (files_lost w) (llm_rl w) (tools w) (parts w) (prompt_parts_changed
    w) (active_batch w) (inflight w) (llm_rl_timer w) (rl_parked_turn w) (compact_rl_timer w)
    (requests w) (next_id w) (llm_timer w) (compact_timer w) (log w) (bad w).
Definition set_ups (v : uploads) (w : world) : world :=
  mk_world (state w) (history w) (last_error w) (iteration w) (gate_denials w) (ctx_used w)
    (facts_pending w) (last_time_stamp w) (pending_notify w) (cancelling w) (compact_resume_chain
    w) (compact_body w) (compact_rl_retries w) (compact_effort_changed w) (compact_effort_fallback
    w) (mid_chain_compact_started w) (mid_chain_compact_succeeded w) (mid_chain_compact_failed w)
    (resp_chain w) (tools_unsupported w) v (files_lost w) (llm_rl w) (tools w) (parts w)
    (prompt_parts_changed w) (active_batch w) (inflight w) (llm_rl_timer w) (rl_parked_turn w)
    (compact_rl_timer w) (requests w) (next_id w) (llm_timer w) (compact_timer w) (log w) (bad w).
Definition set_files_lost (v : Z) (w : world) : world :=
  mk_world (state w) (history w) (last_error w) (iteration w) (gate_denials w) (ctx_used w)
    (facts_pending w) (last_time_stamp w) (pending_notify w) (cancelling w) (compact_resume_chain
    w) (compact_body w) (compact_rl_retries w) (compact_effort_changed w) (compact_effort_fallback
    w) (mid_chain_compact_started w) (mid_chain_compact_succeeded w) (mid_chain_compact_failed w)
    (resp_chain w) (tools_unsupported w) (ups w) v (llm_rl w) (tools w) (parts w)
    (prompt_parts_changed w) (active_batch w) (inflight w) (llm_rl_timer w) (rl_parked_turn w)
    (compact_rl_timer w) (requests w) (next_id w) (llm_timer w) (compact_timer w) (log w) (bad w).
Definition set_llm_rl (v : option clm_ratelimit) (w : world) : world :=
  mk_world (state w) (history w) (last_error w) (iteration w) (gate_denials w) (ctx_used w)
    (facts_pending w) (last_time_stamp w) (pending_notify w) (cancelling w) (compact_resume_chain
    w) (compact_body w) (compact_rl_retries w) (compact_effort_changed w) (compact_effort_fallback
    w) (mid_chain_compact_started w) (mid_chain_compact_succeeded w) (mid_chain_compact_failed w)
    (resp_chain w) (tools_unsupported w) (ups w) (files_lost w) v (tools w) (parts w)
    (prompt_parts_changed w) (active_batch w) (inflight w) (llm_rl_timer w) (rl_parked_turn w)
    (compact_rl_timer w) (requests w) (next_id w) (llm_timer w) (compact_timer w) (log w) (bad w).
Definition set_tools (v : registry) (w : world) : world :=
  mk_world (state w) (history w) (last_error w) (iteration w) (gate_denials w) (ctx_used w)
    (facts_pending w) (last_time_stamp w) (pending_notify w) (cancelling w) (compact_resume_chain
    w) (compact_body w) (compact_rl_retries w) (compact_effort_changed w) (compact_effort_fallback
    w) (mid_chain_compact_started w) (mid_chain_compact_succeeded w) (mid_chain_compact_failed w)
    (resp_chain w) (tools_unsupported w) (ups w) (files_lost w) (llm_rl w) v (parts w)
    (prompt_parts_changed w) (active_batch w) (inflight w) (llm_rl_timer w) (rl_parked_turn w)
    (compact_rl_timer w) (requests w) (next_id w) (llm_timer w) (compact_timer w) (log w) (bad w).
Definition set_parts (v : prompt_parts) (w : world) : world :=
  mk_world (state w) (history w) (last_error w) (iteration w) (gate_denials w) (ctx_used w)
    (facts_pending w) (last_time_stamp w) (pending_notify w) (cancelling w) (compact_resume_chain
    w) (compact_body w) (compact_rl_retries w) (compact_effort_changed w) (compact_effort_fallback
    w) (mid_chain_compact_started w) (mid_chain_compact_succeeded w) (mid_chain_compact_failed w)
    (resp_chain w) (tools_unsupported w) (ups w) (files_lost w) (llm_rl w) (tools w) v
    (prompt_parts_changed w) (active_batch w) (inflight w) (llm_rl_timer w) (rl_parked_turn w)
    (compact_rl_timer w) (requests w) (next_id w) (llm_timer w) (compact_timer w) (log w) (bad w).
Definition set_prompt_parts_changed (v : bool) (w : world) : world :=
  mk_world (state w) (history w) (last_error w) (iteration w) (gate_denials w) (ctx_used w)
    (facts_pending w) (last_time_stamp w) (pending_notify w) (cancelling w) (compact_resume_chain
    w) (compact_body w) (compact_rl_retries w) (compact_effort_changed w) (compact_effort_fallback
    w) (mid_chain_compact_started w) (mid_chain_compact_succeeded w) (mid_chain_compact_failed w)
    (resp_chain w) (tools_unsupported w) (ups w) (files_lost w) (llm_rl w) (tools w) (parts w) v
    (active_batch w) (inflight w) (llm_rl_timer w) (rl_parked_turn w) (compact_rl_timer w)
    (requests w) (next_id w) (llm_timer w) (compact_timer w) (log w) (bad w).
Definition set_active_batch (v : option cJSON) (w : world) : world :=
  mk_world (state w) (history w) (last_error w) (iteration w) (gate_denials w) (ctx_used w)
    (facts_pending w) (last_time_stamp w) (pending_notify w) (cancelling w) (compact_resume_chain
    w) (compact_body w) (compact_rl_retries w) (compact_effort_changed w) (compact_effort_fallback
    w) (mid_chain_compact_started w) (mid_chain_compact_succeeded w) (mid_chain_compact_failed w)
    (resp_chain w) (tools_unsupported w) (ups w) (files_lost w) (llm_rl w) (tools w) (parts w)
    (prompt_parts_changed w) v (inflight w) (llm_rl_timer w) (rl_parked_turn w) (compact_rl_timer
    w) (requests w) (next_id w) (llm_timer w) (compact_timer w) (log w) (bad w).
Definition set_inflight (v : option nat) (w : world) : world :=
  mk_world (state w) (history w) (last_error w) (iteration w) (gate_denials w) (ctx_used w)
    (facts_pending w) (last_time_stamp w) (pending_notify w) (cancelling w) (compact_resume_chain
    w) (compact_body w) (compact_rl_retries w) (compact_effort_changed w) (compact_effort_fallback
    w) (mid_chain_compact_started w) (mid_chain_compact_succeeded w) (mid_chain_compact_failed w)
    (resp_chain w) (tools_unsupported w) (ups w) (files_lost w) (llm_rl w) (tools w) (parts w)
    (prompt_parts_changed w) (active_batch w) v (llm_rl_timer w) (rl_parked_turn w)
    (compact_rl_timer w) (requests w) (next_id w) (llm_timer w) (compact_timer w) (log w) (bad w).
Definition set_llm_rl_timer (v : bool) (w : world) : world :=
  mk_world (state w) (history w) (last_error w) (iteration w) (gate_denials w) (ctx_used w)
    (facts_pending w) (last_time_stamp w) (pending_notify w) (cancelling w) (compact_resume_chain
    w) (compact_body w) (compact_rl_retries w) (compact_effort_changed w) (compact_effort_fallback
    w) (mid_chain_compact_started w) (mid_chain_compact_succeeded w) (mid_chain_compact_failed w)
    (resp_chain w) (tools_unsupported w) (ups w) (files_lost w) (llm_rl w) (tools w) (parts w)
    (prompt_parts_changed w) (active_batch w) (inflight w) v (rl_parked_turn w) (compact_rl_timer
    w) (requests w) (next_id w) (llm_timer w) (compact_timer w) (log w) (bad w).
Definition set_rl_parked_turn (v : option turn) (w : world) : world :=
  mk_world (state w) (history w) (last_error w) (iteration w) (gate_denials w) (ctx_used w)
    (facts_pending w) (last_time_stamp w) (pending_notify w) (cancelling w) (compact_resume_chain
    w) (compact_body w) (compact_rl_retries w) (compact_effort_changed w) (compact_effort_fallback
    w) (mid_chain_compact_started w) (mid_chain_compact_succeeded w) (mid_chain_compact_failed w)
    (resp_chain w) (tools_unsupported w) (ups w) (files_lost w) (llm_rl w) (tools w) (parts w)
    (prompt_parts_changed w) (active_batch w) (inflight w) (llm_rl_timer w) v (compact_rl_timer w)
    (requests w) (next_id w) (llm_timer w) (compact_timer w) (log w) (bad w).
Definition set_compact_rl_timer (v : bool) (w : world) : world :=
  mk_world (state w) (history w) (last_error w) (iteration w) (gate_denials w) (ctx_used w)
    (facts_pending w) (last_time_stamp w) (pending_notify w) (cancelling w) (compact_resume_chain
    w) (compact_body w) (compact_rl_retries w) (compact_effort_changed w) (compact_effort_fallback
    w) (mid_chain_compact_started w) (mid_chain_compact_succeeded w) (mid_chain_compact_failed w)
    (resp_chain w) (tools_unsupported w) (ups w) (files_lost w) (llm_rl w) (tools w) (parts w)
    (prompt_parts_changed w) (active_batch w) (inflight w) (llm_rl_timer w) (rl_parked_turn w) v
    (requests w) (next_id w) (llm_timer w) (compact_timer w) (log w) (bad w).
Definition set_requests (v : list (nat * (request * bool))) (w : world) : world :=
  mk_world (state w) (history w) (last_error w) (iteration w) (gate_denials w) (ctx_used w)
    (facts_pending w) (last_time_stamp w) (pending_notify w) (cancelling w) (compact_resume_chain
    w) (compact_body w) (compact_rl_retries w) (compact_effort_changed w) (compact_effort_fallback
    w) (mid_chain_compact_started w) (mid_chain_compact_succeeded w) (mid_chain_compact_failed w)
    (resp_chain w) (tools_unsupported w) (ups w) (files_lost w) (llm_rl w) (tools w) (parts w)
    (prompt_parts_changed w) (active_batch w) (inflight w) (llm_rl_timer w) (rl_parked_turn w)
    (compact_rl_timer w) v (next_id w) (llm_timer w) (compact_timer w) (log w) (bad w).
Definition set_next_id (v : nat) (w : world) : world :=
  mk_world (state w) (history w) (last_error w) (iteration w) (gate_denials w) (ctx_used w)
    (facts_pending w) (last_time_stamp w) (pending_notify w) (cancelling w) (compact_resume_chain
    w) (compact_body w) (compact_rl_retries w) (compact_effort_changed w) (compact_effort_fallback
    w) (mid_chain_compact_started w) (mid_chain_compact_succeeded w) (mid_chain_compact_failed w)
    (resp_chain w) (tools_unsupported w) (ups w) (files_lost w) (llm_rl w) (tools w) (parts w)
    (prompt_parts_changed w) (active_batch w) (inflight w) (llm_rl_timer w) (rl_parked_turn w)
    (compact_rl_timer w) (requests w) v (llm_timer w) (compact_timer w) (log w) (bad w).
Definition set_llm_timer (v : option turn) (w : world) : world :=
  mk_world (state w) (history w) (last_error w) (iteration w) (gate_denials w) (ctx_used w)
    (facts_pending w) (last_time_stamp w) (pending_notify w) (cancelling w) (compact_resume_chain
    w) (compact_body w) (compact_rl_retries w) (compact_effort_changed w) (compact_effort_fallback
    w) (mid_chain_compact_started w) (mid_chain_compact_succeeded w) (mid_chain_compact_failed w)
    (resp_chain w) (tools_unsupported w) (ups w) (files_lost w) (llm_rl w) (tools w) (parts w)
    (prompt_parts_changed w) (active_batch w) (inflight w) (llm_rl_timer w) (rl_parked_turn w)
    (compact_rl_timer w) (requests w) (next_id w) v (compact_timer w) (log w) (bad w).
Definition set_compact_timer (v : bool) (w : world) : world :=
  mk_world (state w) (history w) (last_error w) (iteration w) (gate_denials w) (ctx_used w)
    (facts_pending w) (last_time_stamp w) (pending_notify w) (cancelling w) (compact_resume_chain
    w) (compact_body w) (compact_rl_retries w) (compact_effort_changed w) (compact_effort_fallback
    w) (mid_chain_compact_started w) (mid_chain_compact_succeeded w) (mid_chain_compact_failed w)
    (resp_chain w) (tools_unsupported w) (ups w) (files_lost w) (llm_rl w) (tools w) (parts w)
    (prompt_parts_changed w) (active_batch w) (inflight w) (llm_rl_timer w) (rl_parked_turn w)
    (compact_rl_timer w) (requests w) (next_id w) (llm_timer w) v (log w) (bad w).
Definition set_log (v : list ev) (w : world) : world :=
  mk_world (state w) (history w) (last_error w) (iteration w) (gate_denials w) (ctx_used w)
    (facts_pending w) (last_time_stamp w) (pending_notify w) (cancelling w) (compact_resume_chain
    w) (compact_body w) (compact_rl_retries w) (compact_effort_changed w) (compact_effort_fallback
    w) (mid_chain_compact_started w) (mid_chain_compact_succeeded w) (mid_chain_compact_failed w)
    (resp_chain w) (tools_unsupported w) (ups w) (files_lost w) (llm_rl w) (tools w) (parts w)
    (prompt_parts_changed w) (active_batch w) (inflight w) (llm_rl_timer w) (rl_parked_turn w)
    (compact_rl_timer w) (requests w) (next_id w) (llm_timer w) (compact_timer w) v (bad w).
Definition set_bad (v : bool) (w : world) : world :=
  mk_world (state w) (history w) (last_error w) (iteration w) (gate_denials w) (ctx_used w)
    (facts_pending w) (last_time_stamp w) (pending_notify w) (cancelling w) (compact_resume_chain
    w) (compact_body w) (compact_rl_retries w) (compact_effort_changed w) (compact_effort_fallback
    w) (mid_chain_compact_started w) (mid_chain_compact_succeeded w) (mid_chain_compact_failed w)
    (resp_chain w) (tools_unsupported w) (ups w) (files_lost w) (llm_rl w) (tools w) (parts w)
    (prompt_parts_changed w) (active_batch w) (inflight w) (llm_rl_timer w) (rl_parked_turn w)
    (compact_rl_timer w) (requests w) (next_id w) (llm_timer w) (compact_timer w) (log w) v.

Definition note (e : ev) (w : world) : world := set_log (e :: log w) w.
Definition crash (w : world) : world := set_bad true w.

(** [agent_busy] *)
Definition agent_busy (w : world) : bool :=
  match state w with
  | CLM_STATE_THINKING | CLM_STATE_CALLING_TOOL | CLM_STATE_RATE_LIMITED => true
  | _ => false
  end.
End State.

(** Reduce the setters under the projections. *)
Ltac wcbn := cbn [set_state set_history set_last_error set_iteration set_gate_denials set_ctx_used
  set_facts_pending set_last_time_stamp set_pending_notify set_cancelling set_compact_resume_chain
  set_compact_body set_compact_rl_retries set_compact_effort_changed set_compact_effort_fallback
  set_mid_chain_compact_started set_mid_chain_compact_succeeded set_mid_chain_compact_failed
  set_resp_chain set_tools_unsupported set_ups set_files_lost set_llm_rl set_tools set_parts
  set_prompt_parts_changed set_active_batch set_inflight set_llm_rl_timer set_rl_parked_turn
  set_compact_rl_timer set_requests set_next_id set_llm_timer set_compact_timer set_log set_bad
  state history last_error iteration gate_denials ctx_used facts_pending last_time_stamp
  pending_notify cancelling compact_resume_chain compact_body compact_rl_retries
  compact_effort_changed compact_effort_fallback mid_chain_compact_started
  mid_chain_compact_succeeded mid_chain_compact_failed resp_chain tools_unsupported ups files_lost
  llm_rl tools parts prompt_parts_changed active_batch inflight llm_rl_timer rl_parked_turn
  compact_rl_timer requests next_id llm_timer compact_timer log bad note crash].

Ltac wcbn_in H := cbn [set_state set_history set_last_error set_iteration set_gate_denials
  set_ctx_used set_facts_pending set_last_time_stamp set_pending_notify set_cancelling
  set_compact_resume_chain set_compact_body set_compact_rl_retries set_compact_effort_changed
  set_compact_effort_fallback set_mid_chain_compact_started set_mid_chain_compact_succeeded
  set_mid_chain_compact_failed set_resp_chain set_tools_unsupported set_ups set_files_lost
  set_llm_rl set_tools set_parts set_prompt_parts_changed set_active_batch set_inflight
  set_llm_rl_timer set_rl_parked_turn set_compact_rl_timer set_requests set_next_id set_llm_timer
  set_compact_timer set_log set_bad state history last_error iteration gate_denials ctx_used
  facts_pending last_time_stamp pending_notify cancelling compact_resume_chain compact_body
  compact_rl_retries compact_effort_changed compact_effort_fallback mid_chain_compact_started
  mid_chain_compact_succeeded mid_chain_compact_failed resp_chain tools_unsupported ups files_lost
  llm_rl tools parts prompt_parts_changed active_batch inflight llm_rl_timer rl_parked_turn
  compact_rl_timer requests next_id llm_timer compact_timer log bad note crash] in H.
