(* ===== verification/Agent.v ===== *)
(** The turn machine of [src/libclm/agent.c]: a prompt becomes a request, its
    answer tool calls or a reply, tool results another request, until the
    turn is done. The file holds the handlers; a handler runs to its end but
    for [cb_on_turn_done], where the frontend may call back, and
    [clm_agent_start_turn] and [clm_agent_submit], which end the functions
    that call them: those are frames.

    The callbacks other than [cb_on_turn_done] only report and are not
    modelled. The host calls back from the event loop, never from within
    [http_post] (the ESP32 host does, which is the same as a callback right
    after, since every caller returns then). Allocation failures are not
    modelled, except where JSON gives NULL. *)

From S2P Require Import Prelude Utf8 TextClean Image RateLimit Tokens CJson History HistoryJson Registry.
From S2P Require Import Files Stream Provider ProviderOpenai Requests AgentState.

Definition CLM_TIME_STAMP_INTERVAL : Z := 600.
Definition CLM_GATE_DENY_LIMIT : Z := 3.
Definition CLM_RL_RETRY_MAX : Z := 8.
Definition CLM_RL_RETRY_CAP_MS : Z := 60000.
Definition CLM_RL_RETRY_FLOOR_MS : Z := 1000.
Definition CLM_RL_RETRY_DEFAULT_MS : Z := 5000.
Definition CLM_AUTOCOMPACT_PCT : Z := 50.
Definition CLM_AUTOCOMPACT_FALLBACK_TOKENS : Z := 100000.
Definition CLM_COMPACT_KEEP_PCT : Z := 10.
Definition CLM_COMPACT_KEEP_MIN : Z := 2.
Definition CLM_BYTES_PER_TOKEN : Z := 4.

(** ** Waiting for a rate limit *)

(** What [sscanf(p, "%lf%3[a-z]", &v, unit)] reads: [sc_times k] is
    [(uint64_t)(v * k)]. *)
Record scanned := mk_scanned { sc_positive : bool; sc_times : Z -> Z; sc_unit : list byte }.

Definition server_delay_ms (sscanf : list byte -> option scanned) (body : option (list byte)) : Z :=
  let start := b ← body; i ← find_sub (bs "try again in ") b; Some (drop (i + 13) b) in
  match p ← start; sscanf p with
  | None => CLM_RL_RETRY_DEFAULT_MS
  | Some v =>
      if negb (sc_positive v) then CLM_RL_RETRY_DEFAULT_MS
      else if has_prefix (bs "ms") (sc_unit v) then sc_times v 1
      else match sc_unit v with
           | x73 :: _ => sc_times v 1000
           | x6d :: _ => sc_times v 60000
           | _ => CLM_RL_RETRY_DEFAULT_MS
           end
  end.

Definition clm_rl_retry_delay_ms (sscanf : list byte -> option scanned) (body : option (list byte))
    (attempt : Z) : Z :=
  let delay := server_delay_ms sscanf body in
  let attempt := if attempt <? 0 then 0 else attempt in
  let attempt := if 20 <? attempt then 20 else attempt in
  let floor_ms := Z.shiftl CLM_RL_RETRY_FLOOR_MS attempt in
  let delay := if delay <? floor_ms then floor_ms else delay in
  if CLM_RL_RETRY_CAP_MS <? delay then CLM_RL_RETRY_CAP_MS else delay.

(** What a step learns from outside: the monotonic clock of the rate
    limiter and the wall clock, by reading, the results of [http_post] in
    the step, and whether [timer_set] succeeds. *)
Record oracle := mk_oracle { now : nat -> Z; wall : nat -> Z; post : nat -> Z; timer_ok : bool }.

(** The rest of a function: [clm_agent_start_turn], the call of
    [cb_on_turn_done] with the turn hooks before it, and the submit at the
    end of [agent_turn_done]. *)
Inductive frame := FStart | FCallback (status : Z) | FSubmit (text : list byte).

Section Agent.
Context `{CJson} `{!Provider} `{!ProviderOps}.
Context (cJSON_Parse : list byte -> option cJSON) (cJSON_PrintUnformatted : cJSON -> option (list byte)).
Context (int_nan : Z) (sscanf : list byte -> option scanned) (fmt_rfc2822 : Z -> list byte).
Context (cfg : settings) (llm : clm_llm).

Abbreviation result := (world * list frame)%type.
Abbreviation cz := (compressor cfg).

Definition clm_agent_set_error (msg : list byte) (w : world) : world := set_last_error (Some msg) w.

Definition clm_agent_chain_reset (w : world) : world := set_resp_chain None w.

(** [clm_history_add_user] and the report of the message. *)
Definition add_user (text : list byte) (w : world) : world :=
  note (EvUser text) (set_history (clm_history_add_user (history w) (Some text) cz) w).

(** ** The end of a turn *)

Definition agent_turn_done (status : Z) (w : world) : result :=
  (note (EvDone status) (set_pending_notify None w),
   FCallback status :: match pending_notify w with Some t => [FSubmit t] | None => [] end).

Definition end_turn (s : clm_agent_state) (status : Z) (w : world) : result :=
  agent_turn_done status (set_state s w).

Definition agent_fail (msg : list byte) (err : Z) (w : world) : result :=
  end_turn CLM_STATE_ERROR err (clm_agent_set_error msg w).

Definition out_of_memory (w : world) : result := agent_fail (bs "out of memory") (- ENOMEM) w.

(** ** The host *)

Definition http_post (o : oracle) (k : nat) (r : request) (w : world) : Z * world :=
  if post o k <? 0 then (post o k, w)
  else (0, note (EvPost r) (set_inflight (Some (next_id w))
            (set_requests (requests w ++ [(next_id w, (r, false))]) (set_next_id (S (next_id w)) w)))).

Definition cancel_request (id : nat) (l : list (nat * (request * bool))) : list (nat * (request * bool)) :=
  map (fun p => if (fst p =? id)%nat then (fst p, (fst (snd p), true)) else p) l.

Definition find_request (id : nat) (l : list (nat * (request * bool))) : option (request * bool) :=
  snd <$> List.find (fun p => (fst p =? id)%nat) l.

Definition drop_request (id : nat) (l : list (nat * (request * bool))) : list (nat * (request * bool)) :=
  List.filter (fun p => negb (fst p =? id)%nat) l.

(** ** Sending a turn *)

Definition turn_post_failed (r : Z) (w : world) : result :=
  agent_fail (bs "request could not be sent") r w.

Definition post_turn (o : oracle) (k : nat) (t : turn) (w : world) : result :=
  let '(r, w) := http_post o k (RTurn t) w in
  if r <? 0 then turn_post_failed r w else (w, []).

Definition est_tokens (t : turn) : Z :=
  let n := (if ctx_bytes t =? 0 then zlen (t_body t) else ctx_bytes t) / 4 in
  if n =? 0 then 1 else n.

(** [on_llm_rl_timer]; [c] is the index of the clock's reading. *)
Definition on_llm_rl_timer (o : oracle) (c k : nat) (t : turn) (w : world) : result :=
  let w := if llm_rl_timer w then set_llm_rl_timer false (set_llm_timer None w) else w in
  let w := set_rl_parked_turn None w in
  let w := set_llm_rl (clm_ratelimit_consume (llm_rl w) (now o c) (est_tokens t)) w in
  post_turn o k t w.

(** [timer_set] for a turn, and [agent->llm_rl_timer]. *)
Definition arm_llm_timer (t : turn) (w : world) : world :=
  set_llm_rl_timer true (set_llm_timer (Some t) w).

Definition llm_dispatch (o : oracle) (k : nat) (t : turn) (w : world) : result :=
  let '(ok, rl) := match llm_rl w with
                   | Some _ => if has_timers cfg then clm_ratelimit_allow (llm_rl w) (now o 0%nat) (est_tokens t)
                               else (true, llm_rl w)
                   | None => (true, None)
                   end in
  let w := set_llm_rl rl w in
  if ok then post_turn o k t w
  else
    let '(delay_us, rl) := clm_ratelimit_delay (llm_rl w) (now o 1%nat) (est_tokens t) in
    let w := set_llm_rl rl w in
    let delay_ms := if delay_us / 1000 =? 0 then 1 else delay_us / 1000 in
    let w := set_state CLM_STATE_RATE_LIMITED w in
    if timer_ok o then
      (note (EvWait delay_ms) (set_rl_parked_turn (Some t) (arm_llm_timer t w)), [])
    else on_llm_rl_timer o 2 k t (set_llm_rl_timer false w).

(** ** Starting a turn *)

Definition agent_flush_pending_notify (w : world) : world :=
  match pending_notify w with
  | Some t => add_user t (set_pending_notify None w)
  | None => w
  end.

(** [file_upload_start]: whether the upload is in flight. *)
Definition file_upload_start (o : oracle) (url : list byte) (now : Z) (w : world) : bool * world :=
  let off := mk_uploads (files (ups w)) false in
  match clm_files_url (base_url llm) with
  | None => (false, set_ups off w)
  | Some _ =>
      match clm_files_multipart url with
      | None => (false, set_ups (file_upload_finish (ups w) url None now) w)
      | Some _ =>
          let '(r, w) := http_post o 0 (RUpload url) w in
          if r <? 0 then (false, set_ups off w) else (true, w)
      end
  end.

(** What a new stream starts from, of what the agent knows. *)
Definition new_turn (body : list byte) (msgs : nat) (ctx : Z) : turn :=
  mk_turn body (stream_on cfg) stream_start msgs ctx 0.

(** The part of [clm_agent_start_turn] from the messages on. *)
Definition send_turn (o : oracle) (messages : cJSON) (w : world) : result :=
  let tools_json := if tools_unsupported w then None
                    else Some (clm_tools_build_schema cJSON_Parse (tools w) (vision cfg)) in
  let all := cJSON_elements messages in
  let '(prev, chain, sent) := cut_chain (resp_chain w) all in
  let full := match prev with
              | Some _ => default [] (cJSON_PrintUnformatted messages)
              | None => []
              end in
  let w := set_resp_chain chain w in
  match build_request (with_prev llm prev) (cJSON_update_elements messages sent) tools_json (stream_on cfg) with
  | None => out_of_memory w
  | Some req =>
      match cJSON_PrintUnformatted req with
      | None => out_of_memory w
      | Some body =>
          let ctx := if (length full =? 0)%nat then zlen body else zlen full in
          llm_dispatch o 1 (new_turn body (length all) ctx) (note (EvTurn (history w) prev all sent) w)
      end
  end.

Definition clm_agent_start_turn (o : oracle) (w : world) : result :=
  let w := agent_flush_pending_notify w in
  let w := if prompt_parts_changed w then set_prompt_parts_changed false (clm_agent_chain_reset w) else w in
  match clm_history_to_json (history w) cz with
  | None => out_of_memory w
  | Some messages =>
      let messages := apply_prompt_parts (parts w) messages in
      if file_uploads (ups w) then
        let '(st, messages) := clm_files_apply (files (ups w)) (wall o) true messages in
        match missing st with
        | Some url =>
            let '(started, w) := file_upload_start o url (wall o (reads st)) w in
            if started then (w, []) else send_turn o messages w
        | None => send_turn o messages w
        end
      else send_turn o messages w
  end.

(** [clm_agent_submit]: its result, and the rest of it. *)
Definition context_update (stamp facts : list byte) : list byte :=
  bs "[context update] current time: " ++ stamp ++ [x0a] ++ facts
  ++ (if (length facts =? 0)%nat then [] else [x0a])
  ++ bs "(automatic context, not user input; do not acknowledge)".

Definition stamp_time (now : Z) (w : world) : world :=
  let facts := if facts_pending w then default [] (system_prompt_suffix cfg) else [] in
  if (CLM_TIME_STAMP_INTERVAL <=? now - last_time_stamp w) || negb (length facts =? 0)%nat then
    set_last_time_stamp now
      (add_user (context_update (fmt_rfc2822 now) facts) (set_facts_pending false w))
  else w.

Definition clm_agent_submit (o : oracle) (prompt : list byte) (w : world) : Z * result :=
  if agent_busy w then (- EBUSY, (clm_agent_set_error (bs "turn already in progress") w, []))
  else
    let w := add_user prompt (stamp_time (wall o 0%nat) w) in
    let w := set_cancelling false (set_gate_denials 0 (set_iteration 0 (set_state CLM_STATE_THINKING w))) in
    (0, (note (EvBegin true) w, [FStart])).

Definition clm_agent_notify (o : oracle) (text : list byte) (w : world) : Z * result :=
  if agent_busy w then
    let joined := match pending_notify w with
                  | None => text
                  | Some t => t ++ [x0a; x0a] ++ text
                  end in
    (0, (note (EvNotify text) (set_pending_notify (Some joined) w), []))
  else
    let '(r, res) := clm_agent_submit o text (note (EvNotify text) w) in (r, res).

(** ** Rate limits *)

(** [turn_reset_response], with the retry counted. *)
Definition turn_retry (t : turn) : turn :=
  let s := t_stream t in
  mk_turn (t_body t) (t_streaming t)
    (mk_stream [] [] [] None no_usage false (stream_tps s) None pstate_null None None (seen s))
    (history_msgs t) (ctx_bytes t) (rl_retries t + 1).

(** [rl_retry]: the result of [timer_set] is not looked at. *)
Definition rl_retry (o : oracle) (t : turn) (advice : option (list byte)) (w : world) : bool * world :=
  if (CLM_RL_RETRY_MAX <=? rl_retries t) || negb (has_timers cfg) then (false, w)
  else
    let delay := clm_rl_retry_delay_ms sscanf advice (rl_retries t) in
    let t := turn_retry t in
    let w := note (EvWait delay) (set_rl_parked_turn (Some t) (set_state CLM_STATE_RATE_LIMITED w)) in
    (true, if timer_ok o then arm_llm_timer t w else w).

Definition compact_rl_retry (o : oracle) (advice : option (list byte)) (w : world) : bool * world :=
  if bool_decide (compact_body w = None) || (CLM_RL_RETRY_MAX <=? compact_rl_retries w)
     || negb (has_timers cfg) then (false, w)
  else
    let delay := clm_rl_retry_delay_ms sscanf advice (compact_rl_retries w) in
    let w := set_compact_rl_retries (compact_rl_retries w + 1) w in
    let w := note (EvWait delay) (set_state CLM_STATE_RATE_LIMITED w) in
    (true, if timer_ok o then set_compact_rl_timer true (set_compact_timer true w) else w).

(** ** Reading a response *)

Definition response_message (parsed : cJSON) : option cJSON :=
  choices ← cJSON_GetObjectItemCaseSensitive parsed (bs "choices");
  if cJSON_IsArray choices then
    choice ← cJSON_elements choices !! 0%nat; cJSON_GetObjectItemCaseSensitive choice (bs "message")
  else None.

Definition response_finish_reason (parsed : option cJSON) : option (list byte) :=
  p ← parsed;
  choices ← cJSON_GetObjectItemCaseSensitive p (bs "choices");
  choice ← cJSON_elements choices !! 0%nat;
  get_string (Some choice) (bs "finish_reason").

Definition nonempty (s : option (list byte)) : option (list byte) := unless_empty s.

Definition extract_message_content (parsed : cJSON) : option (list byte) :=
  message ← response_message parsed;
  match nonempty (get_string (Some message) (bs "content")) with
  | Some c => Some c
  | None =>
      nonempty (r ← match cJSON_GetObjectItemCaseSensitive message (bs "reasoning_content") with
                    | Some j => Some j
                    | None => cJSON_GetObjectItemCaseSensitive message (bs "reasoning")
                    end; cJSON_GetStringValue r)
  end.

Definition error_detail (body : option (list byte)) : option (list byte) :=
  b ← body; j ← cJSON_Parse b; response_error_message j.

(** ["HTTP %d"] and what follows it. *)
Definition http_text (status : Z) (rest : list byte) : list byte :=
  snprintf 256 (bs "HTTP " ++ dec status ++ rest).

Definition format_http_error (status : Z) (body : option (list byte)) : list byte :=
  match nonempty body with
  | Some b => http_text status (bs ": " ++ default b (error_detail body))
  | None => http_text status (bs ": empty response body")
  end.

Definition history_has_images (h : clm_history) : bool :=
  existsb (fun m => negb (length (attachments m) =? 0)%nat) h.

(** The text of a turn's failure. *)
Definition turn_error_text (status : Z) (body : option (list byte)) (h : clm_history) : list byte :=
  let text := match error_detail body, nonempty body with
              | Some d, _ => http_text status (bs ": " ++ d)
              | None, Some b => http_text status (bs ": " ++ b)
              | None, None => http_text status []
              end in
  if (400 <=? status) && (status <? 500) && (vision cfg =? 0) && history_has_images h
  then snprintf 256 (text ++ bs " (the model may not take images; set vision = false for it in config.lua)")
  else text.

(** ** The end of a model message *)

Definition emit_usage (u : clm_usage) (w : world) : world :=
  set_ctx_used (prompt_tokens u + completion_tokens u) w.

Definition has_calls_in (tool_calls : option cJSON) : option cJSON :=
  tc ← tool_calls;
  if cJSON_IsArray tc && negb (length (cJSON_elements tc) =? 0)%nat then Some tc else None.

(** [agent_finish]. [clm_tools_dispatch] fails only for an empty list of
    calls, which is excluded here. *)
Definition agent_finish (tool_calls : option cJSON) (content finish_reason : option (list byte))
    (w : world) : result :=
  if bool_decide (finish_reason = Some (bs "content_filter")) then
    agent_fail (bs "response stopped by content filter") (- EACCES) w
  else if bool_decide (finish_reason = Some (bs "error")) then
    agent_fail (default (bs "provider reported a failed response") (nonempty (last_error w))) (- EIO) w
  else match has_calls_in tool_calls with
  | Some tc => (note EvBatch (set_active_batch (Some tc) (set_state CLM_STATE_CALLING_TOOL w)), [])
  | None =>
      let reply := default (bs "[empty response]") (nonempty content) in
      end_turn CLM_STATE_COMPLETE 0
        (set_history (clm_history_add_assistant_text (history w) (Some reply) cz) w)
  end.

(** What a stream and the agent share while bytes arrive: [last_error] and
    the response chain. *)
Definition lend (w : world) (s : stream) : stream :=
  with_chain (with_error s (last_error w) (rl_advice s)) (resp_chain w).
Definition take_back (s : stream) (w : world) : world :=
  set_resp_chain (chain s) (set_last_error (Stream.last_error s) w).

Definition store_turn (id : nat) (t : turn) (w : world) : world :=
  set_requests (map (fun p => if (fst p =? id)%nat then (fst p, (RTurn t, snd (snd p))) else p) (requests w)) w.

(** [clm_http_data_cb_wrapper] for the request [id]. *)
Definition on_data (id : nat) (t : turn) (data : list byte) (w : world) : world :=
  match clm_http_data_cb_wrapper cJSON_Parse int_nan (cancelling w) (history_msgs t) (lend w (t_stream t)) data with
  | None => crash w
  | Some s => take_back s (store_turn id (with_stream t s) w)
  end.

Definition stream_finalize (o : oracle) (t : turn) (w : world) : result :=
  let s := t_stream t in
  let tool_calls := stream_build_tool_calls (calls s) in
  let '(retried, w') :=
    match rl_advice s, text s, tool_calls with
    | Some advice, [], None => rl_retry o t (Some advice) w
    | _, _, _ => (false, w)
    end in
  if retried then (w', [])
  else
    let w := if have_usage s then emit_usage (usage s) w else w in
    agent_finish tool_calls (Some (text s)) (finish_reason s) w.

(** The rest of [clm_http_success_cb_wrapper] for a whole response. *)
Definition finish_parsed (o : oracle) (t : turn) (parsed message : cJSON) (w : world) : result :=
  let w := match extract_usage int_nan parsed with Some u => emit_usage u w | None => w end in
  let emsg := response_error_message parsed in
  let '(retried, w') := if is_rate_limit_message emsg then rl_retry o t emsg w else (false, w) in
  if retried then (w', [])
  else
    let w := match emsg with Some m => clm_agent_set_error m w | None => w end in
    let w := match get_string (Some parsed) (bs "provider_response_id") with
             | Some (b :: rid) => set_resp_chain (Some (b :: rid, history_msgs t)) w
             | _ => w
             end in
    agent_finish (cJSON_GetObjectItemCaseSensitive message (bs "tool_calls"))
      (get_string (Some message) (bs "content")) (response_finish_reason (Some parsed)) w.

Definition normalized (parsed : option cJSON) : option cJSON :=
  p ← parsed; match normalize_response with Some f => f p | None => Some p end.

Definition turn_response (o : oracle) (t : turn) (body : option (list byte)) (w : world) : result :=
  match normalized (b ← body; cJSON_Parse b) with
  | None => agent_fail (bs "could not parse llm response") (- EIO) w
  | Some parsed =>
      match response_message parsed with
      | None => agent_fail (bs "could not extract message from llm response") (- EIO) w
      | Some message => finish_parsed o t parsed message w
      end
  end.

(** A test of the error body: [strstr(resp->body, p) != NULL]. *)
Definition says (body : option (list byte)) (p : list byte) : bool :=
  match body with Some b => bool_decide (is_Some (find_sub p b)) | None => false end.

(** The tries to send the turn again in another form; [false] if there is
    none left. *)
Definition turn_recover (status : Z) (body : option (list byte)) (w : world) : bool * world :=
  if bool_decide (is_Some (resp_chain w))
     && (says body (bs "previous_response") || says body (bs "No tool output found")) then
    (true, clm_agent_chain_reset w)
  else
    let '(repaired, h) := if says body (bs "No tool output found")
                          then clm_history_repair_dangling_tool_calls (history w) else (0, history w) in
    let w := set_history h w in
    if 0 <? repaired then (true, w)
    else if (status =? 404) && negb (length (files (ups w)) =? 0)%nat && says body (bs "File `file_") then
      let lost := files_lost w + 1 in
      (true, set_files_lost lost
               (set_ups (mk_uploads [] (if 1 <? lost then false else file_uploads (ups w))) w))
    else if (status =? 400) && negb (tools_unsupported w) && says body (bs "does not support tools") then
      (true, set_tools_unsupported true w)
    else (false, w).

(** [clm_http_success_cb_wrapper] *)
Definition turn_success (o : oracle) (t : turn) (status : Z) (body : option (list byte)) (w : world) : result :=
  let w := set_inflight None w in
  if negb (status =? 200) then
    let '(retried, w') := if status =? 429 then rl_retry o t body w else (false, w) in
    if retried then (w', [])
    else
      let '(again, w') := turn_recover status body w in
      if again then (w', [FStart])
      else agent_fail (turn_error_text status body (history w')) (- EIO) w'
  else if t_streaming t then stream_finalize o t w
  else turn_response o t body w.

Definition cancelled_mark : list byte := [x0a; x0a] ++ bs "[reply cancelled]".

Definition agent_keep_partial (t : turn) (w : world) : world :=
  match t_streaming t, text (t_stream t) with
  | true, _ :: _ =>
      set_history (clm_history_add_assistant_text (history w) (Some (text (t_stream t) ++ cancelled_mark)) cz) w
  | _, _ => w
  end.

(** [clm_http_error_cb_wrapper] *)
Definition turn_error (t : turn) (code : Z) (msg : option (list byte)) (w : world) : result :=
  let w := set_inflight None w in
  if code =? - ECANCELED then end_turn CLM_STATE_COMPLETE code (agent_keep_partial t w)
  else agent_fail (default (bs "http request failed") msg) code w.

(** ** Uploads *)

Definition upload_success (o : oracle) (url : list byte) (status : Z) (body : option (list byte)) (w : world)
  : result :=
  (set_ups (file_upload_success cJSON_Parse (ups w) url status body (wall o 0%nat)) (set_inflight None w), [FStart]).

Definition upload_error (o : oracle) (url : list byte) (code : Z) (w : world) : result :=
  let w := set_inflight None w in
  if code =? - ECANCELED then end_turn CLM_STATE_COMPLETE (- ECANCELED) w
  else (set_ups (file_upload_finish (ups w) url None (wall o 0%nat)) w, [FStart]).

(** ** Compaction *)

Definition clm_agent_over_autocompact_threshold (w : world) : bool :=
  if ctx_used w <=? 0 then false
  else if (0 <? autocompact_tokens cfg) && (autocompact_tokens cfg <=? ctx_used w) then true
  else if ctx_max cfg <=? 0 then CLM_AUTOCOMPACT_FALLBACK_TOKENS <=? ctx_used w
  else
    let pct := if 0 <? autocompact_pct cfg then autocompact_pct cfg else CLM_AUTOCOMPACT_PCT in
    pct <=? Z.quot (ctx_used w * 100) (ctx_max cfg).

(** [clm_files_apply(agent, messages, NULL)] in [compact_build]. *)
Definition apply_uploads (o : oracle) (messages : cJSON) (w : world) : cJSON :=
  if file_uploads (ups w) then snd (clm_files_apply (files (ups w)) (wall o) false messages) else messages.

Definition compact_request (o : oracle) (e : option (list byte)) (w : world) : option cJSON :=
  messages ← clm_history_to_json (history w) cz;
  let messages := apply_uploads o (apply_prompt_parts (parts w) messages) w in
  let prompt := compact_prompt (compact_target (ctx_max cfg) (autocompact_tokens cfg)) in
  let msg := cJSON_AddStringToObject (cJSON_AddStringToObject cJSON_CreateObject (bs "role") (bs "user"))
               (bs "content") prompt in
  let tools_json := if tools_unsupported w then None
                    else Some (clm_tools_build_schema cJSON_Parse (tools w) (vision cfg)) in
  req ← build_request (with_prev (with_effort llm e) None) (cJSON_AddItemToArray messages msg) tools_json false;
  Some match tools_json, forbid_tool_calls with
       | Some _, Some f => f req
       | _, _ => req
       end.

Definition compact_build (o : oracle) (e : option (list byte)) (w : world) : Z * world :=
  match compact_request o e w with
  | None => (- ENOMEM, w)
  | Some req =>
      match cJSON_PrintUnformatted req with
      | None => (- ENOMEM, set_compact_body None w)
      | Some body =>
          (0, set_compact_effort_changed (negb (bool_decide (e = effort llm))) (set_compact_body (Some body) w))
      end
  end.

Definition compact_done (w : world) : world := set_compact_body None w.

(** The interrupted tool chain goes on as it is. *)
Definition resume_failed (msg : list byte) (w : world) : result :=
  (set_mid_chain_compact_failed true (clm_agent_set_error msg w), [FStart]).

(** [compact_error_cb] *)
Definition compact_error (code : Z) (msg : option (list byte)) (w : world) : result :=
  let resume := compact_resume_chain w in
  let w := compact_done (set_inflight None (set_compact_resume_chain false w)) in
  let text := default (bs "compaction request failed") msg in
  if resume && negb (code =? - ECANCELED) then resume_failed text w
  else if code =? - ECANCELED then end_turn CLM_STATE_COMPLETE code w
  else agent_fail text code w.

Definition compact_post (o : oracle) (w : world) : result :=
  let '(r, w) := http_post o 0 RCompact (set_state CLM_STATE_THINKING w) in
  if r <? 0 then
    let w := clm_agent_set_error (bs "compaction request failed") (set_compact_body None w) in
    compact_error (- EIO) (Some (bs "compaction request failed")) w
  else (w, []).

Definition on_compact_rl_timer (o : oracle) (w : world) : result :=
  compact_post o (if compact_rl_timer w then set_compact_rl_timer false (set_compact_timer false w) else w).

(** [None]: the compaction is not sent again. *)
Definition compact_effort_retry (o : oracle) (body : option (list byte)) (w : world) : bool * result :=
  if negb (compact_effort_changed w) || compact_effort_fallback w
     || negb (says body (bs "reasoning") || says body (bs "effort")) then (false, (w, []))
  else
    let '(r, w) := compact_build o (effort llm) (set_compact_effort_fallback true w) in
    if r <? 0 then (false, (w, [])) else (true, compact_post o w).

(** A compaction that did not help, in [compact_success_cb]. *)
Definition compact_fail (resume : bool) (msg : list byte) (err : Z) (w : world) : result :=
  let w := compact_done w in
  if resume then resume_failed msg w else agent_fail msg err w.

Definition keep_bytes : Z :=
  let window := if 0 <? ctx_max cfg then ctx_max cfg else CLM_AUTOCOMPACT_FALLBACK_TOKENS in
  window * CLM_COMPACT_KEEP_PCT / 100 * CLM_BYTES_PER_TOKEN.

(** The fold of [compact_success_cb] and what follows. *)
Definition compact_fold (resume : bool) (summary : list byte) (w : world) : result :=
  let '(folded, h) := clm_history_compact_within (history w) summary keep_bytes CLM_COMPACT_KEEP_MIN cz in
  let w := set_history h w in
  if 0 <? folded then
    let w := compact_done (set_facts_pending true (clm_agent_chain_reset w)) in
    if resume then
      (set_state CLM_STATE_THINKING (set_ctx_used 0
         (set_mid_chain_compact_succeeded true (set_mid_chain_compact_failed false w))), [FStart])
    else end_turn CLM_STATE_COMPLETE 0 w
  else if folded <? 0 then compact_fail resume (bs "compaction failed") folded w
  else compact_fail resume (bs "compaction made no progress") (- EAGAIN) w.

(** A retry inside [compact_success_cb], where [compact_resume_chain] is set
    back for the time of the try. *)
Definition trying (resume : bool) {A} (try : world -> bool * A) (back : A -> world) (w : world)
  : A + world :=
  let '(retried, a) := try (set_compact_resume_chain resume w) in
  if retried then inl a else inr (set_compact_resume_chain false (back a)).

Definition compact_summary (o : oracle) (resume : bool) (body : list byte) (w : world) : result :=
  let parsed := normalized (cJSON_Parse body) in
  match nonempty (p ← parsed; extract_message_content p) with
  | Some summary => compact_fold resume summary w
  | None =>
      let emsg := p ← parsed; response_error_message p in
      let why := if bool_decide (response_finish_reason parsed = Some (bs "content_filter"))
                 then bs "compaction stopped by content filter"
                 else bs "compaction produced no summary" in
      if is_rate_limit_message emsg then
        match trying resume (compact_rl_retry o emsg) (fun w => w) w with
        | inl w => (w, [])
        | inr w => compact_fail resume why (- EIO) w
        end
      else compact_fail resume why (- EIO) w
  end.

(** [compact_success_cb] *)
Definition compact_success (o : oracle) (status : Z) (body : option (list byte)) (w : world) : result :=
  let resume := compact_resume_chain w in
  let w := set_inflight None (set_compact_resume_chain false w) in
  let r1 := if status =? 429 then trying resume (compact_rl_retry o body) (fun w => w) w else inr w in
  match r1 with
  | inl w => (w, [])
  | inr w =>
      let r2 := if status =? 400 then trying resume (compact_effort_retry o body) fst w else inr w in
      match r2 with
      | inl res => res
      | inr w =>
          match body with
          | Some b => if status =? 200 then compact_summary o resume b w
                      else compact_fail resume (format_http_error status body) (- EIO) w
          | None => compact_fail resume (format_http_error status body) (- EIO) w
          end
      end
  end.

(** [clm_agent_compact]; its first check is in [api_compact]. *)
Definition clm_agent_compact (o : oracle) (w : world) : Z * world :=
  if agent_busy w then (- EBUSY, clm_agent_set_error (bs "turn already in progress") w)
  else
    let '(r, w) := compact_build o (compaction_effort (compact_effort cfg) llm) w in
    if r <? 0 then (r, w)
    else
      let w := set_compact_effort_fallback false (set_compact_rl_retries 0 w) in
      let '(r, w) := http_post o 0 RCompact (set_state CLM_STATE_THINKING w) in
      if r <? 0 then (r, set_state CLM_STATE_ERROR (set_compact_body None w)) else (0, w).

(** ** Tools *)

Definition gate_text (n : Z) : list byte :=
  snprintf 96 (bs "stopped: a hook blocked " ++ dec n ++ bs " tool calls in this turn").

(** [clm_agent_tools_done] from the autocompact check on. *)
Definition next_call (w : world) : result := (set_state CLM_STATE_THINKING w, [FStart]).

Definition next_round (o : oracle) (w : world) : result :=
  if clm_agent_over_autocompact_threshold w then
    let '(r, w) := clm_agent_compact o (set_compact_resume_chain true (set_state CLM_STATE_COMPLETE w)) in
    if r =? 0 then (set_ctx_used 0 (set_mid_chain_compact_started true w), [])
    else next_call (set_compact_resume_chain false w)
  else next_call w.

Definition clm_agent_tools_done (o : oracle) (status : Z) (w : world) : result :=
  if cancelling w then end_turn CLM_STATE_COMPLETE (- ECANCELED) (set_cancelling false w)
  else if status <? 0 then agent_fail (bs "tool execution failed") status w
  else if CLM_GATE_DENY_LIMIT <=? gate_denials w then
    agent_fail (gate_text (gate_denials w)) (- EPERM) w
  else if 0 <? max_iterations cfg then
    let w := set_iteration (iteration w + 1) w in
    if max_iterations cfg <=? iteration w then agent_fail (bs "max iterations reached") (- E2BIG) w
    else next_round o w
  else next_round o w.

(** What a finished batch leaves: [rewritten] says that it replaced a
    superseded result in the history ([tools.c] then drops the chain). *)
Definition on_tools_done (o : oracle) (status : Z) (h : clm_history) (rewritten : bool) (reg : registry)
    (denials : Z) (w : world) : result :=
  let w := set_gate_denials denials (set_tools reg (set_history h (set_active_batch None w))) in
  clm_agent_tools_done o status (if rewritten then clm_agent_chain_reset w else w).

(** ** Cancelling *)

Definition clm_agent_cancel (w : world) : Z * result :=
  if cancelling w then (- EALREADY, (w, []))
  else if llm_rl_timer w || compact_rl_timer w then
    let w := if llm_rl_timer w then set_llm_rl_timer false (set_llm_timer None w) else w in
    let w := if compact_rl_timer w then set_compact_rl_timer false (set_compact_timer false w) else w in
    let w := compact_done (set_rl_parked_turn None w) in
    (0, end_turn CLM_STATE_COMPLETE (- ECANCELED) (set_compact_resume_chain false w))
  else match inflight w with
  | Some id => (0, (set_requests (cancel_request id (requests w)) (set_cancelling true (set_inflight None w)), []))
  | None =>
      match active_batch w with
      | Some _ => (0, (set_cancelling true w, []))
      | None => (- EINVAL, (w, []))
      end
  end.

(** ** Between turns *)

Definition clm_agent_clear_history (w : world) : Z * world :=
  if agent_busy w then (- EBUSY, w)
  else
    let sys := build_system_prompt (default default_system_prompt (system_prompt_base cfg)) in
    (0, set_facts_pending true (set_last_time_stamp 0
          (set_history (clm_history_add_system [] (Some sys) cz) (clm_agent_chain_reset w)))).

Definition clm_agent_set_prompt_part (key : list byte) (text : option (list byte)) (w : world) : world :=
  let '(p, changed) := set_prompt_part (parts w) key text in
  set_parts p (if changed then set_prompt_parts_changed true w else w).

(** ** The machine *)

(** What the frontend may call. *)
Inductive api :=
| ASubmit (prompt : list byte)
| ANotify (text : list byte)
| ACompact
| ACancel
| AClearHistory
| ASetPromptPart (key : list byte) (text : option (list byte)).

(** An accepted compaction is a turn of its own. *)
Definition api_compact (o : oracle) (w : world) : Z * result :=
  let '(r, w) := clm_agent_compact o w in (r, (if r =? 0 then note (EvBegin false) w else w, [])).

Definition do_api (o : oracle) (a : api) (w : world) : Z * result :=
  match a with
  | ASubmit p => clm_agent_submit o p w
  | ANotify t => clm_agent_notify o t w
  | ACompact => api_compact o w
  | ACancel => clm_agent_cancel w
  | AClearHistory => let '(r, w) := clm_agent_clear_history w in (r, (w, []))
  | ASetPromptPart k t => (0, (clm_agent_set_prompt_part k t w, []))
  end.

(** What the event loop brings. *)
Inductive host :=
| HData (id : nat) (data : list byte)
| HSuccess (id : nat) (status : Z) (body : option (list byte))
| HError (id : nat) (code : Z) (msg : option (list byte))
| HLlmTimer
| HCompactTimer
| HToolsDone (status : Z) (h : clm_history) (rewritten : bool) (reg : registry) (denials : Z).

(** A request is answered once: with data, if it streams, then a response or
    an error. A cancelled one ends with the error [ECANCELED], no other
    does. A timer fires once. [None] is an event that cannot come. *)
Definition on_host (o : oracle) (e : host) (w : world) : option result :=
  match e with
  | HData id data =>
      match find_request id (requests w) with
      | Some (RTurn t, _) => if t_streaming t then Some (on_data id t data w, []) else None
      | _ => None
      end
  | HSuccess id status body =>
      match find_request id (requests w) with
      | Some (r, false) =>
          let w := set_requests (drop_request id (requests w)) w in
          Some match r with
               | RTurn t => turn_success o t status body w
               | RCompact => compact_success o status body w
               | RUpload url => upload_success o url status body w
               end
      | _ => None
      end
  | HError id code msg =>
      match find_request id (requests w) with
      | Some (r, c) =>
          if Bool.eqb c (code =? - ECANCELED) && (code <? 0) then
            let w := set_requests (drop_request id (requests w)) w in
            Some match r with
                 | RTurn t => turn_error t code msg w
                 | RCompact => compact_error code msg w
                 | RUpload url => upload_error o url code w
                 end
          else None
      | None => None
      end
  | HLlmTimer =>
      match llm_timer w with
      | Some t => Some (on_llm_rl_timer o 0 0 t w)
      | None => None
      end
  | HCompactTimer => if compact_timer w then Some (on_compact_rl_timer o w) else None
  | HToolsDone status h rw reg n =>
      match active_batch w with
      | Some _ => Some (on_tools_done o status h rw reg n w)
      | None => None
      end
  end.

(** A step: the library runs on, a callback returns, the frontend calls from
    a callback or between events, or the event loop brings something. *)
Inductive choice := Run (o : oracle) | Return | Call (o : oracle) (a : api) | Host (o : oracle) (e : host).

Definition config : Type := world * list frame.

(** Whether a call of the frontend may begin a turn. *)
Definition begins (a : api) : bool :=
  match a with ASubmit _ | ANotify _ | ACompact => true | _ => false end.

(** The submit at the end of [agent_turn_done]; its result is not looked
    at. *)
Definition submit_notify (o : oracle) (t : list byte) (w : world) : result :=
  let '(r, (w, fs)) := clm_agent_submit o t w in (if r <? 0 then note (EvDropped t) w else w, fs).

Definition step (ch : choice) (c : config) : option config :=
  let '(w, s) := c in
  match ch, s with
  | Run o, FStart :: s' => let '(w, fs) := clm_agent_start_turn o w in Some (w, fs ++ s')
  | Run o, FSubmit t :: s' => let '(w, fs) := submit_notify o t w in Some (w, fs ++ s')
  | Return, FCallback _ :: s' => Some (w, s')
  | Call o a, [] => Some (snd (do_api o a w))
  | Call o a, FCallback _ :: _ =>
      let '(w, fs) := snd (do_api o a (if begins a then note EvReentry w else w)) in Some (w, fs ++ s)
  | Host o e, [] => on_host o e w
  | _, _ => None
  end.

Fixpoint run (chs : list choice) (c : config) : option config :=
  match chs with
  | [] => Some c
  | ch :: chs' => c ← step ch c; run chs' c
  end.

(** [clm_agent_new], once the settings are taken. *)
Definition clm_agent_new (file_uploads_cfg : Z) (rl : option clm_ratelimit) (reg : registry) : world :=
  let sys := build_system_prompt (default default_system_prompt (system_prompt_base cfg)) in
  mk_world CLM_STATE_IDLE (clm_history_add_system [] (Some sys) cz) None 0 0 0 true 0 None false false None 0
    false false false false false None false (mk_uploads [] (wants_file_uploads llm file_uploads_cfg)) 0 rl reg
    [] false None None false None false [] 0 None false [] false.
End Agent.

(** A comparison unfolds a caller before what it calls. *)
#[global] Strategy 60 [http_post].
#[global] Strategy 50 [post_turn agent_turn_done].
#[global] Strategy 40 [on_llm_rl_timer end_turn clm_agent_compact].
#[global] Strategy 30 [llm_dispatch agent_fail rl_retry compact_rl_retry resume_failed].
#[global] Strategy 20 [send_turn agent_finish compact_error compact_fail].
#[global] Strategy 10 [clm_agent_start_turn stream_finalize finish_parsed compact_post compact_fold].
