(* ===== verification/AgentBooks.v ===== *)
(** What the turn machine keeps in order beside its waits: the history, the
    response chain, the notifications, the counts of rounds and of requests
    sent. The pieces are predicates on what they depend on, with the lemmas
    that keep them. *)

From S2P Require Import Prelude Utf8 TextClean Image RateLimit Tokens CJson History HistoryFacts HistoryJson Registry.
From S2P Require Import Files Stream StreamFacts Provider ProviderOpenai Requests AgentState Agent.

(** ** The history *)

(** Stored forms are sound, and every provider's rule on calls and results
    holds. *)
Definition hist_ok (h : clm_history) : Prop := Forall msg_ok h /\ orphan_free [] h /\ answered h.

Lemma hist_ok_snoc h m : hist_ok h -> msg_ok m -> is_tool m = false -> call_ids m = [] -> hist_ok (h ++ [m]).
Proof.
  intros (Hm & Ho & Ha) Hok Ht Hc. assert (Hf : fresh [m]) by done. split_and!.
  - apply Forall_app. by split; [|constructor].
  - apply orphan_free_app; [done|]. split; [done|]. cbn. by rewrite Ht.
  - apply answered_app; [done|]. split; [done|]. cbn. by rewrite Hc.
Qed.

Lemma plain_message r c cz : r <> CLM_ROLE_TOOL ->
  let m := message_set_content (clm_message_create r) c cz in
  msg_ok m /\ is_tool m = false /\ call_ids m = [].
Proof.
  intros Hr m. split; [apply set_content_ok|]. unfold m, message_set_content.
  destruct (set_content_len_fields (clm_message_create r) (c_str <$> c) cz) as (E1 & E2 & E3 & E4 & _).
  unfold is_tool, call_ids, has_calls. rewrite E1, E4. by destruct r.
Qed.

Lemma hist_ok_user h c cz : hist_ok h -> hist_ok (clm_history_add_user h c cz).
Proof. intros Hh. destruct (plain_message CLM_ROLE_USER c cz) as (?&?&?); [done|]. by apply hist_ok_snoc. Qed.

Lemma hist_ok_assistant h c cz : hist_ok h -> hist_ok (clm_history_add_assistant_text h c cz).
Proof. intros Hh. destruct (plain_message CLM_ROLE_ASSISTANT c cz) as (?&?&?); [done|]. by apply hist_ok_snoc. Qed.

Lemma hist_ok_system c cz : hist_ok (clm_history_add_system [] c cz).
Proof. destruct (plain_message CLM_ROLE_SYSTEM c cz) as (?&?&?); [done|]. by apply hist_ok_snoc. Qed.

Lemma hist_ok_compact h summary kb kt cz : hist_ok h ->
  let '(n, h') := clm_history_compact_within h summary kb kt cz in
  hist_ok h' /\ (n <= 0 -> h' = h).
Proof.
  intros (Hm & Ho & Ha). pose proof (compact_within_cases h summary kb kt cz Hm) as Hc.
  pose proof (compact_within_folds h summary kb kt cz Hm) as Hf. cbv zeta in Hf.
  destruct (folds_exchanges _ _ _ _ _ Hf) as [Fo Fa]. unfold within_case in Hc.
  destruct (split_system h) as [sys rest] eqn:Es. destruct (split_system_spec h sys rest Es) as (Hh & _ & _).
  destruct (clm_history_compact_within h summary kb kt cz) as [n h']. cbn [fst snd] in *.
  split; [split_and!; [|by apply Fo|by apply Fa]|].
  - destruct Hc as [[= -> ->]|(c & m & _ & _ & _ & _ & _ & [= -> ->])]; [done|].
    rewrite Hh in Hm. apply Forall_app in Hm as [Hs Hr]. apply Forall_app. split; [done|].
    constructor; [apply set_content_ok|]. by apply Forall_drop.
  - intros Hn. destruct Hc as [[= _ ->]|(c & m & _ & _ & Hc & _ & _ & [= -> ->])]; [done|lia].
Qed.

Lemma repair_ok h : hist_ok h -> clm_history_repair_dangling_tool_calls h = (0, h).
Proof. intros (_ & _ & Ha). unfold clm_history_repair_dangling_tool_calls. by rewrite repair_from_id. Qed.

(** ** The messages of a request *)

Section Messages.
Context `{CJsonLaws}.

Lemma history_array_length h cz : forall arr out, cJSON_IsArray arr = true -> history_array h cz arr = Some out ->
  cJSON_IsArray out = true /\ length (cJSON_elements out) = (length (cJSON_elements arr) + length h)%nat.
Proof.
  induction h as [|m h IH]; intros arr out Ha E; cbn [history_array] in E.
  { injection E as <-. split; [done|cbn; lia]. }
  destruct (clm_message_to_json m cz) as [j|]; [|done]. cbn [mbind option_bind] in E.
  destruct (IH (cJSON_AddItemToArray arr j) out) as [I1 I2]; [by rewrite isarray_add|done|].
  split; [done|]. rewrite I2, elements_add, length_app by done. cbn. lia.
Qed.

Lemma to_json_length h cz m : clm_history_to_json h cz = Some m ->
  cJSON_IsArray m = true /\ length (cJSON_elements m) = length h.
Proof.
  intros E. destruct (history_array_length h cz cJSON_CreateArray m isarray_create E) as [E1 E2].
  split; [done|]. by rewrite E2, elements_create.
Qed.

Lemma parts_length parts m : cJSON_IsArray m = true ->
  cJSON_IsArray (apply_prompt_parts parts m) = true /\
  length (cJSON_elements (apply_prompt_parts parts m)) = length (cJSON_elements m).
Proof.
  intros Ha. unfold apply_prompt_parts. destruct (cJSON_elements m) as [|sys rest] eqn:E; [by rewrite E|].
  destruct parts; [by rewrite E|]. destruct (role_is sys _); [|by rewrite E].
  destruct (get_string _ _); [|by rewrite E]. by rewrite isarray_update, elements_update.
Qed.

Lemma for_each_length {A B} (f : B -> A -> B * A) l : forall st, length (snd (for_each f st l)) = length l.
Proof.
  induction l as [|x l IH]; intros st; [done|]. cbn. destruct (f st x) as [st' x'].
  specialize (IH st'). destruct (for_each f st' l). cbn in *. lia.
Qed.

Lemma files_apply_length fl clock want m : cJSON_IsArray m = true ->
  cJSON_IsArray (snd (clm_files_apply fl clock want m)) = true /\
  length (cJSON_elements (snd (clm_files_apply fl clock want m))) = length (cJSON_elements m).
Proof.
  intros Ha. unfold clm_files_apply.
  pose proof (for_each_length (apply_message fl clock want) (cJSON_elements m) (mk_pass 0 None)) as Hl.
  destruct (for_each _ _ _) as [st l]. cbn [snd] in *. by rewrite isarray_update, elements_update.
Qed.
End Messages.

(** ** The log *)

Section Log.
Context `{CJson} `{!Provider}.

(** Rounds of tools since the last prompt, and requests sent of the last
    turn built. *)
Fixpoint batches (l : list ev) : nat :=
  match l with
  | [] => 0
  | EvBegin true :: _ => 0
  | EvBatch :: l' => S (batches l')
  | _ :: l' => batches l'
  end.

Fixpoint posts (l : list ev) : nat :=
  match l with
  | [] => 0
  | EvTurn _ _ _ _ :: _ => 0
  | EvPost (RTurn _) :: l' => S (posts l')
  | _ :: l' => posts l'
  end.

(** What the log says, by the two events of the abstract agent; [None] is a
    log it cannot have: a turn begun in a turn, or reported twice. *)
Fixpoint in_turn (l : list ev) : option bool :=
  match l with
  | [] => Some false
  | EvBegin _ :: l' => match in_turn l' with Some false => Some true | _ => None end
  | EvDone _ :: l' => match in_turn l' with Some true => Some false | _ => None end
  | _ :: l' => in_turn l'
  end.

(** [t] is part of the text [u]. *)
Definition sub (t u : list byte) : Prop := exists a b, u = a ++ t ++ b.

(** Every accepted notification waits to be told, is about to be submitted
    ([q]), was told to the model, or was dropped. *)
Definition heard (q : list (list byte)) (p : option (list byte)) (l : list ev) : Prop :=
  forall t, In (EvNotify t) l ->
  (exists u, p = Some u /\ sub t u) \/ (exists u, In u q /\ sub t u) \/
  (exists u, (In (EvUser u) l \/ In (EvDropped u) l) /\ sub t u).

(** The texts a stack will submit. *)
Definition submits (s : list frame) : list (list byte) :=
  omap (fun f => match f with FSubmit t => Some t | _ => None end) s.

Definition notifies (e : ev) : bool := match e with EvNotify _ => true | _ => false end.

Lemma sub_refl t : sub t t.
Proof. exists [], []. by rewrite app_nil_r. Qed.

Lemma heard_cons q p e l : notifies e = false -> heard q p l -> heard q p (e :: l).
Proof.
  intros He Hh t [->|Hin]; [done|]. destruct (Hh t Hin) as [?|[?|(u & Hu & Ht)]]; [by left|by right; left|].
  right. right. exists u. split; [|done]. destruct Hu; [left|right]; by right.
Qed.

(** The queued text becomes a user message, or a submit to come. *)
Lemma heard_flush q u l : heard q (Some u) l -> heard q None (EvUser u :: l).
Proof.
  intros Hh t [?|Hin]; [done|]. right.
  destruct (Hh t Hin) as [(v & [= ->] & Ht)|[?|(v & Hv & Ht)]]; [right|by left|right].
  - exists v. split; [left; by left|done].
  - exists v. split; [|done]. destruct Hv; [left|right]; by right.
Qed.

Lemma heard_done q p l st : heard q p l ->
  heard (match p with Some u => u :: q | None => q end) None (EvDone st :: l).
Proof.
  intros Hh. apply heard_cons; [done|]. intros t Hin. right.
  destruct (Hh t Hin) as [(v & -> & Ht)|[(v & Hv & Ht)|?]]; [left|left|by right].
  - exists v. split; [by left|done].
  - exists v. split; [|done]. by destruct p; [right|].
Qed.

(** The submit of a text at last, or its refusal. *)
Lemma heard_submitted q u p l e : e = EvUser u \/ e = EvDropped u -> heard (u :: q) p l -> heard q p (e :: l).
Proof.
  intros He Hh t Hin. assert (Hin' : In (EvNotify t) l) by (destruct Hin as [->|?]; [by destruct He|done]).
  destruct (Hh t Hin') as [?|[(v & [->|Hv] & Ht)|(v & Hv & Ht)]]; [by left| |by right; left; exists v|].
  - right. right. exists v. split; [|done]. destruct He as [-> | ->]; [left|right]; by left.
  - right. right. exists v. split; [|done]. destruct Hv; [left|right]; by right.
Qed.

Lemma heard_notify q p l t : heard q p l ->
  heard q (Some match p with None => t | Some u => u ++ [x0a; x0a] ++ t end) (EvNotify t :: l).
Proof.
  intros Hh t' [[= ->]|Hin].
  - left. eexists. split; [done|]. destruct p as [u|]; [|apply sub_refl].
    exists (u ++ [x0a; x0a]), []. by rewrite app_nil_r, <- app_assoc.
  - destruct (Hh t' Hin) as [(u & -> & a & b & ->)|[?|(v & Hv & Ht)]].
    + left. eexists. split; [done|]. exists a, (b ++ [x0a; x0a] ++ t). by rewrite <- !app_assoc.
    + right. by left.
    + right. right. exists v. split; [|done]. destruct Hv; [left|right]; by right.
Qed.

Lemma heard_weaken q q' p l : (forall u, In u q -> In u q') -> heard q p l -> heard q' p l.
Proof.
  intros Hq Hh t Hin. destruct (Hh t Hin) as [?|[(u & Hu & Ht)|?]]; [by left| |by right; right].
  right. left. exists u. split; [by apply Hq|done].
Qed.

Lemma heard_pass q p l t : heard q p l -> heard (t :: q) p (EvNotify t :: l).
Proof.
  intros Hh t' [[= ->]|Hin]; [right; left; exists t'; split; [by left|apply sub_refl]|].
  destruct (Hh t' Hin) as [?|[(u & Hu & Ht)|(u & Hu & Ht)]]; [by left|right; left|right; right].
  - exists u. split; [by right|done].
  - exists u. split; [|done]. destruct Hu; [left|right]; by right.
Qed.

(** A turn runs, or one is to be submitted, and no second one; but the
    frontend may begin one from within [cb_on_turn_done]. *)
Definition turns (q : list (list byte)) (l : list ev) : nat :=
  (match in_turn l with Some true => 1 | _ => 0 end + length q)%nat.

Definition one_turn (q : list (list byte)) (l : list ev) : Prop := (turns q l <= 1)%nat \/ In EvReentry l.

Lemma one_turn_cons q q' l e : (turns q' (e :: l) <= turns q l)%nat -> one_turn q l -> one_turn q' (e :: l).
Proof. intros Ht [?|?]; [left; lia|by right; right]. Qed.

(** Only a submit after the frontend began a turn of its own is refused. *)
Definition dropped_ok (l : list ev) : Prop := forall u, In (EvDropped u) l -> In EvReentry l.

Lemma dropped_cons l e : match e with EvDropped _ => False | _ => True end -> dropped_ok l -> dropped_ok (e :: l).
Proof. intros He Hd u [->|Hu]; [done|right; by apply (Hd u)]. Qed.

(** Nothing waits to be told between turns. *)
Definition idle_ok (p : option (list byte)) (l : list ev) : Prop := in_turn l = Some false -> p = None.

(** An event that is neither the begin nor the end of a turn. *)
Definition inside (e : ev) : bool := match e with EvBegin _ | EvDone _ => false | _ => true end.

Lemma idle_cons p l e : inside e = true -> idle_ok p l -> idle_ok p (e :: l).
Proof. intros He Hp. by destruct e. Qed.

(** ** The response chain *)

(** The server holds a conversation this history extends: the one of the
    request the chain comes from. *)
Definition chain_ok (c : option (list byte * nat)) (h : clm_history) (l : list ev) : Prop :=
  match c with
  | None => True
  | Some (_, n) => exists h0 rest prev all sent,
      In (EvTurn h0 prev all sent) l /\ length h0 = n /\ h = h0 ++ rest
  end.

(** What a request sends: all its messages, one for each of the history, or
    those after the conversation of an earlier request that the history
    extends, and after the reply to it. *)
Definition turn_sent (older : list ev) (h : clm_history) (prev : option (list byte)) (all sent : list cJSON) : Prop :=
  length all = length h /\
  match prev with
  | None => sent = all
  | Some _ => exists h0 rest prev0 all0 sent0,
      In (EvTurn h0 prev0 all0 sent0) older /\ h = h0 ++ rest /\
      (sent = drop (length h0) all \/
       sent = drop (S (length h0)) all /\
       exists reply, all !! length h0 = Some reply /\ role_is reply (bs "assistant") = true)
  end.

Fixpoint turns_ok (l : list ev) : Prop :=
  match l with
  | [] => True
  | EvTurn h prev all sent :: l' => (hist_ok h /\ turn_sent l' h prev all sent) /\ turns_ok l'
  | _ :: l' => turns_ok l'
  end.

Lemma chain_ok_app c h l rest : chain_ok c h l -> chain_ok c (h ++ rest) l.
Proof.
  destruct c as [[rid n]|]; [|done]. intros (h0 & r & prev & all & sent & Hin & Hn & ->).
  exists h0, (r ++ rest), prev, all, sent. by rewrite <- app_assoc.
Qed.

Lemma chain_ok_cons c h l e : chain_ok c h l -> chain_ok c h (e :: l).
Proof.
  destruct c as [[rid n]|]; [|done]. intros (h0 & r & prev & all & sent & Hin & Hn & ->).
  exists h0, r, prev, all, sent. split_and!; [by right|done|done].
Qed.

Lemma cut_chain_ok c h l all : chain_ok c h l -> length all = length h ->
  let '(prev, c', sent) := cut_chain c all in
  chain_ok c' h l /\ turn_sent l h prev all sent.
Proof.
  intros Hc Hl. unfold cut_chain. destruct c as [[rid n]|]; [|done]. destruct (_ && _); [|done].
  split; [done|]. destruct Hc as (h0 & rest & prev & all0 & sent0 & Hin & <- & E).
  split; [done|]. exists h0, rest, prev, all0, sent0. split_and!; [done|done|].
  destruct (all !! length h0) as [reply|]; [|by left].
  destruct (role_is reply (bs "assistant")) eqn:Er; [|by left]. right. split; [done|]. by exists reply.
Qed.

(** A turn in flight stands for the history, which has not changed since it
    was built. *)
Definition live (n : nat) (h : clm_history) (l : list ev) : Prop :=
  n = length h /\ exists prev all sent, In (EvTurn h prev all sent) l.

Lemma live_chain rid n h l : live n h l -> chain_ok (Some (rid, n)) h l.
Proof.
  intros [-> (prev & all & sent & Hin)]. exists h, [], prev, all, sent. by rewrite app_nil_r.
Qed.

Lemma live_cons n h l e : live n h l -> live n h (e :: l).
Proof. intros [Hn (prev & all & sent & Hin)]. split; [done|]. exists prev, all, sent. by right. Qed.
End Log.

(** ** All of it *)

Section Books.
Context `{CJson} `{!Provider} (max : Z) (q : list (list byte)).

(** The rounds of a turn that goes on. *)
Definition going (it : Z) (l : list ev) : Prop := 0 < max -> Z.of_nat (batches l) = it /\ it < max.

(** [sure]: whether a turn that goes on is known to run. *)
Record books (sure : bool) (it : Z) (p : option (list byte)) (h : clm_history)
    (c : option (list byte * nat)) (l : list ev) : Prop := {
  k_going : sure = true -> going it l;
  k_rounds : 0 < max -> Z.of_nat (batches l) <= max;
  k_posts : (posts l <= 9)%nat;
  k_heard : heard q p l;
  k_hist : hist_ok h;
  k_chain : chain_ok c h l;
  k_turns : turns_ok l;
  k_one : one_turn q l;
  k_dropped : dropped_ok l;
  k_idle : idle_ok p l
}.

(** An event the books do not count. *)
Definition quiet (e : ev) : bool :=
  match e with
  | EvWait _ | EvReentry | EvPost RCompact | EvPost (RUpload _) => true
  | _ => false
  end.

Lemma books_quiet e b it p h c l : quiet e = true -> books b it p h c l -> books b it p h c (e :: l).
Proof.
  intros He [K1 K2 K3 K4 K5 K6 K7 K8 K9 K10].
  assert (Hi : inside e = true) by (by destruct e).
  constructor; [..|by apply heard_cons; destruct e|done|by apply chain_ok_cons| |apply one_turn_cons with q; [|done]| |
    by apply idle_cons]; try by destruct e as [[|]| | | | |[]| | | |].
  apply dropped_cons; [by destruct e|done].
Qed.

Lemma books_unsure b it p h c l : books b it p h c l -> books false it p h c l.
Proof. intros [K1 K2 K3 K4 K5 K6 K7 K8 K9 K10]. by constructor. Qed.

Lemma books_no_chain b it p h c l : books b it p h c l -> books b it p h None l.
Proof. intros [K1 K2 K3 K4 K5 K6 K7 K8 K9 K10]. by constructor. Qed.

(** The history grows. *)
Lemma books_grow b it p h rest c l : hist_ok (h ++ rest) -> books b it p h c l -> books b it p (h ++ rest) c l.
Proof. intros Hh [K1 K2 K3 K4 K5 K6 K7 K8 K9 K10]. constructor; try done. by apply chain_ok_app. Qed.

Lemma books_history b it p h h' l : hist_ok h' -> books b it p h None l -> books b it p h' None l.
Proof. intros Hh [K1 K2 K3 K4 K5 K6 K7 K8 K9 K10]. by constructor. Qed.

(** The next part of a reply of a live turn. *)
Lemma books_live b it p h c l rid n : live n h l -> books b it p h c l -> books b it p h (Some (rid, n)) l.
Proof. intros Hn [K1 K2 K3 K4 K5 K6 K7 K8 K9 K10]. constructor; try done. by apply live_chain. Qed.

Lemma books_posted b it p h c l t : (posts l <= 8)%nat -> books b it p h c l ->
  books b it p h c (EvPost (RTurn t) :: l).
Proof.
  intros Hp [K1 K2 K3 K4 K5 K6 K7 K8 K9 K10].
  constructor; [done|done|cbn [posts]; lia|by apply heard_cons|done|by apply chain_ok_cons|done|by apply one_turn_cons with q|by apply dropped_cons|done].
Qed.

Lemma books_turn b it p h c l prev all sent : turn_sent l h prev all sent ->
  books b it p h c l -> books b it p h c (EvTurn h prev all sent :: l).
Proof.
  intros Hs [K1 K2 K3 K4 K5 K6 K7 K8 K9 K10].
  constructor; [done|done|cbn [posts]; lia|by apply heard_cons|done|by apply chain_ok_cons|done|by apply one_turn_cons with q|by apply dropped_cons|done].
Qed.

Lemma books_batch it p h c l : books true it p h c l -> books false it p h c (EvBatch :: l).
Proof.
  intros [K1 K2 K3 K4 K5 K6 K7 K8 K9 K10]. constructor; [done| |done|by apply heard_cons|done|by apply chain_ok_cons|done|by apply one_turn_cons with q|by apply dropped_cons|done].
  intros Hm. cbn [batches]. specialize (K1 eq_refl Hm). lia.
Qed.

Lemma books_begin b it p h c l : one_turn q (EvBegin true :: l) -> books b it p h c l ->
  books true 0 p h c (EvBegin true :: l).
Proof.
  intros Ho [K1 K2 K3 K4 K5 K6 K7 K8 K9 K10].
  constructor; [split; [done|lia]|cbn; lia|done|by apply heard_cons|done|by apply chain_ok_cons|done|done|by apply dropped_cons|].
  unfold idle_ok. cbn [in_turn]. by destruct (in_turn l) as [[|]|].
Qed.

Lemma books_compact b it p h c l : one_turn q (EvBegin false :: l) -> books b it p h c l ->
  books b it p h c (EvBegin false :: l).
Proof.
  intros Ho [K1 K2 K3 K4 K5 K6 K7 K8 K9 K10].
  constructor; [done|done|done|by apply heard_cons|done|by apply chain_ok_cons|done|done|by apply dropped_cons|].
  unfold idle_ok. cbn [in_turn]. by destruct (in_turn l) as [[|]|].
Qed.
End Books.

Section Heard.
Context `{CJson} `{!Provider}.

(** A message joins the history. *)
Lemma books_user max q q' b it p p' h c l u cp : heard q' p' (EvUser u :: l) -> one_turn q' l -> idle_ok p' l ->
  books max q b it p h c l ->
  books max q' b it p' (clm_history_add_user h (Some u) cp) c (EvUser u :: l).
Proof.
  intros Hh Ho Hi [K1 K2 K3 K4 K5 K6 K7 K8 K9 K10]. pose proof (hist_ok_user h (Some u) cp K5).
  constructor; try done; [|by apply one_turn_cons with q'|by apply dropped_cons].
  unfold clm_history_add_user. by apply chain_ok_app, chain_ok_cons.
Qed.

Lemma books_heard max q q' b it p p' h c l : heard q' p' l -> one_turn q' l -> idle_ok p' l -> books max q b it p h c l ->
  books max q' b it p' h c l.
Proof. intros Hh Ho Hi [K1 K2 K3 K4 K5 K6 K7 K8 K9 K10]. by constructor. Qed.

(** A turn ends: what waited to be told is to be submitted. *)
Lemma books_done max q b it p h c l st : in_turn l = Some true -> books max q b it p h c l ->
  books max (match p with Some u => u :: q | None => q end) false it None h c (EvDone st :: l).
Proof.
  intros Hl [K1 K2 K3 K4 K5 K6 K7 K8 K9 K10].
  constructor; [done|done|done|by apply heard_done|done|by apply chain_ok_cons|done| |by apply dropped_cons|done].
  apply one_turn_cons with q; [|done]. unfold turns. cbn [in_turn]. rewrite Hl. destruct p; cbn; lia.
Qed.
End Heard.

(** ** The chain as a stream sets it *)

Section Chain.
Context `{CJson} `{!Provider} (cJSON_Parse : list byte -> option cJSON) (int_nan : Z).

(** A stream leaves the chain, or sets it to what its request stands for. *)
Definition chained (msgs : nat) (c c' : option (list byte * nat)) : Prop :=
  c' = c \/ exists rid, c' = Some (rid, msgs).

Lemma chained_trans msgs a b c : chained msgs a b -> chained msgs b c -> chained msgs a c.
Proof. intros H1 [->|?]; [done|by right]. Qed.

Lemma note_error_chain s m : chain (stream_note_error s m) = chain s.
Proof. unfold stream_note_error. destruct m as [m|]; [|done]. by destruct (finish_reason _). Qed.

Lemma delta_chain s d s' : stream_delta int_nan s d = Some s' -> chain s' = chain s.
Proof.
  unfold stream_delta. set (s1 := match get_string (Some d) _ with Some _ => _ | None => s end).
  assert (E1 : chain s1 = chain s) by (unfold s1; by destruct (get_string _ _) as [[|]|]). clearbody s1.
  set (s2 := match j ← _; _ with Some _ => _ | None => s1 end).
  assert (E2 : chain s2 = chain s) by (unfold s2; by destruct (mbind _ _) as [[|]|]). clearbody s2.
  destruct (cJSON_GetObjectItemCaseSensitive d (bs "tool_calls")) as [tcs|]; [|by intros [= <-]].
  destruct (cJSON_IsArray tcs); [|by intros [= <-]].
  destruct (stream_merge_tool_calls _ _ _ _) as [l|]; [|done]. by intros [= <-].
Qed.

Lemma chunk_chain msgs s obj s' : stream_chunk int_nan msgs s obj = Some s' -> chained msgs (chain s) (chain s').
Proof.
  unfold stream_chunk. cbv zeta. set (s3 := stream_usage int_nan s obj).
  assert (E3 : chain s3 = chain s) by (unfold s3, stream_usage; by destruct (extract_usage _ _)). clearbody s3. rewrite <- E3.
  destruct (cJSON_GetObjectItemCaseSensitive obj (bs "choices")) as [choices|]; [|intros [= <-]; by left].
  destruct (negb _); [intros [= <-]; by left|]. destruct (first_of choices) as [choice|]; [|intros [= <-]; by left].
  set (s4 := stream_note_error _ _).
  assert (E4 : chain s4 = chain s3).
  { unfold s4. rewrite note_error_chain. by destruct (get_string _ _). }
  clearbody s4. set (s5 := chain_note_response s4 obj msgs).
  assert (E5 : chained msgs (chain s3) (chain s5)).
  { unfold s5, chain_note_response. destruct (get_string _ _) as [[|b rid]|]; [by left|right; by eexists|by left]. }
  clearbody s5. destruct (cJSON_GetObjectItemCaseSensitive choice (bs "delta")) as [d|]; [|by intros [= <-]].
  intros Hd. by rewrite (delta_chain _ _ _ Hd).
Qed.

Lemma event_chain msgs s o s' : stream_event int_nan msgs s o = Some s' -> chained msgs (chain s) (chain s').
Proof.
  unfold stream_event. cbv zeta. set (s1 := stream_note_error s _).
  assert (E1 : chain s1 = chain s) by apply note_error_chain. clearbody s1. rewrite <- E1.
  destruct normalize_stream_event as [f|]; [|apply chunk_chain].
  destruct (f o (scratch s1)) as [[obj|] p]; [|intros [= <-]; by left]. apply (chunk_chain msgs (with_scratch s1 p)).
Qed.

Lemma data_chain cancelling msgs data : forall s s',
  clm_http_data_cb_wrapper cJSON_Parse int_nan cancelling msgs s data = Some s' -> chained msgs (chain s) (chain s').
Proof.
  induction data as [|b data IH]; intros s s' E; cbn [clm_http_data_cb_wrapper] in E.
  { injection E as <-. by left. }
  destruct (beq [b] [x0a]); [|by apply (IH _ _ E)].
  destruct (stream_handle_line _ _ _ _ s) as [s1|] eqn:Eh; [|done]. cbn [mbind option_bind] in E.
  apply IH in E. apply chained_trans with (chain s1); [|done]. clear E IH.
  unfold stream_handle_line in Eh. destruct cancelling; [injection Eh as <-; by left|].
  destruct (line_event _ _); [|injection Eh as <-; by left]. by apply (event_chain _ _ _ _ Eh).
Qed.
End Chain.
