(* ===== verification/AgentInv.v ===== *)
(** The invariant of the turn machine: what the agent waits for, that it
    tells the frontend about every turn once, and that the books of
    AgentBooks are kept. *)

From S2P Require Import Prelude Utf8 TextClean Image RateLimit Tokens CJson History HistoryFacts HistoryJson Registry.
From S2P Require Import Files Stream StreamFacts Provider ProviderOpenai Requests AgentState Agent AgentBooks.

Section Inv.
Context `{CJsonLaws} `{!Provider} `{!ProviderOps}.

(** What an agent waits for. [Lost] is a wait no one will end. *)
Inductive waiting :=
| NoWait
| OnStart
| OnRequest (id : nat) (r : request)
| OnCancelled (id : nat) (r : request)
| OnLlmTimer (t : turn)
| OnCompactTimer
| OnTools (calls : cJSON)
| Lost.

(** What the host and the agent's handles show of it: the requests, the
    handle of the one in flight, the timers with their handles, the batch. *)
Definition outstanding : Type :=
  list (nat * (request * bool)) * option nat * (option turn * bool) * (bool * bool) * option cJSON.

Definition shows (k : waiting) : outstanding :=
  match k with
  | OnRequest id r => ([(id, (r, false))], Some id, (None, false), (false, false), None)
  | OnCancelled id r => ([(id, (r, true))], None, (None, false), (false, false), None)
  | OnLlmTimer t => ([], None, (Some t, true), (false, false), None)
  | OnCompactTimer => ([], None, (None, false), (true, true), None)
  | OnTools tc => ([], None, (None, false), (false, false), Some tc)
  | NoWait | OnStart | Lost => ([], None, (None, false), (false, false), None)
  end.

Definition core (w : world) : outstanding :=
  (requests w, inflight w, (llm_timer w, llm_rl_timer w), (compact_timer w, compact_rl_timer w), active_batch w).

Lemma core_fields k w : core w = shows k ->
  requests w = fst (fst (fst (fst (shows k)))) /\ inflight w = snd (fst (fst (fst (shows k)))) /\
  llm_timer w = fst (snd (fst (fst (shows k)))) /\ llm_rl_timer w = snd (snd (fst (fst (shows k)))) /\
  compact_timer w = fst (snd (fst (shows k))) /\ compact_rl_timer w = snd (snd (fst (shows k))) /\
  active_batch w = snd (shows k).
Proof. intros <-. done. Qed.

Definition idle (k : waiting) : bool := match k with NoWait => true | _ => false end.

(** The pending [clm_agent_start_turn] of a stack. *)
Definition starts (s : list frame) : nat := length (List.filter (fun f => match f with FStart => true | _ => false end) s).

Context (cJSON_Parse : list byte -> option cJSON) (cJSON_PrintUnformatted : cJSON -> option (list byte)).
Context (int_nan : Z) (sscanf : list byte -> option scanned) (fmt_rfc2822 : Z -> list byte).
Context (cfg : settings) (llm : clm_llm).

(** ** The invariant *)

(** The books of a world, with the notifications [q] still to be submitted. *)
Definition kept (q : list (list byte)) (sure : bool) (w : world) : Prop :=
  books (max_iterations cfg) q sure (iteration w) (pending_notify w) (history w) (resp_chain w) (log w).

(** The turn [t] stands for the history, and was sent once more than it was
    retried ([n = 1]) or as often ([n = 0]). *)
Definition sending (t : turn) (n : Z) (w : world) : Prop :=
  live (history_msgs t) (history w) (log w) /\ Z.of_nat (posts (log w)) = rl_retries t + n /\
  0 <= rl_retries t <= CLM_RL_RETRY_MAX.

Definition asked (r : request) (w : world) : Prop :=
  match r with
  | RTurn t => compact_resume_chain w = false /\ sending t 1 w
  | RUpload _ => compact_resume_chain w = false
  | RCompact => True
  end.

Definition awaits (k : waiting) (w : world) : Prop :=
  match k with
  | NoWait | OnStart => compact_resume_chain w = false
  | OnRequest _ r => asked r w
  | OnCancelled _ r => cancelling w = true /\ asked r w
  | OnLlmTimer t => compact_resume_chain w = false /\ rl_parked_turn w = Some t /\ sending t 0 w
  | OnTools _ => compact_resume_chain w = false /\
      (0 < max_iterations cfg -> Z.of_nat (batches (log w)) = iteration w + 1)
  | OnCompactTimer | Lost => True
  end.

(** Whether a turn that goes on is known to run: a compaction may be one of
    the user's, or may interrupt a turn. *)
Definition sure (k : waiting) (resume : bool) : bool :=
  match k with
  | OnStart | OnRequest _ (RTurn _) | OnRequest _ (RUpload _) | OnCancelled _ (RTurn _) | OnCancelled _ (RUpload _)
  | OnLlmTimer _ => true
  | OnRequest _ RCompact | OnCancelled _ RCompact | OnCompactTimer => resume
  | NoWait | OnTools _ | Lost => false
  end.

Record Inv (q : list (list byte)) (k : waiting) (w : world) (s : list frame) : Prop := {
  i_core : core w = shows k;
  i_start : starts s = match k with OnStart => 1%nat | _ => 0%nat end;
  i_busy : agent_busy w = negb (idle k);
  i_log : in_turn (log w) = Some (agent_busy w);
  i_kept : kept (submits s ++ q) (sure k (compact_resume_chain w)) w;
  i_awaits : awaits k w
}.

(** Nothing is outstanding, and the log says whether a turn runs. *)
Definition held (q : list (list byte)) (resume going l : bool) (w : world) : Prop :=
  core w = shows NoWait /\ in_turn (log w) = Some l /\ compact_resume_chain w = resume /\ kept q going w.

(** A turn runs, and a handler is at work. *)
Abbreviation Turn q resume going w := (held q resume going true w).

(** What a handler may leave; [Lost] only if a timer was refused. *)
Definition Left (q : list (list byte)) (o : oracle) (r : world * list frame) : Prop :=
  exists k, Inv q k (fst r) (snd r) /\ (k = Lost -> timer_ok o = false).

Lemma left_of q o k w fs : Inv q k w fs -> k <> Lost -> Left q o (w, fs).
Proof. intros Hi Hk. exists k. by split. Qed.

(** The part of a handler after which no one cares who goes on. *)
Lemma turn_unsure q f b w : Turn q f b w -> Turn q f false w.
Proof. intros (Hc & Hl & Hr & Hk). split_and!; try done. by apply books_unsure with b. Qed.

Lemma end_turn_left q o s st b w : Turn q false b w ->
  match s with CLM_STATE_COMPLETE | CLM_STATE_ERROR => True | _ => False end -> Left q o (end_turn s st w).
Proof.
  intros (Hc & Hl & Hr & Hk) Hs. apply (left_of _ _ NoWait); [|done]. constructor; wcbn; try done.
  - by destruct (pending_notify w).
  - by destruct s.
  - cbn. rewrite Hl. by destruct s.
  - apply (books_done _ _ _ _ _ _ _ _ st Hl) in Hk. unfold kept. wcbn. by destruct (pending_notify w).
Qed.

Lemma agent_fail_left q o msg err b w : Turn q false b w -> Left q o (agent_fail msg err w).
Proof. intros Ht. by apply (end_turn_left _ _ _ _ b). Qed.

Lemma start_left q o w : Turn q false true w -> agent_busy w = true -> Left q o (w, [FStart]).
Proof.
  intros (Hc & Hl & Hr & Hk) Hb. apply (left_of _ _ OnStart); [|done].
  constructor; try done. all: cbn [fst snd]; by rewrite Hb.
Qed.

Lemma inv_request q w id r : core w = shows (OnRequest id r) -> in_turn (log w) = Some true ->
  agent_busy w = true -> kept q (sure (OnRequest id r) (compact_resume_chain w)) w -> asked r w ->
  Inv q (OnRequest id r) w [].
Proof. intros Hc Hl Hb Hk Ha. constructor; try done; by rewrite Hb. Qed.

(** A request left, or not. *)
Lemma http_post_spec q o k r f b w : Turn q f b w ->
  match r with RTurn t => f = false /\ sending t 0 w | RUpload _ => f = false | RCompact => True end ->
  (exists e, http_post o k r w = (e, w) /\ e < 0) \/
  (exists w' id, http_post o k r w = (0, w') /\ core w' = shows (OnRequest id r) /\
    in_turn (log w') = Some true /\ state w' = state w /\ compact_resume_chain w' = f /\ kept q b w' /\ asked r w').
Proof.
  intros (Hc & Hl & Hr & Hk) Hs. unfold http_post. destruct (Z.ltb_spec (post o k) 0); [left; eauto|].
  right. eexists _, (next_id w). split; [done|]. split; [|split; [done|split; [done|split; [done|]]]].
  { injection Hc as Eq _ E3 E4 E5 E6 E7. unfold core. wcbn. by rewrite Eq, E3, E4, E5, E6, E7. }
  unfold kept, asked, sending in *. wcbn. destruct r as [t| |url].
  - destruct Hs as (-> & Hv & Hp & Hn).
    split; [apply books_posted; [unfold CLM_RL_RETRY_MAX in *; lia|exact Hk]|].
    split; [done|]. cbn [posts]. split_and!; [by apply live_cons|lia|lia|lia].
  - split; [by apply books_quiet|done].
  - split; [by apply books_quiet|]. by subst f.
Qed.

Lemma post_turn_left q o k t w : Turn q false true w -> agent_busy w = true -> sending t 0 w ->
  Left q o (post_turn o k t w).
Proof.
  intros Ht Hb Hs. unfold post_turn.
  destruct (http_post_spec q o k (RTurn t) _ _ w Ht (conj eq_refl Hs)) as [(e & -> & He)|(w' & id & -> & Hc & Hl & Hst & Hr & Hk & Ha)].
  - destruct (Z.ltb_spec e 0); [|lia]. by apply agent_fail_left with true.
  - apply (left_of _ _ (OnRequest id (RTurn t))); [|done].
    assert (agent_busy w' = true) by (unfold agent_busy; by rewrite Hst). by apply inv_request.
Qed.

(** What a handler's setters leave as it is. *)
Definition same (w w' : world) : Prop :=
  log w' = log w /\ compact_resume_chain w' = compact_resume_chain w /\ iteration w' = iteration w /\
  pending_notify w' = pending_notify w /\ history w' = history w /\ resp_chain w' = resp_chain w.

Lemma held_same q f b l w w' : held q f b l w -> core w' = core w -> same w w' -> held q f b l w'.
Proof.
  intros (Hc & Hl & Hr & Hk) Ec (E1 & E2 & E3 & E4 & E5 & E6). unfold held, kept in *.
  rewrite E1, E2, E3, E4, E5, E6. split_and!; congruence.
Qed.

Lemma sending_same t n w w' : sending t n w -> log w' = log w -> history w' = history w -> sending t n w'.
Proof. intros Hs E1 E2. unfold sending in *. by rewrite E1, E2. Qed.

Lemma cancel_llm_timer w (t : turn) : core w = shows NoWait \/ core w = shows (OnLlmTimer t) ->
  let w' := if llm_rl_timer w then set_llm_rl_timer false (set_llm_timer None w) else w in
  core w' = shows NoWait /\ same w w' /\ state w' = state w.
Proof.
  intros Hc w'. unfold w'. destruct Hc as [Hc|Hc]; injection Hc as E1 E2 E3 E4 E5 E6 E7; rewrite E4; split;
    try done; unfold core; wcbn; cbn; congruence.
Qed.

Lemma on_llm_rl_timer_left q o c k t w : core w = shows NoWait \/ core w = shows (OnLlmTimer t) ->
  in_turn (log w) = Some true -> compact_resume_chain w = false -> kept q true w -> agent_busy w = true ->
  sending t 0 w -> Left q o (on_llm_rl_timer o c k t w).
Proof.
  intros Hc Hl Hr Hk Hb Hs. unfold on_llm_rl_timer. cbv zeta. destruct (cancel_llm_timer w t Hc) as (C1 & S1 & B1).
  set (w1 := if llm_rl_timer w then _ else w) in *. clearbody w1. destruct S1 as (E1 & E2 & E3 & E4 & E5 & E6).
  assert (T1 : Turn q false true w1).
  { unfold held, kept in *. rewrite E1, E2, E3, E4, E5, E6. by split_and!. }
  apply post_turn_left.
  - by apply (held_same _ _ _ _ w1).
  - unfold agent_busy in *. wcbn. by rewrite B1.
  - by apply (sending_same _ _ w).
Qed.

Lemma arm_llm_timer_core q f b t w : Turn q f b w -> core (arm_llm_timer t w) = shows (OnLlmTimer t).
Proof. intros [Hc _]. injection Hc as E1 E2 E3 E4 E5 E6 E7. unfold core, arm_llm_timer. wcbn. cbn. congruence. Qed.

Lemma park_left q o t w m : Turn q false true w -> agent_busy w = true -> sending t 0 w ->
  Left q o (note (EvWait m) (set_rl_parked_turn (Some t) (arm_llm_timer t w)), []).
Proof.
  intros Ht Hb Hs. pose proof (arm_llm_timer_core _ _ _ t w Ht) as Hc. destruct Ht as (_ & Hl & Hr & Hk).
  apply (left_of _ _ (OnLlmTimer t)); [|done].
  constructor; [exact Hc|done|exact Hb| | |].
  - cbn [fst snd]. wcbn. cbn [in_turn].
    transitivity (Some true); [exact Hl|]. symmetry. f_equal. exact Hb.
  - apply (books_quiet _ _ (EvWait m)) in Hk; [exact Hk|done].
  - destruct Hs as (Hv & Hp & Hn). split; [exact Hr|]. split; [done|]. split; [|by split].
    by apply (live_cons _ _ _ (EvWait m)) in Hv.
Qed.

(** Changes of state and of the rate limiter are no part of a turn's books. *)
Lemma rate_limited_turn q f b w : Turn q f b w ->
  Turn q f b (set_state CLM_STATE_RATE_LIMITED w) /\ agent_busy (set_state CLM_STATE_RATE_LIMITED w) = true.
Proof. intros Ht. split; [by apply (held_same _ _ _ _ w)|done]. Qed.

Lemma thinking q f b w : Turn q f b w ->
  Turn q f b (set_state CLM_STATE_THINKING w) /\ agent_busy (set_state CLM_STATE_THINKING w) = true.
Proof. intros Ht. split; [by apply (held_same _ _ _ _ w)|done]. Qed.

Lemma set_llm_rl_turn q f b t v w : Turn q f b w -> agent_busy w = true -> sending t 0 w ->
  Turn q f b (set_llm_rl v w) /\ agent_busy (set_llm_rl v w) = true /\ sending t 0 (set_llm_rl v w).
Proof. intros Ht Hb Hs. split; [by apply (held_same _ _ _ _ w)|done]. Qed.

Lemma no_llm_timer_turn q f b w : Turn q f b w -> core (set_llm_rl_timer false w) = shows NoWait.
Proof. intros [Hc _]. injection Hc as E1 E2 E3 E4 E5 E6 E7. unfold core. wcbn. cbn. congruence. Qed.

Lemma llm_dispatch_left q o k t w : Turn q false true w -> agent_busy w = true -> sending t 0 w ->
  Left q o (llm_dispatch cfg o k t w).
Proof.
  intros Ht Hb Hs. unfold llm_dispatch. destruct (match llm_rl w with Some _ => _ | None => _ end) as [ok rl].
  destruct (set_llm_rl_turn _ _ _ t rl w Ht Hb Hs) as (T1 & B1 & S1). set (w1 := set_llm_rl rl w) in *. clearbody w1.
  cbv zeta. destruct ok; [by apply post_turn_left|].
  destruct (clm_ratelimit_delay _ _ _) as [d rl']. destruct (set_llm_rl_turn _ _ _ t rl' w1 T1 B1 S1) as (T2 & B2 & S2).
  set (w2 := set_llm_rl rl' w1) in *. clearbody w2. destruct (rate_limited_turn _ _ _ w2 T2) as [T3 B3].
  assert (S3 : sending t 0 (set_state CLM_STATE_RATE_LIMITED w2)) by exact S2.
  set (w3 := set_state CLM_STATE_RATE_LIMITED w2) in *. clearbody w3. destruct (timer_ok o).
  - by apply park_left.
  - pose proof (no_llm_timer_turn _ _ _ w3 T3) as C3. destruct T3 as (_ & L3 & R3 & K3).
    apply on_llm_rl_timer_left; [by left|exact L3|exact R3|exact K3|exact B3|exact S3].
Qed.

Lemma ups_turn q u w : Turn q false true w -> agent_busy w = true ->
  Turn q false true (set_ups u w) /\ agent_busy (set_ups u w) = true /\
  history (set_ups u w) = history w /\ resp_chain (set_ups u w) = resp_chain w /\ log (set_ups u w) = log w.
Proof. intros Ht Hb. split; [by apply (held_same _ _ _ _ w)|done]. Qed.

Lemma file_upload_start_spec q o url n w : Turn q false true w -> agent_busy w = true ->
  let '(started, w') := file_upload_start llm o url n w in
  if started then Left q o (w', [])
  else Turn q false true w' /\ agent_busy w' = true /\ history w' = history w.
Proof.
  intros Ht Hb. unfold file_upload_start. destruct (clm_files_url _); [|by destruct (ups_turn q (mk_uploads (files (ups w)) false) w Ht Hb) as (? & ? & ? & _)].
  destruct (clm_files_multipart url);
    [|by destruct (ups_turn q (file_upload_finish (ups w) url None n) w Ht Hb) as (? & ? & ? & _)].
  pose proof Ht as (Hc & Hl & Hr & Hk).
  destruct (http_post_spec q o 0 (RUpload url) _ _ w Ht eq_refl) as [(e & -> & He)|(w' & id & -> & C1 & L1 & S1 & R1 & K1 & A1)].
  - destruct (Z.ltb_spec e 0); [|lia]. by destruct (ups_turn q (mk_uploads (files (ups w)) false) w Ht Hb) as (? & ? & ? & _).
  - cbn. apply (left_of _ _ (OnRequest id (RUpload url))); [|done].
    assert (agent_busy w' = true) by (unfold agent_busy; by rewrite S1). by apply inv_request.
Qed.

Abbreviation send_turn := (send_turn cJSON_Parse cJSON_PrintUnformatted cfg llm).
Abbreviation start_turn := (clm_agent_start_turn cJSON_Parse cJSON_PrintUnformatted cfg llm).

(** The books once a request is built. *)
Lemma turn_built q prev chain all sent w : Turn q false true w -> length all = length (history w) ->
  cut_chain (resp_chain w) all = (prev, chain, sent) ->
  Turn q false true (set_resp_chain chain w) /\
  Turn q false true (note (EvTurn (history w) prev all sent) (set_resp_chain chain w)) /\
  forall body ctx, sending (new_turn cfg body (length all) ctx) 0 (note (EvTurn (history w) prev all sent) (set_resp_chain chain w)).
Proof.
  intros (Hc & Hl & Hr & Hk) Hn Ec. pose proof (cut_chain_ok _ _ _ _ (k_chain _ _ _ _ _ _ _ _ Hk) Hn) as Hcut.
  rewrite Ec in Hcut. destruct Hcut as [Hch Hs].
  assert (Hk1 : kept q true (set_resp_chain chain w)) by (destruct Hk; by constructor).
  split; [by split_and!|]. split; [split_and!; [done|done|done|]|].
  - by apply (books_turn _ _ _ _ _ _ _ _ prev all sent) in Hk1.
  - intros body ctx. unfold sending, live. wcbn. cbn. split_and!; try done; [|unfold CLM_RL_RETRY_MAX; lia..].
    exists prev, all, sent. by left.
Qed.

Lemma send_turn_left q o m w : Turn q false true w -> agent_busy w = true ->
  length (cJSON_elements m) = length (history w) -> Left q o (send_turn o m w).
Proof.
  intros Ht Hb Hn. unfold Agent.send_turn. cbv zeta. destruct (cut_chain _ _) as [[prev chain] sent] eqn:Ec.
  destruct (turn_built q _ _ _ _ w Ht Hn Ec) as (T1 & T2 & S2).
  destruct (build_request _ _ _ _) as [req|]; [|by apply agent_fail_left with true].
  destruct (cJSON_PrintUnformatted req) as [body|]; [|by apply agent_fail_left with true].
  apply llm_dispatch_left; [exact T2|exact Hb|apply S2].
Qed.

Lemma flush_keeps q w : Turn q false true w -> agent_busy w = true ->
  Turn q false true (agent_flush_pending_notify cfg w) /\ agent_busy (agent_flush_pending_notify cfg w) = true.
Proof.
  intros (Hc & Hl & Hr & Hk) Hb. unfold agent_flush_pending_notify.
  destruct (pending_notify w) as [u|] eqn:Ep; [|done]. split; [|done]. split_and!; try done.
  unfold kept in *. rewrite Ep in Hk. apply (books_user _ q _ _ _ (Some u)); [|by destruct Hk|done|exact Hk].
  by apply heard_flush, (k_heard _ _ _ _ _ _ _ _ Hk).
Qed.

Lemma parts_changed_keeps q w : Turn q false true w -> agent_busy w = true ->
  let w' := if prompt_parts_changed w then set_prompt_parts_changed false (clm_agent_chain_reset w) else w in
  Turn q false true w' /\ agent_busy w' = true.
Proof.
  intros (Hc & Hl & Hr & Hk) Hb. destruct (prompt_parts_changed w); [|done]. split; [|done].
  split_and!; try done. by apply books_no_chain in Hk.
Qed.

Lemma start_turn_left q o w : Turn q false true w -> agent_busy w = true -> Left q o (start_turn o w).
Proof.
  intros Ht Hb. unfold clm_agent_start_turn. cbv zeta. destruct (flush_keeps q w Ht Hb) as [T0 B0].
  set (w0 := agent_flush_pending_notify cfg w) in *. clearbody w0. destruct (parts_changed_keeps q w0 T0 B0) as [T1 B1].
  cbv zeta in T1, B1. set (w1 := if prompt_parts_changed _ then _ else _) in *. clearbody w1. clear w w0 Ht Hb T0 B0.
  destruct (clm_history_to_json _ _) as [m|] eqn:Ej; [|by apply agent_fail_left with true].
  destruct (to_json_length _ _ _ Ej) as [Ja Jn]. destruct (parts_length (parts w1) m Ja) as [Pa Pn].
  set (m1 := apply_prompt_parts _ _) in *. clearbody m1.
  destruct (file_uploads (ups w1)); [|apply send_turn_left; [done|done|congruence]].
  destruct (files_apply_length (files (ups w1)) (wall o) true m1 Pa) as [Fa Fn].
  destruct (clm_files_apply _ _ _ _) as [st m2]. cbn [snd] in *.
  destruct (missing st) as [url|]; [|apply send_turn_left; [done|done|congruence]].
  pose proof (file_upload_start_spec q o url (wall o (reads st)) w1 T1 B1) as Hs.
  destruct (file_upload_start _ _ _ _ _) as [[] w2]; [done|]. destruct Hs as (T2 & B2 & E2).
  apply send_turn_left; [done|done|congruence].
Qed.

(** ** Responses *)

(** A request answered, a turn to be sent again. *)
Lemma rl_retry_spec q o t a w : Turn q false true w -> sending t 1 w ->
  rl_retry sscanf cfg o t a w = (false, w) \/
  exists w', rl_retry sscanf cfg o t a w = (true, w') /\ Left q o (w', []).
Proof.
  intros (Hc & Hl & Hr & Hk) (Hv & Hp & Hn). unfold rl_retry. destruct (Z.leb_spec CLM_RL_RETRY_MAX (rl_retries t)).
  { by left. }
  destruct (negb (has_timers cfg)); [by left|right]. cbn [orb]. eexists. split; [done|].
  set (d := clm_rl_retry_delay_ms _ _ _). clearbody d.
  assert (Hs : live (history_msgs t) (history w) (EvWait d :: log w) /\
    Z.of_nat (posts (EvWait d :: log w)) = rl_retries t + 1 + 0 /\ 0 <= rl_retries t + 1 <= CLM_RL_RETRY_MAX).
  { split_and!; [by apply live_cons|cbn [posts]|..]; lia. }
  injection Hc as E1 E2 E3 E4 E5 E6 E7. destruct (timer_ok o) eqn:Eo.
  - apply (left_of _ _ (OnLlmTimer (turn_retry t))); [|done]. constructor; try done.
    + unfold core. wcbn. cbn. congruence.
    + apply (books_quiet _ _ (EvWait d)) in Hk; [exact Hk|done].
  - exists Lost. split; [|done]. constructor; try done.
    + unfold core. wcbn. cbn. congruence.
    + apply books_unsure, (books_quiet _ _ (EvWait d)) in Hk; [exact Hk|done].
Qed.

Lemma compact_rl_retry_spec q o a f w : Turn q f f w ->
  compact_rl_retry sscanf cfg o a w = (false, w) \/
  exists w', compact_rl_retry sscanf cfg o a w = (true, w') /\ Left q o (w', []).
Proof.
  intros (Hc & Hl & Hr & Hk). unfold compact_rl_retry. destruct (_ || _); [by left|right]. eexists. split; [done|].
  set (d := clm_rl_retry_delay_ms _ _ _). clearbody d.
  injection Hc as E1 E2 E3 E4 E5 E6 E7. destruct (timer_ok o) eqn:Eo.
  - apply (left_of _ _ OnCompactTimer); [|done]. constructor; try done.
    + unfold core. wcbn. cbn. congruence.
    + cbn [fst snd sure]. wcbn. rewrite Hr. apply (books_quiet _ _ (EvWait d)) in Hk; [exact Hk|done].
  - exists Lost. split; [|done]. constructor; try done.
    + unfold core. wcbn. cbn. congruence.
    + apply books_unsure, (books_quiet _ _ (EvWait d)) in Hk; [exact Hk|done].
Qed.

(** The assistant speaks, or a batch of tools begins. *)
Lemma assistant_turn q f b c w : Turn q f b w ->
  Turn q f b (set_history (clm_history_add_assistant_text (history w) c (compressor cfg)) w).
Proof.
  intros (Hc & Hl & Hr & Hk). split_and!; try done. unfold kept. wcbn.
  apply books_grow; [|exact Hk]. apply hist_ok_assistant, (k_hist _ _ _ _ _ _ _ _ Hk).
Qed.

Lemma agent_finish_left q o tc c r w : Turn q false true w -> Left q o (agent_finish cfg tc c r w).
Proof.
  intros Ht. unfold agent_finish. destruct (bool_decide _); [by apply agent_fail_left with true|].
  destruct (bool_decide _); [by apply agent_fail_left with true|].
  destruct (has_calls_in tc) as [calls|].
  - destruct Ht as (Hc & Hl & Hr & Hk). apply (left_of _ _ (OnTools calls)); [|done].
    injection Hc as E1 E2 E3 E4 E5 E6 E7. constructor; try done.
    + unfold core. wcbn. cbn. congruence.
    + by apply books_batch in Hk.
    + split; [done|]. intros Hm. cbn [fst snd]. wcbn. cbn [batches].
      destruct (k_going _ _ _ _ _ _ _ _ Hk eq_refl Hm). lia.
  - cbv zeta. set (c1 := default _ _). clearbody c1. apply (assistant_turn _ _ _ (Some c1)) in Ht.
    by apply end_turn_left with true.
Qed.

Lemma stream_finalize_left q o t w : Turn q false true w -> sending t 1 w ->
  Left q o (stream_finalize sscanf cfg o t w).
Proof.
  intros Ht Hs. unfold stream_finalize. set (retry := match rl_advice _ with Some _ => _ | None => _ end).
  assert (Hr : retry = (false, w) \/ exists w', retry = (true, w') /\ Left q o (w', [])).
  { unfold retry. destruct (rl_advice _); [|by left]. destruct (text _); [|by left].
    destruct (stream_build_tool_calls _); [by left|]. by apply rl_retry_spec. }
  destruct Hr as [->|(w' & -> & Hw)]; [|done]. apply agent_finish_left. destruct (have_usage _); [|done].
  by apply (held_same _ _ _ _ w).
Qed.

Lemma usage_turn q f b u w : Turn q f b w -> Turn q f b (match u with Some u => emit_usage u w | None => w end).
Proof. intros Ht. destruct u; [by apply (held_same _ _ _ _ w)|done]. Qed.

Lemma error_turn q f b m w : Turn q f b w -> Turn q f b (match m with Some m => clm_agent_set_error m w | None => w end).
Proof. intros Ht. destruct m; [by apply (held_same _ _ _ _ w)|done]. Qed.

Lemma chain_turn q f b rid n w : Turn q f b w -> live n (history w) (log w) ->
  Turn q f b (match rid with Some (x :: r) => set_resp_chain (Some (x :: r, n)) w | _ => w end).
Proof.
  intros (Hc & Hl & Hr & Hk) Hv. destruct rid as [[|x r]|]; [done| |done]. split_and!; try done.
  by apply (books_live _ _ _ _ _ _ _ _ (x :: r) n) in Hk.
Qed.

Lemma turn_response_left q o t body w : Turn q false true w -> sending t 1 w ->
  Left q o (turn_response cJSON_Parse int_nan sscanf cfg o t body w).
Proof.
  intros Ht Hs. unfold turn_response. destruct (normalized _) as [parsed|]; [|by apply agent_fail_left with true].
  destruct (response_message parsed) as [message|]; [|by apply agent_fail_left with true].
  unfold finish_parsed. cbv zeta. pose proof (usage_turn _ _ _ (extract_usage int_nan parsed) w Ht) as T1.
  assert (S1 : sending t 1 (match extract_usage int_nan parsed with Some u => emit_usage u w | None => w end))
    by (by destruct (extract_usage _ _)).
  set (w1 := match extract_usage _ _ with Some u => _ | None => w end) in *. clearbody w1. clear w Ht Hs.
  set (retry := if is_rate_limit_message _ then _ else _).
  assert (Hr : retry = (false, w1) \/ exists w', retry = (true, w') /\ Left q o (w', [])).
  { unfold retry. destruct (is_rate_limit_message _); [by apply rl_retry_spec|by left]. }
  destruct Hr as [->|(w' & -> & Hw)]; [|done]. apply agent_finish_left.
  apply chain_turn; [by apply error_turn|]. destruct S1 as [Hv _]. by destruct (response_error_message parsed).
Qed.

(** The retries of an error: the repair has nothing to do, since every
    request's history is answered. *)
Lemma turn_recover_keeps q status body w : Turn q false true w -> agent_busy w = true ->
  let '(_, w') := turn_recover status body w in Turn q false true w' /\ agent_busy w' = true.
Proof.
  intros Ht Hb. unfold turn_recover. destruct (_ && _).
  { split; [|done]. destruct Ht as (Hc & Hl & Hr & Hk). split_and!; try done. by apply books_no_chain in Hk. }
  assert (Er : (if says body (bs "No tool output found") then clm_history_repair_dangling_tool_calls (history w)
                else (0, history w)) = (0, history w)).
  { destruct (says body _); [|done]. apply repair_ok. destruct Ht as (_ & _ & _ & []). done. }
  rewrite Er. cbn [Z.ltb Z.compare]. assert (T1 : Turn q false true (set_history (history w) w)) by (by apply (held_same _ _ _ _ w)).
  assert (B1 : agent_busy (set_history (history w) w) = true) by exact Hb.
  set (w1 := set_history (history w) w) in *. clearbody w1. clear w Ht Hb Er.
  destruct (_ && _). { split; [|exact B1]. by apply (held_same _ _ _ _ w1). }
  destruct (_ && _); (split; [|exact B1]); by apply (held_same _ _ _ _ w1).
Qed.

Lemma turn_success_left q o t status body w : Turn q false true (set_inflight None w) -> agent_busy w = true ->
  sending t 1 w -> Left q o (turn_success cJSON_Parse int_nan sscanf cfg o t status body w).
Proof.
  intros Ht Hb Hs. unfold turn_success. assert (Hs1 : sending t 1 (set_inflight None w)) by exact Hs.
  assert (Hb1 : agent_busy (set_inflight None w) = true) by exact Hb.
  set (w1 := set_inflight None w) in *. clearbody w1. destruct (negb _).
  - set (retry := if status =? 429 then _ else _).
    assert (Hr : retry = (false, w1) \/ exists w', retry = (true, w') /\ Left q o (w', [])).
    { unfold retry. destruct (status =? 429); [by apply rl_retry_spec|by left]. }
    destruct Hr as [->|(w' & -> & Hw)]; [|done].
    pose proof (turn_recover_keeps q status body w1 Ht Hb1) as Hk. destruct (turn_recover _ _ _) as [again w'].
    destruct Hk as [T2 B2]. destruct again; [by apply start_left|by apply agent_fail_left with true].
  - destruct (t_streaming t); [by apply stream_finalize_left|by apply turn_response_left].
Qed.

Lemma turn_error_left q o t code msg w : Turn q false true (set_inflight None w) ->
  Left q o (turn_error cfg t code msg w).
Proof.
  intros Ht. unfold turn_error. cbv zeta. set (w1 := set_inflight None w) in *. clearbody w1.
  destruct (code =? _); [|by apply agent_fail_left with true].
  apply end_turn_left with true; [|done]. unfold agent_keep_partial.
  destruct (t_streaming t), (text (t_stream t)); try done. by apply assistant_turn.
Qed.

(** ** Uploads and compaction *)

Lemma upload_success_left q o url st body w : Turn q false true (set_inflight None w) -> agent_busy w = true ->
  Left q o (upload_success cJSON_Parse o url st body w).
Proof.
  intros Ht Hb. unfold upload_success. apply start_left; [|exact Hb]. by apply (held_same _ _ _ _ (set_inflight None w)).
Qed.

Lemma upload_error_left q o url code w : Turn q false true (set_inflight None w) -> agent_busy w = true ->
  Left q o (upload_error o url code w).
Proof.
  intros Ht Hb. unfold upload_error. destruct (code =? _); [by apply end_turn_left with true|].
  apply start_left; [|exact Hb]. by apply (held_same _ _ _ _ (set_inflight None w)).
Qed.

(** A compaction that ends badly: an interrupted turn goes on without it. *)
Lemma resume_failed_left q o msg w : Turn q false true w -> agent_busy w = true -> Left q o (resume_failed msg w).
Proof. intros Ht Hb. apply start_left; [|exact Hb]. by apply (held_same _ _ _ _ w). Qed.

Lemma compact_done_turn q f b w : Turn q f b w -> agent_busy w = true ->
  Turn q f b (compact_done w) /\ agent_busy (compact_done w) = true.
Proof. intros Ht Hb. split; [|exact Hb]. by apply (held_same _ _ _ _ w). Qed.

Lemma not_resuming q f b w : Turn q f b w -> Turn q false b (set_compact_resume_chain false w).
Proof. intros (Hc & Hl & Hr & Hk). by split_and!. Qed.

Lemma compact_error_left q o code msg f w : Turn q f f (set_inflight None w) -> agent_busy w = true ->
  Left q o (compact_error code msg w).
Proof.
  intros Ht Hb. unfold compact_error. cbv zeta. assert (Hr : compact_resume_chain w = f) by apply Ht. rewrite Hr.
  assert (T1 : Turn q false f (set_inflight None (set_compact_resume_chain false w))).
  { apply not_resuming in Ht. exact Ht. }
  destruct (compact_done_turn _ _ _ _ T1 Hb) as [T2 B2]. set (w1 := compact_done _) in *. clearbody w1. clear T1 Ht Hr.
  destruct f; cbn [andb].
  - destruct (negb _); [by apply resume_failed_left|].
    destruct (code =? _); [by apply end_turn_left with true|by apply agent_fail_left with true].
  - destruct (code =? _); [by apply end_turn_left with false|by apply agent_fail_left with false].
Qed.

Lemma compact_post_left q o f w : Turn q f f w -> Left q o (compact_post o w).
Proof.
  intros Ht. unfold compact_post. destruct (thinking _ _ _ w Ht) as [T1 B1].
  set (w1 := set_state CLM_STATE_THINKING w) in *. clearbody w1.
  destruct (http_post_spec q o 0 RCompact _ _ w1 T1 I) as [(e & -> & He)|(w' & id & -> & Hc & Hl & Hs & Hr & Hk & Ha)].
  - destruct (Z.ltb_spec e 0); [|lia]. cbv zeta. apply compact_error_left with f; [|exact B1].
    destruct T1 as (C1 & L1 & R1 & K1). split_and!; try done.
    injection C1 as E1 E2 E3 E4 E5 E6 E7. unfold core, clm_agent_set_error. wcbn. cbn. congruence.
  - cbn. apply (left_of _ _ (OnRequest id RCompact)); [|done].
    assert (agent_busy w' = true) by (unfold agent_busy in *; by rewrite Hs).
    apply inv_request; try done. cbn [sure]. by rewrite Hr.
Qed.

Lemma on_compact_rl_timer_left q o f w : core w = shows OnCompactTimer -> in_turn (log w) = Some true ->
  compact_resume_chain w = f -> kept q f w -> Left q o (on_compact_rl_timer o w).
Proof.
  intros Hc Hl Hr Hk. unfold on_compact_rl_timer. apply compact_post_left with f.
  injection Hc as E1 E2 E3 E4 E5 E6 E7. rewrite E6. split_and!; try done. unfold core. wcbn. cbn. congruence.
Qed.

Lemma compact_build_keeps o e w :
  let '(_, w') := compact_build cJSON_Parse cJSON_PrintUnformatted cfg llm o e w in
  core w' = core w /\ same w w' /\ state w' = state w.
Proof.
  unfold compact_build. destruct (compact_request _ _ _ _ _ _) as [req|]; [|done].
  by destruct (cJSON_PrintUnformatted req).
Qed.

(** Something tried; if it does not succeed, nothing changed that matters. *)
Lemma trying_spec {A} q resume (try : world -> bool * A) back w (P : A -> Prop) :
  Turn q false resume w -> agent_busy w = true ->
  (forall w, Turn q resume resume w -> agent_busy w = true ->
     (fst (try w) = true /\ P (snd (try w))) \/
     (fst (try w) = false /\ Turn q resume resume (back (snd (try w))) /\ agent_busy (back (snd (try w))) = true)) ->
  match trying resume try back w with
  | inl a => P a
  | inr w' => Turn q false resume w' /\ agent_busy w' = true
  end.
Proof.
  intros (Hc & Hl & Hr & Hk) Hb Ht. unfold trying.
  assert (T1 : Turn q resume resume (set_compact_resume_chain resume w)) by (by split_and!).
  destruct (Ht (set_compact_resume_chain resume w) T1 Hb) as [[E P1]|(E & T2 & B2)];
    destruct (try _) as [b a]; cbn in *; subst b; [done|]. split; [by apply not_resuming in T2|done].
Qed.

Lemma compact_effort_retry_spec q o body f w : Turn q f f w -> agent_busy w = true ->
  let try := compact_effort_retry cJSON_Parse cJSON_PrintUnformatted cfg llm o body w in
  (fst try = true /\ Left q o (snd try)) \/
  (fst try = false /\ Turn q f f (fst (snd try)) /\ agent_busy (fst (snd try)) = true).
Proof.
  intros Ht Hb. unfold compact_effort_retry. destruct (_ || _); [by right|]. cbv zeta.
  pose proof (compact_build_keeps o (effort llm) (set_compact_effort_fallback true w)) as Hk.
  destruct (compact_build _ _ _ _ _ _ _) as [r w1]. destruct Hk as (K1 & K2 & K3).
  assert (T1 : Turn q f f w1) by (by apply (held_same _ _ _ _ w)).
  assert (B1 : agent_busy w1 = true) by (unfold agent_busy in *; by rewrite K3).
  destruct (r <? 0); [by right|left]. split; [done|]. by apply compact_post_left with f.
Qed.

Lemma compact_fail_left q o resume msg err w : Turn q false resume w -> agent_busy w = true ->
  Left q o (compact_fail resume msg err w).
Proof.
  intros Ht Hb. unfold compact_fail. cbv zeta. destruct (compact_done_turn _ _ _ _ Ht Hb) as [T1 B1].
  set (w1 := compact_done w) in *. clearbody w1.
  destruct resume; [by apply resume_failed_left|by apply agent_fail_left with false].
Qed.

(** The history folded, and no chain over it. *)
Lemma folded_turn q b h w : Turn q false b w -> hist_ok h ->
  Turn q false b (compact_done (set_facts_pending true (clm_agent_chain_reset (set_history h w)))).
Proof.
  intros (Hc & Hl & Hr & Hk) Hh. split_and!; try done.
  by apply books_no_chain, (books_history _ _ _ _ _ _ h) in Hk.
Qed.

Lemma compact_fold_left q o resume summary w : Turn q false resume w -> agent_busy w = true ->
  Left q o (compact_fold cfg resume summary w).
Proof.
  intros Ht Hb. unfold compact_fold. assert (Hh : hist_ok (history w)) by (by destruct Ht as (_ & _ & _ & [])).
  pose proof (hist_ok_compact (history w) summary (keep_bytes cfg) CLM_COMPACT_KEEP_MIN (compressor cfg) Hh) as Hf.
  destruct (clm_history_compact_within _ _ _ _ _) as [n h]. destruct Hf as [Hh' Hn]. cbv zeta.
  destruct (Z.ltb_spec 0 n).
  - pose proof (folded_turn _ _ h w Ht Hh') as T2. set (w2 := compact_done _) in *. clearbody w2.
    destruct resume; [|by apply end_turn_left with false].
    apply start_left; [by apply (held_same _ _ _ _ w2)|done].
  - rewrite Hn by lia. assert (T1 : Turn q false resume (set_history (history w) w)) by (by apply (held_same _ _ _ _ w)).
    assert (B1 : agent_busy (set_history (history w) w) = true) by exact Hb.
    set (w1 := set_history (history w) w) in *. clearbody w1. destruct (n <? 0); by apply compact_fail_left.
Qed.

Lemma compact_retry_spec q o a f w : Turn q f f w -> agent_busy w = true ->
  let try := compact_rl_retry sscanf cfg o a w in
  (fst try = true /\ Left q o (snd try, [])) \/ (fst try = false /\ Turn q f f (snd try) /\ agent_busy (snd try) = true).
Proof.
  intros Ht Hb. destruct (compact_rl_retry_spec q o a f w Ht) as [->|(w' & -> & Hw)]; [by right|by left].
Qed.

Lemma compact_summary_left q o resume body w : Turn q false resume w -> agent_busy w = true ->
  Left q o (compact_summary cJSON_Parse sscanf cfg o resume body w).
Proof.
  intros Ht Hb. unfold compact_summary. destruct (nonempty _) as [sm|]; [by apply compact_fold_left|].
  destruct (is_rate_limit_message _); [|by apply compact_fail_left].
  pose proof (trying_spec q resume (compact_rl_retry sscanf cfg o
    (p ← normalized (cJSON_Parse body); response_error_message p)) (fun w => w) w (fun w => Left q o (w, []))
    Ht Hb (compact_retry_spec q o _ resume)) as Hs.
  destruct (trying _ _ _ _) as [w1|w1]; [done|]. destruct Hs. by apply compact_fail_left.
Qed.

Lemma compact_success_left q o st body f w : Turn q f f (set_inflight None w) -> agent_busy w = true ->
  Left q o (compact_success cJSON_Parse cJSON_PrintUnformatted sscanf cfg llm o st body w).
Proof.
  intros Ht Hb. unfold compact_success. cbv zeta. assert (Hr : compact_resume_chain w = f) by apply Ht. rewrite Hr.
  assert (T1 : Turn q false f (set_inflight None (set_compact_resume_chain false w))).
  { apply not_resuming in Ht. exact Ht. }
  assert (B1 : agent_busy (set_inflight None (set_compact_resume_chain false w)) = true) by exact Hb.
  set (w1 := set_inflight None (set_compact_resume_chain false w)) in *. clearbody w1. clear w Ht Hb Hr. rename f into resume.
  assert (S1 : match (if st =? 429 then trying resume (compact_rl_retry sscanf cfg o body) (fun w => w) w1 else inr w1) with
    | inl a => Left q o (a, []) | inr w' => Turn q false resume w' /\ agent_busy w' = true end).
  { destruct (st =? 429); [|done].
    by apply (trying_spec q resume _ _ w1 (fun w => Left q o (w, []))), (compact_retry_spec q o body). }
  destruct (if st =? 429 then _ else _) as [w2|w2]; [done|]. destruct S1 as [T2 B2]. clear w1 T1 B1.
  set (r2 := if st =? 400 then _ else _).
  assert (S2 : match r2 with inl a => Left q o a | inr w' => Turn q false resume w' /\ agent_busy w' = true end).
  { unfold r2. destruct (st =? 400); [|done].
    by apply (trying_spec q resume _ _ w2 (Left q o)), (compact_effort_retry_spec q o body). }
  destruct r2 as [res|w3]; [done|]. destruct S2 as [T3 B3].
  destruct body as [b|]; [|by apply compact_fail_left].
  destruct (st =? 200); [by apply compact_summary_left|by apply compact_fail_left].
Qed.

(** ** Tools, cancelling, the frontend's calls *)

Abbreviation compact o w := (clm_agent_compact cJSON_Parse cJSON_PrintUnformatted cfg llm o w).

Lemma clm_agent_compact_spec q o w f b l : held q f b l w -> agent_busy w = false ->
  let '(r, w') := compact o w in
  (r < 0 /\ held q f b l w' /\ agent_busy w' = false) \/
  (r = 0 /\ exists id, core w' = shows (OnRequest id RCompact) /\ in_turn (log w') = Some l /\
    agent_busy w' = true /\ compact_resume_chain w' = f /\ kept q b w' /\ incl (log w) (log w')).
Proof.
  intros Ht Hb. unfold clm_agent_compact. rewrite Hb.
  set (e := compaction_effort _ _). pose proof (compact_build_keeps o e w) as Hk.
  destruct (compact_build _ _ _ _ _ _ _) as [r w1]. destruct Hk as (K1 & K2 & K3).
  assert (T1 : held q f b l w1) by (by apply (held_same _ _ _ _ w)).
  assert (B1 : agent_busy w1 = false) by (unfold agent_busy in *; by rewrite K3).
  assert (G1 : log w1 = log w) by apply K2. clear K1 K2 K3.
  destruct (Z.ltb_spec r 0); [by left|]. cbv zeta.
  set (w2 := set_compact_effort_fallback false (set_compact_rl_retries 0 w1)).
  assert (G2 : log w2 = log w) by exact G1.
  assert (T2 : held q f b l w2) by (by apply (held_same _ _ _ _ w1)). clearbody w2.
  unfold http_post. destruct (Z.ltb_spec (post o 0) 0) as [Hp|Hp].
  - destruct (Z.ltb_spec (post o 0) 0); [|lia]. left. split; [done|]. split; [|done]. by apply (held_same _ _ _ _ w2).
  - cbn [Z.ltb Z.compare]. right. split; [done|]. exists (next_id w2). destruct T2 as (C2 & L2 & R2 & K2).
    split_and!; try done; [|by apply (books_quiet _ _ (EvPost RCompact)) in K2|wcbn; rewrite G2; by apply incl_tl, incl_refl].
    injection C2 as E1 E2 E3 E4 E5 E6 E7. unfold core. wcbn. cbn. rewrite E1. cbn. congruence.
Qed.

Lemma next_call_left q o w : Turn q false true w -> Left q o (next_call w).
Proof. intros Ht. destruct (thinking _ _ _ w Ht). by apply start_left. Qed.

Lemma next_round_left q o w : Turn q false true w ->
  Left q o (next_round cJSON_Parse cJSON_PrintUnformatted cfg llm o w).
Proof.
  intros Ht. unfold next_round. destruct (clm_agent_over_autocompact_threshold cfg w); [|by apply next_call_left].
  set (w1 := set_compact_resume_chain _ _). destruct Ht as (Hc & Hl & Hr & Hk).
  assert (T1 : held q true true true w1) by (by split_and!). assert (B1 : agent_busy w1 = false) by done. clearbody w1.
  pose proof (clm_agent_compact_spec q o w1 true true true T1 B1) as Hs. destruct (compact o w1) as [r w2].
  destruct Hs as [(Hn & T2 & B2)|(-> & id & C2 & L2 & B2 & R2 & K2 & Hg)].
  - destruct (Z.eqb_spec r 0); [lia|]. apply next_call_left. by apply not_resuming in T2.
  - apply (left_of _ _ (OnRequest id RCompact)); [|done].
    apply inv_request; [exact C2|exact L2|exact B2| |done]. cbn [sure]. wcbn. rewrite R2. exact K2.
Qed.

Lemma tools_done_left q o st w : Turn q false false w ->
  (0 < max_iterations cfg -> Z.of_nat (batches (log w)) = iteration w + 1) ->
  Left q o (clm_agent_tools_done cJSON_Parse cJSON_PrintUnformatted cfg llm o st w).
Proof.
  intros Ht Hi. unfold clm_agent_tools_done. destruct (cancelling w).
  { apply end_turn_left with false; [|done]. by apply (held_same _ _ _ _ w). }
  destruct (st <? 0); [by apply agent_fail_left with false|]. destruct (_ <=? _); [by apply agent_fail_left with false|].
  assert (Ho : going (max_iterations cfg) (iteration w) (log w) -> Turn q false true w).
  { intros Hg. destruct Ht as (Hc & Hl & Hr & Hk). split_and!; try done. by destruct Hk; constructor. }
  destruct (Z.ltb_spec 0 (max_iterations cfg)) as [Hm|Hm]; [|apply next_round_left, Ho; intros ?; lia].
  cbv zeta. specialize (Hi Hm). wcbn. clear Ho. destruct Ht as (Hc & Hl & Hr & Hk).
  assert (T1 : Turn q false false (set_iteration (iteration w + 1) w)).
  { split_and!; try done. by destruct Hk; constructor. }
  destruct (Z.leb_spec (max_iterations cfg) (iteration w + 1)); [by apply agent_fail_left with false|].
  apply next_round_left. destruct T1 as (C1 & L1 & R1 & K1). split_and!; try done.
  by destruct K1; constructor.
Qed.

(** What a batch of tools may do to the history. *)
Definition batch_law (h h' : clm_history) (rewritten : bool) : Prop :=
  hist_ok h' /\ (rewritten = false -> exists rest, h' = h ++ rest).

Lemma on_tools_done_left q o st h rw reg n tc w : core w = shows (OnTools tc) -> in_turn (log w) = Some true ->
  kept q false w -> awaits (OnTools tc) w -> batch_law (history w) h rw ->
  Left q o (on_tools_done cJSON_Parse cJSON_PrintUnformatted cfg llm o st h rw reg n w).
Proof.
  intros Hc Hl Hk [Hr Hi] [Hh Hx]. unfold on_tools_done. cbv zeta.
  apply tools_done_left; [|by destruct rw].
  injection Hc as E1 E2 E3 E4 E5 E6 E7.
  destruct rw; (split; [|split; [exact Hl|split; [exact Hr|]]]);
    [unfold core, clm_agent_chain_reset; wcbn; cbn; congruence| |unfold core; wcbn; cbn; congruence|].
  - unfold kept in *. wcbn. by apply books_no_chain, (books_history _ _ _ _ _ _ h) in Hk.
  - unfold kept in *. wcbn. destruct (Hx eq_refl) as [rest ->]. by apply books_grow.
Qed.

(** ** Stacks *)

Lemma starts_app s s' : starts (s ++ s') = (starts s + starts s')%nat.
Proof. unfold starts. by rewrite List.filter_app, length_app. Qed.

Lemma submits_app s s' : submits (s ++ s') = submits s ++ submits s'.
Proof. apply omap_app. Qed.

(** A handler's result on top of a stack without a pending start. *)
Lemma inv_app q k w fs s : Inv (submits s ++ q) k w fs -> starts s = 0%nat -> Inv q k w (fs ++ s).
Proof.
  intros [I1 I2 I3 I4 I5 I6] Hs. constructor; try done; [rewrite starts_app, Hs, I2; lia|].
  by rewrite submits_app, <- app_assoc.
Qed.

Lemma inv_below q k w s : Inv q k w s -> k <> OnStart -> Inv (submits s ++ q) k w [].
Proof. intros [I1 I2 I3 I4 I5 I6] Hk. constructor; try done. by destruct k. Qed.

Lemma left_app q o w fs s : Left (submits s ++ q) o (w, fs) -> starts s = 0%nat ->
  exists k, Inv q k w (fs ++ s) /\ (k = Lost -> timer_ok o = false).
Proof. intros (k & Hi & Hk) Hs. exists k. split; [by apply inv_app|done]. Qed.

(** A step that leaves what is waited for as it is. *)
Lemma inv_agree q k w w' s s' : Inv q k w s -> core w' = core w -> same w w' -> state w' = state w ->
  cancelling w' = cancelling w -> rl_parked_turn w' = rl_parked_turn w -> starts s' = starts s ->
  submits s' = submits s -> Inv q k w' s'.
Proof.
  intros [I1 I2 I3 I4 I5 I6] Ec (E1 & E2 & E3 & E4 & E5 & E6) Es Ea Ep Ef Eq.
  assert (E : agent_busy w' = agent_busy w) by (unfold agent_busy; by rewrite Es).
  constructor; [congruence|congruence|congruence|congruence| |].
  - unfold kept in *. by rewrite E1, E2, E3, E4, E5, E6, Eq.
  - destruct k as [| |id r|id r| | | |]; cbn [awaits] in *; unfold asked, sending in *;
      rewrite ?E1, ?E2, ?E3, ?E5, ?Ea, ?Ep; try done.
Qed.

(** ** Cancelling *)

Lemma cancel_timers q w k : Inv q k w [] -> match k with OnLlmTimer _ | OnCompactTimer => True | _ => False end ->
  let w1 := if llm_rl_timer w then set_llm_rl_timer false (set_llm_timer None w) else w in
  let w2 := if compact_rl_timer w1 then set_compact_rl_timer false (set_compact_timer false w1) else w1 in
  held q (compact_resume_chain w) false true w2.
Proof.
  intros [I1 I2 I3 I4 I5 I6] Hk. destruct (core_fields k w I1) as (E1 & E2 & E3 & E4 & E5 & E6 & E7). cbv zeta.
  apply books_unsure in I5.
  destruct k; try done; cbn in *; rewrite E4; [change (compact_rl_timer _) with (compact_rl_timer w)|];
    rewrite E6; (split; [unfold core; wcbn; cbn; congruence|split; [wcbn; by rewrite I4, I3|by split]]).
Qed.

Definition no_oracle : oracle := mk_oracle (fun _ => 0) (fun _ => 0) (fun _ => 0) true.

Lemma cancel_timer_left q k w s : Inv q k w s -> llm_rl_timer w || compact_rl_timer w = true ->
  let w1 := if llm_rl_timer w then set_llm_rl_timer false (set_llm_timer None w) else w in
  let w2 := if compact_rl_timer w1 then set_compact_rl_timer false (set_compact_timer false w1) else w1 in
  let r := end_turn CLM_STATE_COMPLETE (- ECANCELED)
             (set_compact_resume_chain false (compact_done (set_rl_parked_turn None w2))) in
  exists k', Inv q k' (fst r) (snd r ++ s) /\ (k' = Lost -> k = Lost).
Proof.
  intros Hi Et. destruct (core_fields k w (i_core _ _ _ _ Hi)) as (E1 & E2 & E3 & E4 & E5 & E6 & E7).
  assert (Hk : match k with OnLlmTimer _ | OnCompactTimer => True | _ => False end)
    by (rewrite E4, E6 in Et; by destruct k).
  assert (Hs : starts s = 0%nat) by (rewrite (i_start _ _ _ _ Hi); by destruct k).
  assert (Hn : Inv (submits s ++ q) k w []) by (apply inv_below; [done|by intros ->]).
  pose proof (cancel_timers _ w k Hn Hk) as Ht. cbv zeta in Ht |- *. clear Hi Hn.
  set (w2 := if compact_rl_timer (if llm_rl_timer w then _ else w) then _ else _) in *. clearbody w2.
  assert (T3 : held (submits s ++ q) false false true (set_compact_resume_chain false (compact_done (set_rl_parked_turn None w2)))).
  { apply not_resuming in Ht. exact Ht. }
  set (w3 := set_compact_resume_chain _ _) in *. clearbody w3.
  destruct (end_turn_left _ no_oracle CLM_STATE_COMPLETE (- ECANCELED) _ w3 T3 I) as (k' & Hi' & Hl).
  exists k'. split; [by apply inv_app|]. intros ->. by specialize (Hl eq_refl).
Qed.

Lemma cancel_left q k w s : Inv q k w s ->
  exists k', Inv q k' (fst (snd (clm_agent_cancel w))) (snd (snd (clm_agent_cancel w)) ++ s) /\ (k' = Lost -> k = Lost).
Proof.
  intros Hi. unfold clm_agent_cancel. destruct (cancelling w) eqn:Ec; [by exists k|].
  destruct (llm_rl_timer w || compact_rl_timer w) eqn:Et; [by apply (cancel_timer_left q k w s)|].
  pose proof Hi as [I1 I2 I3 I4 I5 I6]. destruct (core_fields k w I1) as (E1 & E2 & E3 & E4 & E5 & E6 & E7).
  rewrite E2, E7. destruct k; cbn [shows fst snd app] in *; try (by eexists); try congruence.
  - exists (OnCancelled id r). split; [|done]. constructor; try done.
    unfold core. wcbn. rewrite E1. cbn. rewrite Nat.eqb_refl. congruence.
  - exists (OnTools calls). split; [|done]. constructor; done.
Qed.

(** ** The frontend's calls *)

Lemma in_middle {A} (u p : A) a b : In u (a ++ p :: b) <-> In u (p :: a ++ b).
Proof. cbn. rewrite !in_app_iff. cbn. tauto. Qed.

Lemma user_held q f b l u w : held q f b l w -> held q f b l (add_user cfg u w).
Proof.
  intros (Hc & Hl & Hr & Hk). split_and!; try done. unfold add_user. wcbn.
  apply books_user with q (pending_notify w); [|by destruct Hk|by destruct Hk|exact Hk]. by apply heard_cons, (k_heard _ _ _ _ _ _ _ _ Hk).
Qed.

Lemma stamp_keeps q w n : held q false false false w ->
  held q false false false (stamp_time fmt_rfc2822 cfg n w).
Proof.
  intros Ht. unfold stamp_time. cbv zeta. destruct (_ || _); [|done].
  assert (T1 : held q false false false (set_facts_pending false w)) by (by apply (held_same _ _ _ _ w)).
  set (w1 := set_facts_pending false w) in *. clearbody w1.
  set (u := context_update _ _). clearbody u. apply (user_held _ _ _ _ u) in T1.
  by apply (held_same _ _ _ _ (add_user cfg u w1)).
Qed.

(** A prompt accepted; its text was one to submit. *)
Lemma submit_accepted q k o p w s : Inv (p :: q) k w s -> agent_busy w = false ->
  let '(r, (w', fs)) := clm_agent_submit fmt_rfc2822 cfg o p w in r = 0 /\ Inv q OnStart w' (fs ++ s).
Proof.
  intros [I1 I2 I3 I4 I5 I6] Hb. unfold clm_agent_submit. rewrite Hb. cbv zeta. split; [done|].
  destruct k; cbn in I3; try congruence. rewrite Hb in I4.
  pose proof (stamp_keeps (submits s ++ p :: q) w (wall o 0%nat) (conj I1 (conj I4 (conj I6 I5)))) as T1.
  set (w1 := stamp_time _ _ _ w) in *. clearbody w1. destruct T1 as (C1 & L1 & R1 & K1).
  assert (Hh : heard (submits s ++ q) (pending_notify w1) (EvUser p :: log w1)).
  { apply heard_submitted with p; [by left|]. apply heard_weaken with (submits s ++ p :: q);
      [by intros u; rewrite in_middle|apply (k_heard _ _ _ _ _ _ _ _ K1)]. }
  assert (Ho : one_turn (submits s ++ q) (log w1) /\ one_turn (submits s ++ q) (EvBegin true :: EvUser p :: log w1)).
  { destruct (k_one _ _ _ _ _ _ _ _ K1) as [Hn|?]; [|by split; right; repeat right].
    unfold turns in Hn. rewrite L1, length_app in Hn. cbn in Hn.
    split; left; unfold turns; cbn [in_turn]; rewrite L1, length_app; cbn; lia. }
  apply (books_user _ _ _ _ _ _ _ _ _ _ _ (compressor cfg) Hh (proj1 Ho) (k_idle _ _ _ _ _ _ _ _ K1)) in K1. apply books_begin in K1; [|apply Ho].
  constructor; try done.
  - cbn [app]. unfold starts in *. cbn [List.filter length]. by rewrite I2.
  - cbn [fst snd]. wcbn. cbn [in_turn]. change (in_turn (log (add_user cfg p w1))) with (in_turn (log w1)).
    by rewrite L1.
Qed.

(** The agent is idle and nothing is to be submitted, or the frontend calls
    from within [cb_on_turn_done]. *)
Definition clear (s : list frame) (w : world) : Prop := s = [] \/ In EvReentry (log w).

Lemma inv_more k p w s : Inv [] k w s -> agent_busy w = false -> clear s w -> Inv [p] k w s.
Proof.
  intros [I1 I2 I3 I4 I5 I6] Hb Hc. constructor; try done.
  apply books_heard with (submits s ++ []) (pending_notify w); [| |by destruct I5|exact I5].
  - apply heard_weaken with (submits s ++ []); [|apply (k_heard _ _ _ _ _ _ _ _ I5)].
    intros u. rewrite !in_app_iff. intros [?|?]; by left.
  - destruct Hc as [->|?]; [left|by right]. unfold turns. by rewrite I4, Hb.
Qed.

(** A change that is not a turn's. *)
Lemma inv_error q k w s m : Inv q k w s -> Inv q k (clm_agent_set_error m w) s.
Proof. intros Hi. by apply (inv_agree q k w _ s s). Qed.

Lemma submit_left k o p w s : Inv [] k w s -> clear s w ->
  let '(_, (w', fs)) := clm_agent_submit fmt_rfc2822 cfg o p w in
  exists k', Inv [] k' w' (fs ++ s) /\ (k' = Lost -> k = Lost).
Proof.
  intros Hi Hc. destruct (agent_busy w) eqn:Eb.
  - unfold clm_agent_submit. rewrite Eb. exists k. split; [by apply inv_error|done].
  - pose proof (submit_accepted [] k o p w s (inv_more k p w s Hi Eb Hc) Eb) as Hs. destruct (clm_agent_submit _ _ _ _ _) as [r [w' fs]].
    destruct Hs as [_ Hs]. by exists OnStart.
Qed.

(** An event of no turn. *)
Definition stray (e : ev) : bool :=
  match e with
  | EvNotify _ | EvDropped _ | EvReentry => true
  | _ => false
  end.

Lemma inv_noted q q' k w w' s e : Inv q k w s -> stray e = true -> log w' = e :: log w ->
  core w' = core w -> state w' = state w -> compact_resume_chain w' = compact_resume_chain w ->
  iteration w' = iteration w -> history w' = history w -> resp_chain w' = resp_chain w ->
  cancelling w' = cancelling w -> rl_parked_turn w' = rl_parked_turn w ->
  heard (submits s ++ q') (pending_notify w') (log w') -> one_turn (submits s ++ q') (log w') -> dropped_ok (log w') ->
  (agent_busy w = false -> pending_notify w' = pending_notify w) ->
  Inv q' k w' s.
Proof.
  intros [I1 I2 I3 I4 I5 I6] He El E1 E2 E3 E4 E5 E6 E7 E8 Hh Ho Hd Hpn.
  assert (Eb : agent_busy w' = agent_busy w) by (unfold agent_busy; by rewrite E2).
  constructor; try congruence.
  - rewrite El, Eb. by destruct e.
  - unfold kept. rewrite E3, E4, E5, E6. destruct I5 as [K1 K2 K3 K4 K5 K6 K7 K8 K9 K10].
    constructor; unfold going in *; try done; rewrite El in *; try by destruct e.
    + by apply chain_ok_cons.
    + apply idle_cons; [by destruct e|]. intros Hf. rewrite I4 in Hf. rewrite Hpn; [by apply K10; rewrite I4|congruence].
  - assert (Hs : forall t n, sending t n w -> sending t n w').
    { intros t n (Hv & Hp & Hn). unfold sending. rewrite E5, El. split; [by apply live_cons|]. by destruct e. }
    destruct k as [| |id [t| |]|id [t| |]|t| |c|]; cbn [awaits asked] in *; rewrite ?E3, ?E4, ?E7, ?E8; try done;
      decompose [and] I6; split_and!; try done; try by apply Hs.
    rewrite El. by destruct e.
Qed.

Lemma notify_left k o t w s : Inv [] k w s -> clear s w ->
  let '(_, (w', fs)) := clm_agent_notify fmt_rfc2822 cfg o t w in
  exists k', Inv [] k' w' (fs ++ s) /\ (k' = Lost -> k = Lost).
Proof.
  intros Hi Hc. unfold clm_agent_notify. pose proof (i_kept _ _ _ _ Hi) as Hk.
  pose proof (k_heard _ _ _ _ _ _ _ _ Hk) as Hh. pose proof (k_one _ _ _ _ _ _ _ _ Hk) as Ho.
  pose proof (k_dropped _ _ _ _ _ _ _ _ Hk) as Hd. destruct (agent_busy w) eqn:Eb.
  - exists k. split; [|done]. apply (inv_noted [] [] k w _ s (EvNotify t)); try done.
    + by apply heard_notify.
    + by apply (one_turn_cons (submits s ++ [])).
    + by apply dropped_cons.
    + by rewrite Eb.
  - assert (Hi' : Inv [t] k (note (EvNotify t) w) s).
    { apply (inv_noted [] _ k w _ s (EvNotify t)); try done.
      - apply heard_weaken with (t :: submits s ++ []); [by intros u; rewrite in_middle|by apply heard_pass].
      - destruct Hc as [->|?]; [left|by right; right]. unfold turns. wcbn. cbn [in_turn].
        by rewrite (i_log _ _ _ _ Hi), Eb.
      - by apply dropped_cons. }
    pose proof (submit_accepted [] k o t _ s Hi' Eb) as Hs. destruct (clm_agent_submit _ _ _ _ _) as [r [w' fs]].
    destruct Hs as [_ Hs]. by exists OnStart.
Qed.

Abbreviation do_api := (do_api cJSON_Parse cJSON_PrintUnformatted fmt_rfc2822 cfg llm).

Lemma inv_idle q w s : Inv q NoWait w s -> held (submits s ++ q) false false false w /\ agent_busy w = false.
Proof. intros [I1 I2 I3 I4 I5 I6]. cbn in I3. rewrite I3 in I4. by split_and!. Qed.

Lemma api_compact_left k o w s : Inv [] k w s -> clear s w ->
  exists k', Inv [] k' (fst (snd (do_api o ACompact w))) (snd (snd (do_api o ACompact w)) ++ s) /\ (k' = Lost -> k = Lost).
Proof.
  intros Hi Hcl. cbn [Agent.do_api]. unfold api_compact. destruct (agent_busy w) eqn:Eb.
  - exists k. unfold clm_agent_compact. rewrite Eb. cbn. split; [by apply inv_error|done].
  - assert (Hst := i_start _ _ _ _ Hi).
    destruct k; try (pose proof (i_busy _ _ _ _ Hi) as Hb; cbn in Hb; congruence).
    destruct (inv_idle _ _ _ Hi) as [Ht _]. clear Hi.
    pose proof (clm_agent_compact_spec _ o w false false false Ht Eb) as Hs. destruct (compact o w) as [r w2].
    destruct Hs as [(Hr & (C2 & L2 & R2 & K2) & B2)|(-> & id & C2 & L2 & B2 & R2 & K2 & Hg)]; cbn [snd fst app].
    + exists NoWait. split; [|done]. destruct (Z.eqb_spec r 0); [lia|]. constructor; try done. by rewrite L2, B2.
    + exists (OnRequest id RCompact). split; [|done]. cbn [Z.eqb]. constructor; try done.
      * transitivity (in_turn (EvBegin false :: log w2)); [done|]. cbn [in_turn]. rewrite L2.
        transitivity (Some (agent_busy w2)); [by rewrite B2|done].
      * cbn [sure]. wcbn. rewrite R2. apply books_compact; [|exact K2].
        destruct Hcl as [->|Hre]; [left; unfold turns; cbn [in_turn]; by rewrite L2|right; right; by apply Hg].
Qed.

Lemma clear_left q k w s : Inv q k w s -> Inv q k (snd (clm_agent_clear_history cfg w)) s.
Proof.
  intros Hi. unfold clm_agent_clear_history. destruct (agent_busy w) eqn:Eb; [done|].
  destruct k; try (pose proof (i_busy _ _ _ _ Hi) as Hb; cbn in Hb; congruence).
  destruct Hi as [I1 I2 I3 I4 I5 I6]. constructor; try done.
  apply books_no_chain, (books_history _ _ _ _ _ _ (clm_history_add_system []
    (Some (build_system_prompt (default default_system_prompt (system_prompt_base cfg)))) (compressor cfg))) in I5;
    [exact I5|apply hist_ok_system].
Qed.

Lemma do_api_left k o a w s : Inv [] k w s -> (begins a = true -> clear s w) ->
  exists k', Inv [] k' (fst (snd (do_api o a w))) (snd (snd (do_api o a w)) ++ s) /\ (k' = Lost -> k = Lost).
Proof.
  intros Hi Hc. destruct a as [p|t| | | |key text].
  - cbn [Agent.do_api]. pose proof (submit_left k o p w s Hi (Hc eq_refl)) as Hs.
    by destruct (clm_agent_submit _ _ _ _ _) as [r [w' fs]].
  - cbn [Agent.do_api]. pose proof (notify_left k o t w s Hi (Hc eq_refl)) as Hs.
    by destruct (clm_agent_notify _ _ _ _ _) as [r [w' fs]].
  - apply api_compact_left; [done|by apply Hc].
  - by apply cancel_left.
  - exists k. split; [|done]. pose proof (clear_left [] k w s Hi) as Hl. cbn [Agent.do_api].
    by destruct (clm_agent_clear_history _ _) as [r w'].
  - cbn [Agent.do_api fst snd app]. exists k. split; [|done]. unfold clm_agent_set_prompt_part.
    destruct (set_prompt_part _ _ _) as [p []]; by apply (inv_agree [] k w _ s s).
Qed.

(** ** What the event loop brings *)

Lemma find_one id id0 (r : request) c r' c' : find_request id [(id0, (r, c))] = Some (r', c') ->
  id = id0 /\ r' = r /\ c' = c.
Proof. unfold find_request. cbn. destruct (Nat.eqb_spec id0 id); [|done]. cbn. by intros [= -> ->]. Qed.

Lemma drop_one id (r : request) c : drop_request id [(id, (r, c))] = [].
Proof. unfold drop_request. cbn. by rewrite Nat.eqb_refl. Qed.

(** The wait for a request, cancelled or not. *)
Definition posted (id : nat) (r : request) (c : bool) : waiting := if c then OnCancelled id r else OnRequest id r.

Lemma found_posted k w id r c : core w = shows k -> find_request id (requests w) = Some (r, c) -> k = posted id r c.
Proof.
  intros Hc Hf. destruct (core_fields k w Hc) as (E1 & _). rewrite E1 in Hf.
  destruct k; try done; cbn in Hf; apply find_one in Hf as (-> & -> & ->); done.
Qed.

(** The request that was answered is gone. *)
Lemma request_gone q id r c w : Inv q (posted id r c) w [] ->
  held q (compact_resume_chain w) (sure (OnRequest id r) (compact_resume_chain w)) true
    (set_inflight None (set_requests (drop_request id (requests w)) w)) /\
  agent_busy (set_requests (drop_request id (requests w)) w) = true /\ asked r w.
Proof.
  intros [I1 I2 I3 I4 I5 I6]. assert (Hb : agent_busy w = true) by (rewrite I3; by destruct c).
  destruct (core_fields _ w I1) as (E1 & E2 & E3 & E4 & E5 & E6 & E7). unfold held. split_and!.
  - unfold core. wcbn. rewrite E1. destruct c; cbn [shows posted fst snd] in *; rewrite drop_one; congruence.
  - wcbn. by rewrite I4, Hb.
  - done.
  - destruct c; [|exact I5]. destruct r; exact I5.
  - exact Hb.
  - destruct c; [by destruct I6|done].
Qed.

(** Bytes of a stream: the turn is the same but for its stream, and the chain
    may be the one of this turn. *)
Lemma on_data_keeps q id t c data w : Inv q (posted id (RTurn t) c) w [] ->
  exists t', Inv q (posted id (RTurn t') c) (on_data cJSON_Parse int_nan id t data w) [].
Proof.
  intros Hi. unfold on_data. destruct (clm_http_data_cb_wrapper _ _ _ _ _ _) as [st|] eqn:Ed.
  2: { exists t. by apply (inv_agree q _ w _ [] []). }
  apply data_chain in Ed. destruct Hi as [I1 I2 I3 I4 I5 I6].
  assert (Ha : asked (RTurn t) w) by (destruct c; [by destruct I6|done]). destruct Ha as [Hr (Hv & Hp & Hn)].
  destruct (core_fields _ w I1) as (E1 & E2 & E3 & E4 & E5 & E6 & E7).
  exists (with_stream t st). constructor; try done.
  - unfold core, take_back, store_turn. wcbn. rewrite E1.
    destruct c; cbn [posted shows fst snd map] in *; rewrite Nat.eqb_refl; cbn; congruence.
  - by destruct c.
  - by destruct c.
  - assert (K1 : kept ([] ++ q) true (take_back st (store_turn id (with_stream t st) w))).
    { unfold kept, take_back, store_turn. wcbn. assert (K : kept ([] ++ q) true w) by (by destruct c).
      destruct Ed as [->|[rid ->]]; [exact K|]. by apply (books_live _ _ _ _ _ _ _ _ rid (history_msgs t)) in K. }
    destruct c; exact K1.
  - destruct c; [split; [by destruct I6|]|]; (split; [done|]); by split.
Qed.

(** The tool engine keeps its law. *)
Definition lawful (e : host) (w : world) : Prop :=
  match e with HToolsDone _ h rewritten _ _ => batch_law (history w) h rewritten | _ => True end.

Abbreviation on_host := (on_host cJSON_Parse cJSON_PrintUnformatted int_nan sscanf cfg llm).

Lemma on_success_left q k o id st body w w' fs : Inv q k w [] ->
  on_host o (HSuccess id st body) w = Some (w', fs) -> Left q o (w', fs).
Proof.
  intros Hi He. cbn [Agent.on_host] in He. destruct (find_request id (requests w)) as [[r [|]]|] eqn:Ef; try done.
  pose proof (found_posted k w id r false (i_core _ _ _ _ Hi) Ef) as ->.
  destruct (request_gone q id r false w Hi) as (Ht & Hb & Ha). injection He as <-.
  assert (Ha1 : asked r (set_requests (drop_request id (requests w)) w)) by exact Ha.
  assert (Hr1 : compact_resume_chain (set_requests (drop_request id (requests w)) w) = compact_resume_chain w) by done.
  set (w1 := set_requests _ w) in *. clearbody w1. destruct r as [t| |url]; cbn [asked sure] in *.
  - destruct Ha1 as [R1 S1]. rewrite <- Hr1, R1 in Ht. by apply turn_success_left.
  - by apply compact_success_left with (compact_resume_chain w).
  - rewrite Ha in Ht. by apply upload_success_left.
Qed.

Lemma on_error_left q k o id code msg w w' fs : Inv q k w [] ->
  on_host o (HError id code msg) w = Some (w', fs) -> Left q o (w', fs).
Proof.
  intros Hi He. cbn [Agent.on_host] in He. destruct (find_request id (requests w)) as [[r c]|] eqn:Ef; [|done].
  destruct (Bool.eqb c _ && _); [|done].
  pose proof (found_posted k w id r c (i_core _ _ _ _ Hi) Ef) as ->.
  destruct (request_gone q id r c w Hi) as (Ht & Hb & Ha). injection He as <-. clear Hi.
  set (w1 := set_requests _ w) in *. clearbody w1. destruct r as [t| |url]; cbn [asked sure] in *.
  - destruct Ha as [R1 _]. rewrite R1 in Ht. by apply turn_error_left.
  - by apply compact_error_left with (compact_resume_chain w).
  - rewrite Ha in Ht. by apply upload_error_left.
Qed.

Lemma on_host_left q k o e w w' fs : Inv q k w [] -> lawful e w -> on_host o e w = Some (w', fs) -> Left q o (w', fs).
Proof.
  intros Hi Hw He. destruct e as [id data|id st body|id code msg| | |st h rw reg n].
  - cbn [Agent.on_host] in He. destruct (find_request id (requests w)) as [[[t| |] c]|] eqn:Ef; try done.
    destruct (t_streaming t); [|done]. injection He as <- <-.
    pose proof (found_posted k w id _ c (i_core _ _ _ _ Hi) Ef) as ->.
    destruct (on_data_keeps q id t c data w Hi) as [t' Hi']. exists (posted id (RTurn t') c). split; [done|by destruct c].
  - by apply (on_success_left q k o id st body w).
  - by apply (on_error_left q k o id code msg w).
  - cbn [Agent.on_host] in He. destruct Hi as [I1 I2 I3 I4 I5 I6].
    destruct (core_fields k w I1) as (_ & _ & E3 & _). destruct (llm_timer w) as [t|]; [|done]. injection He as <-.
    assert (Hk : k = OnLlmTimer t) by (destruct k; cbn in E3; congruence). subst k. cbn in I3. rewrite I3 in I4.
    destruct I6 as (R1 & P1 & S1). apply on_llm_rl_timer_left; [by right|done..].
  - cbn [Agent.on_host] in He. destruct Hi as [I1 I2 I3 I4 I5 I6].
    destruct (core_fields k w I1) as (_ & _ & _ & _ & E5 & _). destruct (compact_timer w); [|done]. injection He as <-.
    assert (Hk : k = OnCompactTimer) by (destruct k; cbn in E5; congruence). subst k. cbn in I3. rewrite I3 in I4.
    by apply on_compact_rl_timer_left with (compact_resume_chain w).
  - cbn [Agent.on_host] in He. destruct Hi as [I1 I2 I3 I4 I5 I6].
    destruct (core_fields k w I1) as (_ & _ & _ & _ & _ & _ & E7). destruct (active_batch w) as [tc|]; [|done]. injection He as <-.
    assert (Hk : k = OnTools tc) by (destruct k; cbn in E7; congruence). subst k. cbn in I3. rewrite I3 in I4.
    by apply (on_tools_done_left _ _ _ _ _ _ _ tc).
Qed.

(** ** A step *)

Definition oracle_of (ch : choice) : option oracle :=
  match ch with Run o | Call o _ | Host o _ => Some o | Return => None end.

Definition timer_refused (ch : choice) : Prop := exists o, oracle_of ch = Some o /\ timer_ok o = false.

Definition legal (ch : choice) (w : world) : Prop := match ch with Host _ e => lawful e w | _ => True end.

Abbreviation step := (step cJSON_Parse cJSON_PrintUnformatted int_nan sscanf fmt_rfc2822 cfg llm).

Lemma submit_notify_left q k o t w s : Inv (t :: q) k w s ->
  exists k', Inv q k' (fst (submit_notify fmt_rfc2822 cfg o t w)) (snd (submit_notify fmt_rfc2822 cfg o t w) ++ s) /\
    (k' = Lost -> k = Lost).
Proof.
  intros Hi. unfold submit_notify. destruct (agent_busy w) eqn:Eb.
  - unfold clm_agent_submit. rewrite Eb. cbn [fst snd Z.ltb Z.compare app Z.opp EBUSY]. exists k. split; [|done].
    pose proof (i_kept _ _ _ _ Hi) as Hk. pose proof (k_one _ _ _ _ _ _ _ _ Hk) as Ho.
    assert (Hre : In EvReentry (log w)).
    { destruct Ho as [Hn|?]; [|done]. unfold turns in Hn. rewrite (i_log _ _ _ _ Hi), Eb, length_app in Hn. cbn in Hn. lia. }
    apply (inv_noted (t :: q) q k (clm_agent_set_error (bs "turn already in progress") w) _ s (EvDropped t)); try done.
    + by apply inv_error.
    + apply heard_submitted with t; [by right|]. apply heard_weaken with (submits s ++ t :: q).
      * intros u. by rewrite in_middle.
      * apply (k_heard _ _ _ _ _ _ _ _ Hk).
    + right. by right.
    + intros u _. by right.
  - pose proof (submit_accepted q k o t w s Hi Eb) as Hs. destruct (clm_agent_submit _ _ _ _ _) as [r [w1 fs]].
    destruct Hs as [-> Hs]. by exists OnStart.
Qed.

Lemma start_step_left q k o w s w1 fs : Inv q k w (FStart :: s) ->
  clm_agent_start_turn cJSON_Parse cJSON_PrintUnformatted cfg llm o w = (w1, fs) ->
  exists k', Inv q k' w1 (fs ++ s) /\ (k' = Lost -> timer_ok o = false).
Proof.
  intros [I1 I2 I3 I4 I5 I6] E. destruct k; try (unfold starts in I2; by cbn in I2).
  cbn in I3. rewrite I3 in I4.
  pose proof (start_turn_left (submits s ++ q) o w (conj I1 (conj I4 (conj I6 I5))) I3) as Hl. rewrite E in Hl.
  apply left_app in Hl; [done|]. unfold starts in *. cbn in I2. lia.
Qed.

Lemma step_inv k ch w s c' : Inv [] k w s -> legal ch w -> step ch (w, s) = Some c' ->
  exists k', Inv [] k' (fst c') (snd c') /\ (k' = Lost -> k = Lost \/ timer_refused ch).
Proof.
  intros Hi Hw He.
  assert (Keep : forall k' w1 s1, Inv [] k' w1 s1 /\ (k' = Lost -> k = Lost) ->
    exists k', Inv [] k' w1 s1 /\ (k' = Lost -> k = Lost \/ timer_refused ch))
    by (intros k' w1 s1 [Hi1 Hk1]; exists k'; split; [done|left; by apply Hk1]).
  assert (Mine : forall o w1 s1, oracle_of ch = Some o ->
    (exists k', Inv [] k' w1 s1 /\ (k' = Lost -> timer_ok o = false)) ->
    exists k', Inv [] k' w1 s1 /\ (k' = Lost -> k = Lost \/ timer_refused ch))
    by (intros o w1 s1 Ho (k' & Hi1 & Hk1); exists k'; split; [done|right; exists o; split; [done|by apply Hk1]]).
  destruct ch as [o| |o a|o e], s as [|[|st|t] s]; cbn [Agent.step] in He; try done.
  - destruct (clm_agent_start_turn _ _ _ _ _ _) as [w1 fs] eqn:Es. injection He as <-.
    by apply (Mine o), (start_step_left _ _ _ _ _ _ _ Hi Es).
  - assert (Hi0 : Inv [t] k w s).
    { destruct Hi as [I1 I2 I3 I4 I5 I6]. constructor; try done.
      apply books_heard with (submits (FSubmit t :: s) ++ []) (pending_notify w); [| |by destruct I5|exact I5].
      - apply heard_weaken with (submits (FSubmit t :: s) ++ []); [|apply (k_heard _ _ _ _ _ _ _ _ I5)].
        intros u. rewrite in_middle. done.
      - destruct (k_one _ _ _ _ _ _ _ _ I5) as [Hn|?]; [left|by right]. 
        unfold turns in *. rewrite app_nil_r in Hn. rewrite length_app. cbn in *. unfold submits. lia. }
    destruct (submit_notify_left [] k o t w s Hi0) as (k' & Hi').
    destruct (submit_notify _ _ _ _ _) as [w1 fs]. injection He as <-. by apply (Keep k').
  - injection He as <-. apply (Keep k). split; [|done]. destruct Hi; by constructor.
  - destruct (do_api_left k o a w [] Hi) as (k' & Hi'); [by left|]. injection He as <-. rewrite app_nil_r in Hi'. by apply (Keep k').
  - assert (Hi0 : Inv [] k (if begins a then note EvReentry w else w) (FCallback st :: s)).
    { destruct (begins a); [|done]. pose proof (i_kept _ _ _ _ Hi) as Hk.
      apply (inv_noted [] [] k w _ _ EvReentry); try done.
      - by apply heard_cons, (k_heard _ _ _ _ _ _ _ _ Hk).
      - right. by left.
      - by apply dropped_cons, (k_dropped _ _ _ _ _ _ _ _ Hk). }
    destruct (do_api_left k o a _ _ Hi0) as (k' & Hi').
    { intros ->. right. by left. }
    destruct (do_api o a _) as [r [w1 fs]]. injection He as <-. by apply (Keep k').
  - destruct c' as [w' fs]. by apply (Mine o), (on_host_left [] k o e w w' fs Hi Hw He).
Qed.

(** ** A run *)

Inductive runs (c : config) : list choice -> config -> Prop :=
| runs_none : runs c [] c
| runs_step chs ch c1 c2 : runs c chs c1 -> legal ch (fst c1) -> step ch c1 = Some c2 -> runs c (chs ++ [ch]) c2.

Lemma runs_inv k w s chs c' : Inv [] k w s -> runs (w, s) chs c' ->
  exists k', Inv [] k' (fst c') (snd c') /\ (k' = Lost -> k = Lost \/ Exists timer_refused chs).
Proof.
  intros Hi Hr. remember (w, s) as c eqn:Ec. revert w s Hi Ec.
  induction Hr as [|chs ch [w1 s1] c2 Hr IH Hw Hs]; intros w s Hi ->.
  { exists k. split; [done|by left]. }
  destruct (IH w s Hi eq_refl) as (k1 & Hi1 & Hk1). destruct (step_inv k1 ch w1 s1 c2 Hi1 Hw Hs) as (k2 & Hi2 & Hk2).
  exists k2. split; [done|]. intros E. destruct (Hk2 E) as [E1|?]; [|right; apply Exists_app; by right; left].
  destruct (Hk1 E1) as [?|?]; [by left|right; apply Exists_app; by left].
Qed.

Lemma new_inv n rl reg : Inv [] NoWait (clm_agent_new cfg llm n rl reg) [].
Proof.
  constructor; try done. constructor; try done; try (cbn; lia); [by intros t Ht|apply hist_ok_system|left; cbn; lia|by intros u Hu].
Qed.
End Inv.
