(* ===== verification/AgentFacts.v ===== *)
(** What the turn machine promises: it waits for one thing, reports every
    turn once, loses no notification, ends its rounds and its retries, sends
    what the providers take, and stops when told to. *)

From S2P Require Import Prelude Utf8 TextClean Image RateLimit Tokens CJson History HistoryFacts HistoryJson Registry.
From S2P Require Import Files Stream StreamFacts Provider ProviderOpenai Requests AgentState Agent AgentBooks AgentInv.

(** ** Counting *)

Section Counts.
Context `{CJson} `{!Provider}.

Definition begun (l : list ev) : nat := length (List.filter (fun e => match e with EvBegin _ => true | _ => false end) l).
Definition reported (l : list ev) : nat := length (List.filter (fun e => match e with EvDone _ => true | _ => false end) l).

Lemma in_turn_counts l : forall b, in_turn l = Some b -> begun l = (reported l + b2n b)%nat.
Proof.
  induction l as [|e l IH]; [by intros b [= <-]|]. unfold begun, reported in *. intros b. cbn [in_turn List.filter].
  destruct e; try done; destruct (in_turn l) as [[]|]; try done; intros [= <-]; cbn [length];
    specialize (IH _ eq_refl); cbn in *; lia.
Qed.
End Counts.

(** ** Delays *)

(** The delay in closed form. *)
Lemma retry_delay_min sscanf body attempt :
  clm_rl_retry_delay_ms sscanf body attempt =
  Z.min CLM_RL_RETRY_CAP_MS
    (Z.max (server_delay_ms sscanf body) (CLM_RL_RETRY_FLOOR_MS * 2 ^ Z.min 20 (Z.max 0 attempt))).
Proof.
  unfold clm_rl_retry_delay_ms. cbv zeta. set (a := if 20 <? _ then 20 else _).
  assert (Ha : a = Z.min 20 (Z.max 0 attempt))
    by (unfold a; destruct (Z.ltb_spec attempt 0); [cbn|destruct (Z.ltb_spec 20 attempt)]; lia).
  rewrite Z.shiftl_mul_pow2, Ha by lia. set (f := CLM_RL_RETRY_FLOOR_MS * _). clearbody f.
  set (d := server_delay_ms _ _). clearbody d.
  destruct (Z.ltb_spec d f);
    [destruct (Z.ltb_spec CLM_RL_RETRY_CAP_MS f)|destruct (Z.ltb_spec CLM_RL_RETRY_CAP_MS d)]; lia.
Qed.

(** The wait before a rate-limited request is sent again: at least a
    second, doubled with every attempt, at most a minute, never shorter than
    the server asked for, up to that minute, and no attempt waits less than
    the one before. *)
Theorem retry_delay_bounds sscanf body attempt :
  let d := clm_rl_retry_delay_ms sscanf body attempt in
  1000 <= d <= 60000 /\
  (0 <= attempt <= 20 -> Z.min (1000 * 2 ^ attempt) 60000 <= d) /\
  Z.min (server_delay_ms sscanf body) 60000 <= d /\
  d <= clm_rl_retry_delay_ms sscanf body (attempt + 1).
Proof.
  cbv zeta. rewrite !retry_delay_min. unfold CLM_RL_RETRY_CAP_MS, CLM_RL_RETRY_FLOOR_MS.
  set (n := Z.min 20 (Z.max 0 attempt)). set (n' := Z.min 20 (Z.max 0 (attempt + 1))).
  set (d := server_delay_ms _ _). clearbody d.
  assert (Hn : 1 <= 2 ^ n) by (pose proof (Z.pow_pos_nonneg 2 n); lia).
  assert (Hm : 2 ^ n <= 2 ^ n') by (apply Z.pow_le_mono_r; lia).
  split; [lia|]. split; [|lia]. intros Ha. assert (E : n = attempt) by lia. rewrite E. lia.
Qed.

(** ** Reachable states *)

Section Facts.
Context `{CJsonLaws} `{!Provider} `{!ProviderOps}.
Context (cJSON_Parse : list byte -> option cJSON) (cJSON_PrintUnformatted : cJSON -> option (list byte)).
Context (int_nan : Z) (sscanf : list byte -> option scanned) (fmt_rfc2822 : Z -> list byte).
Context (cfg : settings) (llm : clm_llm).

Abbreviation runs := (runs cJSON_Parse cJSON_PrintUnformatted int_nan sscanf fmt_rfc2822 cfg llm).
Abbreviation step := (step cJSON_Parse cJSON_PrintUnformatted int_nan sscanf fmt_rfc2822 cfg llm).
Abbreviation Inv := (Inv cfg).

(** A new agent comes to the state [w], with [s] still to run, by the steps
    [chs]. *)
Definition reached (chs : list choice) (w : world) (s : list frame) : Prop :=
  exists n rl reg, runs (clm_agent_new cfg llm n rl reg, []) chs (w, s).

Lemma reached_Inv chs w s : reached chs w s -> exists k, Inv [] k w s /\ (k = Lost -> Exists timer_refused chs).
Proof.
  intros (n & rl & reg & Hr). destruct (runs_inv _ _ _ _ _ _ _ _ _ _ _ _ (new_inv cfg llm n rl reg) Hr) as (k & Hi & Hk).
  exists k. split; [done|]. intros E. by destruct (Hk E).
Qed.

(** C1. An agent waits for one thing, and its handles are that thing's. It
    is idle, or is about to build a request, or has one request out, which it
    may have cancelled, or one timer, or one batch of tools. A busy agent
    that nothing will wake is only there if the host refused a timer. *)
Theorem agent_waits_for_one chs w s (Hr : reached chs w s) :
  exists k, core w = shows k /\ agent_busy w = negb (idle k) /\
    starts s = (match k with OnStart => 1 | _ => 0 end)%nat /\
    match k with
    | OnCancelled _ _ => cancelling w = true
    | OnLlmTimer t => rl_parked_turn w = Some t
    | Lost => Exists timer_refused chs
    | _ => True
    end.
Proof.
  destruct (reached_Inv chs w s Hr) as (k & [I1 I2 I3 I4 I5 I6] & Hk). exists k. split_and!; [done|done|done|].
  destruct k; cbn in *; try done; [apply I6|apply I6|by apply Hk].
Qed.

(** C2. To the frontend the agent is a machine of two states: a turn is
    accepted only when it is idle, and every turn is reported by
    [cb_on_turn_done] once, when it ends. *)
Theorem turns_are_reported chs w s (Hr : reached chs w s) :
  in_turn (log w) = Some (agent_busy w) /\ begun (log w) = (reported (log w) + b2n (agent_busy w))%nat.
Proof.
  destruct (reached_Inv chs w s Hr) as (k & Hi & _). pose proof (i_log _ _ _ _ _ Hi) as Hl.
  split; [done|by apply in_turn_counts].
Qed.

(** C3. A notification that was accepted is not lost, as long as the
    frontend begins no turn from within [cb_on_turn_done]: it waits in a
    running turn, which ends or tells it, or it is about to be submitted, or
    the model was told. Between turns it was told. *)
Theorem notifications_are_told chs w s t (Hr : reached chs w s)
    (Hn : In (EvNotify t) (log w)) (Hq : ~ In EvReentry (log w)) :
  (agent_busy w = true /\ exists u, pending_notify w = Some u /\ sub t u) \/
  (exists u, In (FSubmit u) s /\ sub t u) \/ (exists u, In (EvUser u) (log w) /\ sub t u).
Proof.
  destruct (reached_Inv chs w s Hr) as (k & [I1 I2 I3 I4 I5 I6] & _). rewrite app_nil_r in I5.
  destruct (k_heard _ _ _ _ _ _ _ _ I5 t Hn) as [(u & Hu & Ht)|[(u & Hu & Ht)|(u & [Hu|Hu] & Ht)]].
  - left. split; [|by exists u]. destruct (agent_busy w) eqn:Eb; [done|].
    rewrite (k_idle _ _ _ _ _ _ _ _ I5 I4) in Hu. done.
  - right. left. exists u. split; [|done]. unfold submits in Hu. apply list_elem_of_In, list_elem_of_omap in Hu as (f & Hf & Ef).
    apply list_elem_of_In in Hf. destruct f; try done. by injection Ef as ->.
  - right. right. by exists u.
  - destruct Hq. by apply (k_dropped _ _ _ _ _ _ _ _ I5 u).
Qed.

(** C6. A prompt makes at most [max_iterations] rounds of tools, if there
    is such a limit, and the request of a turn is sent nine times at most. *)
Theorem rounds_and_posts_are_bounded chs w s (Hr : reached chs w s) :
  (0 < max_iterations cfg -> Z.of_nat (batches (log w)) <= max_iterations cfg) /\ (posts (log w) <= 9)%nat.
Proof.
  destruct (reached_Inv chs w s Hr) as (k & [_ _ _ _ I5 _] & _).
  split; [apply (k_rounds _ _ _ _ _ _ _ _ I5)|apply (k_posts _ _ _ _ _ _ _ _ I5)].
Qed.

Lemma turns_at l2 h prev all sent l1 : turns_ok (l2 ++ EvTurn h prev all sent :: l1) ->
  hist_ok h /\ turn_sent l1 h prev all sent.
Proof. induction l2 as [|e l2 IH]; [by intros [? _]|]. destruct e; cbn; try done. by intros [_ ?]; apply IH. Qed.

(** C4. A request is built from a history that every provider takes: each
    tool call has its result in the run of tool messages behind it and each
    result its call, so the repair after an error has nothing to do. *)
Theorem requests_are_answered chs w s l2 h prev all sent l1 (Hr : reached chs w s)
    (Hl : log w = l2 ++ EvTurn h prev all sent :: l1) :
  answered h /\ orphan_free [] h /\ clm_history_repair_dangling_tool_calls h = (0, h) /\
  length all = length h.
Proof.
  destruct (reached_Inv chs w s Hr) as (k & [_ _ _ _ I5 _] & _).
  pose proof (k_turns _ _ _ _ _ _ _ _ I5) as Ht. rewrite Hl in Ht. apply turns_at in Ht as [Hh [Hn _]].
  pose proof (repair_ok h Hh). destruct Hh as (_ & Ho & Ha). by split_and!.
Qed.


(** ** Cancelling *)

(** A cancel that was accepted and not yet reported. *)
Definition cancel_pending (w : world) : Prop :=
  exists k, core w = shows k /\ agent_busy w = true /\
    match k with OnCancelled _ _ => True | OnTools _ => cancelling w = true | _ => False end.

Lemma cancel_accepted q k w w1 fs : Inv q k w [] -> clm_agent_cancel w = (0, (w1, fs)) ->
  log w1 = EvDone (- ECANCELED) :: log w \/ (log w1 = log w /\ fs = [] /\ cancel_pending w1).
Proof.
  intros Hi. unfold clm_agent_cancel. destruct (cancelling w); [done|].
  destruct (llm_rl_timer w || compact_rl_timer w).
  { cbv zeta. intros [= <- _]. left. by destruct (llm_rl_timer w); destruct (compact_rl_timer _). }
  destruct (core_fields k w (i_core _ _ _ _ _ Hi)) as (E1 & E2 & E3 & E4 & E5 & E6 & E7).
  assert (Eb := i_busy _ _ _ _ _ Hi). assert (Ea := i_awaits _ _ _ _ _ Hi). rewrite E2, E7. clear Hi.
  destruct k as [| |id r|id r|t| |tc|]; cbn in *; try done; intros [= <- <-]; right; (split; [done|split; [done|]]).
  - exists (OnCancelled id r). split; [|done]. unfold core. wcbn. rewrite E1. cbn. rewrite Nat.eqb_refl.
    by rewrite E3, E4, E5, E6, E7.
  - exists (OnTools tc). split; [|done]. unfold core. wcbn. by rewrite E1, E2, E3, E4, E5, E6, E7.
Qed.

(** The abstract step of a cancelled turn: it is told of notifications, or
    ends as cancelled. *)
Definition winds_down (w w' : world) (s' : list frame) : Prop :=
  log w' = EvDone (- ECANCELED) :: log w \/
  (s' = [] /\ cancel_pending w' /\ (log w' = log w \/ exists t, log w' = EvNotify t :: log w)).

Lemma winds_same w w' : cancel_pending w -> core w' = core w -> state w' = state w -> cancelling w' = cancelling w ->
  log w' = log w \/ (exists t, log w' = EvNotify t :: log w) -> winds_down w w' [].
Proof.
  intros (k & Hc & Hb & Hk) Ec Es Ea Hl. right. split; [done|]. split; [|done]. exists k. rewrite Ec, Ea.
  split; [done|]. split; [|done]. unfold agent_busy in *. by rewrite Es.
Qed.

Lemma api_winds_down k o a w : Inv [] k w [] -> cancel_pending w ->
  winds_down w (fst (snd (do_api cJSON_Parse cJSON_PrintUnformatted fmt_rfc2822 cfg llm o a w)))
    (snd (snd (do_api cJSON_Parse cJSON_PrintUnformatted fmt_rfc2822 cfg llm o a w))).
Proof.
  intros Hi Hp. assert (Hb : agent_busy w = true) by (by destruct Hp as (? & _ & ? & _)).
  destruct a as [p|t| | | |key text]; cbn [do_api].
  - unfold clm_agent_submit. rewrite Hb. apply winds_same; try done. by left.
  - unfold clm_agent_notify. rewrite Hb. apply winds_same; try done. right. by exists t.
  - unfold api_compact, clm_agent_compact. rewrite Hb. apply winds_same; try done. by left.
  - assert (Ha : cancelling w = true).
    { destruct Hp as (k' & Hc & _ & Hk). pose proof (i_core _ _ _ _ _ Hi) as Hc'. rewrite Hc' in Hc.
      destruct k', k; try done. by destruct (i_awaits _ _ _ _ _ Hi). }
    unfold clm_agent_cancel. rewrite Ha. apply winds_same; try done. by left.
  - unfold clm_agent_clear_history. rewrite Hb. apply winds_same; try done. by left.
  - cbn [fst snd]. unfold clm_agent_set_prompt_part.
    destruct (set_prompt_part _ _ _) as [q []]; apply winds_same; try done; by left.
Qed.

Lemma cancelled_request_ends k o id code msg w w' s' : Inv [] k w [] -> cancel_pending w ->
  on_host cJSON_Parse cJSON_PrintUnformatted int_nan sscanf cfg llm o (HError id code msg) w = Some (w', s') ->
  log w' = EvDone (- ECANCELED) :: log w.
Proof.
  intros Hi (k' & Hc & _ & Hk) E. cbn [on_host] in E.
  destruct (find_request id (requests w)) as [[r c]|] eqn:Ef; [|done].
  pose proof (found_posted k' w id r c Hc Ef) as ->. destruct c; [|done].
  destruct (code =? - ECANCELED) eqn:Ecode; [|done]. destruct (code <? 0); [|done].
  apply Z.eqb_eq in Ecode. subst code. injection E as E. destruct r as [t| |url].
  - unfold turn_error in E. rewrite Z.eqb_refl in E. cbv zeta in E. injection E as <- _.
    unfold agent_keep_partial. by destruct (t_streaming t), (text (t_stream t)).
  - unfold compact_error in E. rewrite Z.eqb_refl in E. cbn [negb] in E. rewrite andb_false_r in E. by injection E as <- _.
  - unfold upload_error in E. rewrite Z.eqb_refl in E. by injection E as <- _.
Qed.

Lemma host_winds_down k o e w w' s' : Inv [] k w [] -> cancel_pending w ->
  on_host cJSON_Parse cJSON_PrintUnformatted int_nan sscanf cfg llm o e w = Some (w', s') -> winds_down w w' s'.
Proof.
  intros Hi Hp E. destruct e as [id data|id st body|id code msg| | |st h rw reg n].
  - cbn [on_host] in E. destruct (find_request id (requests w)) as [[[t| |] c]|] eqn:Ef; try done.
    destruct (t_streaming t); [|done]. injection E as <- <-. destruct Hp as (k' & Hc & Hb & Hk).
    pose proof (found_posted k' w id _ c Hc Ef) as ->. destruct c; [|done].
    pose proof (found_posted k w id _ true (i_core _ _ _ _ _ Hi) Ef) as ->.
    destruct (on_data_keeps cJSON_Parse int_nan cfg [] id t true data w Hi) as [t' Hi'].
    right. split; [done|]. split.
    + exists (OnCancelled id (RTurn t')). split; [apply (i_core _ _ _ _ _ Hi')|]. split; [|done].
      by rewrite (i_busy _ _ _ _ _ Hi').
    + left. unfold on_data. by destruct (clm_http_data_cb_wrapper _ _ _ _ _ _).
  - cbn [on_host] in E. destruct (find_request id (requests w)) as [[r [|]]|] eqn:Ef; try done.
    destruct Hp as (k' & Hc & Hb & Hk). by pose proof (found_posted k' w id r false Hc Ef) as ->.
  - left. by apply (cancelled_request_ends k o id code msg w w' s').
  - cbn [on_host] in E. destruct Hp as (k' & Hc & _ & Hk). destruct (core_fields k' w Hc) as (_ & _ & E3 & _).
    rewrite E3 in E. by destruct k'.
  - cbn [on_host] in E. destruct Hp as (k' & Hc & _ & Hk). destruct (core_fields k' w Hc) as (_ & _ & _ & _ & E5 & _).
    rewrite E5 in E. by destruct k'.
  - cbn [on_host] in E. destruct (active_batch w) as [tc|] eqn:Et; [|done]. injection E as E.
    assert (Ha : cancelling w = true).
    { destruct Hp as (k' & Hc & _ & Hk). destruct (core_fields k' w Hc) as (_ & _ & _ & _ & _ & _ & E7).
      rewrite Et in E7. by destruct k'. }
    left. unfold on_tools_done, clm_agent_tools_done in E. cbv zeta in E.
    destruct rw; cbn [cancelling] in E.
    + change (cancelling (clm_agent_chain_reset _)) with (cancelling w) in E. rewrite Ha in E. by injection E as <- _.
    + change (cancelling (set_gate_denials _ _)) with (cancelling w) in E. rewrite Ha in E. by injection E as <- _.
Qed.

(** C7. A cancel that is accepted ends the turn as cancelled. It is
    reported at once if the turn was waiting for a timer; otherwise nothing
    the host brings and nothing the frontend calls can end the turn but with
    [-ECANCELED]: a batch's results start no new request, a response that
    arrives too late is not looked at. *)
Theorem cancel_lands chs w w1 fs (Hr : reached chs w []) (Hc : clm_agent_cancel w = (0, (w1, fs))) :
  (log w1 = EvDone (- ECANCELED) :: log w \/ (log w1 = log w /\ fs = [] /\ cancel_pending w1)) /\
  forall chs' w2 ch w3 s3, reached chs' w2 [] -> cancel_pending w2 -> step ch (w2, []) = Some (w3, s3) ->
    winds_down w2 w3 s3.
Proof.
  split.
  - destruct (reached_Inv chs w [] Hr) as (k & Hi & _). by apply (cancel_accepted [] k).
  - clear chs w w1 fs Hr Hc. intros chs w ch w' s' Hr Hp E. destruct (reached_Inv chs w [] Hr) as (k & Hi & _).
    destruct ch as [o| |o a|o e]; cbn [Agent.step] in E; try done.
    + pose proof (api_winds_down k o a w Hi Hp) as Hw. destruct (do_api _ _ _ _ _ _ _ _) as [r [w1 fs]].
      by injection E as <- <-.
    + by apply (host_winds_down k o e).
Qed.

(** ** The retries of an error *)

(** What is left to try. *)
Definition tries (w : world) : nat :=
  (b2n (bool_decide (is_Some (resp_chain w))) + b2n (negb (tools_unsupported w))
   + if file_uploads (ups w) then (if (files_lost w <=? 0)%Z then 3 else 2)
     else b2n (negb (length (files (ups w)) =? 0)))%nat.

Lemma recover_tries q b st body w : held cfg q false b true w -> 0 <= files_lost w ->
  let '(again, w') := turn_recover st body w in
  if again then (tries w' < tries w)%nat /\ 0 <= files_lost w' else tries w' = tries w.
Proof.
  intros (_ & _ & _ & Hk) Hl. unfold turn_recover.
  destruct (bool_decide (is_Some (resp_chain w)) && _) eqn:E1.
  { apply andb_true_iff in E1 as [E1 _]. split; [|done]. unfold tries. wcbn. rewrite E1. cbn. lia. }
  assert (Er : (if says body (bs "No tool output found") then clm_history_repair_dangling_tool_calls (history w)
                else (0, history w)) = (0, history w)).
  { case (says body (bs "No tool output found")); [apply repair_ok, (k_hist _ _ _ _ _ _ _ _ Hk)|reflexivity]. }
  rewrite Er. cbn [Z.ltb Z.compare]. clear Er E1 Hk.
  destruct ((st =? 404) && _ && _) eqn:E2.
  { apply andb_true_iff in E2 as [E2 _]. apply andb_true_iff in E2 as [_ E2]. change (ups (set_history _ w)) with (ups w) in *.
    change (files_lost (set_history _ w)) with (files_lost w). unfold tries. wcbn. cbn [files length Nat.eqb file_uploads negb b2n].
    rewrite E2. cbn [b2n]. split; [|lia].
    destruct (Z.ltb_spec 1 (files_lost w + 1)), (file_uploads (ups w)), (Z.leb_spec (files_lost w) 0),
      (Z.leb_spec (files_lost w + 1) 0); cbn; lia. }
  destruct ((st =? 400) && _ && _) eqn:E3.
  { apply andb_true_iff in E3 as [E3 _]. apply andb_true_iff in E3 as [_ E3]. split; [|done].
    change (tools_unsupported (set_history _ w)) with (tools_unsupported w) in E3. unfold tries. wcbn. rewrite E3. cbn. lia. }
  done.
Qed.

Lemma tries_post_turn o k t w : tries (fst (post_turn o k t w)) = tries w.
Proof. unfold post_turn, http_post. destruct (post o k <? 0) eqn:E; [by rewrite E|done]. Qed.

Lemma tries_timer o c k t w : tries (fst (on_llm_rl_timer o c k t w)) = tries w.
Proof. unfold on_llm_rl_timer. cbv zeta. rewrite tries_post_turn. by destruct (llm_rl_timer w). Qed.

Lemma tries_dispatch o k t w : tries (fst (llm_dispatch cfg o k t w)) = tries w.
Proof.
  unfold llm_dispatch. destruct (match llm_rl w with Some _ => _ | None => _ end) as [ok rl]. cbv zeta.
  change (tries w) with (tries (set_llm_rl rl w)). set (w1 := set_llm_rl rl w). clearbody w1.
  destruct ok; [apply tries_post_turn|]. destruct (clm_ratelimit_delay _ _ _) as [d rl'].
  destruct (timer_ok o); [done|]. by rewrite tries_timer.
Qed.

Lemma tries_send o m w : (tries (fst (send_turn cJSON_Parse cJSON_PrintUnformatted cfg llm o m w)) <= tries w)%nat.
Proof.
  unfold send_turn. cbv zeta. destruct (cut_chain _ _) as [[prev chain] sent] eqn:Ec.
  assert (Ht : (tries (set_resp_chain chain w) <= tries w)%nat).
  { unfold cut_chain in Ec. destruct (resp_chain w) as [[rid n]|] eqn:Er.
    - unfold tries. wcbn. rewrite Er. destruct (_ && _); injection Ec as <- <- <-; cbn; lia.
    - injection Ec as <- <- <-. unfold tries. wcbn. by rewrite Er. }
  destruct (build_request _ _ _ _) as [req|]; [|done].
  destruct (cJSON_PrintUnformatted req) as [body|]; [|done]. by rewrite tries_dispatch.
Qed.

Lemma tries_upload o url n w : file_uploads (ups w) = true ->
  (tries (snd (file_upload_start llm o url n w)) <= tries w)%nat.
Proof.
  intros Hu. assert (Hoff : (tries (set_ups (mk_uploads (files (ups w)) false) w) <= tries w)%nat).
  { unfold tries. wcbn. cbn [file_uploads files]. rewrite Hu.
    destruct (files_lost w <=? 0), (length (files (ups w)) =? 0)%nat; cbn; lia. }
  unfold file_upload_start. destruct (clm_files_url _); [|done]. destruct (clm_files_multipart url).
  - unfold http_post. destruct (post o 0 <? 0) eqn:E; cbn [snd]; [by rewrite E|done].
  - cbn [snd]. unfold tries. wcbn. unfold file_upload_finish.
    destruct (clm_files_add _ _ _ _) as [r fs]. cbn [file_uploads files]. rewrite Hu.
    destruct (r <? 0), (files_lost w <=? 0), (length fs =? 0)%nat; cbn; lia.
Qed.

Lemma tries_start o w : (tries (fst (clm_agent_start_turn cJSON_Parse cJSON_PrintUnformatted cfg llm o w)) <= tries w)%nat.
Proof.
  unfold clm_agent_start_turn. cbv zeta. assert (E0 : tries (agent_flush_pending_notify cfg w) = tries w).
  { unfold agent_flush_pending_notify. by destruct (pending_notify w). }
  rewrite <- E0. set (w0 := agent_flush_pending_notify cfg w). clearbody w0.
  set (w1 := if prompt_parts_changed w0 then _ else w0).
  assert (E1 : (tries w1 <= tries w0)%nat).
  { unfold w1. destruct (prompt_parts_changed w0); [|done]. unfold tries. wcbn. cbn. lia. }
  clearbody w1. clear E0. etransitivity; [|exact E1]. clear E1.
  destruct (clm_history_to_json _ _) as [m|]; [|done].
  destruct (file_uploads (ups w1)) eqn:Eu; [|apply tries_send].
  destruct (clm_files_apply _ _ _ _) as [st m2]. destruct (missing st) as [url|]; [|apply tries_send].
  pose proof (tries_upload o url (wall o (reads st)) w1 Eu) as Hs.
  destruct (file_upload_start _ _ _ _ _) as [[] w2]; [done|]. cbn [snd] in Hs.
  etransitivity; [apply tries_send|done].
Qed.

(** Only the recovery sends a turn again. *)
Lemma finish_ends tc c r w : snd (agent_finish cfg tc c r w) <> [FStart].
Proof.
  unfold agent_finish. destruct (bool_decide _); [done|]. destruct (bool_decide _); [done|].
  by destruct (has_calls_in tc).
Qed.

Lemma resent o t st body w : snd (turn_success cJSON_Parse int_nan sscanf cfg o t st body w) = [FStart] ->
  fst (turn_recover st body (set_inflight None w)) = true /\
  fst (turn_success cJSON_Parse int_nan sscanf cfg o t st body w) = snd (turn_recover st body (set_inflight None w)).
Proof.
  unfold turn_success. destruct (negb _).
  - destruct (if st =? 429 then _ else _) as [[] w1]; [done|].
    by destruct (turn_recover st body (set_inflight None w)) as [[] w2].
  - destruct (t_streaming t).
    + unfold stream_finalize. destruct (match rl_advice _ with Some _ => _ | None => _ end) as [[] w1]; [done|].
      intros E. by apply finish_ends in E.
    + unfold turn_response. destruct (normalized _); [|done]. destruct (response_message _); [|done].
      unfold finish_parsed. destruct (if is_rate_limit_message _ then _ else _) as [[] w1]; [done|].
      intros E. by apply finish_ends in E.
Qed.

End Facts.
