(* ===== verification/AgentRun.v ===== *)
(** Concrete runs of the turn machine: the witnesses of its theorems, and the
    runs that show what a frontend and a host are relied on for. *)

From S2P Require Import Prelude Utf8 TextClean Image RateLimit Tokens CJson History HistoryFacts HistoryJson Registry.
From S2P Require Import Files Stream StreamFacts Provider ProviderOpenai Requests AgentState Agent AgentBooks AgentInv AgentFacts.

Section Runs.
Context `{CJsonLaws} `{!Provider} `{!ProviderOps}.
Context (cJSON_Parse : list byte -> option cJSON) (cJSON_PrintUnformatted : cJSON -> option (list byte)).
Context (int_nan : Z) (sscanf : list byte -> option scanned) (fmt_rfc2822 : Z -> list byte).
Context (cfg : settings) (llm : clm_llm).

Abbreviation runs := (runs cJSON_Parse cJSON_PrintUnformatted int_nan sscanf fmt_rfc2822 cfg llm).
Abbreviation step := (step cJSON_Parse cJSON_PrintUnformatted int_nan sscanf fmt_rfc2822 cfg llm).
Abbreviation run := (run cJSON_Parse cJSON_PrintUnformatted int_nan sscanf fmt_rfc2822 cfg llm).

(** A step without a batch of tools, which owes nothing. *)
Definition toolless (ch : choice) : Prop := match ch with Host _ (HToolsDone _ _ _ _ _) => False | _ => True end.

Lemma toolless_legal ch w : toolless ch -> legal ch w.
Proof. destruct ch as [| | |o []]; done. Qed.

Lemma runs_first ch c c1 chs c' : legal ch (fst c) -> step ch c = Some c1 -> runs c1 chs c' -> runs c (ch :: chs) c'.
Proof.
  intros Hl Hs Hr. induction Hr as [|chs ch2 c2 c3 Hr IH Hl2 Hs2].
  - apply (runs_step _ _ _ _ _ _ _ _ [] ch c c1); [constructor|done|done].
  - by apply (runs_step _ _ _ _ _ _ _ _ (ch :: chs) ch2 c2 c3).
Qed.

Lemma run_runs chs : forall c c', Forall toolless chs -> run chs c = Some c' -> runs c chs c'.
Proof.
  induction chs as [|ch chs IH]; intros c c' Ht E; cbn [Agent.run] in E; [injection E as <-; constructor|].
  destruct (step ch c) as [c1|] eqn:Es; [|done]. inversion Ht as [|? ? Hc Hcs]; subst.
  apply runs_first with c1; [by apply toolless_legal|done|]. by apply IH.
Qed.
End Runs.

(** ** A small world *)

#[local] Instance demo_provider : @Provider json_cjson := {|
  pstate := unit; pstate_null := tt; normalize_stream_event := None
|}.
#[local] Instance demo_ops : @ProviderOps json_cjson := {|
  build_request := fun _ m _ _ => Some m; normalize_response := None; forbid_tool_calls := None
|}.

(** Two bodies parse: a reply and a tool call. *)
Definition demo_reply : json :=
  JObject [(bs "choices", JArray [JObject [(bs "message", JObject [(bs "content", JString (bs "hi"))])]]);
           (bs "provider_response_id", JString (bs "r1"))].
Definition demo_call : json :=
  JObject [(bs "choices", JArray [JObject [(bs "message", JObject [(bs "tool_calls",
    JArray [JObject [(bs "id", JString (bs "c1"))]])])]])].
Definition demo_parse (b : list byte) : option json :=
  if beq b (bs "R") then Some demo_reply else if beq b (bs "T") then Some demo_call else None.
Definition demo_print (j : json) : option (list byte) := Some (bs "{}").

Definition demo_cfg : settings := mk_settings false 5 0 0 0 0 None None None None true.
Definition demo_llm : clm_llm := clm_llm_new CLM_PROVIDER_OPENAI (bs "k") (bs "http://h/v1") (bs "m") false.
Definition demo_oracle : oracle := mk_oracle (fun _ => 0) (fun _ => 0) (fun _ => 0) true.

Abbreviation demo_run := (@run json_cjson demo_provider demo_ops demo_parse demo_print 0 (fun _ => None) (fun _ => []) demo_cfg demo_llm).
Abbreviation demo_reached := (@reached json_cjson demo_provider demo_ops demo_parse demo_print 0 (fun _ => None) (fun _ => []) demo_cfg demo_llm).
Definition demo_new : world := clm_agent_new demo_cfg demo_llm 0 None [].
Definition demo_at (chs : list choice) : config := default (demo_new, []) (demo_run chs (demo_new, [])).

(** The run is computed, its world is not written out. *)
Lemma agent_demo_reaches chs : Forall toolless chs ->
  match demo_run chs (demo_new, []) with Some _ => true | None => false end = true ->
  demo_reached chs (fst (demo_at chs)) (snd (demo_at chs)).
Proof.
  intros Ht E. assert (Er : demo_run chs (demo_new, []) = Some (demo_at chs)).
  { revert E. unfold demo_at. by destruct (demo_run chs (demo_new, [])). }
  exists 0, None, []. rewrite <- surjective_pairing. by apply run_runs.
Qed.

Abbreviation call a := (Call demo_oracle a).
Abbreviation host e := (Host demo_oracle e).

(** A prompt; a notification while its request is out; the reply; the
    notification is submitted and its request built on the reply. *)
Definition demo_sent : list choice := [call (ASubmit (bs "go")); Run demo_oracle].
Definition demo_told : list choice :=
  demo_sent ++ [call (ANotify (bs "by the way")); host (HSuccess 0 200 (Some (bs "R"))); Return; Run demo_oracle;
                Run demo_oracle].

Ltac demo_run_it := apply agent_demo_reaches; [repeat constructor|vm_compute; reflexivity].

Lemma demo_sent_reached : demo_reached demo_sent (fst (demo_at demo_sent)) (snd (demo_at demo_sent)).
Proof. demo_run_it. Qed.

Lemma demo_told_reached : demo_reached demo_told (fst (demo_at demo_told)) (snd (demo_at demo_told)).
Proof. demo_run_it. Qed.

Lemma agent_waits_for_one_witness :
  demo_reached demo_sent (fst (demo_at demo_sent)) (snd (demo_at demo_sent)) /\
  agent_busy (fst (demo_at demo_sent)) = true /\ starts (snd (demo_at demo_sent)) = 0%nat.
Proof.
  split; [exact demo_sent_reached|]. split; [vm_compute; reflexivity|].
  destruct (@agent_waits_for_one json_cjson json_laws demo_provider demo_ops _ _ _ _ _ _ _ _ _ _ demo_sent_reached)
    as (k & Hc & _ & Hs & _).
  rewrite Hs. destruct k; try reflexivity. apply (f_equal (fun c => length (fst (fst (fst (fst c)))))) in Hc.
  vm_compute in Hc. discriminate.
Defined.

Lemma turns_are_reported_witness :
  demo_reached demo_told (fst (demo_at demo_told)) (snd (demo_at demo_told)) /\
  begun (log (fst (demo_at demo_told))) = 2%nat /\
  in_turn (log (fst (demo_at demo_told))) = Some (agent_busy (fst (demo_at demo_told))).
Proof.
  split; [exact demo_told_reached|]. split; [vm_compute; reflexivity|].
  exact (proj1 (@turns_are_reported json_cjson json_laws demo_provider demo_ops _ _ _ _ _ _ _ _ _ _ demo_told_reached)).
Defined.


Abbreviation told := (fst (demo_at demo_told)).

(** A log has an event that a test finds. *)
Lemma has_event (f : ev -> bool) (P : ev -> Prop) l : (forall e, f e = true -> P e) -> existsb f l = true ->
  exists e, In e l /\ P e.
Proof. intros Hf E. apply existsb_exists in E as (e & Hi & Hb). exists e. split; [done|by apply Hf]. Qed.

Lemma has_notify t l : existsb (fun e => match e with EvNotify u => beq u t | _ => false end) l = true -> In (EvNotify t) l.
Proof.
  intros E. apply (has_event _ (fun e => e = EvNotify t)) in E as (e & Hi & ->); [done|].
  intros []; try done. intros Hb. by apply beq_eq in Hb as ->.
Qed.

Lemma no_reentry l : existsb (fun e => match e with EvReentry => true | _ => false end) l = false -> ~ In EvReentry l.
Proof. intros E Hi. assert (Ht : existsb (fun e => match e with EvReentry => true | _ => false end) l = true); [|congruence].
  apply existsb_exists. by exists EvReentry. Qed.

Lemma notifications_are_told_witness :
  demo_reached demo_told told (snd (demo_at demo_told)) /\ In (EvNotify (bs "by the way")) (log told) /\
  ~ In EvReentry (log told) /\
  ((agent_busy told = true /\ exists u, pending_notify told = Some u /\ sub (bs "by the way") u) \/
   (exists u, In (FSubmit u) (snd (demo_at demo_told)) /\ sub (bs "by the way") u) \/
   (exists u, In (EvUser u) (log told) /\ sub (bs "by the way") u)).
Proof.
  assert (Hn : In (EvNotify (bs "by the way")) (log told)) by (apply has_notify; vm_compute; reflexivity).
  assert (Hq : ~ In EvReentry (log told)) by (apply no_reentry; vm_compute; reflexivity).
  split; [exact demo_told_reached|]. split; [exact Hn|]. split; [exact Hq|].
  exact (@notifications_are_told json_cjson json_laws demo_provider demo_ops _ _ _ _ _ _ _ _ _ _ _ demo_told_reached Hn Hq).
Defined.

Lemma rounds_and_posts_are_bounded_witness :
  demo_reached demo_told told (snd (demo_at demo_told)) /\ posts (log told) = 1%nat /\ (posts (log told) <= 9)%nat.
Proof.
  split; [exact demo_told_reached|]. split; [vm_compute; reflexivity|].
  exact (proj2 (@rounds_and_posts_are_bounded json_cjson json_laws demo_provider demo_ops _ _ _ _ _ _ _ _ _ _
    demo_told_reached)).
Defined.

(** A turn that continues a response. *)
Definition continues (all_n sent_n : nat) (e : option ev) : bool :=
  match e with
  | Some (EvTurn _ (Some _) all sent) => ((length all =? all_n) && (length sent =? sent_n))%nat
  | _ => false
  end.

Lemma continues_at k n m (l : list ev) : continues n m (l !! k) = true ->
  exists l2 h rid all sent l1, l = l2 ++ EvTurn h (Some rid) all sent :: l1 /\ length all = n /\ length sent = m.
Proof.
  intros Hk. destruct (l !! k) as [[| | | |h [rid|] all sent| | | | |]|] eqn:E; try done.
  apply andb_true_iff in Hk as [K1 K2]. apply Nat.eqb_eq in K1, K2.
  exists (take k l), h, rid, all, sent, (drop (S k) l). split; [symmetry; by apply take_drop_middle|done].
Qed.

(** The request on the reply. *)
Lemma demo_turn : exists l2 h rid all sent l1, log told = l2 ++ EvTurn h (Some rid) all sent :: l1 /\
  length all = 4%nat /\ length sent = 1%nat.
Proof. apply (continues_at 1). vm_compute. reflexivity. Qed.

Lemma requests_are_answered_witness : exists l2 h rid all sent l1,
  demo_reached demo_told told (snd (demo_at demo_told)) /\ log told = l2 ++ EvTurn h (Some rid) all sent :: l1 /\
  answered h /\ length h = 4%nat.
Proof.
  destruct demo_turn as (l2 & h & rid & all & sent & l1 & E & N & _). exists l2, h, rid, all, sent, l1.
  split; [exact demo_told_reached|]. split; [exact E|].
  destruct (@requests_are_answered json_cjson json_laws demo_provider demo_ops _ _ _ _ _ _ _ _ _ _ _ _ _ _ _ _
    demo_told_reached E) as (Ha & _ & _ & Hn). split; [exact Ha|lia].
Defined.


Lemma demo_sent_idle : snd (demo_at demo_sent) = [].
Proof. apply nil_length_inv. vm_compute. reflexivity. Qed.

Lemma demo_sent_config : demo_reached demo_sent (fst (demo_at demo_sent)) [].
Proof. rewrite <- demo_sent_idle. exact demo_sent_reached. Qed.

Lemma accepted {A B} (r : Z * (A * B)) : fst r = 0 -> exists a b, r = (0, (a, b)).
Proof. destruct r as [z [a b]]. cbn. intros ->. by exists a, b. Qed.

Lemma demo_cancelled : exists w1 fs, clm_agent_cancel (fst (demo_at demo_sent)) = (0, (w1, fs)).
Proof. apply accepted. vm_compute. reflexivity. Qed.

Lemma cancel_lands_witness : exists w1 fs, demo_reached demo_sent (fst (demo_at demo_sent)) [] /\
  clm_agent_cancel (fst (demo_at demo_sent)) = (0, (w1, fs)) /\
  (log w1 = EvDone (- ECANCELED) :: log (fst (demo_at demo_sent)) \/
   (log w1 = log (fst (demo_at demo_sent)) /\ fs = [] /\ cancel_pending w1)).
Proof.
  destruct demo_cancelled as (w1 & fs & Ec).
  exists w1, fs. split; [exact demo_sent_config|]. split; [exact Ec|].
  exact (proj1 (@cancel_lands json_cjson json_laws demo_provider demo_ops _ _ _ _ _ _ _ _ _ _ _ demo_sent_config Ec)).
Defined.

(** A provider that takes no tools. *)
Definition demo_refusal : option (list byte) := Some (bs "model does not support tools").

Definition turn_out (q : option (request * bool)) : bool := match q with Some (RTurn _, false) => true | _ => false end.
Definition starts_again (r : option config) : bool := match r with Some (_, [FStart]) => true | _ => false end.

Lemma turn_out_is q : turn_out q = true -> exists t, q = Some (RTurn t, false).
Proof. destruct q as [[[t| |] [|]]|]; try done. by exists t. Qed.

Lemma starts_again_is r : starts_again r = true -> exists w, r = Some (w, [FStart]).
Proof. destruct r as [[w [|[| |] [|]]]|]; try done. by exists w. Qed.

Lemma demo_refused : exists t w',
  find_request 0 (requests (fst (demo_at demo_sent))) = Some (RTurn t, false) /\
  @on_host json_cjson demo_provider demo_ops demo_parse demo_print 0 (fun _ => None) demo_cfg demo_llm demo_oracle
    (HSuccess 0 400 demo_refusal) (fst (demo_at demo_sent)) = Some (w', [FStart]).
Proof.
  assert (Ht : exists t, find_request 0 (requests (fst (demo_at demo_sent))) = Some (RTurn t, false))
    by (apply turn_out_is; vm_compute; reflexivity).
  destruct Ht as [t Ht]. exists t.
  assert (Hw : exists w', @on_host json_cjson demo_provider demo_ops demo_parse demo_print 0 (fun _ => None) demo_cfg demo_llm
    demo_oracle (HSuccess 0 400 demo_refusal) (fst (demo_at demo_sent)) = Some (w', [FStart]))
    by (apply starts_again_is; vm_compute; reflexivity).
  destruct Hw as [w' Hw]. by exists w'.
Qed.


(** ** What a frontend and a host are relied on for *)

Section Stuck.
Context `{CJson} `{!Provider} `{!ProviderOps}.
Context (cJSON_Parse : list byte -> option cJSON) (cJSON_PrintUnformatted : cJSON -> option (list byte)).
Context (int_nan : Z) (sscanf : list byte -> option scanned) (fmt_rfc2822 : Z -> list byte).
Context (cfg : settings) (llm : clm_llm).

(** A busy agent with nothing outstanding: no event comes, no call helps. *)
Definition stuck (w : world) : Prop :=
  (forall o e, on_host cJSON_Parse cJSON_PrintUnformatted int_nan sscanf cfg llm o e w = None) /\
  (forall o p, fst (clm_agent_submit fmt_rfc2822 cfg o p w) = - EBUSY) /\
  (forall o, fst (clm_agent_compact cJSON_Parse cJSON_PrintUnformatted cfg llm o w) = - EBUSY) /\
  clm_agent_cancel w = (- EINVAL, (w, [])) /\ clm_agent_clear_history cfg w = (- EBUSY, w).

Definition stranded (w : world) : bool :=
  agent_busy w && negb (cancelling w)
  && match requests w, inflight w, llm_timer w, active_batch w with [], None, None, None => true | _, _, _, _ => false end
  && negb (llm_rl_timer w) && negb (compact_timer w) && negb (compact_rl_timer w).

Lemma stranded_stuck w : stranded w = true -> stuck w.
Proof.
  unfold stranded. rewrite !andb_true_iff, !negb_true_iff. intros (((((Hb & Hc) & Hm) & H4) & H5) & H6).
  destruct (requests w) eqn:E1; [|done]. destruct (inflight w) eqn:E2; [done|].
  destruct (llm_timer w) eqn:E3; [done|]. destruct (active_batch w) eqn:E7; [done|]. split_and!.
  - intros o e. destruct e; cbn [on_host]; rewrite ?E1, ?E3, ?E7, ?H5; done.
  - intros o p. unfold clm_agent_submit. by rewrite Hb.
  - intros o. unfold clm_agent_compact. by rewrite Hb.
  - unfold clm_agent_cancel. by rewrite Hc, H4, H6, E2, E7.
  - unfold clm_agent_clear_history. by rewrite Hb.
Qed.
End Stuck.

(** A rate-limited turn whose timer the host cannot set. *)
Definition no_timer : oracle := mk_oracle (fun _ => 0) (fun _ => 0) (fun _ => 0) false.
Definition demo_stranded : list choice := demo_sent ++ [Host no_timer (HSuccess 0 429 None)].

(** The retry of a rate-limited turn does not look at whether its timer
    was set. If it was not, the agent is busy for good: no event will come,
    every prompt is refused and there is nothing to cancel. *)
Theorem refused_timer_strands_the_turn : exists w,
  demo_reached demo_stranded w [] /\ agent_busy w = true /\
  @stuck json_cjson demo_provider demo_ops demo_parse demo_print 0 (fun _ => None) (fun _ => []) demo_cfg demo_llm w.
Proof.
  exists (fst (demo_at demo_stranded)).
  assert (E : snd (demo_at demo_stranded) = []) by (apply nil_length_inv; vm_compute; reflexivity).
  split; [|split; [vm_compute; reflexivity|apply stranded_stuck; vm_compute; reflexivity]].
  rewrite <- E. demo_run_it.
Qed.

(** The frontend compacts from within [cb_on_turn_done], as the terminal
    frontend does when the context is nearly full. *)
Definition demo_dropped : list choice :=
  demo_sent ++ [call (ANotify (bs "by the way")); host (HSuccess 0 200 (Some (bs "R"))); call ACompact; Return;
                Run demo_oracle; host (HError 1 (-5) None); Return].

Definition only_user (t : list byte) (l : list ev) : bool :=
  forallb (fun e => match e with EvUser u => beq u t | _ => true end) l.

Lemma only_user_is t u l : only_user t l = true -> In (EvUser u) l -> u = t.
Proof. unfold only_user. rewrite forallb_forall. intros Hl Hi. by apply Hl, beq_eq in Hi. Qed.

(** A notification is lost, against the comment of [agent_turn_done],
    if the frontend begins a turn from within [cb_on_turn_done]: the submit
    that would tell it is refused as busy, and its result is not looked at.
    Here it was accepted, no turn is left and the model has not been told. *)
Theorem turn_in_the_callback_drops_notification : exists w,
  demo_reached demo_dropped w [] /\ agent_busy w = false /\ pending_notify w = None /\
  In (EvNotify (bs "by the way")) (log w) /\ forall u, In (EvUser u) (log w) -> u = bs "go".
Proof.
  exists (fst (demo_at demo_dropped)).
  assert (E : snd (demo_at demo_dropped) = []) by (apply nil_length_inv; vm_compute; reflexivity).
  split; [rewrite <- E; demo_run_it|]. split; [vm_compute; reflexivity|]. split; [vm_compute; reflexivity|].
  split; [apply has_notify; vm_compute; reflexivity|]. intros u. apply only_user_is. vm_compute. reflexivity.
Qed.

(** A turn cancelled while its request is out, then a compaction. *)
Definition demo_uncancellable : list choice :=
  demo_sent ++ [call ACancel; host (HError 0 (- ECANCELED) None); Return; call ACompact].

(** A cancelled request leaves [cancelling] set, which only the next
    prompt clears. A compaction before that cannot be cancelled: the call
    says that it already is, while its request goes on. *)
Theorem stale_cancel_blocks_the_next : exists w,
  demo_reached demo_uncancellable w [] /\ inflight w = Some 1%nat /\ find_request 1 (requests w) = Some (RCompact, false) /\
  clm_agent_cancel w = (- EALREADY, (w, [])).
Proof.
  exists (fst (demo_at demo_uncancellable)).
  assert (E : snd (demo_at demo_uncancellable) = []) by (apply nil_length_inv; vm_compute; reflexivity).
  split; [rewrite <- E; demo_run_it|]. split; [vm_compute; reflexivity|]. split.
  - assert (Hr : match find_request 1 (requests (fst (demo_at demo_uncancellable))) with Some (RCompact, false) => true | _ => false end
      = true) by (vm_compute; reflexivity).
    revert Hr. by destruct (find_request 1 _) as [[[] []]|].
  - assert (Hc : cancelling (fst (demo_at demo_uncancellable)) = true) by (vm_compute; reflexivity).
    unfold clm_agent_cancel. by rewrite Hc.
Qed.
