(* ===== verification/ToolsTurn.v ===== *)
(** What the tool engine promises to the turn machine that calls it: the law
    [batch_law] that AgentInv asks of a finished batch. *)

From S2P Require Import Prelude Utf8 TextClean Image RateLimit Tokens CJson History HistoryFacts.
From S2P Require Import Registry Tools ToolsInv ToolsFacts ToolsPolicy ToolsSpec ToolsTheorems ToolsRun AgentBooks AgentInv.

Section Turn.
Context `{CJson} (fnmatch : list byte -> list byte -> bool) (parse : list byte -> option cJSON).
Context (print : cJSON -> option (list byte)) (env : tool_env).

(** Most of the engine leaves the history and the chain alone, and builds no
    batch. *)
Definition talk (w : world) : clm_history * bool := (history (agent w), chain_lost (agent w)).

Definition still (w : world) (r : world * list frame) : Prop :=
  talk (fst r) = talk w /\ Forall (fun f => is_build f = 0%nat) (snd r).

Ltac calm := split; [done|by repeat constructor].

Lemma still_crash w : still w (crash w, []).
Proof. calm. Qed.

Lemma still_on_inv w i k : (forall v, still w (k v)) -> still w (on_inv w i k).
Proof.
  intros Hk. unfold on_inv. case_if; [apply still_crash|]. destruct (invs (batch w) !! i); [done|apply still_crash].
Qed.

Lemma still_free w : talk (batch_really_free w) = talk w.
Proof. unfold batch_really_free. by case_if. Qed.

Lemma still_release w : still w (release w).
Proof. unfold release, batch_finalize. repeat case_if; calm. Qed.

Lemma still_finalize o w i c oc att : still w (inv_finalize env o w i c oc att).
Proof.
  apply still_on_inv. intros v. cbv zeta. case_if.
  - case_if; [|calm]. split; [etransitivity; [apply still_free|done]|done].
  - case_if; [calm|]. destruct (tool_output _ _ _ _) as [[out b]|]; [destruct b|]; destruct (def v); calm.
Qed.

Lemma still_timeout o w i : still w (finalize_timeout env o w i).
Proof. apply still_on_inv. intros v. apply still_finalize. Qed.

Lemma still_buf o w i b : still w (clm_tool_complete_buf env o w i b).
Proof. apply still_on_inv. intros v. repeat case_if; [calm|apply still_timeout|apply still_finalize]. Qed.

Lemma still_fail o w i m : still w (clm_tool_fail env o w i m).
Proof. apply still_on_inv. intros v. repeat case_if; [calm|apply still_timeout|apply still_finalize]. Qed.

Lemma still_image o w i t mt d : still w (clm_tool_complete_image env o w i t mt d).
Proof.
  apply still_on_inv. intros v. repeat first [case_if | case_match];
    first [calm | apply still_timeout | apply still_finalize | apply still_fail].
Qed.

Lemma still_base64 o w i t b : still w (clm_tool_complete_image_base64 env o w i t b).
Proof.
  apply still_on_inv. intros v. repeat first [case_if | case_match];
    first [calm | apply still_buf | apply still_image].
Qed.

Lemma still_invoke o w i : still w (run_invoke env o w i).
Proof. apply still_on_inv. intros v. case_if; [calm|]. destruct (live_node w v); [|calm]. case_if; calm. Qed.

Lemma still_permission o w i : still w (permission_gate env o w i).
Proof.
  apply still_on_inv. intros v. case_if; [calm|]. destruct (live_node w v); [|calm].
  repeat case_if; first [apply still_invoke | apply still_fail | calm].
Qed.

Lemma still_gate o w i : still w (gate_run env o w i).
Proof. apply still_on_inv. intros v. repeat case_if; first [apply still_permission | calm]. Qed.

Lemma still_tool o w i : still w (dispatch_tool env o w i).
Proof. apply still_on_inv. intros v. destruct (def v); [apply still_gate|apply still_fail]. Qed.

Lemma still_one w i : still w (dispatch_one w i).
Proof. unfold dispatch_one. case_if; [calm|]. apply still_on_inv. intros v. calm. Qed.

Lemma still_from w w' r : talk w' = talk w -> still w' r -> still w r.
Proof. intros E [? ?]. split; [congruence|done]. Qed.

Lemma still_then w r f : is_build f = 0%nat -> still w r -> still w (then_ r f).
Proof. intros Hf [? ?]. split; [done|]. apply Forall_app. split; [done|by constructor]. Qed.

Lemma still_dispatch o w i : still w (dispatch_loop env o w i).
Proof.
  unfold dispatch_loop. case_if; [calm|]. case_if; [apply still_release|].
  destruct (clm_ratelimit_allow _ _ _) as [ok rl].
  assert (Hone : forall w', talk w' = talk w -> still w (let '(w, fs) := dispatch_one w' i in (w, fs ++ [FDispatch (S i)]))).
  { intros w' Et. pose proof (still_then w' _ (FDispatch (S i)) eq_refl (still_one w' i)) as Hs.
    apply still_from with w'; [done|]. by destruct (dispatch_one w' i). }
  case_if; [by apply Hone|]. destruct (clm_ratelimit_delay _ _ _). case_if; [calm|by apply Hone].
Qed.

Lemma still_cancel o w i : still w (cancel_loop env o w i).
Proof.
  unfold cancel_loop. case_if; [calm|]. destruct (invs (batch w) !! i) as [v|]; [|apply still_release].
  destruct (gate v); repeat case_if; first [calm | apply still_then; [done|]];
    (eapply still_from; [|apply still_finalize]; done).
Qed.

Lemma still_detach w i : still w (detach_loop w i).
Proof.
  unfold detach_loop. case_if; [calm|]. destruct (invs (batch w) !! i) as [v|].
  - destruct (gate v); repeat case_if; calm.
  - split; [|done]. cbn [fst]. case_if; [apply still_free|done].
Qed.

Lemma still_respond o w g vd r na : still w (clm_tool_gate_respond env o w g vd r na).
Proof.
  unfold clm_tool_gate_respond. destruct (gates w !! g) as [[i| |]|]; [|calm..].
  apply still_from with (set_gates w (<[g := GFreed]> (gates w))); [done|]. apply still_on_inv. intros v.
  destruct na; cbv zeta; (case_if; [calm|]); destruct vd, r; first [calm | (eapply still_from; [|apply still_fail]; done)].
Qed.

Lemma still_answer o w i d : still w (clm_tool_permission_respond env o w i d).
Proof.
  apply still_on_inv. intros v. case_if; [calm|]. case_if; [calm|]. cbv zeta.
  destruct (is_always d), (is_allow d); (eapply still_from; [|first [apply still_invoke | apply still_fail]]; done).
Qed.

Lemma still_api o w a : still w (do_api env o w a).
Proof.
  destruct a; cbn [do_api].
  - apply still_on_inv. intros v. calm.
  - apply still_buf.
  - apply still_buf.
  - apply still_image.
  - apply still_base64.
  - apply still_fail.
  - apply still_respond.
  - apply still_answer.
  - apply still_on_inv. intros v. case_if; [calm|]. cbv zeta. case_if; [calm|].
    eapply still_from; [|apply still_timeout]. done.
  - apply still_on_inv. intros v. case_if; [calm|]. cbv zeta. eapply still_from; [|apply still_one]. done.
  - unfold clm_tools_cancel. repeat case_if; calm.
  - unfold clm_tools_detach. cbv zeta. repeat case_if; calm.
  - calm.
  - calm.
Qed.

(** ** The history of a batch *)

Lemma alter_ok f k h : (forall m, msg_ok m -> msg_ok (f m)) -> Forall msg_ok h -> Forall msg_ok (alter f k h).
Proof.
  intros Hf Hh. revert k. induction Hh as [|m h Hm Hh IH]; intros [|k]; try by constructor.
  constructor; [by apply Hf|done].
Qed.

Lemma call_ok i n a m : msg_ok m -> msg_ok (default m (clm_message_add_tool_call m i n a)).
Proof. intros Hm. unfold clm_message_add_tool_call. by destruct (role m). Qed.

Lemma supersede_none nm stub h : 0 <= fst (supersede nm stub h) /\
  (fst (supersede nm stub h) = 0 -> snd (supersede nm stub h) = h).
Proof.
  induction h as [|m h [IH1 IH2]]; [done|]. cbn [supersede]. destruct (supersede nm stub h) as [n h']. cbn in IH1, IH2.
  destruct (needs_stub nm stub m); cbn; [split; lia|]. split; [done|]. intros E. by rewrite IH2.
Qed.

Lemma supersede_tool_none h nm stub : (0 <? fst (clm_history_supersede_tool h nm stub)) = false ->
  snd (clm_history_supersede_tool h nm stub) = h.
Proof.
  unfold clm_history_supersede_tool. set (stop := default _ _). destruct (supersede_none nm stub (take stop h)) as [N1 N2].
  destruct (supersede nm stub (take stop h)) as [n l]. cbn in *. intros E. rewrite N2 by lia. apply take_drop.
Qed.

Context (h0 : clm_history).

(** The messages are sound, the old ones are untouched unless the chain was
    dropped, and the batch's own message is after them. *)
Definition begins_with (t : clm_history * bool) : Prop := snd t = false -> exists rest, fst t = h0 ++ rest.

Definition behind (f : frame) : Prop := match f with FBuild a _ => (length h0 <= a)%nat | _ => True end.

Definition Kept (w : world) (s : list frame) : Prop :=
  Forall msg_ok (history (agent w)) /\ begins_with (talk w) /\ Forall behind s.

Lemma begins_alter f k h b : (length h0 <= k)%nat -> begins_with (h, b) -> begins_with (alter f k h, b).
Proof.
  intros Hk Hb E. destruct (Hb E) as [rest Er]. cbn in *. rewrite Er, alter_app_r_alt by done. eauto.
Qed.

Lemma begins_snoc m h b : begins_with (h, b) -> begins_with (h ++ [m], b).
Proof. intros Hb E. destruct (Hb E) as [rest Er]. cbn in *. rewrite Er, <- app_assoc. eauto. Qed.

Lemma kept_still w s r : Kept w s -> still w r -> Kept (fst r) (snd r ++ s).
Proof.
  intros (Hm & Hb & Hf) [Ht Hs]. unfold Kept. rewrite Ht. injection Ht as -> _. split; [done|]. split; [done|].
  apply Forall_app. split; [|done]. refine (List.Forall_impl _ _ Hs). by intros [].
Qed.

Lemma kept_record w i out oc att s : Kept w s -> Kept (fst (finalize_record fnmatch env w i out oc att))
  (snd (finalize_record fnmatch env w i out oc att) ++ s).
Proof.
  intros Hk. unfold finalize_record. case_if; [by apply (kept_still w), still_crash|]. unfold on_inv.
  case_if; [by apply (kept_still w), still_crash|]. destruct (invs (batch w) !! i) as [v|]; [|by apply (kept_still w), still_crash].
  destruct Hk as (Hm & Hb & Hf). cbv zeta.
  set (r := if tool_is_volatile _ _ _ then _ else _).
  assert (Hr : Forall msg_ok (snd r) /\ ((0 <? fst r) = false -> snd r = history (agent w))).
  { unfold r. case_if; [|done]. split; [by apply supersede_tool_ok|apply supersede_tool_none]. }
  destruct Hr as [R1 R2]. clearbody r. split; [|split; [|by repeat constructor]].
  - cbn [fst]. wcbn. set (h := clm_history_add_tool_result _ _ _ _ _).
    assert (Hh : Forall msg_ok h).
    { apply Forall_app. split; [done|]. constructor; [apply set_content_len_ok|done]. }
    destruct att; [by apply alter_ok|done].
  - unfold talk. cbn [fst]. wcbn. intros El. cbn [snd] in El. apply orb_false_iff in El as [E1 E2]. rewrite R2 by done.
    assert (Hl : (length h0 <= length (history (agent w)))%nat).
    { destruct (Hb E2) as [rest Er]. cbn in Er. rewrite Er, length_app. lia. }
    assert (Hs : begins_with (clm_history_add_tool_result (history (agent w)) (Some (id v)) (Some (name v)) (Some out)
      (compressor env), chain_lost (agent w))) by (by apply begins_snoc).
    destruct att; [by apply (begins_alter _ _ _ _ Hl Hs)|by apply Hs].
Qed.

Lemma kept_build a calls : forall w, (length h0 <= a)%nat -> Forall msg_ok (history (agent w)) -> begins_with (talk w) ->
  Forall msg_ok (history (agent (build parse env a w calls))) /\ begins_with (talk (build parse env a w calls)).
Proof.
  induction calls as [|c calls IH]; intros w Ha Hm Hb; [done|]. cbn [build fold_left]. apply IH; [done|..].
  - destruct c as [[[ci cn] ca]|]; [|done]. unfold build_one. cbv zeta.
    destruct (inv_compute_limits _ _ _) as [cap to]. wcbn.
    destruct (find_tool _ _); apply alter_ok; try done; intros m; apply call_ok.
  - destruct c as [[[ci cn] ca]|]; [|done]. unfold build_one. cbv zeta.
    destruct (inv_compute_limits _ _ _) as [cap to]. unfold talk. wcbn.
    destruct (find_tool _ _); by apply begins_alter.
Qed.

Lemma kept_frame o f w s : is_callback f = false -> Kept w (f :: s) ->
  Kept (fst (run_frame fnmatch parse env o f w)) (snd (run_frame fnmatch parse env o f w) ++ s).
Proof.
  intros Hf (Hm & Hb & Hs). pose proof (Forall_inv Hs) as Hh. apply Forall_inv_tail in Hs.
  assert (Hk : Kept w s) by done.
  destruct f; try done; cbn [run_frame].
  - destruct (kept_build amsg calls w Hh Hm Hb). split; [done|]. split; [done|]. by repeat constructor.
  - by apply (kept_still w), still_dispatch.
  - by apply (kept_still w), still_tool.
  - by apply (kept_still w), still_gate.
  - by apply kept_record.
  - apply (kept_still w); [done|]. unfold finalize_done. case_if; [apply still_crash|calm].
  - by apply (kept_still w), still_release.
  - apply (kept_still w); [done|]. split; [|done]. cbn [fst]. unfold batch_free_timers. case_if; [done|].
    etransitivity; [apply still_free|done].
  - by apply (kept_still w), still_cancel.
  - by apply (kept_still w), still_detach.
Qed.

Lemma kept_step ch w s w' s' : step fnmatch parse env ch (w, s) = Some (w', s') -> Kept w s -> Kept w' s'.
Proof.
  intros E Hk. destruct ch as [o| |o a]; cbn [step] in E.
  - destruct s as [|f s]; [done|]. destruct (is_callback f) eqn:Ef; [done|].
    pose proof (kept_frame o f w s Ef Hk) as Hk'. destruct (run_frame _ _ _ _ _ _) as [w1 fs]. by injection E as <- <-.
  - destruct s as [|[]]; try done. injection E as <- <-. destruct Hk as (Hm & Hb & Hs).
    split; [done|split; [done|by apply Forall_inv_tail in Hs]].
  - assert (Ha : Kept (fst (do_api env o w a)) (snd (do_api env o w a) ++ s)) by (by apply (kept_still w), still_api).
    destruct s as [|[]]; try done; (destruct (allowed _ _ _); [|done]); destruct (do_api env o w a) as [w1 fs];
      by injection E as <- <-.
Qed.

Lemma kept_run chs : forall w s w' s', run fnmatch parse env chs (w, s) = Some (w', s') -> Kept w s -> Kept w' s'.
Proof.
  induction chs as [|ch chs IH]; intros w s w' s' E Hk; cbn [run] in E; [by injection E as <- <-|].
  destruct (step _ _ _ ch (w, s)) as [[w1 s1]|] eqn:Es; [|done]. apply (IH w1 s1 w' s' E). by eapply kept_step.
Qed.
End Turn.

(** C9. The tool engine keeps the law the turn machine relies on: from a
    history every provider takes, a finished batch leaves one, which begins
    with the old one unless a superseded result was rewritten; then the
    response chain was dropped. *)
Theorem tool_batch_keeps_law `{CJson} fnmatch parse print env w0 tc cs w s
    (Hr : reached fnmatch parse print env w0 tc cs w s) (Hd : In EvToolsDone (log w))
    (Hg : agent_gone (agent w) = false) (Hh : hist_ok (history (agent w0))) (Hc : chain_lost (agent w0) = false) :
  batch_law (history (agent w0)) (history (agent w)) (chain_lost (agent w)).
Proof.
  destruct Hh as (Hm & Ho & Ha). pose proof (r_run _ _ _ _ _ _ _ _ _ Hr) as [chs Hrun].
  assert (Hk : Kept (history (agent w0)) (fst (start print w0 tc)) (snd (start print w0 tc))).
  { unfold start, clm_tools_dispatch. destruct (cJSON_elements tc) as [|c cl].
    - split; [done|]. split; [|done]. intros _. exists []. by rewrite app_nil_r.
    - cbv zeta. split; [|split; [|by repeat constructor]].
      + apply Forall_app. split; [done|]. constructor; [done|constructor].
      + intros _. by eexists. }
  rewrite (surjective_pairing (start print w0 tc)) in Hrun. destruct (kept_run _ _ _ _ _ _ _ _ _ Hrun Hk) as (Km & Kb & _).
  destruct (done_exchange _ _ _ _ _ _ _ _ _ Hr Hd Hg Ha Ho) as [A1 A2].
  split; [by split_and!|exact Kb].
Qed.

Lemma tool_batch_keeps_law_witness :
  In EvToolsDone (log demo_end) /\ agent_gone (agent demo_end) = false /\ hist_ok [] /\
  batch_law [] (history (agent demo_end)) (chain_lost (agent demo_end)) /\ length (history (agent demo_end)) = 4%nat.
Proof.
  destruct demo_end_facts as [Hd Hg]. assert (Hh : hist_ok []) by (by split_and!; [constructor|..]).
  split; [exact Hd|]. split; [exact Hg|]. split; [exact Hh|]. split; [|vm_compute; reflexivity].
  exact (@tool_batch_keeps_law json_cjson _ _ _ _ _ _ _ _ _ demo_end_reached Hd Hg Hh eq_refl).
Defined.
